(* ===== verification/_CoqProject ===== *)
-Q . S2P
Prelude.v
Cxx.v
Wire.v
Cfloat.v
Ast.v
Backend.v
Codegen.v
TextProps.v
AllocProps.v
Switch.v
MergeProps.v
Policy.v
CompileProps.v
ParseTables.v
LexTables.v
Parser.v
Lexer.v
LexBuffer.v
LexSpec.v
LexProps.v
LexBufferProps.v
LexInput.v
LexStack.v
ParseSpec.v
ParseProps.v
ParseRecover.v
ParseComplete.v
Source.v
SourceLex.v
Samples.v
Compiler.v
SourceProps.v
SourceSem.v
Traffic.v
SourceErrors.v
SourceSamples.v
Findings.v
Sha1.v
Sha1Props.v
Totp.v
Device.v
Reply.v
Interleave.v
InterleaveProps.v
InterleaveWrite.v
Netfilter.v
Checksum.v
Stream.v
Pipeline.v
Udp.v
Lsm.v
Entry.v
Netlink.v
Server.v
Scanf.v
Collector.v
CollectorProps.v
Sensors.v
