(* ===== verification/Prelude.v ===== *)
(** * A verification development for Poise

    Poise lets a network enforce policies on the context of mobile devices.
    The repository has these programs:

    - the policy compiler (src/compiler): a flex scanner and a bison parser
      read a policy such as [if match (h1 < 9) then drop else fwd1]; a back
      end turns its matches into checks, merges them, allocates them to
      stages and rounds of a switch pipeline, and writes a P4 program with
      one table per check and a file of commands that fill the tables;
    - the kernel module for Android (src/client-module/kernel-module): a
      thread collects context through a virtual device, another sends it to
      a server together with one-time passwords, a netfilter hook adds a
      context option to the packets of one application;
    - the collector (src/client-module/user-module): a user program on the
      device that reads location, screen, cameras, the focused window and the
      serial number through shell commands and hands the record to the
      kernel module through the memory of the virtual device;
    - the server (src/client-module/server-module) that receives and prints
      the records.

    ** How the code is modelled

    Every function is a Rocq function with explicit state.  Abnormal ends are
    values of [cerr] in the outcome type [res] below: a failed assertion, a
    call of [exit], an uncaught exception, behaviour the language (or the
    kernel) leaves undefined, and [NoFuel] for the models of loops that are
    not structural.  Machine integers are [Z] with [uwrap] and [swrap] written
    where the code can wrap.  Calls into the kernel or the C++ library that
    are not under src/ are parameters or outcomes passed as arguments, with
    what is relied on as hypotheses ([StdSort] for [std::sort], the contract
    of [kernel_sendmsg], [mktime], the answers of the shell commands, [recv]).
    Memory whose bytes are observed (structures on the wire, buffers that may
    be read before they are written) is a list of optional bytes (Wire.v).
    Files: a file read is a string, a file written is the string returned.
    The server's output is a list of printed values; other logging is left
    out.

    ** The compiler

    - Cxx.v: [to_string], [atoi], [stoi], [std::sort] as an interface (the
      class [StdSort], with insertion sort as an instance), [unique].
    - Ast.v: src/compiler/ast.h, one record or inductive type per class.
    - Backend.v: src/compiler/ast-tofino.c up to allocation: [parse_match_*],
      [process_matchexprs], [merge_same_headers], [merge_monitors],
      [allocate_resources].
    - Codegen.v: the rest of ast-tofino.c: [ReplaceStringInPlace],
      [generate_*], [compile_tofino].
    - ParseTables.v, Parser.v: the tables and the automaton of
      src/compiler/poise.tab.c with the semantic actions; LexTables.v,
      Lexer.v: those of src/compiler/lex.yy.c.  [yyerror] exits, so the
      automaton stops at a syntax error; ParseRecover.v has the recovery that
      the generated code holds for a [yyerror] that returns.
    - LexBuffer.v: the input buffer of lex.yy.c: [yy_get_next_buffer] with its
      moves, growth and reads, [yy_get_previous_state], [yy_try_NUL_trans],
      the end-of-buffer case of [yylex] and the functions that set the buffer
      up.  LexInput.v: [input] and [yyunput]; LexStack.v: buffers as objects
      in a heap and the stack of buffers, with the functions that switch,
      push, pop, delete and create them and that scan a string.  The compiler
      calls none of the functions of the last two files.
    - Compiler.v: [main].  The loop [do yyparse() while (!feof)] makes one
      turn, since [yyparse] returns only at the end of the file; reading all
      tokens first changes nothing, since the scanner never
      fails ([yylex_total]).

    What is proved of it:
    - Switch.v gives a meaning to what the compiler writes: table entries and
      control blocks as data with printers, and their execution over the
      recirculation rounds; the generated text is shown to be the printed
      form of such a program.  Policy.v gives the meaning of a policy and the
      class of policies ([plain], decidable as [plainb]) the back end
      implements as written: supported operators, no monitor on a header
      that tables match, compatible uses of a monitor.
    - Source.v is the policy language as it is written: an abstract syntax,
      its words and texts (any blanks and comment lines between words, none
      where words need no separation; numbers may have leading zeros), and
      the program object a policy stands for.  SourceLex.v, SourceProps.v:
      every text of a well-formed policy is scanned and parsed to that object
      (C6), and what happens to the action of an if without else (C38).
      SourceSem.v gives the written policy a meaning of its own and composes
      front end and back end: the compiled switch takes the decision of the
      written policy (C1).  The fragment of C1 leaves out what the compiler
      is shown to do differently (C34, C37, C38) and conditions that join a
      monitor and a comparison, which the switch reads as: the packets that
      satisfy the comparison are dropped while the monitor is inactive.
      SourceErrors.v: an if without else and a nested if, which the grammar
      takes, are refused by the back end (C34).  SourceSamples.v reads the
      shipped policy files back into the abstract syntax and instantiates the
      correctness theorem: the shipped P4 and command files are what the
      compiler writes, and they implement the shipped policies (C27).
    - MergeProps.v: both merging passes keep the decision (C3, C4);
      AllocProps.v: stage allocation (C9); CompileProps.v: the back end as a
      refinement of the policy's decision for every admissible sort
      ([compile_tofino_correct]); TextProps.v: template substitution (C29).
    - LexSpec.v, LexProps.v: the table automaton implements the regular
      expressions of poise.l, by a computed and checked relation between its
      states and derivatives (C7), and the scanner is total.
    - LexBufferProps.v: reading a file through the buffer gives the tokens of
      its text, whatever the sizes of the reads, for files below 512 MB, with
      characters NUL in the file (C8).  A character pushed back is the next one
      scanned or read ([unput_input]); pushing and popping a buffer returns to
      the same place ([push_pop]); [yylex_destroy] frees the current buffer
      only ([destroy_frees_top]).
    - ParseSpec.v, ParseProps.v, ParseComplete.v: the automaton accepts
      exactly the sentences of the grammar of poise.y whose semantic actions
      succeed, and runs the actions of the derivation in order (C5), within
      ten steps per token ([yyparse_fuel_enough]); the tables are validated by computation over
      all states, for completeness against a computed annotation of the
      states with LR(1) items.  The bound on the tokens in C5 is the maximal
      depth of the parser's stack.
    - Compiler.v: text to switch (C2) and termination (C28); Samples.v
      holds the shipped policies of src/policies and the files of src/p4.
    - Findings.v: policies on which the compiled switch does something else
      than the text says (C36, C37).

    ** The kernel module

    - Sha1.v, Sha1Props.v: sha1.c against FIPS 180 and RFC 2104 (C10, C11).
    - Totp.v: totp.c against RFC 4226 and RFC 6238 (C12, C30).
    - Device.v: mon_fs.c and mon_rs.c as a transition system of the thread,
      user space and module removal: invariant, requests and answers,
      termination of the thread, registration (C19, C24).  A write to
      the device is one step there.
    - Reply.v: the reply thread of mon_poise.c, as an encoder with a decoder
      (C14).
    - Interleave.v: both threads, any number of writers and module removal
      with every access to the shared records a step of its own: the bytes
      of [memset] and [memcpy] come in any portions, and other parties run
      between any two accesses of [poise_write] and of [encode_cxt].
      InterleaveProps.v: bounds in every interleaving (C20), the messages of a
      reply thread no writer disturbs (C21), and a message that is torn (C39);
      InterleaveWrite.v: a write that runs alone is the step of Device.v
      (C22).
    - Netfilter.v: the packet hook of mon_nf.c on packets as header fields and
      bytes (C13); Checksum.v: its checksums and address conversion (C31 to
      C33).
    - Stream.v: the stream connection of mon_sk.c (C25, C26); Udp.v: datagrams
      and the connections of mon_co.c and mon_sk.c, which hold copies of the
      same functions (C35).
    - Pipeline.v composes Device.v, Reply.v and Stream.v: what user space
      writes in answer to the requests of a round is what the server can
      decode from the bytes the next reply delivers (C23).
    - Lsm.v: the security hooks of mon_lsm.c; Entry.v: loading and unloading
      (C40).
    - Netlink.v: mon_nl.c, mon_umh.c and mon_gps.c, which the Makefile leaves
      out of the module.

    ** The user programs

    - Wire.v: little-endian encoding, structures as bytes, memory with bytes
      nobody has written; Cfloat.v: rounding to binary32; Scanf.v: [fscanf]
      and [atoi] as the collector uses them.
    - Collector.v: montest.cpp and sensorcollector.cpp: each [get*] function
      on the answer of its command, [readContextInfo], the two threads;
      Sensors.v: the sensor table and gpscollector.cpp.
    - CollectorProps.v: the record is well formed whatever the commands answer
      (C16), the functions on their answers ([getLocation_spec]), the end of the
      program (C18), and that what the collector gathers is what the server
      shows (C15, the composition of both programs).
    - Server.v: monserver.cpp: receiving and printing (C17), a header without
      its record, a failed [recv].

    ** Fuel

    Each fuel is shown to be enough: [yylex] gets one step more than there are
    characters, [yyparse] ten steps per token plus twenty, the substitution
    loop one per character of the subject, [pad] 64, the carry loop of [csum]
    64; sending takes one step per byte plus the number of interruptions.
    For the buffered scanner the passes through the labels for one token are
    bounded by six per character left of the file plus five.

    ** Not modelled

    The generated *.mod.c files; what the preprocessor removes (the traces of
    bison under YYDEBUG, its messages under YYERROR_VERBOSE, code under
    [#if 0]); the accessors flex generates for its global variables; the
    control plane in Python, the tools and the hand-written P4 programs and
    templates; console output other than the server's and [Program::print],
    and the callbacks of gpscollector.cpp that only print or start a thread.
    What is left of the implementation files outside the map is code of these
    kinds, include lines, declarations and comments.  Of the modelled code,
    C1 does not cover conditions that join a monitor and a comparison (see
    above), and scanning a string through the buffer stack of LexStack.v is
    not related to scanning a file: the compiler never does it.

    This file is the prelude: outcomes, machine integers and the generic
    lemmas and automation the other files share. *)

From stdpp Require Import base list strings gmap sorting.
From Stdlib Require Import ZArith Lia Ascii.

(** ** Abnormal outcomes of the C and C++ code *)

(** How a run can stop without a value: a failed [assert], a call of
    [exit], an exception nobody catches, a read the language leaves
    undefined (a null or dangling pointer, the wrong member of a union, an
    index out of an array), and the fuel of a model running out. *)
Inductive cerr : Type :=
| AssertFail
| Exit (code : Z)
| Uncaught
| Undefined
| NoFuel.

#[export] Instance cerr_eq_dec : EqDecision cerr.
Proof. solve_decision. Defined.

(** A computation of the program: a value or an abnormal outcome. *)
Inductive res (A : Type) : Type :=
| Ok (a : A)
| Err (e : cerr).
Arguments Ok {A} _.
Arguments Err {A} _.

#[export] Instance res_ret : MRet res := fun A a => Ok a.

#[export] Instance res_bind : MBind res :=
  fun A B k m => match m with Ok a => k a | Err e => Err e end.

(** [assert(b)]. *)
Definition cassert (b : bool) : res unit :=
  if b then Ok tt else Err AssertFail.

(** Reading through a pointer that may be null, or an array index that may
    be out of range. *)
Definition deref {A} (o : option A) : res A :=
  match o with Some a => Ok a | None => Err Undefined end.

(** ** Generic lemmas on outcomes *)

Lemma bind_Ok {A B} (m : res A) (k : A -> res B) b :
  (m ≫= k) = Ok b <-> exists a, m = Ok a /\ k a = Ok b.
Proof.
  destruct m; simpl; split; intros H; try discriminate; eauto.
  - destruct H as (x & Hx & Hk). congruence.
  - destruct H as (x & Hx & _). discriminate.
Qed.

Lemma bind_ret_l {A B} (a : A) (k : A -> res B) : (Ok a ≫= k) = k a.
Proof. done. Qed.

Lemma cassert_Ok b u : cassert b = Ok u <-> b = true.
Proof. destruct b, u; simpl; split; congruence. Qed.

Lemma deref_Ok {A} (o : option A) a : deref o = Ok a <-> o = Some a.
Proof. destruct o; simpl; split; congruence. Qed.

(** [invok H] splits a hypothesis that a monadic computation succeeded into
    the successes of its parts. *)
Ltac invok H :=
  lazymatch type of H with
  | (_ ≫= _) = Ok _ =>
      let x := fresh "x" in
      let Hx := fresh "Hx" in
      apply bind_Ok in H; destruct H as (x & Hx & H);
      try invok Hx; try invok H
  | cassert _ = Ok _ => apply cassert_Ok in H
  | deref _ = Ok _ => apply deref_Ok in H
  | Ok _ = Ok _ => injection H as H
  | Err _ = Ok _ => discriminate H
  | mret _ = Ok _ => injection H as H
  end.

(** Computations that never run out of fuel: they have none. *)
Definition fuelless {A} (m : res A) : Prop := m <> Err NoFuel.

Lemma fuelless_bind {A B} (m : res A) (k : A -> res B) :
  fuelless m -> (forall a, fuelless (k a)) -> fuelless (m ≫= k).
Proof. destruct m as [a|e]; simpl; [by auto|]. unfold fuelless. intros H _. congruence. Qed.

Lemma fuelless_Ok {A} (a : A) : fuelless (Ok a).
Proof. done. Qed.
Lemma fuelless_cassert b : fuelless (cassert b).
Proof. by destruct b. Qed.
Lemma fuelless_deref {A} (o : option A) : fuelless (deref o).
Proof. by destruct o. Qed.

Create HintDb fuel.
#[export] Hint Resolve fuelless_Ok fuelless_cassert fuelless_deref : fuel.

(** Proves [fuelless] of a computation built from fuelless parts. *)
Ltac fuelless :=
  repeat first
    [ progress eauto with fuel
    | apply fuelless_bind; [|intros ?]
    | match goal with |- fuelless (match ?x with _ => _ end) => destruct x end
    | done ].

(** ** Machine integers *)

(** Unsigned and signed wrap-around at a width. *)
Definition uwrap (w z : Z) : Z := (z mod 2 ^ w)%Z.
Definition swrap (w z : Z) : Z :=
  (let u := z mod 2 ^ w in if u <? 2 ^ (w - 1) then u else u - 2 ^ w)%Z.

Lemma uwrap_range w z : (0 <= w -> 0 <= uwrap w z < 2 ^ w)%Z.
Proof. intros Hw. apply Z.mod_pos_bound, Z.pow_pos_nonneg; lia. Qed.

Lemma uwrap_small w z : (0 <= z < 2 ^ w -> uwrap w z = z)%Z.
Proof. intros H. by apply Z.mod_small. Qed.

Lemma swrap_small w z :
  (1 <= w -> - 2 ^ (w - 1) <= z < 2 ^ (w - 1) -> swrap w z = z)%Z.
Proof.
  intros Hw H. unfold swrap.
  assert (E : (2 ^ w = 2 * 2 ^ (w - 1))%Z)
    by (rewrite <- Z.pow_succ_r by lia; f_equal; lia).
  destruct (Z.ltb_spec z 0).
  - assert (Em : (z mod 2 ^ w = z + 2 ^ w)%Z).
    { symmetry. apply Z.mod_unique with (-1)%Z; lia. }
    rewrite Em. case_match; lia.
  - rewrite Z.mod_small by lia. case_match; lia.
Qed.

(** ** Lists read and written by a machine index *)

(** [a[i]] for an index of any sign. *)
Definition znth {A} (l : list A) (i : Z) : option A :=
  if (i <? 0)%Z then None else l !! Z.to_nat i.

Lemma znth_nat {A} (l : list A) (n : nat) : znth l (Z.of_nat n) = l !! n.
Proof.
  unfold znth. destruct (Z.ltb_spec (Z.of_nat n) 0); [lia|].
  by rewrite Nat2Z.id.
Qed.

Lemma znth_Some_range {A} (l : list A) i a :
  znth l i = Some a -> (0 <= i < Z.of_nat (length l))%Z.
Proof.
  unfold znth. destruct (Z.ltb_spec i 0); [done|].
  intros Hi%lookup_lt_Some. lia.
Qed.

Lemma fmap_rev {A B} (f : A -> B) (l : list A) : f <$> rev l = rev (f <$> l).
Proof. induction l as [|a l IH]; [done|]. cbn [rev]. by rewrite fmap_app, IH. Qed.

(** ** Filtered, searched and sorted lists *)

Lemma filter_all {A} (f : A -> bool) l : Forall f l -> List.filter f l = l.
Proof. induction 1 as [|x l Hx _ IH]; [done|]. simpl. destruct (f x); [by rewrite IH|done]. Qed.

Lemma filter_none {A} (f : A -> bool) l : Forall (fun x => f x = false) l -> List.filter f l = [].
Proof. induction 1 as [|x l Hx _ IH]; [done|]. simpl. by rewrite Hx. Qed.

Lemma find_app {A} (f : A -> bool) l1 l2 :
  List.find f (l1 ++ l2) =
  match List.find f l1 with Some x => Some x | None => List.find f l2 end.
Proof. induction l1 as [|x l1 IH]; [done|]. simpl. by destruct (f x). Qed.

Lemma StronglySorted_mono {A} (R S : A -> A -> Prop) l :
  (forall a b, R a b -> S a b) -> StronglySorted R l -> StronglySorted S l.
Proof.
  intros H. induction 1 as [|a l _ IH Hf]; constructor; [done|].
  eapply Forall_impl; [exact Hf|]. auto.
Qed.

(** ** Hint databases *)

Create HintDb poise.
Create Rewrite HintDb poise.
#[export] Hint Resolve uwrap_range uwrap_small : poise.
#[export] Hint Rewrite @znth_nat : poise.

Lemma existsb_ext_in {A} (f g : A -> bool) l :
  (forall x, x ∈ l -> f x = g x) -> existsb f l = existsb g l.
Proof.
  induction l as [|x l IH]; intros H; [done|]. simpl. rewrite H by constructor.
  rewrite IH; [done|]. intros y Hy. apply H. by constructor.
Qed.

Lemma filter_perm {A} (f : A -> bool) (l k : list A) : l ≡ₚ k -> List.filter f l ≡ₚ List.filter f k.
Proof.
  induction 1 as [|x l k _ IH|x y l|l k r _ IH1 _ IH2]; [done| | |by etrans]; cbn [List.filter].
  - destruct (f x); by rewrite ?IH.
  - destruct (f x), (f y); by try constructor.
Qed.
