(* ===== verification/Cxx.v ===== *)
(** The parts of the C and C++ standard libraries the compiler relies on:
    decimal printing and scanning ([std::to_string], [std::stoi], [atoi]),
    [std::string::find]/[replace], [std::sort] as an interface whose result
    on equivalent elements is left open, and [std::unique]. *)

From stdpp Require Import base list strings sorting.
From Stdlib Require Import ZArith Lia Ascii.
From S2P Require Import Prelude.

(** ** Decimal digits *)

Definition digit_char (d : Z) : ascii := ascii_of_N (Z.to_N (48 + d)).
Definition char_code (c : ascii) : Z := Z.of_N (N_of_ascii c).
Definition is_digit (c : ascii) : bool :=
  (48 <=? char_code c)%Z && (char_code c <=? 57)%Z.
Definition is_space (c : ascii) : bool :=
  (char_code c =? 32)%Z || ((9 <=? char_code c)%Z && (char_code c <=? 13)%Z).

Fixpoint all_digits (s : string) : bool :=
  match s with
  | EmptyString => true
  | String c r => is_digit c && all_digits r
  end.

(** The digits of [n], most significant first, in front of [acc]; [fuel]
    bounds the number of digits. *)
Fixpoint dec_digits (fuel : nat) (n : Z) (acc : string) : string :=
  match fuel with
  | O => acc
  | S f =>
      let acc' := String (digit_char (n mod 10)) acc in
      if (n / 10 =? 0)%Z then acc' else dec_digits f (n / 10) acc'
  end.

Definition dec_fuel (n : Z) : nat := S (Z.to_nat (Z.log2 n)).

(** [std::to_string(int)]. *)
Definition to_string (z : Z) : string :=
  if (z <? 0)%Z then String "-" (dec_digits (dec_fuel (- z)) (- z) EmptyString)
  else dec_digits (dec_fuel z) z EmptyString.

(** The value of the leading digits of [s] after those already read as
    [acc]. *)
Fixpoint scan_digits (acc : Z) (s : string) : Z :=
  match s with
  | String c r =>
      if is_digit c then scan_digits (acc * 10 + (char_code c - 48)) r else acc
  | EmptyString => acc
  end.

Fixpoint skip_spaces (s : string) : string :=
  match s with
  | String c r => if is_space c then skip_spaces r else s
  | EmptyString => s
  end.

(** The subject of [strtol(s, ., 10)]: [None] when there is no number. *)
Definition scan_int (s : string) : option Z :=
  let number (r : string) : option Z :=
    match r with
    | String c _ => if is_digit c then Some (scan_digits 0 r) else None
    | EmptyString => None
    end in
  match skip_spaces s with
  | String "-" r => Z.opp <$> number r
  | String "+" r => number r
  | r => number r
  end.

Definition INT_MIN : Z := -2147483648.
Definition INT_MAX : Z := 2147483647.
Definition LONG_MIN : Z := -9223372036854775808.
Definition LONG_MAX : Z := 9223372036854775807.

(** [atoi]: [(int) strtol(s, NULL, 10)]; [strtol] saturates at the range of
    [long] and gives 0 when there is no number. *)
Definition atoi (s : string) : Z :=
  match scan_int s with
  | Some z => swrap 32 (Z.max LONG_MIN (Z.min LONG_MAX z))
  | None => 0
  end.

(** [std::stoi]: throws [invalid_argument] when there is no number and
    [out_of_range] when it is not an [int]; nothing in the compiler catches
    either. *)
Definition stoi (s : string) : res Z :=
  match scan_int s with
  | Some z => if (INT_MIN <=? z)%Z && (z <=? INT_MAX)%Z then Ok z else Err Uncaught
  | None => Err Uncaught
  end.

(** ** [std::string] *)

(** [s.find(search, pos)]; [None] is [npos]. *)
Definition str_find (s search : string) (pos : nat) : option nat :=
  String.index pos search s.

Definition str_drop (n : nat) (s : string) : string :=
  String.substring n (String.length s - n) s.

(** [s.replace(pos, len, r)] for [pos <= s.length()]. *)
Definition str_replace (s : string) (pos len : nat) (r : string) : string :=
  String.substring 0 pos s +:+ r +:+ str_drop (pos + len) s.

(** ** [std::sort] *)

(** What [std::sort] promises for a comparison [lt]: a permutation of the
    vector in which no element is less than an earlier one.  The order of
    equivalent elements is unspecified, so it is not part of the interface. *)
Class StdSort {A} (lt : A -> A -> bool) : Type := {
  std_sort : list A -> list A;
  std_sort_perm : forall l, std_sort l ≡ₚ l;
  std_sort_sorted : forall l, StronglySorted (fun a b => lt b a = false) (std_sort l)
}.

(** A comparison as the standard requires it: a strict weak ordering. *)
Class StrictWeak {A} (lt : A -> A -> bool) : Prop := {
  sw_asym : forall a b, lt a b = true -> lt b a = false;
  sw_cotrans : forall a b c, lt b a = false -> lt c b = false -> lt c a = false
}.

(** Linear insertion, as libstdc++ sorts a vector of at most 16 elements:
    an element goes behind every element it is not less than. *)
Fixpoint insert_sorted {A} (lt : A -> A -> bool) (x : A) (l : list A) : list A :=
  match l with
  | [] => [x]
  | y :: r => if lt x y then x :: y :: r else y :: insert_sorted lt x r
  end.

Definition insertion_sort {A} (lt : A -> A -> bool) (l : list A) : list A :=
  foldl (fun acc x => insert_sorted lt x acc) [] l.

(** [std::unique] followed by [erase]: of each run of equal elements only
    the first stays. *)
Fixpoint unique {A} `{EqDecision A} (l : list A) : list A :=
  match l with
  | x :: (y :: _) as r => if decide (x = y) then unique r else x :: unique r
  | l => l
  end.

(** ** Lemmas: decimal printing and scanning *)

Lemma char_code_range c : (0 <= char_code c < 256)%Z.
Proof.
  unfold char_code. pose proof (N_ascii_bounded c). lia.
Qed.

Lemma char_code_digit d : (0 <= d <= 9)%Z -> char_code (digit_char d) = (48 + d)%Z.
Proof.
  intros Hd. unfold char_code, digit_char.
  rewrite N_ascii_embedding by lia. lia.
Qed.

Lemma is_digit_char d : (0 <= d <= 9)%Z -> is_digit (digit_char d) = true.
Proof.
  intros Hd. unfold is_digit. rewrite char_code_digit by done.
  apply andb_true_iff; split; apply Z.leb_le; lia.
Qed.

Lemma dec_digits_all_digits fuel n acc :
  all_digits acc = true -> all_digits (dec_digits fuel n acc) = true.
Proof.
  revert n acc. induction fuel as [|f IH]; intros n acc Ha; simpl; [done|].
  assert (Hd : is_digit (digit_char (n mod 10)) = true)
    by (apply is_digit_char; pose proof (Z.mod_pos_bound n 10); lia).
  case_match; [simpl; by rewrite Hd|]. apply IH. simpl. by rewrite Hd.
Qed.

Lemma dec_digits_cons fuel n acc :
  (0 < fuel)%nat ->
  exists d r, dec_digits fuel n acc = String (digit_char d) r /\ (0 <= d <= 9)%Z.
Proof.
  revert n acc. induction fuel as [|f IH]; intros n acc Hf; [lia|]. simpl.
  assert (Hd : (0 <= n mod 10 <= 9)%Z) by (pose proof (Z.mod_pos_bound n 10); lia).
  case_match; [eauto|].
  destruct f; [simpl; eauto|]. apply IH. lia.
Qed.

Lemma scan_dec_digits fuel n acc :
  (0 <= n < 2 ^ Z.of_nat fuel)%Z ->
  scan_digits 0 (dec_digits fuel n acc) = scan_digits n acc.
Proof.
  revert n acc. induction fuel as [|f IH]; intros n acc Hn.
  - simpl in *. by replace n with 0%Z by lia.
  - assert (Hd : (0 <= n mod 10 <= 9)%Z) by (pose proof (Z.mod_pos_bound n 10); lia).
    pose proof (Z.div_mod n 10).
    cbn [dec_digits]. destruct (Z.eqb_spec (n / 10) 0) as [E|E].
    + cbn [scan_digits]. rewrite is_digit_char, char_code_digit by done.
      f_equal. lia.
    + rewrite IH.
      * cbn [scan_digits]. rewrite is_digit_char, char_code_digit by done.
        f_equal. lia.
      * rewrite Nat2Z.inj_succ, Z.pow_succ_r in Hn by lia.
        split; [apply Z.div_pos; lia|]. apply Z.div_lt_upper_bound; lia.
Qed.

Lemma dec_fuel_enough n : (0 <= n)%Z -> (0 <= n < 2 ^ Z.of_nat (dec_fuel n))%Z.
Proof.
  intros Hn. unfold dec_fuel. rewrite Nat2Z.inj_succ, Z2Nat.id by apply Z.log2_nonneg.
  split; [done|].
  destruct (Z.eq_dec n 0) as [->|Hz]; [done|].
  apply Z.log2_spec. lia.
Qed.

Lemma digit_not_space d : (0 <= d <= 9)%Z -> is_space (digit_char d) = false.
Proof.
  intros Hd. unfold is_space. rewrite char_code_digit by done.
  apply orb_false_iff; split; [apply Z.eqb_neq; lia|].
  apply andb_false_iff; right; apply Z.leb_gt; lia.
Qed.

Lemma digit_not_sign d :
  (0 <= d <= 9)%Z -> digit_char d <> "-"%char /\ digit_char d <> "+"%char.
Proof.
  intros Hd; split; intros E; apply (f_equal char_code) in E;
    rewrite char_code_digit in E by done;
    match type of E with _ = ?r => let v := eval vm_compute in r in change r with v in E end; lia.
Qed.

(** A number read back where its first character is a digit. *)
Lemma scan_int_digit c r :
  is_digit c = true -> scan_int (String c r) = Some (scan_digits 0 (String c r)).
Proof.
  intros Hc. unfold scan_int. cbn [skip_spaces].
  assert (Hs : is_space c = false).
  { unfold is_digit, is_space in *. apply andb_true_iff in Hc as [H1 H2].
    apply Z.leb_le in H1, H2.
    apply orb_false_iff; split; [apply Z.eqb_neq; lia|].
    apply andb_false_iff; right; apply Z.leb_gt; lia. }
  rewrite Hs.
  destruct (decide (c = "-"%char)) as [->|N1]; [by vm_compute in Hc|].
  destruct (decide (c = "+"%char)) as [->|N2]; [by vm_compute in Hc|].
  destruct c as [[] [] [] [] [] [] [] []]; rewrite ?Hc; congruence.
Qed.

Lemma scan_int_neg c r :
  is_digit c = true ->
  scan_int (String "-" (String c r)) = Some (- scan_digits 0 (String c r))%Z.
Proof.
  intros Hc. unfold scan_int.
  change (skip_spaces (String "-" (String c r))) with (String "-" (String c r)).
  cbv beta iota zeta. by rewrite Hc.
Qed.

Lemma scan_int_to_string z : scan_int (to_string z) = Some z.
Proof.
  unfold to_string. destruct (Z.ltb_spec z 0) as [Hz|Hz].
  - pose proof (dec_digits_cons (dec_fuel (- z)) (- z) EmptyString ltac:(unfold dec_fuel; lia))
      as (d & r & E & Hd).
    pose proof (scan_dec_digits (dec_fuel (- z)) (- z) EmptyString
                  (dec_fuel_enough (- z) ltac:(lia))) as Hs.
    rewrite E in *. rewrite scan_int_neg by by apply is_digit_char.
    rewrite Hs. cbn. f_equal. lia.
  - pose proof (dec_digits_cons (dec_fuel z) z EmptyString ltac:(unfold dec_fuel; lia))
      as (d & r & E & Hd).
    pose proof (scan_dec_digits (dec_fuel z) z EmptyString (dec_fuel_enough z Hz)) as Hs.
    rewrite E in *. rewrite scan_int_digit by by apply is_digit_char.
    by rewrite Hs.
Qed.

Lemma to_string_inj z1 z2 : to_string z1 = to_string z2 -> z1 = z2.
Proof. intros E. apply (f_equal scan_int) in E. rewrite !scan_int_to_string in E. congruence. Qed.

Lemma stoi_to_string z : (INT_MIN <= z <= INT_MAX)%Z -> stoi (to_string z) = Ok z.
Proof.
  intros Hz. unfold stoi. rewrite scan_int_to_string.
  case_match eqn:E; [done|]. exfalso.
  apply andb_false_iff in E as [E|E]; apply Z.leb_gt in E; lia.
Qed.

Lemma atoi_to_string z : (INT_MIN <= z <= INT_MAX)%Z -> atoi (to_string z) = z.
Proof.
  unfold INT_MIN, INT_MAX. intros Hz. unfold atoi. rewrite scan_int_to_string.
  unfold LONG_MIN, LONG_MAX. rewrite Z.min_r, Z.max_r by lia.
  apply swrap_small; lia.
Qed.

Lemma to_string_nonneg_digits z :
  (0 <= z)%Z -> all_digits (to_string z) = true /\ to_string z <> EmptyString.
Proof.
  intros Hz. unfold to_string. destruct (Z.ltb_spec z 0); [lia|]. split.
  - by apply dec_digits_all_digits.
  - destruct (dec_digits_cons (dec_fuel z) z EmptyString) as (d & r & E & _);
      [unfold dec_fuel; lia|]. by rewrite E.
Qed.

(** ** Lemmas: sorting *)

Section Sorting.
Context {A} (lt : A -> A -> bool) `{!StrictWeak lt}.

Lemma insert_sorted_perm x l : insert_sorted lt x l ≡ₚ x :: l.
Proof.
  induction l as [|y r IH]; simpl; [done|]. case_match; [done|].
  rewrite IH. apply Permutation_swap.
Qed.

Lemma insert_sorted_sorted x l :
  StronglySorted (fun a b => lt b a = false) l ->
  StronglySorted (fun a b => lt b a = false) (insert_sorted lt x l).
Proof.
  induction 1 as [|y r Hs IH Hf]; simpl; [repeat constructor|].
  destruct (lt x y) eqn:E.
  - repeat constructor; [done|done| |].
    + by apply sw_asym.
    + eapply Forall_impl; [exact Hf|]. intros z Hz.
      simpl in Hz. eapply sw_cotrans; [by apply sw_asym|done].
  - constructor; [done|]. rewrite insert_sorted_perm. by constructor.
Qed.

Lemma insertion_sort_spec l :
  insertion_sort lt l ≡ₚ l /\
  StronglySorted (fun a b => lt b a = false) (insertion_sort lt l).
Proof.
  unfold insertion_sort.
  assert (G : forall acc, StronglySorted (fun a b => lt b a = false) acc ->
    foldl (fun acc x => insert_sorted lt x acc) acc l ≡ₚ acc ++ l /\
    StronglySorted (fun a b => lt b a = false)
      (foldl (fun acc x => insert_sorted lt x acc) acc l)).
  { induction l as [|x l IH]; intros acc Ha; simpl.
    - by rewrite app_nil_r.
    - destruct (IH _ (insert_sorted_sorted x acc Ha)) as [Hp Hs]. split; [|done].
      rewrite Hp, insert_sorted_perm. by rewrite <- Permutation_middle. }
  apply G. constructor.
Qed.

Definition insertion_StdSort : StdSort lt := {|
  std_sort := insertion_sort lt;
  std_sort_perm l := proj1 (insertion_sort_spec l);
  std_sort_sorted l := proj2 (insertion_sort_spec l)
|}.
End Sorting.

Lemma unique_elem_of {A} `{EqDecision A} (l : list A) x : x ∈ unique l <-> x ∈ l.
Proof.
  induction l as [|a [|b r] IH]; [done|done|].
  change (unique (a :: b :: r)) with
    (if decide (a = b) then unique (b :: r) else a :: unique (b :: r)).
  case_decide as E; rewrite ?elem_of_cons, IH, !elem_of_cons; naive_solver.
Qed.
