(* ===== verification/Wire.v ===== *)
(** Bytes in memory: little-endian integers, stores into a byte array, and
    reads of memory that may hold bytes nobody has written.  Shared by the
    components that lay out C structures (the reply thread, the user-space
    collector and the context server). *)

From stdpp Require Import base list strings.
From Stdlib Require Import ZArith Lia Ascii.
From S2P Require Import Prelude.

Local Open Scope Z_scope.

(** ** Little-endian integers *)

Fixpoint le (n : nat) (z : Z) : list Z :=
  match n with O => [] | S n => z mod 256 :: le n (z / 256) end.

Fixpoint unle (bs : list Z) : Z :=
  match bs with [] => 0 | b :: r => b + 256 * unle r end.

(** ** Stores *)

(** A store of [bs] at index [p]. *)
Definition put (mem : list Z) (p : Z) (bs : list Z) : res (list Z) :=
  if (0 <=? p) && (p + Z.of_nat (length bs) <=? Z.of_nat (length mem))
  then Ok (take (Z.to_nat p) mem ++ bs ++ drop (Z.to_nat p + length bs) mem)
  else Err Undefined.

(** ** Memory with unwritten bytes *)

(** An automatic array of C: [None] is a byte that holds no value yet. *)
Definition mem : Type := list (option Z).

(** The [n] bytes at [off]; an access outside the array, or of a byte nobody
    has written, is undefined. *)
Definition load_bytes (n off : nat) (m : mem) : res (list Z) :=
  if (off + n <=? length m)%nat then deref (mapM id (take n (drop off m))) else Err Undefined.

(** A little-endian integer of [n] bytes. *)
Definition load (n off : nat) (m : mem) : res Z :=
  bs ← load_bytes n off m; mret (unle bs).

(** [memcpy] of [bs] to [off]. *)
Definition fill (off : nat) (bs : list Z) (m : mem) : res mem :=
  if (off + length bs <=? length m)%nat
  then Ok (take off m ++ (Some <$> bs) ++ drop (off + length bs) m)
  else Err Undefined.

(** The string at the start of the memory: the bytes before the first 0, as
    [%s] of [printf] and [strlen] walk it. *)
Fixpoint cstr (m : mem) : res (list Z) :=
  match m with
  | [] => Err Undefined
  | None :: _ => Err Undefined
  | Some b :: m => if b =? 0 then Ok [] else s ← cstr m; Ok (b :: s)
  end.

(** The characters of a literal. *)
Definition bytes (s : string) : list Z :=
  (fun c => Z.of_N (N_of_ascii c)) <$> String.list_ascii_of_string s.

(** ** Structures *)

(** The bytes of a structure whose members have the widths [ws]. *)
Fixpoint struct_bytes (ws : list nat) (vs : list Z) : list Z :=
  match ws, vs with
  | w :: ws, v :: vs => le w v ++ struct_bytes ws vs
  | _, _ => []
  end.

(** ** Lemmas *)

Lemma le_length n : forall z, length (le n z) = n.
Proof. induction n as [|n IH]; intros z; [done|]. cbn. by rewrite IH. Qed.

Lemma unle_le n : forall z, unle (le n z) = z mod 256 ^ Z.of_nat n.
Proof.
  induction n as [|n IH]; intros z; [cbn; by rewrite Z.mod_1_r|].
  cbn [le unle]. rewrite IH, Nat2Z.inj_succ, Z.pow_succ_r by lia.
  rewrite Z.rem_mul_r by lia. done.
Qed.

Lemma take_drop_app {A} n k (a b : list A) :
  (n + k <= length a)%nat -> take k (drop n (a ++ b)) = take k (drop n a).
Proof.
  intros H. rewrite drop_app_le by lia. by rewrite take_app_le by (rewrite length_drop; lia).
Qed.

(** The front of the array after a store at its end. *)
Lemma put_front mem p msg bs :
  take (Z.to_nat p) mem = msg -> 0 <= p -> Z.of_nat (length msg) = p ->
  p + Z.of_nat (length bs) <= Z.of_nat (length mem) ->
  exists mem', put mem p bs = Ok mem' /\ length mem' = length mem /\
    take (Z.to_nat (p + Z.of_nat (length bs))) mem' = msg ++ bs.
Proof.
  intros Hm Hp Hl Hb. unfold put.
  destruct (Z.leb_spec 0 p), (Z.leb_spec (p + Z.of_nat (length bs)) (Z.of_nat (length mem))); try lia.
  cbn [andb]. eexists. split; [reflexivity|]. rewrite Hm. split.
  - rewrite !length_app, length_drop. lia.
  - rewrite (assoc_L (++)). apply take_app_length'. rewrite length_app. lia.
Qed.


Lemma mapM_written (bs : list Z) : mapM id (Some <$> bs) = Some bs.
Proof. induction bs as [|b bs IH]; [done|]. cbn. by rewrite IH. Qed.

(** What was written is read back, whatever follows it. *)
Lemma load_bytes_written n off (bs : list Z) (rest : mem) :
  (off + n <= length bs)%nat ->
  load_bytes n off ((Some <$> bs) ++ rest) = Ok (take n (drop off bs)).
Proof.
  intros H. unfold load_bytes. rewrite length_app, length_fmap.
  destruct (Nat.leb_spec (off + n) (length bs + length rest)); [|lia].
  rewrite take_drop_app by (rewrite length_fmap; lia).
  by rewrite <- fmap_drop, <- fmap_take, mapM_written.
Qed.

(** A read that touches a byte nobody has written. *)
Lemma load_bytes_unwritten n off (m : mem) :
  (exists i, off <= i < off + n /\ m !! i = Some None)%nat -> load_bytes n off m = Err Undefined.
Proof.
  intros (i & Hi & Hm). unfold load_bytes.
  destruct (Nat.leb_spec (off + n) (length m)); [|done].
  destruct (mapM id (take n (drop off m))) as [bs|] eqn:E; [|done]. exfalso.
  apply mapM_Some_1 in E.
  assert (Hl : take n (drop off m) !! (i - off)%nat = Some None).
  { rewrite lookup_take_lt by lia. rewrite lookup_drop. by replace (off + (i - off))%nat with i by lia. }
  destruct (Forall2_lookup_l _ _ _ _ _ E Hl) as (b & _ & Hb). done.
Qed.

Lemma load_unwritten n off (m : mem) :
  (exists i, off <= i < off + n /\ m !! i = Some None)%nat -> load n off m = Err Undefined.
Proof. intros H. unfold load. by rewrite load_bytes_unwritten. Qed.

(** The offset of member [i]. *)
Definition offset (ws : list nat) (i : nat) : nat := sum_list (take i ws).

Lemma struct_bytes_length ws : forall vs,
  length vs = length ws -> length (struct_bytes ws vs) = sum_list ws.
Proof.
  induction ws as [|w ws IH]; intros [|v vs]; cbn; try done.
  intros H. rewrite length_app, le_length, IH by lia. done.
Qed.

Lemma struct_field ws : forall vs i w v,
  length vs = length ws -> ws !! i = Some w -> vs !! i = Some v ->
  take w (drop (offset ws i) (struct_bytes ws vs)) = le w v /\
  (offset ws i + w <= sum_list ws)%nat.
Proof.
  induction ws as [|w0 ws IH]; intros [|v0 vs] [|i] w v Hl Hw Hv; cbn in *; try done.
  - injection Hw as ->. injection Hv as ->. split; [|unfold offset; cbn; lia].
    unfold offset. cbn. rewrite drop_0. apply take_app_length'. by rewrite le_length.
  - destruct (IH vs i w v ltac:(lia) Hw Hv) as [E B]. unfold offset in *. cbn [take sum_list foldr].
    split; [|cbn; lia]. rewrite <- E. f_equal.
    change (foldr Init.Nat.add 0%nat (w0 :: take i ws)) with (w0 + sum_list (take i ws))%nat.
    rewrite drop_app_ge by (rewrite le_length; lia). f_equal. rewrite le_length. lia.
Qed.

(** Every member of a structure is read back. *)
Lemma load_field ws vs i w v (tail : list Z) (rest : mem) :
  length vs = length ws -> ws !! i = Some w -> vs !! i = Some v -> 0 <= v < 256 ^ Z.of_nat w ->
  load w (offset ws i) ((Some <$> struct_bytes ws vs ++ tail) ++ rest) = Ok v.
Proof.
  intros Hl Hw Hv Hr. destruct (struct_field ws vs i w v Hl Hw Hv) as [E B].
  pose proof (struct_bytes_length ws vs Hl) as L. unfold load.
  rewrite load_bytes_written by (rewrite length_app; lia).
  rewrite bind_ret_l, take_drop_app, E, unle_le by lia. cbn. f_equal. by apply Z.mod_small.
Qed.

(** The same, at an offset given as a number. *)
Lemma load_at i w off ws vs v (tail : list Z) (rest : mem) :
  length vs = length ws -> ws !! i = Some w -> vs !! i = Some v -> off = offset ws i ->
  0 <= v < 256 ^ Z.of_nat w ->
  load w off ((Some <$> struct_bytes ws vs ++ tail) ++ rest) = Ok v.
Proof. intros Hl Hw Hv -> Hr. by apply load_field with (vs := vs). Qed.

(** Reads the members with the indices [l], one after the other. *)
Ltac members l :=
  lazymatch l with
  | ?i :: ?l =>
      lazymatch goal with
      | |- context [load ?w ?off _ ≫= _] =>
          erewrite (load_at i w off) by (first [reflexivity | eassumption]);
          rewrite bind_ret_l
      end;
      members l
  | _ => idtac
  end.

(** A read further on in the memory. *)
Lemma load_drop n p off (m : mem) :
  (p <= length m)%nat -> load n (p + off) m = load n off (drop p m).
Proof.
  intros H. unfold load, load_bytes. rewrite length_drop, drop_drop.
  destruct (Nat.leb_spec (p + off + n) (length m)), (Nat.leb_spec (off + n) (length m - p)); (done || lia).
Qed.

Lemma fill_front bs (m : mem) :
  (length bs <= length m)%nat -> fill 0 bs m = Ok ((Some <$> bs) ++ drop (length bs) m).
Proof. intros H. unfold fill. by destruct (Nat.leb_spec (0 + length bs) (length m)); [|lia]. Qed.

(** A string is read up to its terminator, and no byte after it matters. *)
Lemma cstr_written (s : list Z) (rest : mem) :
  Forall (fun b => b <> 0) s -> cstr ((Some <$> s) ++ Some 0 :: rest) = Ok s.
Proof.
  induction 1 as [|b s Hb _ IH]; [done|]. cbn. destruct (Z.eqb_spec b 0); [done|].
  unfold mem in *. by rewrite IH.
Qed.

(** A string that ends inside what was written can be read. *)
Lemma cstr_terminated (bs : list Z) (rest : mem) : 0 ∈ bs -> exists s, cstr ((Some <$> bs) ++ rest) = Ok s.
Proof.
  induction bs as [|b bs IH]; intros H; [by apply elem_of_nil in H|]. cbn.
  destruct (Z.eqb_spec b 0) as [|Hb]; [by eexists|]. apply elem_of_cons in H as [H|H]; [congruence|].
  destruct (IH H) as [s ->]. by eexists.
Qed.

Lemma fill_length off bs m m' : fill off bs m = Ok m' -> length m' = length m.
Proof.
  unfold fill. destruct (Nat.leb_spec (off + length bs) (length m)); [|done].
  intros [= <-]. rewrite !length_app, length_take, length_fmap, length_drop. lia.
Qed.
