(* ===== verification/Cfloat.v ===== *)
(** Single-precision numbers of C, as far as the client uses them: a value is
    [man * 2 ^ exp], rounding is to nearest with ties to even, and a
    conversion to an integer type drops the fraction and is undefined when the
    result does not fit.  The exponent is not limited: numbers too small or
    too large for the format truncate to 0, or do not fit, either way.  A
    product of such a number with 1000000.0 is exact in double precision (24
    and 20 bits), so [scale] has no rounding of its own. *)

From stdpp Require Import base list.
From Stdlib Require Import ZArith Lia.
From S2P Require Import Prelude.

Local Open Scope Z_scope.

Record float : Type := mkFloat { man : Z; exp : Z }.

(** [a / b] rounded to the nearest integer, ties to even. *)
Definition rne (a b : Z) : Z :=
  let q := a / b in
  let r := a mod b in
  if 2 * r <? b then q else
  if b <? 2 * r then q + 1 else
  if Z.even q then q else q + 1.

(** [num / den] in units of [2 ^ e], as a quotient of integers. *)
Definition up (e : Z) : Z := 2 ^ Z.max 0 e.
Definition in_units (e num den : Z) : Z * Z := (num * up (- e), den * up e).

(** The number nearest to [num / den], for [den > 0]. *)
Definition f32_quot (num den : Z) : float :=
  let a := Z.abs num in
  if a =? 0 then mkFloat 0 0 else
  let e0 := Z.log2 a - Z.log2 den - 23 in
  let '(n0, d0) := in_units e0 a den in
  let e := if n0 <? 2 ^ 23 * d0 then e0 - 1 else e0 in
  let '(n, d) := in_units e a den in
  mkFloat (Z.sgn num * rne n d) e.

(** [(float)z] of an integer, which is an integer again. *)
Definition f32_int (z : Z) : Z :=
  let e := Z.max 0 (Z.log2 (Z.abs z) - 23) in
  Z.sgn z * (rne (Z.abs z) (2 ^ e) * 2 ^ e).

(** The integer part of [f * k]. *)
Definition scale (f : float) (k : Z) : Z := Z.quot (man f * k * up (exp f)) (up (- exp f)).

(** Conversions of a number with integer part [z]. *)
Definition to_u32 (z : Z) : res Z := if (0 <=? z) && (z <? 2 ^ 32) then Ok z else Err Undefined.
Definition to_i64 (z : Z) : res Z :=
  if (- 2 ^ 63 <=? z) && (z <? 2 ^ 63) then Ok z else Err Undefined.

(** ** Rounding errors *)

Lemma rne_error a b : 0 < b -> 2 * Z.abs (rne a b * b - a) <= b.
Proof.
  intros Hb. unfold rne. pose proof (Z.div_mod a b ltac:(lia)) as E.
  pose proof (Z.mod_pos_bound a b Hb) as R.
  destruct (Z.ltb_spec (2 * (a mod b)) b); [lia|].
  destruct (Z.ltb_spec b (2 * (a mod b))); [lia|]. destruct (Z.even _); lia.
Qed.

Lemma rne_exact a b : 0 < b -> rne (a * b) b = a.
Proof.
  intros Hb. unfold rne. rewrite Z.div_mul, Z.mod_mul by lia.
  destruct (Z.ltb_spec (2 * 0) b); [done|lia].
Qed.

Lemma rne_nonneg a b : 0 <= a -> 0 < b -> 0 <= rne a b.
Proof.
  intros Ha Hb. unfold rne. pose proof (Z.div_pos a b Ha Hb).
  destruct (_ <? _); [done|]. destruct (_ <? _); [lia|]. destruct (Z.even _); lia.
Qed.

Lemma sgn_mul_error z x b : 0 <= b ->
  2 * Z.abs (x - Z.abs z) <= b -> 2 * Z.abs (Z.sgn z * x - z) <= b \/ z = 0.
Proof.
  intros Hb H. destruct (Z.sgn_spec z) as [[? ->]|[[? ->]|[? ->]]]; [left; lia|by right|left; lia].
Qed.

(** An integer of up to 24 bits is exact; above that the error is at most
    half the spacing of the numbers of its size. *)
Lemma f32_int_error z :
  2 * Z.abs (f32_int z - z) <= 2 ^ Z.max 0 (Z.log2 (Z.abs z) - 23) /\
  (Z.abs z < 2 ^ 24 -> f32_int z = z).
Proof.
  unfold f32_int. set (e := Z.max 0 (Z.log2 (Z.abs z) - 23)).
  assert (He : 0 < 2 ^ e) by (apply Z.pow_pos_nonneg; lia). split.
  - pose proof (rne_error (Z.abs z) (2 ^ e) He) as H.
    destruct (sgn_mul_error z _ (2 ^ e) ltac:(lia) H) as [G| ->]; [exact G|]. cbn. lia.
  - intros Hz. assert (e = 0) as ->.
    { subst e. destruct (Z.eq_dec (Z.abs z) 0) as [->|]; [done|].
      pose proof (proj1 (Z.log2_lt_pow2 (Z.abs z) 24 ltac:(lia)) Hz). lia. }
    change (2 ^ 0) with 1. rewrite Z.mul_1_r. rewrite <- (Z.mul_1_r (Z.abs z)) at 1.
    rewrite rne_exact by lia. lia.
Qed.

(** The rounding error of [f32_int] for numbers below [2 ^ n]. *)
Lemma f32_int_below z n :
  23 < n -> Z.abs z < 2 ^ n -> Z.abs (f32_int z - z) <= 2 ^ (n - 25).
Proof.
  intros Hn Hz. destruct (f32_int_error z) as [E X].
  destruct (Z.eq_dec z 0) as [->|Hne]; [cbn; apply Z.pow_nonneg; lia|].
  destruct (Z.ltb_spec (Z.abs z) (2 ^ 24)) as [H|H].
  - rewrite (X H), Z.sub_diag. apply Z.pow_nonneg. lia.
  - assert (L : Z.log2 (Z.abs z) <= n - 1)
      by (pose proof (proj1 (Z.log2_lt_pow2 (Z.abs z) n ltac:(lia)) Hz); lia).
    assert (G : 24 <= Z.log2 (Z.abs z)) by (apply Z.log2_le_pow2; lia).
    assert (P : 2 ^ Z.max 0 (Z.log2 (Z.abs z) - 23) <= 2 * 2 ^ (n - 25)).
    { rewrite <- Z.pow_succ_r by lia. apply Z.pow_le_mono_r; lia. }
    lia.
Qed.

Lemma up_pos e : 0 < up e.
Proof. unfold up. apply Z.pow_pos_nonneg; lia. Qed.

(** The number nearest to a quotient: the mantissa has 24 bits, and the error
    is at most half a unit of its last place. *)
Lemma f32_quot_error num den f : 0 <= num -> 0 < den -> f32_quot num den = f ->
  2 * Z.abs (man f * (den * up (exp f)) - num * up (- exp f)) <= den * up (exp f).
Proof.
  intros Hn Hd <-. unfold f32_quot, in_units. rewrite (Z.abs_eq num) by lia.
  destruct (Z.eqb_spec num 0) as [->|Hz];
    [cbn [man exp]; rewrite !Z.mul_0_l; pose proof (up_pos 0); change (Z.abs (0 - 0)) with 0; nia|].
  cbv beta iota zeta. destruct (_ <? _); cbn [man exp]; rewrite Z.sgn_pos, Z.mul_1_l by lia;
    (apply rne_error; apply Z.mul_pos_pos; [lia|apply up_pos]).
Qed.
