(* ===== verification/Ast.v ===== *)
(** The abstract syntax of a policy and the compiler's program object: the
    classes of src/compiler/ast.h.  Objects the C++ code only reads after
    construction are values; a pointer that may be null is an [option].  The
    one object mutated through a pointer, the latest [MatchExpr], is updated
    inside the vector that owns it. *)

From stdpp Require Import base list strings gmap sorting.
From Stdlib Require Import ZArith Lia Ascii.
From S2P Require Import Prelude Cxx.

(** ** Expressions *)

Record ListExpr : Type := mkListExpr { items : list Z }.

Definition get_items (le : ListExpr) : list Z := items le.

(** The printer walks the indices of the list. *)
Definition ListExpr_stringify (le : ListExpr) : string :=
  foldl (fun s i => s +:+ " " +:+ to_string (Z.of_nat i)) "List: "
        (seq 0 (length (items le))).

Record ListPred : Type := mkListPred {
  listvar : string;
  listop : string;
  listbodyvar : string
}.

Definition ListPred_stringify (p : ListPred) : string :=
  "var=" +:+ listvar p +:+ ", op=" +:+ listop p +:+ ", list=" +:+ listbodyvar p.

Record BinaryPred : Type := mkBinaryPred {
  lhs : string;
  op : string;
  rhs : string
}.

(** The constructor that takes the right-hand side as an [int]. *)
Definition BinaryPred_int (thelhs theop : string) (therhs : Z) : BinaryPred :=
  mkBinaryPred thelhs theop (to_string therhs).

Definition BinaryPred_stringify (p : BinaryPred) : string :=
  lhs p +:+ " " +:+ op p +:+ " " +:+ rhs p.

(** The digits at the front of [s], and what follows them. *)
Fixpoint span_digits (s : string) : string * string :=
  match s with
  | String c r =>
      if is_digit c then let '(d, t) := span_digits r in (String c d, t)
      else (EmptyString, s)
  | EmptyString => (EmptyString, EmptyString)
  end.

(** [regex_replace(s, "h([0-9]+)", "hdr.h$1.val")]; every step consumes at
    least one character, so the length of [s] is enough fuel. *)
Fixpoint replace_headers (fuel : nat) (s : string) : string :=
  match fuel, s with
  | S f, String c r =>
      if decide (c = "h"%char) then
        match span_digits r with
        | (EmptyString, _) => String c (replace_headers f r)
        | (d, t) => "hdr.h" +:+ d +:+ ".val" +:+ replace_headers f t
        end
      else String c (replace_headers f r)
  | _, _ => EmptyString
  end.

Definition p4stringify (p : BinaryPred) : string :=
  let s := BinaryPred_stringify p in replace_headers (String.length s) s.

Definition is_exact_match (p : BinaryPred) : bool := bool_decide (op p = "==").

(** An arithmetic expression, one constructor per C++ constructor.  When the
    left-hand side is itself an expression the printer leaves it out. *)
Inductive ArithExpr : Type :=
| ArithExpr_expr (theexpr : string)
| ArithExpr_chain (thelhs : ArithExpr) (theop therhs : string)
| ArithExpr_vars (thelhs theop therhs : string).

Definition get_expr (a : ArithExpr) : string :=
  match a with ArithExpr_expr e => e | _ => EmptyString end.

(** [lhs_str + " " + op + " " + rhs]; the members a constructor does not set
    are empty strings. *)
Definition ArithExpr_stringify (a : ArithExpr) : string :=
  match a with
  | ArithExpr_expr _ => "  "
  | ArithExpr_chain _ o r => " " +:+ o +:+ " " +:+ r
  | ArithExpr_vars l o r => l +:+ " " +:+ o +:+ " " +:+ r
  end.

(** ** Match expressions *)

Definition MATCH_PRED : Z := 0.
Definition MATCH_LIST : Z := 1.
Definition MATCH_MONITOR : Z := 2.

Record MatchExpr : Type := mkMatchExpr {
  me_type : Z;
  matchlist : option ListPred;
  matchpred : option BinaryPred;
  matchmvar : string;
  if_action : string;
  else_action : string;
  num_actions : Z
}.

Definition MatchExpr_list (l : ListPred) : MatchExpr :=
  mkMatchExpr MATCH_LIST (Some l) None EmptyString EmptyString EmptyString 0.
Definition MatchExpr_pred (b : BinaryPred) : MatchExpr :=
  mkMatchExpr MATCH_PRED None (Some b) EmptyString EmptyString EmptyString 0.
Definition MatchExpr_monitor (m : string) : MatchExpr :=
  mkMatchExpr MATCH_MONITOR None None m EmptyString EmptyString 0.

Definition set_if_action (a : string) (me : MatchExpr) : res MatchExpr :=
  _ ← cassert (bool_decide (if_action me = EmptyString));
  mret (mkMatchExpr (me_type me) (matchlist me) (matchpred me) (matchmvar me)
          a (else_action me) (num_actions me + 1)).

Definition set_else_action (a : string) (me : MatchExpr) : res MatchExpr :=
  _ ← cassert (bool_decide (else_action me = EmptyString));
  mret (mkMatchExpr (me_type me) (matchlist me) (matchpred me) (matchmvar me)
          (if_action me) a (num_actions me + 1)).

Definition set_binarypred (b : option BinaryPred) (me : MatchExpr) : MatchExpr :=
  mkMatchExpr (me_type me) (matchlist me) b (matchmvar me)
    (if_action me) (else_action me) (num_actions me).

Definition get_ifthenelse (me : MatchExpr) : bool := (num_actions me =? 2)%Z.

Definition get_if_action (me : MatchExpr) : res string :=
  _ ← cassert (bool_decide (if_action me <> EmptyString)); mret (if_action me).

Definition get_else_action (me : MatchExpr) : res string :=
  _ ← cassert (bool_decide (else_action me <> EmptyString)); mret (else_action me).

Definition get_listpred (me : MatchExpr) : res (option ListPred) :=
  _ ← cassert (me_type me =? MATCH_LIST)%Z; mret (matchlist me).

Definition get_binarypred (me : MatchExpr) : option BinaryPred := matchpred me.

Definition get_mvar (me : MatchExpr) : res string :=
  _ ← cassert (me_type me =? MATCH_MONITOR)%Z; mret (matchmvar me).

Definition MatchExpr_stringify (me : MatchExpr) : res string :=
  if (me_type me =? MATCH_PRED)%Z then
    p ← deref (matchpred me);
    mret ("type: if-else match: " +:+ BinaryPred_stringify p)
  else if (me_type me =? MATCH_LIST)%Z then
    l ← deref (matchlist me);
    mret ("type: list-membership match" +:+ ListPred_stringify l)
  else mret EmptyString.

(** ** Monitors *)

Record Monitor : Type := mkMonitor { mon_mvar : string; mon_lp : ListPred }.

(** The constructor asserts that the list predicate is not null. *)
Definition Monitor_new (themvar : string) (thelp : option ListPred) : res Monitor :=
  match thelp with
  | Some l => Ok (mkMonitor themvar l)
  | None => Err AssertFail
  end.

Definition Monitor_stringify (m : Monitor) : string :=
  "monitor var=" +:+ mon_mvar m +:+ ", list: " +:+ ListPred_stringify (mon_lp m).

(** ** Checks *)

Definition CHECK_TYPE_INVALID : Z := 0.
Definition CHECK_TYPE_EXACT : Z := 1.
Definition CHECK_TYPE_RANGE : Z := 2.
Definition CHECK_TYPE_LIST : Z := 3.
Definition CHECK_TYPE_MONITOR : Z := 4.

Definition NUM_STAGE_EXACT : Z := 1.
Definition NUM_STAGE_RANGE : Z := 1.
Definition NUM_STAGE_LIST : Z := 1.
Definition NUM_STAGE_MONITOR : Z := 3.

Record Check : Type := mkCheck {
  start_stage : Z;
  stage_num : Z;
  rec : Z;
  ctype : Z;
  cid : Z;
  if_action_val : Z;
  else_action_val : Z;
  priority : Z;
  table_size : Z;
  field_len : Z;
  header : string;
  pred_hi : string;
  pred_lo : string;
  clist : list Z;
  mon_name : string;
  extra_check : Z;
  extra_header : list string;
  h_to_val : gmap string string;
  timeout_val : Z;
  table_name : string
}.

(** [Check ()]: the in-class initialisers. *)
Definition Check_new : Check :=
  mkCheck 0 0 0 0 0 0 0 0 2 16 EmptyString EmptyString EmptyString [] EmptyString
    0 [] ∅ 100000 EmptyString.

(** [operator <]. *)
Definition check_lt (a b : Check) : bool := (priority a <? priority b)%Z.

#[export] Instance check_lt_weak : StrictWeak check_lt.
Proof.
  split; unfold check_lt; intros.
  - apply Z.ltb_lt in H. apply Z.ltb_ge. lia.
  - apply Z.ltb_ge in H, H0. apply Z.ltb_ge. lia.
Qed.

(** Field assignments [c->f = v]. *)
Definition set_start_stage (v : Z) (r : Check) : Check :=
  mkCheck v (stage_num r) (rec r) (ctype r) (cid r) (if_action_val r) (else_action_val r) (priority r) (table_size r) (field_len r) (header r) (pred_hi r) (pred_lo r) (clist r) (mon_name r) (extra_check r) (extra_header r) (h_to_val r) (timeout_val r) (table_name r).
Definition set_stage_num (v : Z) (r : Check) : Check :=
  mkCheck (start_stage r) v (rec r) (ctype r) (cid r) (if_action_val r) (else_action_val r) (priority r) (table_size r) (field_len r) (header r) (pred_hi r) (pred_lo r) (clist r) (mon_name r) (extra_check r) (extra_header r) (h_to_val r) (timeout_val r) (table_name r).
Definition set_rec (v : Z) (r : Check) : Check :=
  mkCheck (start_stage r) (stage_num r) v (ctype r) (cid r) (if_action_val r) (else_action_val r) (priority r) (table_size r) (field_len r) (header r) (pred_hi r) (pred_lo r) (clist r) (mon_name r) (extra_check r) (extra_header r) (h_to_val r) (timeout_val r) (table_name r).
Definition set_ctype (v : Z) (r : Check) : Check :=
  mkCheck (start_stage r) (stage_num r) (rec r) v (cid r) (if_action_val r) (else_action_val r) (priority r) (table_size r) (field_len r) (header r) (pred_hi r) (pred_lo r) (clist r) (mon_name r) (extra_check r) (extra_header r) (h_to_val r) (timeout_val r) (table_name r).
Definition set_cid (v : Z) (r : Check) : Check :=
  mkCheck (start_stage r) (stage_num r) (rec r) (ctype r) v (if_action_val r) (else_action_val r) (priority r) (table_size r) (field_len r) (header r) (pred_hi r) (pred_lo r) (clist r) (mon_name r) (extra_check r) (extra_header r) (h_to_val r) (timeout_val r) (table_name r).
Definition set_if_action_val (v : Z) (r : Check) : Check :=
  mkCheck (start_stage r) (stage_num r) (rec r) (ctype r) (cid r) v (else_action_val r) (priority r) (table_size r) (field_len r) (header r) (pred_hi r) (pred_lo r) (clist r) (mon_name r) (extra_check r) (extra_header r) (h_to_val r) (timeout_val r) (table_name r).
Definition set_else_action_val (v : Z) (r : Check) : Check :=
  mkCheck (start_stage r) (stage_num r) (rec r) (ctype r) (cid r) (if_action_val r) v (priority r) (table_size r) (field_len r) (header r) (pred_hi r) (pred_lo r) (clist r) (mon_name r) (extra_check r) (extra_header r) (h_to_val r) (timeout_val r) (table_name r).
Definition set_priority (v : Z) (r : Check) : Check :=
  mkCheck (start_stage r) (stage_num r) (rec r) (ctype r) (cid r) (if_action_val r) (else_action_val r) v (table_size r) (field_len r) (header r) (pred_hi r) (pred_lo r) (clist r) (mon_name r) (extra_check r) (extra_header r) (h_to_val r) (timeout_val r) (table_name r).
Definition set_table_size (v : Z) (r : Check) : Check :=
  mkCheck (start_stage r) (stage_num r) (rec r) (ctype r) (cid r) (if_action_val r) (else_action_val r) (priority r) v (field_len r) (header r) (pred_hi r) (pred_lo r) (clist r) (mon_name r) (extra_check r) (extra_header r) (h_to_val r) (timeout_val r) (table_name r).
Definition set_header (v : string) (r : Check) : Check :=
  mkCheck (start_stage r) (stage_num r) (rec r) (ctype r) (cid r) (if_action_val r) (else_action_val r) (priority r) (table_size r) (field_len r) v (pred_hi r) (pred_lo r) (clist r) (mon_name r) (extra_check r) (extra_header r) (h_to_val r) (timeout_val r) (table_name r).
Definition set_pred_hi (v : string) (r : Check) : Check :=
  mkCheck (start_stage r) (stage_num r) (rec r) (ctype r) (cid r) (if_action_val r) (else_action_val r) (priority r) (table_size r) (field_len r) (header r) v (pred_lo r) (clist r) (mon_name r) (extra_check r) (extra_header r) (h_to_val r) (timeout_val r) (table_name r).
Definition set_pred_lo (v : string) (r : Check) : Check :=
  mkCheck (start_stage r) (stage_num r) (rec r) (ctype r) (cid r) (if_action_val r) (else_action_val r) (priority r) (table_size r) (field_len r) (header r) (pred_hi r) v (clist r) (mon_name r) (extra_check r) (extra_header r) (h_to_val r) (timeout_val r) (table_name r).
Definition set_clist (v : list Z) (r : Check) : Check :=
  mkCheck (start_stage r) (stage_num r) (rec r) (ctype r) (cid r) (if_action_val r) (else_action_val r) (priority r) (table_size r) (field_len r) (header r) (pred_hi r) (pred_lo r) v (mon_name r) (extra_check r) (extra_header r) (h_to_val r) (timeout_val r) (table_name r).
Definition set_mon_name (v : string) (r : Check) : Check :=
  mkCheck (start_stage r) (stage_num r) (rec r) (ctype r) (cid r) (if_action_val r) (else_action_val r) (priority r) (table_size r) (field_len r) (header r) (pred_hi r) (pred_lo r) (clist r) v (extra_check r) (extra_header r) (h_to_val r) (timeout_val r) (table_name r).
Definition set_extra_check (v : Z) (r : Check) : Check :=
  mkCheck (start_stage r) (stage_num r) (rec r) (ctype r) (cid r) (if_action_val r) (else_action_val r) (priority r) (table_size r) (field_len r) (header r) (pred_hi r) (pred_lo r) (clist r) (mon_name r) v (extra_header r) (h_to_val r) (timeout_val r) (table_name r).
Definition set_extra_header (v : list string) (r : Check) : Check :=
  mkCheck (start_stage r) (stage_num r) (rec r) (ctype r) (cid r) (if_action_val r) (else_action_val r) (priority r) (table_size r) (field_len r) (header r) (pred_hi r) (pred_lo r) (clist r) (mon_name r) (extra_check r) v (h_to_val r) (timeout_val r) (table_name r).
Definition set_h_to_val (v : gmap string string) (r : Check) : Check :=
  mkCheck (start_stage r) (stage_num r) (rec r) (ctype r) (cid r) (if_action_val r) (else_action_val r) (priority r) (table_size r) (field_len r) (header r) (pred_hi r) (pred_lo r) (clist r) (mon_name r) (extra_check r) (extra_header r) v (timeout_val r) (table_name r).
Definition set_table_name (v : string) (r : Check) : Check :=
  mkCheck (start_stage r) (stage_num r) (rec r) (ctype r) (cid r) (if_action_val r) (else_action_val r) (priority r) (table_size r) (field_len r) (header r) (pred_hi r) (pred_lo r) (clist r) (mon_name r) (extra_check r) (extra_header r) (h_to_val r) (timeout_val r) v.

(** ** The program *)

Record Program : Type := mkProgram {
  listexpr_v : list ListExpr;
  listvar_v : list string;
  matchexpr_v : list MatchExpr;
  monitor_v : list Monitor;
  header_v : list string;
  check_v : list Check;
  name2list : gmap string ListExpr;
  name2mon : gmap string Monitor;
  curr_rec : Z;
  curr_stage : Z
}.

Definition max_rec_times : Z := 8.
Definition stages_per_rec : Z := 7.

Definition Program_new : Program := mkProgram [] [] [] [] [] [] ∅ ∅ 0 0.

Definition p_listexpr_v (v : list ListExpr) (r : Program) : Program :=
  mkProgram v (listvar_v r) (matchexpr_v r) (monitor_v r) (header_v r) (check_v r) (name2list r) (name2mon r) (curr_rec r) (curr_stage r).
Definition p_listvar_v (v : list string) (r : Program) : Program :=
  mkProgram (listexpr_v r) v (matchexpr_v r) (monitor_v r) (header_v r) (check_v r) (name2list r) (name2mon r) (curr_rec r) (curr_stage r).
Definition p_matchexpr_v (v : list MatchExpr) (r : Program) : Program :=
  mkProgram (listexpr_v r) (listvar_v r) v (monitor_v r) (header_v r) (check_v r) (name2list r) (name2mon r) (curr_rec r) (curr_stage r).
Definition p_monitor_v (v : list Monitor) (r : Program) : Program :=
  mkProgram (listexpr_v r) (listvar_v r) (matchexpr_v r) v (header_v r) (check_v r) (name2list r) (name2mon r) (curr_rec r) (curr_stage r).
Definition p_header_v (v : list string) (r : Program) : Program :=
  mkProgram (listexpr_v r) (listvar_v r) (matchexpr_v r) (monitor_v r) v (check_v r) (name2list r) (name2mon r) (curr_rec r) (curr_stage r).
Definition p_check_v (v : list Check) (r : Program) : Program :=
  mkProgram (listexpr_v r) (listvar_v r) (matchexpr_v r) (monitor_v r) (header_v r) v (name2list r) (name2mon r) (curr_rec r) (curr_stage r).
Definition p_name2list (v : gmap string ListExpr) (r : Program) : Program :=
  mkProgram (listexpr_v r) (listvar_v r) (matchexpr_v r) (monitor_v r) (header_v r) (check_v r) v (name2mon r) (curr_rec r) (curr_stage r).
Definition p_name2mon (v : gmap string Monitor) (r : Program) : Program :=
  mkProgram (listexpr_v r) (listvar_v r) (matchexpr_v r) (monitor_v r) (header_v r) (check_v r) (name2list r) v (curr_rec r) (curr_stage r).
Definition p_curr_rec (v : Z) (r : Program) : Program :=
  mkProgram (listexpr_v r) (listvar_v r) (matchexpr_v r) (monitor_v r) (header_v r) (check_v r) (name2list r) (name2mon r) v (curr_stage r).
Definition p_curr_stage (v : Z) (r : Program) : Program :=
  mkProgram (listexpr_v r) (listvar_v r) (matchexpr_v r) (monitor_v r) (header_v r) (check_v r) (name2list r) (name2mon r) (curr_rec r) v.

Definition add_check (c : Check) (p : Program) : Program :=
  p_check_v (check_v p ++ [c]) p.

Definition add_listexpr (thelistvar : string) (thele : ListExpr) (p : Program) : Program :=
  p_name2list (<[thelistvar := thele]> (name2list p))
    (p_listexpr_v (listexpr_v p ++ [thele])
       (p_listvar_v (listvar_v p ++ [thelistvar]) p)).

(** [name2list[v]] and [name2mon[v]]: a missing key gives a null pointer. *)
Definition get_list_by_name (thelistvar : string) (p : Program) : option ListExpr :=
  name2list p !! thelistvar.
Definition get_mon_by_name (mvar : string) (p : Program) : option Monitor :=
  name2mon p !! mvar.

Definition get_latestmatchexpr (p : Program) : res MatchExpr :=
  match last (matchexpr_v p) with
  | Some me => Ok me
  | None => Err AssertFail
  end.

(** The assignments made through the pointer [get_latestmatchexpr] returns. *)
Definition put_latestmatchexpr (me : MatchExpr) (p : Program) : Program :=
  p_matchexpr_v (<[pred (length (matchexpr_v p)) := me]> (matchexpr_v p)) p.

Definition add_matchexpr (theme : MatchExpr) (p : Program) : Program :=
  p_matchexpr_v (matchexpr_v p ++ [theme]) p.

Definition add_monitor (them : Monitor) (p : Program) : Program :=
  p_name2mon (<[mon_mvar them := them]> (name2mon p))
    (p_monitor_v (monitor_v p ++ [them]) p).

Definition add_header (h : string) (p : Program) : Program :=
  p_header_v (header_v p ++ [h]) p.

(** [std::string]'s [operator<]. *)
Definition string_lt (a b : string) : bool := String.ltb a b.

(** [count_headers] sorts the headers and removes duplicates. *)
Definition count_headers (p : Program) : Program * Z :=
  let v := unique (insertion_sort string_lt (header_v p)) in
  (p_header_v v p, Z.of_nat (length v)).

Definition count_listexpr (p : Program) : Z := Z.of_nat (length (listexpr_v p)).
Definition count_matchexpr (p : Program) : Z := Z.of_nat (length (matchexpr_v p)).
Definition count_monitors (p : Program) : Z := Z.of_nat (length (monitor_v p)).

(** ** Printing *)

Definition nl : string := String "010" EmptyString.

(** One section of [Program::print]: a title with the index, then the text of
    the object. *)
Fixpoint print_section {A} (title : string) (show : A -> res string) (i : nat) (l : list A) : res string :=
  match l with
  | [] => Ok EmptyString
  | x :: l =>
      s ← show x;
      r ← print_section title show (S i) l;
      mret ("== " +:+ title +:+ " " +:+ to_string (Z.of_nat i) +:+ " ===" +:+ nl +:+ s +:+ nl +:+ r)
  end.

Definition print_items (le : ListExpr) : string :=
  foldr (fun z s => to_string z +:+ " " +:+ s) EmptyString (get_items le).

(** What [Program::print] writes to the console. *)
Definition Program_print (p : Program) : res string :=
  ls ← print_section "List" (fun le => Ok (print_items le)) 0 (listexpr_v p);
  ms ← print_section "Match" MatchExpr_stringify 0 (matchexpr_v p);
  ns ← print_section "Monitor" (fun m => Ok (Monitor_stringify m)) 0 (monitor_v p);
  mret (ls +:+ ms +:+ ns).
