(* ===== verification/Backend.v ===== *)
(** The back end of the compiler up to resource allocation
    (src/compiler/ast-tofino.c, lines 1-198 and 400-520): match expressions
    become checks, checks on one header and checks on one monitor are merged,
    and every check gets its pipeline stages.  A [vector<Check *>] into
    [check_v] is a list of indices; a method that returns -1 returns it. *)

From stdpp Require Import base list strings gmap sorting.
From Stdlib Require Import ZArith Lia Ascii.
From S2P Require Import Prelude Cxx Ast.

Definition DEFAULT_LOW : string := "0".
Definition DEFAULT_HIGH : string := "10000".
Definition MIN_ACTION_VAL : Z := 1.
Definition MAX_ACTION_VAL : Z := 15.
Definition NORMAL_ACTION_VAL : Z := MIN_ACTION_VAL.
Definition DROP_ACTION_VAL : Z := MAX_ACTION_VAL.

(** The global map [action_to_val]. *)
Definition action_table : list (string * Z) :=
  [("FWD1", 1); ("FWD2", 2); ("FWD3", 3); ("FWD4", 4); ("FWD5", 5); ("FWD6", 6);
   ("FWD7", 7); ("FWD8", 8); ("FWD9", 9); ("FWD10", 10); ("FWD11", 11);
   ("FWD12", 12); ("FWD13", 13); ("FWD14", 14); ("DROP", MAX_ACTION_VAL)]%Z.

(** [action_to_val[a]]; [operator[]] gives a missing key the value 0. *)
Definition action_to_val (a : string) : Z :=
  default 0%Z ((list_to_map action_table : gmap string Z) !! a).

(** ** From match expressions to checks *)

Definition parse_match_mon (p : Program) (me : MatchExpr) (check : Check) : res (Z * Check) :=
  mvar ← get_mvar me;
  mon ← deref (get_mon_by_name mvar p);
  let lp := mon_lp mon in
  let check :=
    set_mon_name mvar (set_header (listvar lp) (set_ctype CHECK_TYPE_MONITOR
      (set_priority DROP_ACTION_VAL (set_else_action_val DROP_ACTION_VAL
        (set_if_action_val NORMAL_ACTION_VAL check))))) in
  match get_binarypred me with
  | Some bp =>
      let check := set_extra_check 1 check in
      let check := set_extra_header (extra_header check ++ [lhs bp]) check in
      mret (0%Z, set_h_to_val (<[lhs bp := rhs bp]> (h_to_val check)) check)
  | None => mret (0%Z, set_extra_check 0 check)
  end.

Definition parse_match_list (p : Program) (me : MatchExpr) (check : Check) : res (Z * Check) :=
  olp ← get_listpred me;
  if negb (get_ifthenelse me) then mret ((-1)%Z, check) else
  lp ← deref olp;
  le ← deref (get_list_by_name (listbodyvar lp) p);
  let check := set_ctype CHECK_TYPE_LIST
                 (set_clist (get_items le) (set_header (listvar lp) check)) in
  ia ← get_if_action me;
  ea ← get_else_action me;
  let check := set_else_action_val (action_to_val ea)
                 (set_if_action_val (action_to_val ia) check) in
  let check := set_priority (if_action_val check) check in
  if negb (else_action_val check =? NORMAL_ACTION_VAL)%Z ||
     (if_action_val check =? else_action_val check)%Z
  then mret ((-1)%Z, check)
  else mret (0%Z, set_table_size (Z.of_nat (length (clist check))) check).

Definition parse_match_pred (me : MatchExpr) (check : Check) : res (Z * Check) :=
  bp ← deref (get_binarypred me);
  if negb (get_ifthenelse me) then mret ((-1)%Z, check) else
  ia ← get_if_action me;
  ea ← get_else_action me;
  let check := set_else_action_val (action_to_val ea)
                 (set_if_action_val (action_to_val ia) check) in
  let check := set_priority (if_action_val check) check in
  if negb (else_action_val check =? NORMAL_ACTION_VAL)%Z ||
     (if_action_val check =? else_action_val check)%Z
  then mret ((-1)%Z, check) else
  let check := set_header (lhs bp) check in
  if bool_decide (op bp = "==") then
    mret (0%Z, set_pred_lo (rhs bp) (set_pred_hi (rhs bp) (set_ctype CHECK_TYPE_EXACT check)))
  else if bool_decide (op bp = "<") then
    mret (0%Z, set_pred_hi (rhs bp) (set_pred_lo DEFAULT_LOW (set_ctype CHECK_TYPE_RANGE check)))
  else if bool_decide (op bp = ">") then
    mret (0%Z, set_pred_lo (rhs bp) (set_pred_hi DEFAULT_HIGH (set_ctype CHECK_TYPE_RANGE check)))
  else mret (0%Z, check).

(** The [switch] of [process_matchexprs] for one match expression. *)
Definition process_matchexpr (p : Program) (i : nat) (me : MatchExpr) : res Check :=
  '(ret, check) ←
    (if (me_type me =? MATCH_MONITOR)%Z then parse_match_mon p me Check_new
     else if (me_type me =? MATCH_PRED)%Z then parse_match_pred me Check_new
     else if (me_type me =? MATCH_LIST)%Z then parse_match_list p me Check_new
     else Err AssertFail);
  _ ← cassert (ret =? 0)%Z;
  mret (set_cid (Z.of_nat i) check).

Fixpoint process_loop (i : nat) (mes : list MatchExpr) (p : Program) : res Program :=
  match mes with
  | [] => Ok p
  | me :: r =>
      check ← process_matchexpr p i me;
      process_loop (S i) r (add_check check p)
  end.

Definition process_matchexprs (p : Program) : res Program :=
  process_loop 0 (matchexpr_v p) p.

(** ** Merging *)

(** [c->f = v] through a pointer into [check_v]. *)
Definition upd_check (i : nat) (f : Check -> Check) (p : Program) : Program :=
  p_check_v (alter f i (check_v p)) p.

Definition is_mergeable (c : Check) : bool :=
  (ctype c =? CHECK_TYPE_EXACT)%Z || (ctype c =? CHECK_TYPE_LIST)%Z.

(** The indices of the checks that satisfy [f], in order. *)
Definition find_checks (f : Check -> bool) (l : list Check) : list nat :=
  List.filter (fun i => match l !! i with Some c => f c | None => false end)
              (seq 0 (length l)).

(** The loop that gathers the list of the merged check and invalidates its
    parts. *)
Fixpoint gather_checks (checks : list nat) (acc : list Z) (p : Program)
  : res (list Z * Program) :=
  match checks with
  | [] => Ok (acc, p)
  | i :: r =>
      c ← deref (check_v p !! i);
      acc ← (if (ctype c =? CHECK_TYPE_EXACT)%Z
             then v ← stoi (pred_lo c); mret (acc ++ [v])
             else mret (acc ++ clist c));
      gather_checks r acc (upd_check i (set_ctype CHECK_TYPE_INVALID) p)
  end.

(** The check [nc] that replaces the merged ones; [id] is that of the first
    check of the header. *)
Definition merged_check (first : Check) (l : list Z) : Check :=
  set_cid (cid first) (set_table_size (Z.of_nat (length l)) (set_clist l
    (set_priority (if_action_val first) (set_else_action_val (else_action_val first)
      (set_if_action_val (if_action_val first) (set_header (header first)
        (set_ctype CHECK_TYPE_LIST Check_new))))))).

Definition merge_checks_per_header (checks : list nat) (p : Program) : res (Z * Program) :=
  first ← deref (head checks ≫= fun i => check_v p !! i);
  cs ← deref (mapM (fun i => check_v p !! i) checks);
  if existsb (fun c => negb (priority c =? priority first)%Z) cs then mret ((-1)%Z, p) else
  let checks := List.filter (fun i => match check_v p !! i with
                                      | Some c => is_mergeable c
                                      | None => false
                                      end) checks in
  if (length checks <=? 1)%nat then mret ((-1)%Z, p) else
  '(l, p) ← gather_checks checks [] p;
  mret (0%Z, add_check (merged_check first l) p).

Definition remove_invalid_checks (p : Program) : Program :=
  p_check_v (List.filter (fun c => negb (ctype c =? CHECK_TYPE_INVALID)%Z) (check_v p)) p.

(** One iteration of the loop over [header_v]. *)
Definition merge_header (h : string) (p : Program) : res Program :=
  let checks := find_checks (fun c => bool_decide (header c = h)) (check_v p) in
  if (1 <? length checks)%nat then
    '(_, p) ← merge_checks_per_header checks p; mret p
  else mret p.

Fixpoint merge_headers (hs : list string) (p : Program) : res Program :=
  match hs with
  | [] => Ok p
  | h :: r => p ← merge_header h p; merge_headers r p
  end.

Definition merge_same_headers (p : Program) : res Program :=
  p ← merge_headers (header_v p) p; mret (remove_invalid_checks p).

(** [first->extra_header.push_back(h); first->h_to_val[h] = c->h_to_val[h]]
    for every extra header of the check [c]. *)
Definition absorb_extra (c : Check) (first : Check) : Check :=
  foldl (fun f h => set_h_to_val (<[h := default EmptyString (h_to_val c !! h)]> (h_to_val f))
                      (set_extra_header (extra_header f ++ [h]) f))
        first (extra_header c).

Fixpoint absorb_checks (first : nat) (checks : list nat) (p : Program) : res Program :=
  match checks with
  | [] => Ok p
  | i :: r =>
      c ← deref (check_v p !! i);
      absorb_checks first r
        (upd_check i (set_ctype CHECK_TYPE_INVALID) (upd_check first (absorb_extra c) p))
  end.

Definition merge_monitor (m : Monitor) (p : Program) : res Program :=
  let checks := find_checks (fun c => (ctype c =? CHECK_TYPE_MONITOR)%Z &&
                                      bool_decide (mon_name c = mon_mvar m)) (check_v p) in
  match checks with
  | first :: (_ :: _) as rest =>
      p ← absorb_checks first rest p;
      mret (upd_check first
              (fun f => set_table_size (Z.of_nat (length (extra_header f))) f) p)
  | _ => mret p
  end.

Fixpoint merge_monitors_loop (ms : list Monitor) (p : Program) : res Program :=
  match ms with
  | [] => Ok p
  | m :: r => p ← merge_monitor m p; merge_monitors_loop r p
  end.

Definition merge_monitors (p : Program) : res Program :=
  p ← merge_monitors_loop (monitor_v p) p; mret (remove_invalid_checks p).

(** ** Resource allocation *)

(** The [switch] on the type of the check. *)
Definition stages_needed (c : Check) : res Z :=
  if (ctype c =? CHECK_TYPE_EXACT)%Z then Ok NUM_STAGE_EXACT
  else if (ctype c =? CHECK_TYPE_RANGE)%Z then Ok NUM_STAGE_RANGE
  else if (ctype c =? CHECK_TYPE_LIST)%Z then Ok NUM_STAGE_RANGE
  else if (ctype c =? CHECK_TYPE_MONITOR)%Z then Ok NUM_STAGE_MONITOR
  else Err AssertFail.

(** The loop over [check_v]: the checks with their stages, and the final
    [curr_rec] and [curr_stage]. *)
Fixpoint allocate_loop (cs : list Check) (curr_rec curr_stage : Z)
  : res (list Check * Z * Z) :=
  match cs with
  | [] => Ok ([], curr_rec, curr_stage)
  | c :: r =>
      need ← stages_needed c;
      let '(curr_rec, curr_stage) :=
        (if curr_stage + need >? stages_per_rec then (curr_rec + 1, 0)
         else (curr_rec, curr_stage))%Z in
      let c := set_rec curr_rec (set_stage_num need (set_start_stage curr_stage c)) in
      '(r, cr, cs) ← allocate_loop r curr_rec (curr_stage + need)%Z;
      mret (c :: r, cr, cs)
  end.

Definition allocate_resources (p : Program) : res (Z * Program) :=
  '(cs, cr, cst) ← allocate_loop (check_v p) (curr_rec p) (curr_stage p);
  let p := p_curr_stage cst (p_curr_rec cr (p_check_v cs p)) in
  if (cr >=? max_rec_times)%Z then mret ((-1)%Z, p) else mret (0%Z, p).
