(* ===== verification/Codegen.v ===== *)
(** Code generation (src/compiler/ast-tofino.c, lines 13-22, 200-398 and
    522-547): the P4 program and the switch commands as text, and
    [compile_tofino].  The two output files are the strings returned; the
    text of ./templates/monitor_template.p4, which the compiler reads at run
    time, is an argument. *)

From stdpp Require Import base list strings gmap sorting.
From Stdlib Require Import ZArith Lia Ascii.
From S2P Require Import Prelude Cxx Ast Backend.


(** ** [ReplaceStringInPlace] *)

(** The [while] loop, from position [pos].  With a nonempty [search] every
    iteration moves past at least one character of the original subject, so
    its length plus one is enough fuel. *)
Fixpoint replace_loop (fuel : nat) (subject search replace : string) (pos : nat)
  : res string :=
  match fuel with
  | O => Err NoFuel
  | S f =>
      match str_find subject search pos with
      | Some pos =>
          replace_loop f (str_replace subject pos (String.length search) replace)
            search replace (pos + String.length replace)
      | None => Ok subject
      end
  end.

Definition ReplaceStringInPlace (subject search replace : string) : res string :=
  replace_loop (S (String.length subject)) subject search replace 0.

(** ** The P4 program *)

Definition header_field (c : Check) : string :=
  "      " +:+ header c +:+ " : " +:+ to_string (field_len c) +:+ ";" +:+ nl.

Definition concat_strings (l : list string) : string :=
  foldr String.append EmptyString l.

Definition generate_header_def (p : Program) : string :=
  let defs := unique (insertion_sort string_lt (header_field <$> check_v p)) in
  "header_type poise_h_t{" +:+ nl +:+ "   fields {" +:+ nl
  +:+ concat_strings defs
  +:+ "   }" +:+ nl +:+ "}" +:+ nl +:+ nl.

Definition is_table_check (c : Check) : bool :=
  (ctype c =? CHECK_TYPE_RANGE)%Z || (ctype c =? CHECK_TYPE_EXACT)%Z
  || (ctype c =? CHECK_TYPE_LIST)%Z.

(** ["eval_" + base + "_tab_rec" + rec + "_id" + id]. *)
Definition eval_table_name (base : string) (c : Check) : string :=
  "eval_" +:+ base +:+ "_tab_rec" +:+ to_string (rec c) +:+ "_id" +:+ to_string (cid c).

Definition table_text (c : Check) : string :=
  "table " +:+ table_name c +:+ " {" +:+ nl
  +:+ "   reads {" +:+ nl
  +:+ "      poise_h." +:+ header c +:+ " : "
  +:+ (if (ctype c =? CHECK_TYPE_RANGE)%Z then "range" else "exact") +:+ ";" +:+ nl
  +:+ "   }" +:+ nl
  +:+ "   actions {set_ctx_dec; nop;}" +:+ nl
  +:+ "   default_action: nop;" +:+ nl
  +:+ "   size: " +:+ to_string (table_size c) +:+ ";" +:+ nl
  +:+ "}" +:+ nl +:+ nl.

Definition extra_text (c : Check) : string :=
  concat_strings ((fun h => "        poise_h." +:+ h +:+ " : exact;" +:+ nl) <$> extra_header c).

Definition monitor_text (mon_template : string) (c : Check) : res string :=
  mon ← ReplaceStringInPlace mon_template "MONNAME" (mon_name c);
  mon ← ReplaceStringInPlace mon "HNAME" (header c);
  mon ← ReplaceStringInPlace mon "TIMEOUTVAL" (to_string (timeout_val c));
  mon ← ReplaceStringInPlace mon "RECNUM" (to_string (rec c));
  mon ← ReplaceStringInPlace mon "IDNUM" (to_string (cid c));
  if negb (extra_check c =? 0)%Z
  then ReplaceStringInPlace mon "EXTRA_CHECK" (extra_text c)
  else ReplaceStringInPlace mon "EXTRA_CHECK" EmptyString.

(** One iteration of [generate_table_def]: the check with its table name,
    and the text it adds. *)
Definition generate_table (mon_template : string) (c : Check) : res (Check * string) :=
  if is_table_check c then
    let c := set_table_name (eval_table_name (header c) c) c in
    mret (c, table_text c)
  else if (ctype c =? CHECK_TYPE_MONITOR)%Z then
    let c := set_table_name (eval_table_name (mon_name c) c) c in
    t ← monitor_text mon_template c; mret (c, t)
  else Err AssertFail.

Fixpoint generate_tables (mon_template : string) (cs : list Check)
  : res (list Check * string) :=
  match cs with
  | [] => Ok ([], EmptyString)
  | c :: r =>
      '(c, t) ← generate_table mon_template c;
      '(r, tr) ← generate_tables mon_template r;
      mret (c :: r, t +:+ tr)
  end.

Definition generate_table_def (mon_template : string) (p : Program) : res (Program * string) :=
  '(cs, t) ← generate_tables mon_template (check_v p); mret (p_check_v cs p, t).

Definition apply_text (t : string) : string := "      apply(" +:+ t +:+ ");" +:+ nl.

Definition monitor_apply_text (m : string) : string :=
  "      apply(monitor_" +:+ m +:+ "_tab) {" +:+ nl
  +:+ "         hit {" +:+ nl
  +:+ "            apply(update_" +:+ m +:+ "_tab);" +:+ nl
  +:+ "         }" +:+ nl
  +:+ "         miss {" +:+ nl
  +:+ "            apply(check_" +:+ m +:+ "_active_tab);" +:+ nl
  +:+ "         }" +:+ nl
  +:+ "      }" +:+ nl.

(** The loop of [generate_eval_ctx] from the recirculation round [prev_rec]. *)
Fixpoint eval_ctx_loop (cs : list Check) (prev_rec : Z) : res string :=
  match cs with
  | [] => Ok EmptyString
  | c :: r =>
      let t := if negb (rec c =? prev_rec)%Z then
                 "   }" +:+ nl +:+ "   else if (log.recir_counter == "
                 +:+ to_string (rec c) +:+ ") {" +:+ nl
               else EmptyString in
      let prev_rec := if negb (rec c =? prev_rec)%Z then rec c else prev_rec in
      body ← (if is_table_check c then mret (apply_text (table_name c))
              else if (ctype c =? CHECK_TYPE_MONITOR)%Z then
                mret (monitor_apply_text (mon_name c) +:+ apply_text (table_name c))
              else Err AssertFail);
      rest ← eval_ctx_loop r prev_rec;
      mret (t +:+ body +:+ rest)
  end.

Definition generate_eval_ctx (p : Program) : res string :=
  body ← eval_ctx_loop (check_v p) 0;
  mret ("control EvaluateContext" +:+ nl +:+ "{" +:+ nl
        +:+ "   if (log.recir_counter == 0) {" +:+ nl
        +:+ body
        +:+ "   }" +:+ nl +:+ nl
        +:+ "   if (log.recir_counter < RECIR_TIMES) {" +:+ nl
        +:+ "      apply(do_recirculate_tab);" +:+ nl
        +:+ "   } else {" +:+ nl
        +:+ "      apply(drop1_tab);" +:+ nl
        +:+ "   }" +:+ nl +:+ "}" +:+ nl).

(** ** The switch commands *)

Definition exact_cmd (c : Check) (v : string) : string :=
  "pd " +:+ table_name c +:+ " add_entry set_ctx_dec"
  +:+ " poise_h_" +:+ header c +:+ " " +:+ v
  +:+ " action_x " +:+ to_string (if_action_val c) +:+ nl.

Definition range_cmd (c : Check) : string :=
  "pd " +:+ table_name c +:+ " add_entry set_ctx_dec"
  +:+ " poise_h_" +:+ header c +:+ "_start " +:+ pred_lo c
  +:+ " poise_h_" +:+ header c +:+ "_end " +:+ pred_hi c
  +:+ " priority 0"
  +:+ " action_x " +:+ to_string (if_action_val c)
  +:+ " entry_hdl 1" +:+ nl.

Definition monitor_cmd (c : Check) (middle : string) : string :=
  ("pd " +:+ table_name c +:+ " add_entry set_ctx_dec " +:+ mon_name c +:+ "_meta_active 0")
  +:+ middle +:+ (" action_x " +:+ to_string (else_action_val c) +:+ nl).

Definition check_cmd (c : Check) : string :=
  if (ctype c =? CHECK_TYPE_EXACT)%Z then exact_cmd c (pred_hi c)
  else if (ctype c =? CHECK_TYPE_RANGE)%Z then range_cmd c
  else if (ctype c =? CHECK_TYPE_LIST)%Z then
    concat_strings ((fun e => exact_cmd c (to_string e)) <$> clist c)
  else if (ctype c =? CHECK_TYPE_MONITOR)%Z then
    if negb (extra_check c =? 0)%Z then
      concat_strings
        ((fun h => monitor_cmd c (" poise_h_" +:+ h +:+ " "
                                  +:+ default EmptyString (h_to_val c !! h)))
           <$> extra_header c)
    else monitor_cmd c EmptyString
  else EmptyString.

Definition generate_cmd (p : Program) : string :=
  concat_strings (check_cmd <$> check_v p) +:+ nl.

(** ** [generate_p4] and [compile_tofino] *)

Definition p4_header (p : Program) : string :=
  "#ifndef POLICY_P4" +:+ nl +:+ "#define POLICY_P4" +:+ nl
  +:+ nl +:+ "#define RECIR_TIMES " +:+ to_string (curr_rec p) +:+ nl +:+ nl.

Section Compile.
Context `{SORT : !StdSort check_lt} (mon_template : string).

(** Sorting, allocation and the text of the P4 file; the file is the
    string returned. *)
Definition generate_p4 (p : Program) : res (Program * string) :=
  let p := p_check_v (std_sort (check_v p)) p in
  '(ret, p) ← allocate_resources p;
  _ ← cassert (ret =? 0)%Z;
  let header_def := generate_header_def p in
  '(p, table_def) ← generate_table_def mon_template p;
  eval_ctx ← generate_eval_ctx p;
  mret (p, p4_header p +:+ header_def +:+ table_def +:+ eval_ctx +:+ "#endif" +:+ nl).

(** The optimised checks of a parsed program. *)
Definition optimise (p : Program) : res Program :=
  let '(p, _) := count_headers p in
  p ← process_matchexprs p;
  p ← merge_same_headers p;
  merge_monitors p.

(** The whole back end: the final program, the P4 file and the command
    file. *)
Definition compile_tofino (p : Program) : res (Program * string * string) :=
  p ← optimise p;
  '(p, p4) ← generate_p4 p;
  mret (p, p4, generate_cmd p).
End Compile.
