(* ===== verification/TextProps.v ===== *)
(** Correctness of [ReplaceStringInPlace]: the loop over [find] and [replace]
    ends, and computes the left-to-right replacement of every occurrence. *)

From stdpp Require Import base list strings.
From Stdlib Require Import ZArith Lia Ascii.
From S2P Require Import Prelude Cxx Ast Backend Codegen.

(** The reference: scan the text once; at an occurrence of [search] emit
    [rep] and continue behind it, otherwise emit the character.  [skip]
    counts the characters of the last occurrence still to pass over. *)
Fixpoint replace_all (search rep : string) (skip : nat) (s : string) : string :=
  match s with
  | EmptyString => EmptyString
  | String c r =>
      match skip with
      | S k => replace_all search rep k r
      | O => if String.prefix search s
             then rep +:+ replace_all search rep (pred (String.length search)) r
             else String c (replace_all search rep 0 r)
      end
  end.

(** ** Strings cut at a position *)

Lemma append_cons c a b : String c a +:+ b = String c (a +:+ b).
Proof. done. Qed.

Lemma append_assoc a b c : (a +:+ b) +:+ c = a +:+ (b +:+ c).
Proof. induction a as [|x a IH]; [done|]. rewrite !append_cons. by rewrite IH. Qed.

Lemma append_nil a : a +:+ EmptyString = a.
Proof. induction a as [|x a IH]; [done|]. rewrite append_cons. by rewrite IH. Qed.

Lemma length_append a b : String.length (a +:+ b) = (String.length a + String.length b)%nat.
Proof. induction a as [|x a IH]; [done|]. rewrite append_cons. cbn. by rewrite IH. Qed.

Lemma substring_app a b : String.substring 0 (String.length a) (a +:+ b) = a.
Proof.
  induction a as [|x a IH]; [by destruct b|]. rewrite append_cons. cbn. by rewrite IH.
Qed.

Lemma substring_all b : String.substring 0 (String.length b) b = b.
Proof. by rewrite <- (append_nil b) at 2; rewrite substring_app. Qed.

Lemma str_drop_app a b : str_drop (String.length a) (a +:+ b) = b.
Proof.
  unfold str_drop. rewrite length_append, Nat.add_comm, Nat.add_sub.
  induction a as [|x a IH]; [apply substring_all|]. rewrite append_cons. exact IH.
Qed.

Lemma str_replace_app a s b r :
  str_replace (a +:+ (s +:+ b)) (String.length a) (String.length s) r = a +:+ (r +:+ b).
Proof.
  unfold str_replace. rewrite substring_app, <- length_append, <- (append_assoc a s b).
  by rewrite str_drop_app.
Qed.

(** ** [find] *)

Lemma find_shift a b s :
  str_find (a +:+ b) s (String.length a) =
  (fun k => String.length a + k)%nat <$> str_find b s 0.
Proof.
  induction a as [|x a IH]; [change (EmptyString +:+ b) with b; cbn [String.length]; by destruct (str_find b s 0)|].
  rewrite append_cons. unfold str_find in *. cbn [String.index String.length]. rewrite IH.
  by destruct (String.index 0 s b).
Qed.

Lemma prefix_app s b : String.prefix s b = true <-> exists r, b = s +:+ r.
Proof.
  split.
  - revert b. induction s as [|x s IH]; intros b H; [by exists b|].
    destruct b as [|y b]; [done|]. cbn in H. destruct (ascii_dec x y); [|done]. subst.
    destruct (IH b H) as [r ->]. by exists r.
  - intros [r ->]. induction s as [|x s IH]; [by destruct r|]. rewrite append_cons. cbn.
    by destruct (ascii_dec x x).
Qed.

Section Replace.
Context (search rep : string) (NONEMPTY : search <> EmptyString).

Lemma replace_all_skip a b : replace_all search rep (String.length a) (a +:+ b) =
                             replace_all search rep 0 b.
Proof. induction a as [|x a IH]; [done|]. rewrite append_cons. exact IH. Qed.

Lemma replace_all_occurrence b :
  replace_all search rep 0 (search +:+ b) = rep +:+ replace_all search rep 0 b.
Proof.
  destruct search as [|x s] eqn:E; [done|]. rewrite append_cons, <- E.
  cbn [replace_all]. rewrite <- append_cons, <- E at 1.
  rewrite (proj2 (prefix_app _ _)) by by eexists.
  f_equal. rewrite E. cbn [String.length pred]. rewrite <- E. apply replace_all_skip.
Qed.

(** The first occurrence, as [find] gives it. *)
Lemma find_split b :
  match str_find b search 0 with
  | Some k => exists pre post, b = pre +:+ (search +:+ post) /\ String.length pre = k /\
                replace_all search rep 0 b = pre +:+ (rep +:+ replace_all search rep 0 post)
  | None => replace_all search rep 0 b = b
  end.
Proof.
  induction b as [|x b IH]; unfold str_find in *.
  - destruct search; [done|]. done.
  - cbn [String.index]. destruct (String.prefix search (String x b)) eqn:P.
    + apply prefix_app in P as [r Hr]. exists EmptyString, r. rewrite Hr.
      repeat split. apply replace_all_occurrence.
    + cbn [replace_all]. rewrite P. destruct (String.index 0 search b) as [k|].
      * destruct IH as (pre & post & -> & L & E). exists (String x pre), post.
        rewrite !append_cons, E. cbn. by rewrite L.
      * by rewrite IH.
Qed.

Lemma replace_loop_spec fuel : forall front b,
  (String.length b < fuel)%nat ->
  replace_loop fuel (front +:+ b) search rep (String.length front) =
  Ok (front +:+ replace_all search rep 0 b).
Proof.
  induction fuel as [|f IH]; intros front b L; [lia|]. cbn [replace_loop].
  rewrite find_shift. pose proof (find_split b) as Hs.
  destruct (str_find b search 0) as [k|]; cbn; [|by rewrite Hs].
  destruct Hs as (pre & post & -> & <- & ->).
  rewrite <- length_append, <- (append_assoc front pre), str_replace_app.
  rewrite <- length_append, <- (append_assoc _ rep), IH.
  - by rewrite !append_assoc.
  - rewrite !length_append in L. destruct search; [done|]. cbn in L. lia.
Qed.
End Replace.

Lemma ReplaceStringInPlace_eq subject search replace :
  search <> EmptyString ->
  ReplaceStringInPlace subject search replace = Ok (replace_all search replace 0 subject).
Proof.
  intros H. unfold ReplaceStringInPlace.
  exact (replace_loop_spec search replace H _ EmptyString subject (Nat.lt_succ_diag_r _)).
Qed.

(** C29: for a nonempty search string [ReplaceStringInPlace] always ends, and
    its result is the subject with every occurrence replaced, scanning from
    left to right and never looking into text already replaced. *)
Theorem ReplaceStringInPlace_spec subject search replace :
  search <> EmptyString ->
  ReplaceStringInPlace subject search replace = Ok (replace_all search replace 0 subject).
Proof. apply ReplaceStringInPlace_eq. Qed.

Lemma ReplaceStringInPlace_spec_witness :
  ReplaceStringInPlace "monitor_MONNAME_tab" "MONNAME" "m0" = Ok "monitor_m0_tab".
Proof. exact (ReplaceStringInPlace_spec "monitor_MONNAME_tab" "MONNAME" "m0" ltac:(done)). Defined.
