(* ===== verification/AllocProps.v ===== *)
(** Correctness of [allocate_resources]: every check gets a window of pipeline
    stages that fits in one round, windows of one round do not overlap, rounds
    only grow along the sequence of checks, and no placement of the checks in
    this order uses fewer rounds. *)

From stdpp Require Import base list strings gmap sorting.
From Stdlib Require Import ZArith Lia Ascii.
From S2P Require Import Prelude Cxx Ast Backend.

(** ** The specification *)

(** The window of a check lies within one round. *)
Definition window_ok (c : Check) : Prop :=
  (0 <= start_stage c)%Z /\ (0 < stage_num c)%Z /\
  (start_stage c + stage_num c <= stages_per_rec)%Z /\ (0 <= rec c)%Z.

(** [c] is placed before [d]: in an earlier round, or in the same round with
    its window before that of [d]. *)
Definition placed_before (c d : Check) : Prop :=
  (rec c < rec d)%Z \/
  (rec c = rec d /\ (start_stage c + stage_num c <= start_stage d)%Z).

(** The allocation writes only the three resource fields. *)
Definition same_but_stages (c d : Check) : Prop :=
  d = set_rec (rec d) (set_stage_num (stage_num d) (set_start_stage (start_stage d) c)).

(** The stages a check takes: three for a monitor (its own table, its register
    and its evaluation), one for a table. *)
Definition window_length (c : Check) : Z := if (ctype c =? CHECK_TYPE_MONITOR)%Z then 3 else 1.

(** A placement of the checks: in order, each within one round and with the
    stages it takes. *)
Definition placement (cs ds : list Check) : Prop :=
  Forall2 same_but_stages cs ds /\ Forall window_ok ds /\
  Forall (fun d => stage_num d = window_length d) ds /\ StronglySorted placed_before ds.

(** ** Proofs *)

Lemma stages_needed_range c n : stages_needed c = Ok n -> (1 <= n <= 3)%Z.
Proof.
  unfold stages_needed, NUM_STAGE_EXACT, NUM_STAGE_RANGE, NUM_STAGE_MONITOR.
  repeat case_match; intros; simplify_eq; lia.
Qed.

Lemma stages_needed_length c n : stages_needed c = Ok n -> n = window_length c.
Proof.
  unfold stages_needed, window_length, NUM_STAGE_EXACT, NUM_STAGE_RANGE, NUM_STAGE_MONITOR. intros H.
  destruct (Z.eqb_spec (ctype c) CHECK_TYPE_MONITOR) as [E|E]; [rewrite E in H; by injection H|].
  repeat case_match; simplify_eq; done.
Qed.

(** Everything the loop allocates from [curr_rec], [curr_stage] on starts
    there or later, and ends before the final position. *)
Lemma allocate_loop_spec cs : forall cr0 st0 ds cr st,
  (0 <= cr0)%Z -> (0 <= st0 <= stages_per_rec)%Z ->
  allocate_loop cs cr0 st0 = Ok (ds, cr, st) ->
  placement cs ds /\ (cr0 <= cr)%Z /\ (0 <= st <= stages_per_rec)%Z /\
  Forall (fun d => (rec d <= cr)%Z /\
                   ((cr0 < rec d)%Z \/ (rec d = cr0 /\ (st0 <= start_stage d)%Z))) ds.
Proof.
  induction cs as [|c cs IH]; intros cr0 st0 ds cr st Hcr Hst H.
  - simpl in H. simplify_eq. repeat split; try constructor; lia.
  - cbn [allocate_loop] in H. apply bind_Ok in H as (need & Hneed & H).
    pose proof (stages_needed_length c need Hneed) as Hlen. apply stages_needed_range in Hneed.
    destruct (if (st0 + need >? stages_per_rec)%Z then (cr0 + 1, 0)%Z else (cr0, st0))
      as [cr1 st1] eqn:E1.
    assert (Hpos : (cr0 <= cr1)%Z /\ (0 <= st1)%Z /\ (st1 + need <= stages_per_rec)%Z /\
                   (cr1 = cr0 /\ st1 = st0 \/ cr1 = cr0 + 1)%Z).
    { unfold stages_per_rec in *. destruct (Z.gtb_spec (st0 + need) 7); simplify_eq; lia. }
    destruct Hpos as (Hp1 & Hp2 & Hp3 & Hp4).
    apply bind_Ok in H as ([[r cr'] st'] & Hr & H). injection H as <- <- <-.
    destruct (IH cr1 (st1 + need)%Z r cr' st' ltac:(lia) ltac:(lia) Hr)
      as ((F1 & F2 & F4 & F3) & G1 & G2 & G3).
    split; [|split; [lia|split; [lia|]]].
    + split; [by constructor|]. split; [constructor; [|done]; repeat split; simpl; lia|].
      split; [by constructor|]. constructor; [done|]. eapply Forall_impl; [exact G3|]. intros d (_ & [Hd|[Hd1 Hd2]]).
      * left. simpl. lia.
      * right. simpl. lia.
    + constructor; [simpl; lia|]. eapply Forall_impl; [exact G3|]. intros d (H1 & Hd).
      split; [lia|]. destruct Hp4 as [[-> ->]| ->]; lia.
Qed.

Lemma allocate_loop_total cs : forall cr0 st0,
  Forall (fun c => exists n, stages_needed c = Ok n) cs ->
  exists r, allocate_loop cs cr0 st0 = Ok r.
Proof.
  induction cs as [|c cs IH]; intros cr0 st0 H; [by eexists|].
  apply Forall_cons in H as [[n Hn] H]. cbn [allocate_loop]. rewrite Hn. cbn [mbind res_bind].
  case_match. destruct (IH z (z0 + n)%Z H) as [[[r cr] st] ->]. by eexists.
Qed.

(** The checks a stage can be found for. *)
Definition known_type (c : Check) : bool :=
  (CHECK_TYPE_EXACT <=? ctype c)%Z && (ctype c <=? CHECK_TYPE_MONITOR)%Z.

Lemma stages_needed_known c : known_type c = true -> exists n, stages_needed c = Ok n.
Proof.
  unfold known_type, stages_needed, CHECK_TYPE_EXACT, CHECK_TYPE_RANGE, CHECK_TYPE_LIST, CHECK_TYPE_MONITOR.
  intros [H1%Z.leb_le H2%Z.leb_le]%andb_true_iff.
  assert (ctype c = 1 \/ ctype c = 2 \/ ctype c = 3 \/ ctype c = 4)%Z as [E|[E|[E|E]]] by lia;
    rewrite E; eexists; reflexivity.
Qed.

(** The position [(r, s)] is not before the position [(r0, s0)]. *)
Definition not_before (r0 s0 r s : Z) : Prop := (r0 < r \/ r0 = r /\ s0 <= s)%Z.

(** The loop is never behind another placement: if the loop starts at or before
    a position, and [ds'] places the checks behind that position, every check
    ends up in a round no later than in [ds']. *)
Lemma allocate_loop_minimal cs : forall cr0 st0 r0 s0 ds cr st ds' B,
  (0 <= st0)%Z -> not_before cr0 st0 r0 s0 -> (cr0 <= B)%Z ->
  allocate_loop cs cr0 st0 = Ok (ds, cr, st) -> placement cs ds' ->
  Forall (fun d' => not_before r0 s0 (rec d') (start_stage d')) ds' -> Forall (fun d' => rec d' <= B)%Z ds' ->
  Forall2 (fun d d' => rec d <= rec d')%Z ds ds' /\ (cr <= B)%Z.
Proof.
  induction cs as [|c cs IH]; intros cr0 st0 r0 s0 ds cr st ds' B Hst Hp HB H (F1 & F2 & F3 & F4) Hs Hle.
  - cbn in H. simplify_eq. inversion F1; subst. split; [constructor|done].
  - cbn [allocate_loop] in H. apply bind_Ok in H as (need & Hneed & H). apply stages_needed_length in Hneed.
    inversion F1 as [|? d' ? ds1 Hd F1']; subst.
    apply Forall_cons in F2 as [(W1 & W2 & W3 & _) F2], F3 as [Hn F3], Hs as [Hs1 Hs], Hle as [HB1 Hle].
    apply StronglySorted_inv in F4 as [F4 Hf].
    assert (Hn' : stage_num d' = window_length c) by (rewrite Hn; by rewrite Hd).
    assert (1 <= window_length c)%Z by (clear; unfold window_length; destruct (_ =? _)%Z; lia).
    unfold not_before, stages_per_rec in *.
    destruct (Z.gtb_spec (st0 + window_length c) 7) as [G|G];
      apply bind_Ok in H as ([[r cr'] st'] & Hr & H); injection H as <- <- <-.
    + destruct (IH (cr0 + 1)%Z (0 + window_length c)%Z (rec d') (start_stage d' + stage_num d')%Z r cr' st' ds1 B) as [I1 I2];
        [lia|lia|lia|exact Hr|by split| |done|].
      * eapply Forall_impl; [exact Hf|]. intros x [?|[? ?]]; lia.
      * split; [|done]. constructor; [|done]. cbn. lia.
    + destruct (IH cr0 (st0 + window_length c)%Z (rec d') (start_stage d' + stage_num d')%Z r cr' st' ds1 B) as [I1 I2];
        [lia|lia|lia|exact Hr|by split| |done|].
      * eapply Forall_impl; [exact Hf|]. intros x [?|[? ?]]; lia.
      * split; [|done]. constructor; [|done]. cbn. lia.
Qed.

(** C9: for a program of checks of known types that are not yet allocated,
    [allocate_resources] succeeds and gives every check the stages it takes
    (three for a monitor, one for a table) inside one round of seven, in the
    order of the checks and without overlap, and changes nothing else.  No
    placement in this order has any check in an earlier round; it returns 0
    exactly when some placement fits the first eight rounds. *)
Theorem allocate_resources_correct (p : Program) :
  curr_rec p = 0%Z -> curr_stage p = 0%Z -> forallb known_type (check_v p) = true ->
  exists ret p', allocate_resources p = Ok (ret, p') /\
  placement (check_v p) (check_v p') /\
  (forall ds, placement (check_v p) ds -> Forall2 (fun c d => rec c <= rec d)%Z (check_v p') ds) /\
  (ret = 0%Z <-> exists ds, placement (check_v p) ds /\ Forall (fun d => rec d < 8)%Z ds) /\
  (ret = 0%Z \/ ret = (-1)%Z) /\
  Forall (fun c => rec c <= curr_rec p')%Z (check_v p').
Proof.
  intros Hr Hs Hk. unfold allocate_resources. rewrite Hr, Hs.
  destruct (allocate_loop_total (check_v p) 0 0) as [[[ds cr] st] Hl].
  { apply Forall_forall. intros c Hc. apply stages_needed_known.
    rewrite forallb_forall in Hk. by apply Hk, list_elem_of_In. }
  rewrite Hl, bind_ret_l.
  destruct (allocate_loop_spec (check_v p) 0 0 ds cr st ltac:(lia) ltac:(by vm_compute) Hl)
    as (Hp & Hc0 & _ & Hb).
  assert (Hle : Forall (fun c => rec c <= cr)%Z ds)
    by (eapply Forall_impl; [exact Hb|]; by intros d [? _]).
  assert (Hm : forall ds' B, (0 <= B)%Z -> placement (check_v p) ds' -> Forall (fun d => rec d <= B)%Z ds' ->
    Forall2 (fun d d' => rec d <= rec d')%Z ds ds' /\ (cr <= B)%Z).
  { intros ds' B HB Hd HL. apply (allocate_loop_minimal (check_v p) 0 0 0 0 ds cr st ds' B); try done.
    - right. lia.
    - destruct Hd as (_ & W & _). eapply Forall_impl; [exact W|]. intros d (? & _ & _ & ?). unfold not_before. lia. }
  assert (Hmin : forall ds', placement (check_v p) ds' -> Forall2 (fun d d' => rec d <= rec d')%Z ds ds').
  { intros ds' Hd. apply (Hm ds' (foldr Z.max 0 (rec <$> ds'))%Z); [|done|].
    - clear. induction ds'; cbn; lia.
    - clear. induction ds' as [|d l IH]; constructor; cbn; [lia|]. eapply Forall_impl; [exact IH|]. cbn. lia. }
  assert (H8 : (cr < 8)%Z <-> exists ds', placement (check_v p) ds' /\ Forall (fun d => rec d < 8)%Z ds').
  { split.
    - intros H. exists ds. split; [done|]. eapply Forall_impl; [exact Hle|]. cbn. lia.
    - intros (ds' & Hd & H). destruct (Hm ds' 7%Z) as [_ ?]; [lia|done| |lia].
      eapply Forall_impl; [exact H|]. cbn. lia. }
  unfold max_rec_times. destruct (Z.geb_spec cr 8); (do 2 eexists; split; [reflexivity|]); cbn [check_v p_check_v p_curr_rec p_curr_stage curr_rec];
    (split; [done|]; split; [done|]; split; [|split; [|done]]; [rewrite <- H8; lia|lia]).
Qed.

(** Nine checks of one stage each: two rounds. *)
Definition nine_checks : Program :=
  p_check_v (replicate 9 (set_ctype CHECK_TYPE_EXACT Check_new)) Program_new.

Lemma allocate_resources_correct_witness :
  exists ret p', allocate_resources nine_checks = Ok (ret, p') /\
                 placement (check_v nine_checks) (check_v p').
Proof.
  destruct (allocate_resources_correct nine_checks eq_refl eq_refl eq_refl) as (ret & p' & E & H & _).
  exists ret, p'. by split.
Defined.
