(* ===== verification/Switch.v ===== *)
(** What the two generated files mean on the switch.  The P4 text declares
    tables and a small control program (a chain of rounds, each applying
    tables), the command text is the printing of table entries; running the
    control program over the entries, one recirculation after another, gives
    the decision [log.ctx_dec] that the last hit wrote.  The tables of a
    monitor are run as src/compiler/templates/monitor_template.p4 declares
    them: a register holds the time of the last packet that hit the monitor's
    own table.  This is the target language of the compiler;
    src/compiler/templates/recir_template.p4 defines [set_ctx_dec] and
    [do_recirculate]. *)

From stdpp Require Import base list strings gmap sorting.
From Stdlib Require Import ZArith Lia Ascii.
From S2P Require Import Prelude Cxx Ast Backend Codegen TextProps AllocProps.

(** ** The target language *)

(** What the keys of a table see of a packet: the fields of [poise_h], and for
    each monitor its metadata field [active]. *)
Record env : Type := mkEnv { hdr : string -> Z; active : string -> Z }.

(** A field that a table reads, with its kind of match. *)
Inductive field : Type :=
| FExact (h : string)
| FRange (h : string)
| FActive (m : string).

#[export] Instance field_eq_dec : EqDecision field.
Proof. solve_decision. Defined.

Record table : Type := mkTable { t_name : string; t_reads : list field; t_size : Z }.

(** A match key of an entry, with the text the command gives. *)
Inductive key : Type :=
| KExact (h v : string)
| KRange (h lo hi : string)
| KActive (m : string).

Definition key_field (k : key) : field :=
  match k with KExact h _ => FExact h | KRange h _ _ => FRange h | KActive m => FActive m end.

(** [set_ctx_dec(x)] and [nop]. *)
Inductive action : Type :=
| SetCtxDec (x : Z)
| Nop.

Record entry : Type := mkEntry { e_table : string; e_keys : list key; e_action : action }.

Inductive stmt : Type :=
| Apply (t : string)
| ApplyMonitor (m : string).

(** The branches [if (log.recir_counter == r) {...} else if ...]. *)
Definition control : Type := list (Z * list stmt).

(** *** Printing *)

Definition print_key (k : key) : string :=
  match k with
  | KExact h v => " poise_h_" +:+ h +:+ " " +:+ v
  | KRange h lo hi =>
      " poise_h_" +:+ h +:+ "_start " +:+ lo +:+ " poise_h_" +:+ h +:+ "_end " +:+ hi
      +:+ " priority 0"
  | KActive m => " " +:+ m +:+ "_meta_active 0"
  end.

Definition is_range_key (k : key) : bool :=
  match k with KRange _ _ _ => true | _ => false end.

Definition print_entry (e : entry) : string :=
  "pd " +:+ e_table e +:+ " add_entry "
  +:+ match e_action e with SetCtxDec _ => "set_ctx_dec" | Nop => "nop" end
  +:+ concat_strings (print_key <$> e_keys e)
  +:+ match e_action e with SetCtxDec x => " action_x " +:+ to_string x | Nop => EmptyString end
  +:+ (if existsb is_range_key (e_keys e) then " entry_hdl 1" else EmptyString) +:+ nl.

(** A field of [poise_h] in the [reads] of a table. *)
Definition print_field (f : field) : string :=
  match f with
  | FExact h => "      poise_h." +:+ h +:+ " : exact;" +:+ nl
  | FRange h => "      poise_h." +:+ h +:+ " : range;" +:+ nl
  | FActive m => "      " +:+ m +:+ "_meta.active : exact;" +:+ nl
  end.

Definition print_table (t : table) : string :=
  "table " +:+ t_name t +:+ " {" +:+ nl +:+ "   reads {" +:+ nl
  +:+ concat_strings (print_field <$> t_reads t)
  +:+ "   }" +:+ nl +:+ "   actions {set_ctx_dec; nop;}" +:+ nl +:+ "   default_action: nop;" +:+ nl
  +:+ "   size: " +:+ to_string (t_size t) +:+ ";" +:+ nl +:+ "}" +:+ nl +:+ nl.

Definition print_stmt (s : stmt) : string :=
  match s with
  | Apply t => apply_text t
  | ApplyMonitor m => monitor_apply_text m
  end.

Definition print_stmts (ss : list stmt) : string := concat_strings (print_stmt <$> ss).

Definition print_branch (b : Z * list stmt) : string :=
  "   }" +:+ nl +:+ "   else if (log.recir_counter == " +:+ to_string (fst b) +:+ ") {" +:+ nl
  +:+ print_stmts (snd b).

(** The control block for a first branch and the later ones. *)
Definition print_control (first : list stmt) (bs : control) : string :=
  "control EvaluateContext" +:+ nl +:+ "{" +:+ nl
  +:+ "   if (log.recir_counter == 0) {" +:+ nl
  +:+ (print_stmts first +:+ concat_strings (print_branch <$> bs))
  +:+ "   }" +:+ nl +:+ nl
  +:+ "   if (log.recir_counter < RECIR_TIMES) {" +:+ nl
  +:+ "      apply(do_recirculate_tab);" +:+ nl
  +:+ "   } else {" +:+ nl
  +:+ "      apply(drop1_tab);" +:+ nl
  +:+ "   }" +:+ nl +:+ "}" +:+ nl.

(** *** Running *)

Definition key_matches (e : env) (k : key) : bool :=
  match k with
  | KExact h v => match scan_int v with Some n => hdr e h =? n | None => false end
  | KRange h lo hi =>
      match scan_int lo, scan_int hi with
      | Some a, Some b => (a <=? hdr e h) && (hdr e h <=? b)
      | _, _ => false
      end
  | KActive m => active e m =? 0
  end%Z.

Definition entry_matches (e : env) (en : entry) : bool :=
  forallb (key_matches e) (e_keys en).

(** A context packet: its header fields, and the time stamp
    [meta.tstamp_high_32] of each of its passes through the pipeline. *)
Record packet : Type := mkPacket { p_hdr : string -> Z; p_time : Z -> Z }.

(** The decision [log.ctx_dec] of the packet, the registers of the monitors
    (which stay from packet to packet, and start at 0) and their metadata. *)
Record sw : Type := mkSw { dec : Z; regs : gmap string Z; meta : gmap string Z }.

Definition get0 (m : gmap string Z) (k : string) : Z := default 0%Z (m !! k).

Definition monitor_tab (m : string) : string := "monitor_" +:+ m +:+ "_tab".

Section Run.
(** [fresh timeout t r] is the condition [t - r < timeout] of the stateful ALU
    that reads a monitor's register. *)
Context (fresh : Z -> Z -> Z -> bool).
(** The declared tables, the timeouts of the monitors, the entries given to
    the switch, and the packet. *)
Context (ts : list table) (timeout : string -> Z) (es : list entry) (pk : packet).

(** An entry is installed when its keys are the fields its table reads. *)
Definition installed (en : entry) : bool :=
  existsb (fun t => bool_decide (t_name t = e_table en) &&
                    bool_decide (t_reads t = key_field <$> e_keys en)) ts.

(** The first entry of the table [t] that matches; the default action of every
    table is [nop]. *)
Definition lookup_table (e : env) (t : string) : option entry :=
  List.find (fun en => bool_decide (e_table en = t) && installed en && entry_matches e en) es.

Definition sees (s : sw) : env := mkEnv (p_hdr pk) (get0 (meta s)).

(** [apply(t)]. *)
Definition apply_table (t : string) (s : sw) : sw :=
  match lookup_table (sees s) t with
  | Some (mkEntry _ _ (SetCtxDec x)) => mkSw x (regs s) (meta s)
  | _ => s
  end.

(** [apply(monitor_m_tab) { hit { apply(update_m_tab); } miss {
    apply(check_m_active_tab); } }] in round [k].  A hit writes the time of the
    packet into the register and makes the monitor active; otherwise it is
    active when the time in the register is recent. *)
Definition apply_monitor (k : Z) (m : string) (s : sw) : sw :=
  match lookup_table (sees s) (monitor_tab m) with
  | Some _ => mkSw (dec s) (<[m := p_time pk k]> (regs s)) (<[m := 1%Z]> (meta s))
  | None => if fresh (timeout m) (p_time pk k) (get0 (regs s) m)
            then mkSw (dec s) (regs s) (<[m := 1%Z]> (meta s)) else s
  end.

Definition run_stmt (k : Z) (s : sw) (st : stmt) : sw :=
  match st with
  | Apply t => apply_table t s
  | ApplyMonitor m => apply_monitor k m s
  end.

Definition run_stmts (k : Z) (ss : list stmt) (s : sw) : sw := foldl (run_stmt k) s ss.

(** The branch the counter selects. *)
Fixpoint branch (bs : control) (k : Z) : list stmt :=
  match bs with
  | [] => []
  | (r, ss) :: bs => if (k =? r)%Z then ss else branch bs k
  end.

(** Metadata does not survive recirculation. *)
Definition next_pass (s : sw) : sw := mkSw (dec s) (regs s) ∅.

(** The packet from round [k] on, recirculated [n] more times. *)
Fixpoint recirculate (bs : control) (n : nat) (k : Z) (s : sw) : sw :=
  let s := run_stmts k (branch bs k) (next_pass s) in
  match n with
  | O => s
  | S n => recirculate bs n (k + 1) s
  end.

Definition run_control (recir_times : Z) (bs : control) (s : sw) : sw :=
  recirculate bs (Z.to_nat recir_times) 0 s.
End Run.

(** ** The switch program of a list of checks *)

Definition check_value (c : Check) : Z :=
  if (ctype c =? CHECK_TYPE_MONITOR)%Z then else_action_val c else if_action_val c.

Definition is_monitor_check (c : Check) : bool := (ctype c =? CHECK_TYPE_MONITOR)%Z.

(** The fields the table of a check reads: a monitor's table reads its
    activity and all the extra headers. *)
Definition check_reads (c : Check) : list field :=
  if (ctype c =? CHECK_TYPE_RANGE)%Z then [FRange (header c)]
  else if is_monitor_check c then
    FActive (mon_name c) :: (if negb (extra_check c =? 0)%Z then FExact <$> extra_header c else [])
  else [FExact (header c)].

Definition check_table (c : Check) : table :=
  mkTable (table_name c) (check_reads c) (if is_monitor_check c then 2 else table_size c).

(** The table [monitor_m_tab] of the template. *)
Definition monitor_table (c : Check) : table :=
  mkTable (monitor_tab (mon_name c)) [FExact (header c)] 1.

Definition check_tables (c : Check) : list table :=
  if is_monitor_check c then [monitor_table c; check_table c] else [check_table c].

Definition switch_tables (cs : list Check) : list table := cs ≫= check_tables.

Definition monitor_check (m : string) (c : Check) : bool :=
  is_monitor_check c && bool_decide (mon_name c = m).

Definition switch_timeout (cs : list Check) (m : string) : Z :=
  from_option timeout_val 0%Z (List.find (monitor_check m) cs).

(** The keys of the entries the command file gives to the table of a check:
    an entry of a monitor names its activity and one extra header. *)
Definition check_keys (c : Check) : list (list key) :=
  if (ctype c =? CHECK_TYPE_EXACT)%Z then [[KExact (header c) (pred_hi c)]]
  else if (ctype c =? CHECK_TYPE_RANGE)%Z then [[KRange (header c) (pred_lo c) (pred_hi c)]]
  else if (ctype c =? CHECK_TYPE_LIST)%Z then
    (fun v => [KExact (header c) (to_string v)]) <$> clist c
  else if (ctype c =? CHECK_TYPE_MONITOR)%Z then
    if negb (extra_check c =? 0)%Z then
      (fun h => [KActive (mon_name c); KExact h (default EmptyString (h_to_val c !! h))])
        <$> extra_header c
    else [[KActive (mon_name c)]]
  else [].

Definition check_entries (c : Check) : list entry :=
  (fun ks => mkEntry (table_name c) ks (SetCtxDec (check_value c))) <$> check_keys c.

Definition check_stmts (c : Check) : list stmt :=
  if is_table_check c then [Apply (table_name c)]
  else [ApplyMonitor (mon_name c); Apply (table_name c)].

(** The statements that continue the branch of round [prev], and the later
    branches. *)
Fixpoint branches (cs : list Check) (prev : Z) : list stmt * control :=
  match cs with
  | [] => ([], [])
  | c :: r =>
      if (rec c =? prev)%Z then
        let '(ss, bs) := branches r prev in (check_stmts c ++ ss, bs)
      else
        let '(ss, bs) := branches r (rec c) in ([], (rec c, check_stmts c ++ ss) :: bs)
  end.

Definition switch_control (cs : list Check) : control :=
  let '(ss, bs) := branches cs 0 in (0%Z, ss) :: bs.

Definition switch_entries (cs : list Check) : list entry := mjoin (check_entries <$> cs).

(** ** Checks evaluated one after another *)

(** An entry counts when it has the keys its table reads. *)
Definition check_hit (e : env) (c : Check) : bool :=
  existsb (fun ks => bool_decide (check_reads c = key_field <$> ks) && forallb (key_matches e) ks)
    (check_keys c).

Definition eval_check (e : env) (d : Z) (c : Check) : Z :=
  if check_hit e c then check_value c else d.

Definition eval_checks (e : env) (cs : list Check) (d : Z) : Z := foldl (eval_check e) d cs.

(** The entries of a check have the keys of its table, except those of a
    monitor with several extra headers. *)
Lemma check_keys_fit c ks :
  (is_monitor_check c = true -> extra_check c = 0%Z \/ exists h, extra_header c = [h]) ->
  ks ∈ check_keys c -> check_reads c = key_field <$> ks.
Proof.
  intros Hm. unfold check_keys, check_reads, is_monitor_check in *.
  destruct (Z.eqb_spec (ctype c) CHECK_TYPE_EXACT) as [->|]; [by intros ->%list_elem_of_singleton|].
  destruct (ctype c =? CHECK_TYPE_RANGE)%Z; [by intros ->%list_elem_of_singleton|].
  destruct (Z.eqb_spec (ctype c) CHECK_TYPE_LIST) as [->|]; [by intros (v & -> & _)%list_elem_of_fmap|].
  destruct (ctype c =? CHECK_TYPE_MONITOR)%Z; [|by intros ?%elem_of_nil].
  destruct (Hm eq_refl) as [->|[h ->]]; [by intros ->%list_elem_of_singleton|].
  destruct (negb _); [intros (h' & -> & ->%list_elem_of_singleton)%list_elem_of_fmap; done|by intros ->%list_elem_of_singleton].
Qed.

Lemma check_hit_fit e c :
  (is_monitor_check c = true -> extra_check c = 0%Z \/ exists h, extra_header c = [h]) ->
  check_hit e c = existsb (forallb (key_matches e)) (check_keys c).
Proof.
  intros Hm. apply existsb_ext_in. intros ks Hks. by rewrite bool_decide_eq_true_2 by by apply check_keys_fit.
Qed.

(** No entry of a monitor with two extra headers or more is installed. *)
Lemma extra_headers_unmatched e c :
  is_monitor_check c = true -> extra_check c <> 0%Z -> (1 < length (extra_header c))%nat ->
  check_hit e c = false.
Proof.
  intros Hm Hx%Z.eqb_neq Hl. unfold check_hit. apply not_true_iff_false. intros (ks & Hks & H)%existsb_exists.
  apply andb_prop in H as [H%bool_decide_eq_true _]. apply list_elem_of_In in Hks.
  unfold check_keys, check_reads, is_monitor_check in *. apply Z.eqb_eq in Hm. rewrite Hm, Hx in *. cbn in Hks, H.
  apply list_elem_of_fmap in Hks as (h & -> & _). apply (f_equal length) in H. cbn in H.
  change (S (length (FExact <$> extra_header c)) = 2%nat) in H. rewrite length_fmap in H. lia.
Qed.

(** ** Printing: the generated text is the text of the switch program *)

Lemma concat_strings_app l1 l2 :
  concat_strings (l1 ++ l2) = concat_strings l1 +:+ concat_strings l2.
Proof.
  induction l1 as [|s l1 IH]; [done|]. cbn [app concat_strings foldr].
  unfold concat_strings in *. by rewrite IH, append_assoc.
Qed.

Lemma string_nil_app (s : string) : EmptyString +:+ s = s.
Proof. done. Qed.

(** Brings a concatenation of texts to its normal form. *)
Ltac norm_text := rewrite ?string_nil_app, ?append_nil, ?append_assoc, ?string_nil_app.

Lemma check_cmd_prints c : check_cmd c = concat_strings (print_entry <$> check_entries c).
Proof.
  unfold check_cmd, check_entries, check_keys, check_value.
  destruct (ctype c =? CHECK_TYPE_EXACT)%Z eqn:E1; [apply Z.eqb_eq in E1|].
  { rewrite E1. cbn. unfold exact_cmd, range_cmd, print_entry; cbn. by norm_text. }
  destruct (ctype c =? CHECK_TYPE_RANGE)%Z eqn:E2; [apply Z.eqb_eq in E2|].
  { rewrite E2. cbn. unfold exact_cmd, range_cmd, print_entry; cbn. by norm_text. }
  destruct (ctype c =? CHECK_TYPE_LIST)%Z eqn:E3; [apply Z.eqb_eq in E3|].
  { rewrite E3. f_equal. rewrite <- !list_fmap_compose. apply list_fmap_ext. intros i v _.
    cbn. unfold exact_cmd, range_cmd, print_entry; cbn. by norm_text. }
  destruct (ctype c =? CHECK_TYPE_MONITOR)%Z eqn:E4; [|done].
  destruct (negb (extra_check c =? 0)%Z).
  - f_equal. rewrite <- !list_fmap_compose. apply list_fmap_ext. intros i h _.
    unfold monitor_cmd, print_entry; cbn.
    change " add_entry set_ctx_dec " with (" add_entry " +:+ "set_ctx_dec" +:+ " "). by norm_text.
  - unfold monitor_cmd, print_entry; cbn.
    change " add_entry set_ctx_dec " with (" add_entry " +:+ "set_ctx_dec" +:+ " "). by norm_text.
Qed.

Lemma generate_cmd_prints p :
  generate_cmd p = concat_strings (print_entry <$> switch_entries (check_v p)) +:+ nl.
Proof.
  unfold generate_cmd, switch_entries. f_equal.
  induction (check_v p) as [|c cs IH]; [done|].
  rewrite !fmap_cons. cbn [mjoin list_join].
  rewrite fmap_app, concat_strings_app.
  change (check_cmd c +:+ concat_strings (check_cmd <$> cs) =
          concat_strings (print_entry <$> check_entries c)
          +:+ concat_strings (print_entry <$> mjoin (check_entries <$> cs))).
  by rewrite IH, check_cmd_prints.
Qed.

(** The types for which code is generated. *)
Definition emittable (c : Check) : bool :=
  is_table_check c || (ctype c =? CHECK_TYPE_MONITOR)%Z.

Lemma eval_ctx_loop_prints cs : forall prev,
  Forall emittable cs ->
  eval_ctx_loop cs prev =
  Ok (print_stmts (fst (branches cs prev))
      +:+ concat_strings (print_branch <$> snd (branches cs prev))).
Proof.
  induction cs as [|c cs IH]; intros prev H; [done|].
  apply Forall_cons in H as [Hc H]. cbn [eval_ctx_loop branches].
  assert (Eb : forall X : res string,
    (body ← (if is_table_check c then mret (apply_text (table_name c))
              else if (ctype c =? CHECK_TYPE_MONITOR)%Z then
                mret (monitor_apply_text (mon_name c) +:+ apply_text (table_name c))
              else Err AssertFail); rest ← X; mret (body +:+ rest)) =
    (rest ← X; mret (print_stmts (check_stmts c) +:+ rest))).
  { intros X. unfold emittable, check_stmts in *.
    destruct (is_table_check c); [|destruct (ctype c =? CHECK_TYPE_MONITOR)%Z; [|done]];
      cbn [mbind res_bind mret res_ret print_stmts fmap list_fmap concat_strings foldr print_stmt];
      by rewrite ?append_nil. }
  destruct (rec c =? prev)%Z eqn:Er; cbn [negb].
  - specialize (IH prev H). destruct (branches cs prev) as [ss bs]. cbn [fst snd] in *.
    etrans; [apply Eb|]. rewrite IH. cbn. f_equal.
    unfold print_stmts. by rewrite fmap_app, concat_strings_app, append_assoc.
  - specialize (IH (rec c) H). destruct (branches cs (rec c)) as [ss bs]. cbn [fst snd] in *.
    rewrite IH. unfold emittable, check_stmts in *. unfold print_stmts, print_branch.
    destruct (is_table_check c); [|destruct (ctype c =? CHECK_TYPE_MONITOR)%Z; [|done]];
      cbn; by rewrite ?append_assoc.
Qed.

Lemma generate_eval_ctx_prints p :
  Forall emittable (check_v p) ->
  generate_eval_ctx p =
  Ok (print_control (fst (branches (check_v p) 0)) (snd (branches (check_v p) 0))).
Proof. intros H. unfold generate_eval_ctx. by rewrite eval_ctx_loop_prints. Qed.

(** The table of a check is declared as it is read here. *)
Lemma table_text_prints c : is_table_check c = true -> table_text c = print_table (check_table c).
Proof.
  intros H. unfold table_text, print_table, check_table, check_reads, is_monitor_check. cbn [t_name t_reads t_size].
  unfold is_table_check in H.
  destruct (ctype c =? CHECK_TYPE_RANGE)%Z eqn:R.
  - apply Z.eqb_eq in R. rewrite R. cbn [Z.eqb]. change (CHECK_TYPE_RANGE =? CHECK_TYPE_MONITOR)%Z with false.
    cbn. by norm_text.
  - destruct (Z.eqb_spec (ctype c) CHECK_TYPE_MONITOR) as [M|M]; [by rewrite M in H|].
    cbn. by norm_text.
Qed.

(** ** Running: the switch evaluates the checks in order *)

(** Entries of the monitors' own tables. *)
Definition monitor_entry (en : entry) : Prop := exists m, e_table en = monitor_tab m.

Section Running.
Context (fresh : Z -> Z -> Z -> bool) (cs : list Check) (mes : list entry) (pk : packet).

(** The round that runs the tables of the monitor [m]. *)
Definition round_of (m : string) : Z := from_option rec 0%Z (List.find (monitor_check m) cs).

(** The packet hits an entry of the monitor's table. *)
Definition listed (m : string) : bool :=
  existsb (fun en => bool_decide (e_table en = monitor_tab m) && installed (switch_tables cs) en
                     && entry_matches (mkEnv (p_hdr pk) (fun _ => 0%Z)) en) mes.

(** The monitor is active for the packet: the packet is listed, or the time in
    its register is recent when its tables are run. *)
Definition live (r : gmap string Z) (m : string) : bool :=
  listed m || fresh (switch_timeout cs m) (p_time pk (round_of m)) (get0 r m).

Definition monitor_env (r : gmap string Z) : env :=
  mkEnv (p_hdr pk) (fun m => Z.b2z (live r m)).

(** The registers after the monitors of [l] are run. *)
Definition refresh (l : list Check) (r : gmap string Z) : gmap string Z :=
  foldl (fun r c => if is_monitor_check c && listed (mon_name c)
                    then <[mon_name c := p_time pk (round_of (mon_name c))]> r else r) r l.

Context (DISTINCT : NoDup (table_name <$> cs)).
Context (APART : forall c m, c ∈ cs -> table_name c <> monitor_tab m).
Context (MES : Forall monitor_entry mes).

Notation ts := (switch_tables cs).
Notation es := (switch_entries cs ++ mes).

Lemma table_name_inj c c' : c ∈ cs -> c' ∈ cs -> table_name c = table_name c' -> c = c'.
Proof using DISTINCT.
  clear APART MES. revert DISTINCT. induction cs as [|d l IH]; intros Hn Hc Hc' E; [by apply elem_of_nil in Hc|].
  rewrite fmap_cons in Hn. apply NoDup_cons in Hn as [Hn1 Hn2].
  apply elem_of_cons in Hc as [->|Hc], Hc' as [->|Hc']; [done| | |by apply IH].
  - destruct Hn1. rewrite E. by apply list_elem_of_fmap_2.
  - destruct Hn1. rewrite <- E. by apply list_elem_of_fmap_2.
Qed.

Lemma check_table_in c : check_table c ∈ check_tables c.
Proof using. unfold check_tables. destruct (is_monitor_check c); [right|]; left. Qed.

Lemma installed_check c ks x :
  c ∈ cs -> installed ts (mkEntry (table_name c) ks x) = bool_decide (check_reads c = key_field <$> ks).
Proof using DISTINCT APART.
  clear MES. intros Hc. unfold installed, switch_tables. cbn [e_table e_keys]. apply Bool.eq_iff_eq_true.
  rewrite existsb_exists, bool_decide_eq_true. split.
  - intros (t & Ht%list_elem_of_In & [Hn%bool_decide_eq_true Hr%bool_decide_eq_true]%andb_prop).
    apply list_elem_of_bind in Ht as (c' & Ht & Hc'). unfold check_tables in Ht.
    assert (t = check_table c') as ->.
    { destruct (is_monitor_check c'); [|set_solver].
      apply elem_of_cons in Ht as [->|Ht]; [|set_solver]. by destruct (APART c (mon_name c') Hc). }
    by rewrite (table_name_inj c c' Hc Hc' (eq_sym Hn)).
  - intros Hr. exists (check_table c). split.
    + apply list_elem_of_In, list_elem_of_bind. exists c. split; [apply check_table_in|done].
    + by rewrite !bool_decide_eq_true_2.
Qed.

Notation wanted e t := (fun en => bool_decide (e_table en = t) && installed ts en && entry_matches e en).

Lemma find_check_entries e c t :
  c ∈ cs ->
  match List.find (wanted e t) (check_entries c) with
  | Some en => t = table_name c /\ check_hit e c = true /\ e_action en = SetCtxDec (check_value c)
  | None => t = table_name c -> check_hit e c = false
  end.
Proof using DISTINCT APART.
  clear MES. intros Hc. unfold check_entries, check_hit. induction (check_keys c) as [|ks r IH]; [done|].
  cbn [fmap list_fmap List.find existsb e_table].
  rewrite installed_check by done. unfold entry_matches at 1. cbn [e_keys].
  destruct (decide (table_name c = t)) as [E|E];
    [rewrite (bool_decide_eq_true_2 _ E)|rewrite (bool_decide_eq_false_2 _ E)]; cbn [andb].
  - destruct (bool_decide (check_reads c = key_field <$> ks)); cbn [andb]; [|exact IH].
    destruct (forallb (key_matches e) ks); [by auto|]. exact IH.
  - fold (@fmap list _ (list key) entry). destruct (List.find _ _); naive_solver.
Qed.

Lemma find_mes e c : c ∈ cs -> List.find (wanted e (table_name c)) mes = None.
Proof using APART MES.
  clear DISTINCT. intros Hc. pose proof MES as H. clear MES. induction H as [|en l [m E] _ IH]; [done|]. cbn [List.find].
  rewrite (bool_decide_eq_false_2 (e_table en = _)); [exact IH|]. rewrite E. intros H. by apply (APART c m).
Qed.

Lemma lookup_check e c :
  c ∈ cs ->
  match lookup_table ts es e (table_name c) with
  | Some en => check_hit e c = true /\ e_action en = SetCtxDec (check_value c)
  | None => check_hit e c = false
  end.
Proof using DISTINCT APART MES.
  intros Hc. unfold lookup_table. rewrite find_app.
  assert (G : forall l, l ⊆ cs ->
    match List.find (wanted e (table_name c)) (switch_entries l) with
    | Some en => check_hit e c = true /\ e_action en = SetCtxDec (check_value c)
    | None => c ∈ l -> check_hit e c = false
    end).
  { induction l as [|c' l IH]; intros Hl; [by intros ?%elem_of_nil|].
    change (switch_entries (c' :: l)) with (check_entries c' ++ switch_entries l). rewrite find_app.
    pose proof (find_check_entries e c' (table_name c) ltac:(set_solver)) as Hf.
    destruct (List.find _ (check_entries c')) as [en|].
    - destruct Hf as (Ht & Hh & Ha). rewrite (table_name_inj c c' Hc ltac:(set_solver) Ht). done.
    - specialize (IH ltac:(set_solver)).
      destruct (List.find _ (switch_entries l)); [done|].
      intros [<-|Hin]%elem_of_cons; [by apply Hf|by apply IH]. }
  specialize (G cs ltac:(done)). destruct (List.find _ (switch_entries cs)); [done|].
  rewrite find_mes by done. by apply G.
Qed.

Lemma lookup_monitor e m :
  hdr e = p_hdr pk -> bool_decide (is_Some (lookup_table ts es e (monitor_tab m))) = listed m.
Proof using APART.
  clear DISTINCT MES. intros He. unfold lookup_table. rewrite find_app.
  assert (List.find (wanted e (monitor_tab m)) (switch_entries cs) = None) as ->.
  { destruct (List.find _ _) as [en|] eqn:E; [|done]. apply find_some in E as [E1%list_elem_of_In E2].
    apply andb_prop in E2 as [[E2%bool_decide_eq_true _]%andb_prop _].
    unfold switch_entries in E1. apply list_elem_of_join in E1 as (ens & H1 & H2).
    apply list_elem_of_fmap in H2 as (d & -> & Hd). unfold check_entries in H1.
    apply list_elem_of_fmap in H1 as (ks & -> & _). by destruct (APART d m). }
  unfold listed. induction mes as [|en l IH]; [done|]. cbn [List.find existsb].
  assert (bool_decide (e_table en = monitor_tab m) && installed ts en && entry_matches e en =
          bool_decide (e_table en = monitor_tab m) && installed ts en
            && entry_matches (mkEnv (p_hdr pk) (fun _ => 0%Z)) en) as ->.
  { destruct (bool_decide (e_table en = _)) eqn:E1; [|done]. apply bool_decide_eq_true in E1.
    destruct (installed ts en) eqn:E2; [|done]. cbn [andb].
    unfold installed in E2. apply existsb_exists in E2 as (t & Ht%list_elem_of_In & E2).
    apply andb_prop in E2 as [Hn%bool_decide_eq_true Hr%bool_decide_eq_true].
    unfold switch_tables in Ht. apply list_elem_of_bind in Ht as (c & Ht & Hc). unfold check_tables in Ht.
    assert (t <> check_table c) by (intros ->; by apply (APART c m Hc); rewrite <- E1).
    assert (t = monitor_table c) as -> by (destruct (is_monitor_check c); set_solver).
    cbn in Hr. destruct en as [tn [|[h v|h lo hi|m'] [|? ?]] x]; try discriminate Hr.
    unfold entry_matches. cbn [e_keys forallb key_matches hdr]. by rewrite He. }
  destruct (_ && _ && _); [by rewrite bool_decide_eq_true_2 by done|exact IH].
Qed.

(** *** One check *)

Definition mon_ok (k : Z) (c : Check) : Prop := is_monitor_check c = true -> round_of (mon_name c) = k.

(** What a check decides depends on the activity of its own monitor only. *)
Lemma check_keys_ext e e' c ks :
  hdr e = hdr e' -> (is_monitor_check c = true -> active e (mon_name c) = active e' (mon_name c)) ->
  ks ∈ check_keys c -> forallb (key_matches e) ks = forallb (key_matches e') ks.
Proof using.
  clear DISTINCT APART MES.
  intros Hh Ha. unfold check_keys, is_monitor_check in *.
  assert (Hx : forall h v, key_matches e (KExact h v) = key_matches e' (KExact h v)) by (intros; cbn; by rewrite Hh).
  destruct (ctype c =? CHECK_TYPE_EXACT)%Z; [intros ->%list_elem_of_singleton; cbn [forallb]; by rewrite Hx|].
  destruct (ctype c =? CHECK_TYPE_RANGE)%Z; [intros ->%list_elem_of_singleton; cbn [forallb key_matches]; by rewrite Hh|].
  destruct (ctype c =? CHECK_TYPE_LIST)%Z.
  { intros (v & -> & _)%list_elem_of_fmap. cbn [forallb]. by rewrite Hx. }
  destruct (ctype c =? CHECK_TYPE_MONITOR)%Z; [|by intros ?%elem_of_nil]. specialize (Ha eq_refl).
  assert (Hk : key_matches e (KActive (mon_name c)) = key_matches e' (KActive (mon_name c))) by (cbn; by rewrite Ha).
  destruct (negb _); [intros (h & -> & _)%list_elem_of_fmap|intros ->%list_elem_of_singleton];
    cbn [forallb]; by rewrite ?Hx, Hk.
Qed.

Lemma check_hit_ext e e' c :
  hdr e = hdr e' -> (is_monitor_check c = true -> active e (mon_name c) = active e' (mon_name c)) ->
  check_hit e c = check_hit e' c.
Proof using.
  clear DISTINCT APART MES.
  intros Hh Ha. unfold check_hit. apply existsb_ext_in. intros ks Hks. f_equal. by apply check_keys_ext with c.
Qed.

Lemma eval_checks_ext e e' l d :
  hdr e = hdr e' -> (forall c, c ∈ l -> is_monitor_check c = true -> active e (mon_name c) = active e' (mon_name c)) ->
  eval_checks e l d = eval_checks e' l d.
Proof using.
  clear DISTINCT APART MES.
  revert d. induction l as [|c l IH]; intros d Hh Ha; [done|].
  change (eval_checks e l (eval_check e d c) = eval_checks e' l (eval_check e' d c)).
  assert (eval_check e d c = eval_check e' d c) as ->.
  { unfold eval_check. by rewrite (check_hit_ext e e' c Hh (Ha c ltac:(left))). }
  apply IH; [done|]. intros c' Hc'. apply Ha. by right.
Qed.

(** The monitors that a list of checks runs. *)
Definition monitors_of (l : list Check) : list string := mon_name <$> List.filter is_monitor_check l.

Lemma monitors_of_elem l c : c ∈ l -> is_monitor_check c = true -> mon_name c ∈ monitors_of l.
Proof using. intros Hc Hm. apply list_elem_of_fmap_2, list_elem_of_In, filter_In. by rewrite <- list_elem_of_In. Qed.

Lemma monitors_of_cons c l :
  monitors_of (c :: l) = (if is_monitor_check c then [mon_name c] else []) ++ monitors_of l.
Proof using. unfold monitors_of. cbn [List.filter]. by destruct (is_monitor_check c). Qed.

Lemma refresh_other l r m : m ∉ monitors_of l -> get0 (refresh l r) m = get0 r m.
Proof using.
  clear DISTINCT APART MES.
  revert r. induction l as [|c l IH]; intros r Hm; [done|]. rewrite monitors_of_cons in Hm.
  change (get0 (refresh l (refresh [c] r)) m = get0 r m).
  rewrite IH by (destruct (is_monitor_check c); set_solver). cbn.
  destruct (is_monitor_check c); [|done]. cbn [andb]. destruct (listed (mon_name c)); [|done].
  unfold get0. rewrite lookup_insert_ne; [done|]. set_solver.
Qed.

(** Refreshing other monitors changes no decision. *)
Lemma eval_checks_refresh l l' r d :
  (forall m, m ∈ monitors_of l -> m ∉ monitors_of l') ->
  eval_checks (monitor_env (refresh l r)) l' d = eval_checks (monitor_env r) l' d.
Proof using.
  clear DISTINCT APART MES.
  intros H. apply eval_checks_ext; [done|]. intros c Hc Hm. cbn. unfold live.
  rewrite refresh_other; [done|]. intros Hx. by apply (H _ Hx), monitors_of_elem.
Qed.

Context (EMIT : Forall emittable cs).

Lemma run_check k c s :
  c ∈ cs -> mon_ok k c -> (is_monitor_check c = true -> meta s !! mon_name c = None) ->
  let s' := run_stmts fresh ts (switch_timeout cs) es pk k (check_stmts c) s in
  dec s' = eval_check (monitor_env (regs s)) (dec s) c /\ regs s' = refresh [c] (regs s) /\
  forall m, m ∉ monitors_of [c] -> meta s' !! m = meta s !! m.
Proof using DISTINCT APART MES EMIT.
  intros Hc Hk Hm. unfold check_stmts.
  assert (Ha : forall s0, apply_table ts es pk (table_name c) s0 =
    mkSw (eval_check (sees pk s0) (dec s0) c) (regs s0) (meta s0)).
  { intros s0. unfold apply_table, eval_check. pose proof (lookup_check (sees pk s0) c Hc) as Hl.
    destruct (lookup_table ts es (sees pk s0) (table_name c)) as [[tn ks a]|].
    - destruct Hl as [-> Hl]. cbn in Hl. by rewrite Hl.
    - rewrite Hl. by destruct s0. }
  destruct (is_table_check c) eqn:Et.
  - cbn. rewrite Ha. cbn [dec regs meta].
    assert (is_monitor_check c = false) as Em.
    { unfold is_table_check, is_monitor_check in *. destruct (Z.eqb_spec (ctype c) CHECK_TYPE_MONITOR) as [M|]; [|done].
      by rewrite M in Et. }
    rewrite Em. cbn [andb]. split; [|done]. unfold eval_check.
    by rewrite (check_hit_ext (sees pk s) (monitor_env (regs s)) c) by (done || by rewrite Em).
  - assert (is_monitor_check c = true) as Em.
    { rewrite Forall_forall in EMIT. specialize (EMIT c Hc). unfold emittable in EMIT. rewrite Et in EMIT.
      by apply Is_true_true in EMIT. }
    specialize (Hm Em). specialize (Hk Em). cbn. rewrite Ha. cbn [dec regs meta].
    pose proof (lookup_monitor (sees pk s) (mon_name c) eq_refl) as Hl. rewrite Em. cbn [andb].
    assert (Hd : forall s1, dec s1 = dec s -> get0 (meta s1) (mon_name c) = Z.b2z (live (regs s) (mon_name c)) ->
      eval_check (sees pk s1) (dec s1) c = eval_check (monitor_env (regs s)) (dec s) c).
    { intros s1 E1 E2. unfold eval_check. rewrite E1.
      by rewrite (check_hit_ext (sees pk s1) (monitor_env (regs s)) c) by done. }
    unfold live in Hd. unfold apply_monitor.
    rewrite ?Hk in *.
    destruct (lookup_table ts es (sees pk s) (monitor_tab (mon_name c))) as [en|];
      [rewrite bool_decide_eq_true_2 in Hl by done|rewrite bool_decide_eq_false_2 in Hl by by intros []];
      rewrite <- Hl in *; cbn [orb] in Hd.
    + split; [|split; [done|]].
      * apply (Hd (mkSw (dec s) _ _)); [done|]. cbn. unfold get0. by rewrite lookup_insert_eq.
      * intros m Hx. cbn. rewrite lookup_insert_ne; [done|]. set_solver.
    + destruct (fresh _ _ _); (split; [|split; [done|]]); [| |by apply Hd; [|unfold get0; rewrite Hm]|done].
      * apply (Hd (mkSw (dec s) _ _)); [done|]. cbn. unfold get0. by rewrite lookup_insert_eq.
      * intros m Hx. cbn. rewrite lookup_insert_ne; [done|]. set_solver.
Qed.

Lemma run_checks k l : forall s,
  l ⊆ cs -> Forall (mon_ok k) l -> NoDup (monitors_of l) ->
  (forall m, m ∈ monitors_of l -> meta s !! m = None) ->
  let s' := run_stmts fresh ts (switch_timeout cs) es pk k (l ≫= check_stmts) s in
  dec s' = eval_checks (monitor_env (regs s)) l (dec s) /\ regs s' = refresh l (regs s).
Proof using DISTINCT APART MES EMIT.
  induction l as [|c l IH]; intros s Hl Hk Hn Hm; [done|].
  apply Forall_cons in Hk as [Hkc Hk]. rewrite bind_cons. unfold run_stmts. rewrite foldl_app.
  destruct (run_check k c s ltac:(set_solver) Hkc) as (D & G & M).
  { intros Em. apply Hm. rewrite monitors_of_cons, Em. by left. }
  set (s1 := foldl _ s (check_stmts c)) in *. change (run_stmts _ _ _ _ _ _ _ _) with s1 in D, G, M.
  assert (Hd : forall m, m ∈ monitors_of [c] -> m ∉ monitors_of l).
  { rewrite monitors_of_cons in Hn |- *. change (monitors_of []) with (@nil string). rewrite app_nil_r.
    apply NoDup_app in Hn as (_ & Hn & _). exact Hn. }
  destruct (IH s1) as [D' G']; [set_solver|done| | |].
  { rewrite monitors_of_cons in Hn. by apply NoDup_app in Hn as (_ & _ & ?). }
  { intros m Hin. rewrite M; [|set_solver]. apply Hm. rewrite monitors_of_cons. set_solver. }
  unfold run_stmts in D', G'. rewrite D', G', G, D. split; [|done].
  change (eval_checks ?e (c :: l) ?d) with (eval_checks e l (eval_check e d c)). by apply eval_checks_refresh.
Qed.
End Running.

(** *** Rounds *)

Definition in_round (k : Z) (cs : list Check) : list Check :=
  List.filter (fun c => rec c =? k)%Z cs.
Definition from_round (k : Z) (cs : list Check) : list Check :=
  List.filter (fun c => k <=? rec c)%Z cs.

(** Rounds only grow along the checks. *)
Notation rounds_sorted := (StronglySorted (fun c d => rec c <= rec d)%Z).

Lemma from_round_split cs k :
  rounds_sorted cs -> from_round k cs = in_round k cs ++ from_round (k + 1) cs.
Proof.
  unfold from_round, in_round. induction 1 as [|c cs Hs IH Hf]; [done|]. simpl.
  destruct (Z.leb_spec k (rec c)), (Z.eqb_spec (rec c) k), (Z.leb_spec (k + 1) (rec c));
    try lia; simpl; try (by rewrite IH).
  rewrite (filter_none (fun c => rec c =? k)%Z) in IH |- *.
  - simpl in *. by rewrite IH.
  - eapply Forall_impl; [exact Hf|]. intros d Hd. simpl in Hd. apply Z.eqb_neq. lia.
  - eapply Forall_impl; [exact Hf|]. intros d Hd. simpl in Hd. apply Z.eqb_neq. lia.
Qed.

(** The branch of a round applies the tables of its checks. *)
Lemma branches_rounds cs : forall prev,
  rounds_sorted cs -> Forall (fun c => prev <= rec c)%Z cs ->
  fst (branches cs prev) = in_round prev cs ≫= check_stmts /\
  forall k, k <> prev -> branch (snd (branches cs prev)) k = in_round k cs ≫= check_stmts.
Proof.
  induction cs as [|c cs IH]; intros prev Hs Hp; [done|].
  apply StronglySorted_inv in Hs as [Hs Hf]. apply Forall_cons in Hp as [Hc Hp].
  cbn [branches in_round List.filter].
  destruct (Z.eqb_spec (rec c) prev) as [E|E].
  - destruct (IH prev Hs Hp) as [H1 H2]. destruct (branches cs prev) as [ss bs].
    cbn [fst snd] in *. rewrite bind_cons, H1. split; [done|].
    intros k Hk. destruct (Z.eqb_spec (rec c) k); [lia|]. by apply H2.
  - destruct (IH (rec c) Hs Hf) as [H1 H2]. destruct (branches cs (rec c)) as [ss bs].
    cbn [fst snd branch] in *. split.
    + change (List.filter (fun c => rec c =? prev)%Z cs) with (in_round prev cs).
      unfold in_round. rewrite filter_none; [done|].
      eapply Forall_impl; [exact Hf|]. intros d Hd. simpl in Hd. apply Z.eqb_neq. lia.
    + intros k Hk. destruct (Z.eqb_spec k (rec c)) as [->|Nk].
      * rewrite Z.eqb_refl, bind_cons. by rewrite H1.
      * destruct (Z.eqb_spec (rec c) k); [lia|]. by apply H2.
Qed.

Lemma find_NoDup_monitor cs c :
  NoDup (monitors_of cs) -> c ∈ cs -> is_monitor_check c = true ->
  List.find (monitor_check (mon_name c)) cs = Some c.
Proof.
  induction cs as [|d cs IH]; intros Hn Hc Hm; [by apply elem_of_nil in Hc|]. rewrite monitors_of_cons in Hn.
  cbn [List.find]. apply elem_of_cons in Hc as [<-|Hc].
  - unfold monitor_check. by rewrite Hm, bool_decide_eq_true_2.
  - apply NoDup_app in Hn as (_ & Hd & Hn). destruct (monitor_check (mon_name c) d) eqn:E; [|by apply IH].
    apply andb_prop in E as [E1 E2%bool_decide_eq_true]. rewrite E1 in Hd.
    destruct (Hd (mon_name d)); [by left|]. rewrite E2. by apply monitors_of_elem.
Qed.

Lemma monitors_of_app l l' : monitors_of (l ++ l') = monitors_of l ++ monitors_of l'.
Proof. unfold monitors_of. by rewrite List.filter_app, fmap_app. Qed.

Lemma monitors_of_sublist f l : sublist (monitors_of (List.filter f l)) (monitors_of l).
Proof.
  unfold monitors_of. induction l as [|c l IH]; [constructor|]. cbn [List.filter].
  destruct (f c), (is_monitor_check c) eqn:E; cbn [List.filter]; rewrite ?E, ?fmap_cons; first [exact IH|by constructor].
Qed.

Section Rounds.
Context (fresh : Z -> Z -> Z -> bool) (cs : list Check) (mes : list entry) (pk : packet).
Context (DISTINCT : NoDup (table_name <$> cs)).
Context (APART : forall c m, c ∈ cs -> table_name c <> monitor_tab m).
Context (MES : Forall monitor_entry mes) (EMIT : Forall emittable cs).
Context (MONITORS : NoDup (monitors_of cs)).

Notation ts := (switch_tables cs).
Notation es := (switch_entries cs ++ mes).

Lemma recirculate_rounds n : forall k s,
  rounds_sorted cs -> Forall (fun c => 0 <= rec c)%Z cs ->
  (0 <= k)%Z -> Forall (fun c => rec c <= k + Z.of_nat n)%Z cs ->
  let s' := recirculate fresh ts (switch_timeout cs) es pk (switch_control cs) n k s in
  dec s' = eval_checks (monitor_env fresh cs mes pk (regs s)) (from_round k cs) (dec s) /\
  regs s' = refresh cs mes pk (from_round k cs) (regs s).
Proof using DISTINCT APART MES EMIT MONITORS.
  assert (Hb : forall k, rounds_sorted cs -> Forall (fun c => 0 <= rec c)%Z cs ->
    branch (switch_control cs) k = in_round k cs ≫= check_stmts).
  { intros k Hs Hp. destruct (branches_rounds cs 0 Hs Hp) as [H1 H2].
    unfold switch_control. destruct (branches cs 0) as [ss bs]. cbn [fst snd branch] in *.
    destruct (Z.eqb_spec k 0) as [->|]; [done|by apply H2]. }
  assert (Hsub : forall k c, c ∈ in_round k cs -> c ∈ cs /\ rec c = k).
  { intros k c Hc. apply list_elem_of_In, filter_In in Hc as [Hc Hk]. by rewrite list_elem_of_In, <- Z.eqb_eq. }
  assert (Hr : forall k s, rounds_sorted cs -> Forall (fun c => 0 <= rec c)%Z cs ->
    let s' := run_stmts fresh ts (switch_timeout cs) es pk k (branch (switch_control cs) k) (next_pass s) in
    dec s' = eval_checks (monitor_env fresh cs mes pk (regs s)) (in_round k cs) (dec s) /\
    regs s' = refresh cs mes pk (in_round k cs) (regs s)).
  { intros k s Hs Hp. rewrite Hb by done.
    apply (run_checks fresh cs mes pk DISTINCT APART MES EMIT k (in_round k cs) (next_pass s)).
    - intros c Hc. by apply (Hsub k).
    - apply Forall_forall. intros c Hc Hm. destruct (Hsub k c Hc) as [Hc' <-].
      unfold round_of. by rewrite (find_NoDup_monitor cs c MONITORS Hc' Hm).
    - eapply sublist_NoDup; [exact MONITORS|]. apply monitors_of_sublist.
    - intros m _. apply lookup_empty. }
  induction n as [|n IH]; intros k s Hs Hp Hk Hle; cbn [recirculate];
    destruct (Hr k s Hs Hp) as [D G]; rewrite from_round_split by done.
  - assert (from_round (k + 1) cs = []) as ->.
    { unfold from_round. apply filter_none.
      eapply Forall_impl; [exact Hle|]. intros c Hc. simpl in Hc. apply Z.leb_gt. lia. }
    by rewrite app_nil_r.
  - destruct (IH (k + 1)%Z (run_stmts fresh ts (switch_timeout cs) es pk k (branch (switch_control cs) k) (next_pass s)))
      as [D' G']; try done; [lia|eapply Forall_impl; [exact Hle|]; intros c Hc; simpl in *; lia|].
    rewrite D', G', D, G. split.
    + unfold eval_checks at 3. rewrite foldl_app. apply eval_checks_refresh.
      intros m Hm Hm'. apply list_elem_of_fmap in Hm as (c & -> & Hc), Hm' as (c' & E & Hc').
      apply list_elem_of_In, filter_In in Hc as [Hc%list_elem_of_In Mc], Hc' as [Hc'%list_elem_of_In Mc'].
      apply Hsub in Hc as [Hc Rc]. apply list_elem_of_In, filter_In in Hc' as [Hc'%list_elem_of_In Rc'%Z.leb_le].
      pose proof (find_NoDup_monitor cs c MONITORS Hc Mc) as F. rewrite E in F.
      rewrite (find_NoDup_monitor cs c' MONITORS Hc' Mc') in F. injection F as <-. lia.
    + unfold refresh. by rewrite foldl_app.
Qed.

(** The allocated checks run in their order, with the monitors as their tables
    leave them. *)
Lemma run_control_checks R s :
  StronglySorted placed_before cs -> Forall window_ok cs -> Forall (fun c => rec c <= R)%Z cs ->
  let s' := run_control fresh ts (switch_timeout cs) es pk R (switch_control cs) s in
  dec s' = eval_checks (monitor_env fresh cs mes pk (regs s)) cs (dec s) /\
  regs s' = refresh cs mes pk cs (regs s).
Proof using DISTINCT APART MES EMIT MONITORS.
  intros Hs Hw HR. unfold run_control.
  assert (H0 : Forall (fun c => 0 <= rec c)%Z cs)
    by (eapply Forall_impl; [exact Hw|]; by intros c (_ & _ & _ & ?)).
  assert (from_round 0 cs = cs) as E.
  { apply filter_all. eapply Forall_impl; [exact H0|]. intros c Hc. simpl in Hc. by apply Is_true_true, Z.leb_le. }
  destruct (recirculate_rounds (Z.to_nat R) 0 s) as [D G].
  - eapply StronglySorted_mono; [|exact Hs]. intros c c' [?|[? _]]; lia.
  - done.
  - done.
  - destruct cs as [|c l]; [constructor|].
    assert (0 <= R)%Z by (apply Forall_cons in HR as [? _], H0 as [? _]; lia).
    rewrite Z2Nat.id by done. exact HR.
  - by rewrite E in D, G.
Qed.
End Rounds.

(** ** The files and the switch they program *)

Definition prologue (R : Z) : string :=
  "#ifndef POLICY_P4" +:+ nl +:+ "#define POLICY_P4" +:+ nl
  +:+ nl +:+ "#define RECIR_TIMES " +:+ to_string R +:+ nl +:+ nl.

Definition header_text (cs : list Check) : string := generate_header_def (p_check_v cs Program_new).

(** The text that declares the tables of a check; those of a monitor come from
    the template. *)
Definition declares (mon_template : string) (c : Check) (t : string) : Prop :=
  if is_table_check c then t = print_table (check_table c) else monitor_text mon_template c = Ok t.

(** The two files hold the switch program of the checks [cs]. *)
Record files_hold (mon_template : string) (cs : list Check) (R : Z) (p4 cmd : string) : Prop := {
  hold_p4 : exists decls, Forall2 (declares mon_template) cs decls /\
    p4 = prologue R +:+ header_text cs +:+ concat_strings decls
         +:+ print_control (fst (branches cs 0)) (snd (branches cs 0)) +:+ "#endif" +:+ nl;
  hold_cmd : cmd = concat_strings (print_entry <$> switch_entries cs) +:+ nl
}.

(** A packet through the switch that is programmed with the two files, when
    the entries [mes] were added by hand. *)
Definition run_switch (fresh : Z -> Z -> Z -> bool) (cs : list Check) (R : Z) (mes : list entry) (pk : packet)
  : sw -> sw :=
  run_control fresh (switch_tables cs) (switch_timeout cs) (switch_entries cs ++ mes) pk R (switch_control cs).
