(* ===== verification/MergeProps.v ===== *)
(** Correctness of the two optimisations of the back end,
    [merge_same_headers] and [merge_monitors]: the merged checks decide
    every packet as the checks they replace. *)

From stdpp Require Import base list strings gmap sorting.
From Stdlib Require Import ZArith Lia Ascii.
From S2P Require Import Prelude Cxx Ast Backend Codegen AllocProps Switch.

(** ** The decision of a set of checks *)

(** The larger of two optional values. *)
Definition omax (a b : option Z) : option Z :=
  match a, b with
  | Some x, Some y => Some (Z.max x y)
  | Some x, None => Some x
  | None, b => b
  end.

#[export] Instance omax_comm : Comm (=) omax.
Proof. intros [x|] [y|]; simpl; f_equal; lia. Qed.
#[export] Instance omax_assoc : Assoc (=) omax.
Proof. intros [x|] [y|] [z|]; simpl; f_equal; lia. Qed.
#[export] Instance omax_left_id : LeftId (=) None omax.
Proof. by intros [x|]. Qed.
#[export] Instance omax_right_id : RightId (=) None omax.
Proof. by intros [x|]. Qed.
#[export] Instance omax_idemp : IdemP (=) omax.
Proof. intros [x|]; simpl; f_equal; lia. Qed.

Definition contrib (e : env) (c : Check) : option Z :=
  if check_hit e c then Some (check_value c) else None.

(** The largest value among the checks that hit. *)
Definition best (e : env) (cs : list Check) : option Z :=
  foldr (fun c acc => omax (contrib e c) acc) None cs.

Lemma best_app e l1 l2 : best e (l1 ++ l2) = omax (best e l1) (best e l2).
Proof.
  induction l1 as [|c l1 IH]; [done|]; simpl.
  by rewrite IH, (assoc_L omax).
Qed.

#[export] Instance best_perm e : Proper ((≡ₚ) ==> (=)) (best e).
Proof.
  intros l1 l2. induction 1; simpl; [done|by f_equal| |congruence].
  by rewrite !(assoc_L omax), (comm_L omax (contrib e y)).
Qed.

(** ** Invalidating checks *)

Definition valid (c : Check) : bool := negb (ctype c =? CHECK_TYPE_INVALID)%Z.

Definition invalid_check : Check -> Check := set_ctype CHECK_TYPE_INVALID.

Definition invalidate (ix : list nat) (cs : list Check) : list Check :=
  foldl (fun cs i => alter invalid_check i cs) cs ix.

Lemma contrib_invalid e c : contrib e (invalid_check c) = None.
Proof. done. Qed.

Lemma best_invalid e c : valid c = false -> contrib e c = None.
Proof.
  unfold valid. intros H%negb_false_iff%Z.eqb_eq. unfold contrib, check_hit, check_keys.
  by rewrite H.
Qed.

Lemma alter_split {A} (f : A -> A) l i c :
  l !! i = Some c ->
  l = take i l ++ c :: drop (S i) l /\ alter f i l = take i l ++ f c :: drop (S i) l.
Proof.
  intros H. pose proof (lookup_lt_Some _ _ _ H) as Hl.
  assert (E : l = take i l ++ c :: drop (S i) l) by by rewrite take_drop_middle.
  split; [done|]. rewrite E at 1.
  rewrite alter_app_r_alt by (rewrite length_take; lia).
  by rewrite length_take, Nat.min_l, Nat.sub_diag by lia.
Qed.

(** [ks] are the checks at the indices [ix]. *)
Notation at_indices cs :=
  (Forall2 (fun (i : nat) (c : Check) => (cs : list Check) !! i = Some c)).

Lemma at_indices_alter (f : Check -> Check) i cs ix ks :
  i ∉ ix -> at_indices cs ix ks -> at_indices (alter f i cs) ix ks.
Proof.
  intros Hi. induction 1 as [|j c ix ks Hj _ IH]; constructor.
  - rewrite list_lookup_alter_ne; [done|]. set_solver.
  - apply IH. set_solver.
Qed.

Lemma best_invalidate e ix : forall cs ks,
  NoDup ix -> at_indices cs ix ks ->
  best e cs = omax (best e ks) (best e (invalidate ix cs)).
Proof.
  induction ix as [|i ix IH]; intros cs ks Hn Hk; inversion Hk as [|? c ? ks' Hc Hks]; subst.
  - by rewrite (left_id_L None omax).
  - apply NoDup_cons in Hn as [Hi Hn].
    change (invalidate (i :: ix) cs) with (invalidate ix (alter invalid_check i cs)).
    cbn [best foldr]. fold (best e ks'). rewrite <- (assoc_L omax).
    rewrite <- (IH _ ks' Hn (at_indices_alter _ _ _ _ _ Hi Hks)).
    destruct (alter_split invalid_check cs i c Hc) as [E1 E2]. rewrite E2.
    rewrite E1 at 1. rewrite !best_app. cbn [best foldr].
    rewrite contrib_invalid, (left_id_L None omax), !(assoc_L omax).
    by rewrite (comm_L omax (best e (take i cs))).
Qed.

Lemma invalidate_Forall (P : Check -> Prop) ix : forall cs ks,
  NoDup ix -> at_indices cs ix ks -> Forall (fun c => P (invalid_check c)) ks ->
  Forall P cs -> Forall P (invalidate ix cs).
Proof.
  induction ix as [|i ix IH]; intros cs ks Hn Hk HP H; [done|].
  inversion Hk as [|? c ? ks' Hc Hks]; subst.
  apply NoDup_cons in Hn as [Hi Hn]. apply Forall_cons in HP as [P1 HP].
  apply (IH (alter invalid_check i cs) ks'); auto using at_indices_alter.
  apply Forall_alter; [done|]. intros x Hx _. congruence.
Qed.

(** A property of checks that do not become invalid filters the same. *)
Lemma invalidate_filter (f : Check -> bool) ix : forall cs ks,
  NoDup ix -> at_indices cs ix ks ->
  Forall (fun c => f c = false /\ f (invalid_check c) = false) ks ->
  List.filter f (invalidate ix cs) = List.filter f cs.
Proof.
  induction ix as [|i ix IH]; intros cs ks Hn Hk Hf; inversion Hk as [|? c ? ks' Hc Hks]; subst;
    [done|].
  apply NoDup_cons in Hn as [Hi Hn]. apply Forall_cons in Hf as [[F1 F2] Hf].
  change (invalidate (i :: ix) cs) with (invalidate ix (alter invalid_check i cs)).
  rewrite (IH _ ks' Hn (at_indices_alter _ _ _ _ _ Hi Hks) Hf).
  destruct (alter_split invalid_check cs i c Hc) as [E1 E2]. rewrite E2.
  rewrite E1 at 3. rewrite !List.filter_app. cbn [List.filter]. by rewrite F1, F2.
Qed.

(** The checks left of those that satisfy [g], when [g] refuses invalid ones:
    those of [cs] that are not at [ix]. *)
Lemma invalidate_remove (g : Check -> bool) ix : (forall c, g (invalid_check c) = false) -> forall cs ks,
  NoDup ix -> at_indices cs ix ks -> Forall g ks ->
  List.filter g cs ≡ₚ ks ++ List.filter g (invalidate ix cs).
Proof.
  intros Hg. induction ix as [|i ix IH]; intros cs ks Hn Hk Hv; inversion Hk as [|? c ? ks' Hc Hks]; subst;
    [done|].
  apply NoDup_cons in Hn as [Hi Hn]. apply Forall_cons in Hv as [V Hv].
  change (invalidate (i :: ix) cs) with (invalidate ix (alter invalid_check i cs)).
  rewrite <- app_comm_cons, <- (IH _ ks' Hn (at_indices_alter _ _ _ _ _ Hi Hks) Hv).
  destruct (alter_split invalid_check cs i c Hc) as [E1 E2]. rewrite E2.
  rewrite E1 at 1. rewrite !List.filter_app. cbn [List.filter].
  apply Is_true_true in V. rewrite V, Hg. by rewrite Permutation_middle.
Qed.

Lemma invalidate_valid ix : forall cs ks,
  NoDup ix -> at_indices cs ix ks -> Forall valid ks ->
  List.filter valid cs ≡ₚ ks ++ List.filter valid (invalidate ix cs).
Proof. by apply invalidate_remove. Qed.

(** ** The indices found by a loop over the checks *)

Lemma find_checks_spec f cs :
  NoDup (find_checks f cs) /\ at_indices cs (find_checks f cs) (List.filter f cs).
Proof.
  unfold find_checks. split; [apply NoDup_ListNoDup, List.NoDup_filter, seq_NoDup|].
  induction cs as [|c cs IH] using rev_ind; [constructor|].
  rewrite length_app, Nat.add_1_r, seq_S, !List.filter_app.
  apply Forall2_app.
  - erewrite List.filter_ext_in.
    + eapply Forall2_impl; [exact IH|]. intros i d Hd. by apply lookup_app_l_Some.
    + intros i Hi%in_seq. cbn beta. by rewrite lookup_app_l by lia.
  - cbn [List.filter Nat.add]. rewrite lookup_app_r, Nat.sub_diag by lia. cbn.
    destruct (f c); repeat constructor.
    rewrite lookup_app_r, Nat.sub_diag by lia. done.
Qed.

(** ** [merge_same_headers] *)

(** What the front of the back end guarantees of a check. *)
Record good (c : Check) : Prop := {
  good_type : (0 <= ctype c <= 4)%Z;
  good_id : (0 <= cid c)%Z;
  good_priority : ctype c <> CHECK_TYPE_MONITOR -> priority c = if_action_val c;
  good_monitor : ctype c = CHECK_TYPE_MONITOR ->
    priority c = else_action_val c /\ else_action_val c = DROP_ACTION_VAL;
  good_exact : ctype c = CHECK_TYPE_EXACT ->
    exists v, (INT_MIN <= v <= INT_MAX)%Z /\ pred_hi c = to_string v /\ pred_lo c = to_string v
}.

(** No monitor reads a header that a table check matches on. *)
Definition monitors_apart (cs : list Check) : Prop :=
  forall c d, c ∈ cs -> d ∈ cs -> is_monitor_check c = true -> is_monitor_check d = false ->
  header c <> header d.

(** The values a mergeable check matches. *)
Definition items_of (c : Check) : list Z :=
  if (ctype c =? CHECK_TYPE_EXACT)%Z
  then match stoi (pred_lo c) with Ok v => [v] | Err _ => [] end
  else clist c.

Definition same_header (h : string) (c : Check) : bool := bool_decide (header c = h).

(** The checks on a header, those of them that can be merged, and the indices
    of the latter. *)
Definition group (h : string) (cs : list Check) : list Check :=
  List.filter (same_header h) cs.
Definition group_merged (h : string) (cs : list Check) : list Check :=
  List.filter is_mergeable (group h cs).
Definition group_indices (h : string) (cs : list Check) : list nat :=
  List.filter (fun i => from_option is_mergeable false (cs !! i))
    (find_checks (same_header h) cs).

(** The effect of [merge_header] on the checks. *)
Definition merge_group (h : string) (cs : list Check) : list Check :=
  match group h cs with
  | [] => cs
  | first :: _ =>
      if forallb (fun c => priority c =? priority first)%Z (group h cs)
         && (1 <? length (group_merged h cs))%nat
      then invalidate (group_indices h cs) cs
           ++ [merged_check first (mjoin (items_of <$> group_merged h cs))]
      else cs
  end.

Lemma gather_checks_spec ix : forall ks acc p,
  NoDup ix -> at_indices (check_v p) ix ks -> Forall good ks ->
  gather_checks ix acc p =
  Ok (acc ++ mjoin (items_of <$> ks), p_check_v (invalidate ix (check_v p)) p).
Proof.
  induction ix as [|i ix IH]; intros ks acc p Hn Hk Hg; inversion Hk as [|? c ? ks' Hc Hks]; subst.
  - cbn. rewrite app_nil_r. by destruct p.
  - apply NoDup_cons in Hn as [Hi Hn]. apply Forall_cons in Hg as [G Hg].
    cbn [gather_checks]. rewrite Hc. cbn [deref]. rewrite bind_ret_l.
    assert (E : (if (ctype c =? CHECK_TYPE_EXACT)%Z
                 then v ← stoi (pred_lo c); mret (acc ++ [v])
                 else mret (acc ++ clist c)) = Ok (acc ++ items_of c)).
    { unfold items_of. destruct (Z.eqb_spec (ctype c) CHECK_TYPE_EXACT); [|done].
      destruct (good_exact c G) as (v & Hv & _ & ->); [done|].
      by rewrite stoi_to_string. }
    rewrite E, bind_ret_l.
    rewrite (IH ks'); [|done| |done].
    + rewrite fmap_cons. cbn [mjoin list_join]. by rewrite (assoc_L (++)).
    + cbn. by apply at_indices_alter.
Qed.

Lemma at_indices_filter (f : Check -> bool) cs ix ks :
  at_indices cs ix ks ->
  at_indices cs (List.filter (fun i => from_option f false (cs !! i)) ix) (List.filter f ks).
Proof.
  induction 1 as [|i c ix ks Hc _ IH]; [constructor|]. cbn [List.filter]. rewrite Hc. cbn.
  destruct (f c); [by constructor|done].
Qed.

Lemma at_indices_mapM cs ix ks : at_indices cs ix ks -> mapM (fun i => cs !! i) ix = Some ks.
Proof. intros H. by apply mapM_Some. Qed.

Lemma filter_Forall {A} (P : A -> Prop) (f : A -> bool) l :
  Forall P l -> Forall P (List.filter f l).
Proof. induction 1; [constructor|]. simpl. case_match; [by constructor|done]. Qed.

Lemma p_check_v_id p : p_check_v (check_v p) p = p.
Proof. by destruct p. Qed.

Lemma existsb_negb {A} (f : A -> bool) l : existsb (fun x => negb (f x)) l = negb (forallb f l).
Proof. induction l as [|x l IH]; [done|]. simpl. rewrite IH. by destruct (f x). Qed.

Lemma merge_header_spec h p :
  Forall good (check_v p) ->
  merge_header h p = Ok (p_check_v (merge_group h (check_v p)) p).
Proof.
  intros Hg. unfold merge_header, merge_group, group_merged, group_indices, group.
  change (fun c => bool_decide (header c = h)) with (same_header h).
  pose proof (find_checks_spec (same_header h) (check_v p)) as [Hn Ha].
  pose proof (filter_Forall good (same_header h) _ Hg) as Hgg.
  destruct (find_checks (same_header h) (check_v p)) as [|i ix] eqn:Ei.
  { inversion Ha as [E1 E2|]. by rewrite p_check_v_id. }
  inversion Ha as [|? first ? g Hfirst Hrest E1 E2]; subst. rewrite <- E2 in Ha, Hgg.
  destruct (1 <? length (i :: ix))%nat eqn:El.
  - unfold merge_checks_per_header.
    assert (Hh : head (i :: ix) ≫= (fun i => check_v p !! i) = Some first) by exact Hfirst.
    rewrite Hh, (at_indices_mapM _ _ _ Ha). cbn [deref]. rewrite !bind_ret_l, existsb_negb.
    destruct (forallb _ _); cbn [negb andb]; [|by rewrite p_check_v_id].
    pose proof (at_indices_filter is_mergeable _ _ _ Ha) as Ha'.
    pose proof (Forall2_length _ _ _ Ha') as Hlen.
    unfold from_option in *. rewrite Hlen.
    destruct (Nat.leb_spec (length (List.filter is_mergeable (first :: g))) 1) as [L|L].
    + destruct (Nat.ltb_spec 1 (length (List.filter is_mergeable (first :: g)))); [lia|].
      by rewrite p_check_v_id.
    + destruct (Nat.ltb_spec 1 (length (List.filter is_mergeable (first :: g)))); [|lia].
      rewrite (gather_checks_spec _ (List.filter is_mergeable (first :: g))); [done| |done|].
      * by apply NoDup_ListNoDup, List.NoDup_filter, NoDup_ListNoDup.
      * by apply filter_Forall.
  - destruct ix; [|done]. inversion Hrest; subst.
    destruct (_ && _) eqn:E; [|by rewrite p_check_v_id].
    apply andb_true_iff in E as [_ E]. cbn in E. by destruct (is_mergeable first).
Qed.

Lemma existsb_fmap {A B} (f : B -> bool) (g : A -> B) l :
  existsb f (g <$> l) = existsb (fun x => f (g x)) l.
Proof. induction l as [|x l IH]; [done|]. simpl. by rewrite <- IH. Qed.

Lemma existsb_ext {A} (f g : A -> bool) l : (forall x, f x = g x) -> existsb f l = existsb g l.
Proof. intros H. induction l as [|x l IH]; [done|]. simpl. by rewrite H, IH. Qed.

Lemma key_matches_exact e h v : key_matches e (KExact h (to_string v)) = (hdr e h =? v)%Z.
Proof. simpl. by rewrite scan_int_to_string. Qed.

(** A list check hits when the header is one of its values. *)
Lemma list_check_hit e c :
  ctype c = CHECK_TYPE_LIST ->
  check_hit e c = existsb (fun v => hdr e (header c) =? v)%Z (clist c).
Proof.
  intros Ht. rewrite check_hit_fit by (unfold is_monitor_check; by rewrite Ht).
  unfold check_keys. rewrite Ht. cbn [Z.eqb CHECK_TYPE_EXACT].
  change (existsb (forallb (key_matches e))
    ((fun v => [KExact (header c) (to_string v)]) <$> clist c) =
    existsb (fun v => hdr e (header c) =? v)%Z (clist c)).
  rewrite existsb_fmap. apply existsb_ext. intros v. cbn [forallb].
  by rewrite key_matches_exact, andb_true_r.
Qed.

Lemma mergeable_hit e c :
  good c -> is_mergeable c = true ->
  check_hit e c = existsb (fun v => hdr e (header c) =? v)%Z (items_of c).
Proof.
  intros Hg Hm. unfold is_mergeable in Hm. unfold items_of.
  destruct (Z.eqb_spec (ctype c) CHECK_TYPE_EXACT) as [E|E].
  - destruct (good_exact c Hg E) as (v & Hv & H1 & H2).
    rewrite check_hit_fit by (unfold is_monitor_check; by rewrite E).
    unfold check_keys. rewrite E, H1, H2, stoi_to_string by done.
    cbn [Z.eqb CHECK_TYPE_EXACT existsb forallb].
    change (Pos.eqb 1 1) with true. cbn [existsb forallb].
    by rewrite key_matches_exact, andb_true_r.
  - apply list_check_hit. by apply Z.eqb_eq.
Qed.

Lemma mergeable_not_monitor c : is_mergeable c = true -> is_monitor_check c = false.
Proof.
  unfold is_mergeable, is_monitor_check.
  intros [H|H]%orb_true_iff; apply Z.eqb_eq in H; by rewrite H.
Qed.

Lemma contrib_merged e first h v ks :
  header first = h -> if_action_val first = v ->
  Forall (fun c => good c /\ is_mergeable c = true /\ header c = h /\ priority c = v) ks ->
  contrib e (merged_check first (mjoin (items_of <$> ks))) = best e ks.
Proof.
  intros Hh Hv Hk. unfold contrib. rewrite list_check_hit by done. cbn. rewrite Hh, Hv.
  induction Hk as [|c ks (G & M & H & P) _ IH]; [done|].
  cbn [best foldr]. fold (best e ks). rewrite <- IH. unfold contrib at 1.
  rewrite (mergeable_hit e c G M), H.
  assert (V : check_value c = v).
  { pose proof (mergeable_not_monitor c M) as Nm. unfold check_value, is_monitor_check in *.
    rewrite Nm. rewrite <- P. symmetry. apply good_priority; [done|]. by apply Z.eqb_neq. }
  rewrite V, fmap_cons. cbn [mjoin list_join]. rewrite existsb_app.
  destruct (existsb _ (items_of c)), (existsb _ (mjoin _)); simpl; f_equal; lia.
Qed.

(** The checks a header groups, when they are merged. *)
Section Group.
Context (h : string) (cs : list Check).
Context (GOOD : Forall good cs) (APART : monitors_apart cs).

Notation g := (group h cs).
Notation ks := (group_merged h cs).
Notation ix := (group_indices h cs).

Lemma group_indices_spec : NoDup ix /\ at_indices cs ix ks.
Proof.
  destruct (find_checks_spec (same_header h) cs) as [Hn Ha]. split.
  - by apply NoDup_ListNoDup, List.NoDup_filter, NoDup_ListNoDup.
  - by apply at_indices_filter.
Qed.

Lemma group_elem c : c ∈ g -> c ∈ cs /\ header c = h.
Proof.
  intros Hc. apply list_elem_of_In, filter_In in Hc as [Hc Hh].
  split; [by apply list_elem_of_In|]. by apply bool_decide_eq_true in Hh.
Qed.

Lemma mergeable_elem c : c ∈ ks -> c ∈ g /\ is_mergeable c = true.
Proof.
  intros Hc. apply list_elem_of_In, filter_In in Hc as [Hc Hm].
  by rewrite <- list_elem_of_In in Hc.
Qed.

(** [merge_group] either leaves the checks or replaces [ks]. *)
Lemma merge_group_cases :
  merge_group h cs = cs \/
  exists first rest, g = first :: rest /\ (1 < length ks)%nat /\
    merge_group h cs = invalidate ix cs ++ [merged_check first (mjoin (items_of <$> ks))] /\
    is_monitor_check first = false /\ priority first = if_action_val first /\
    Forall (fun c => good c /\ is_mergeable c = true /\ header c = h /\
                     priority c = if_action_val first) ks.
Proof.
  unfold merge_group. destruct g as [|first rest] eqn:Eg; [by left|].
  destruct (forallb _ _) eqn:Ef; [|by left].
  destruct (Nat.ltb_spec 1 (length ks)) as [L|L]; [|by left]. right.
  assert (Hf : first ∈ cs /\ header first = h)
    by (apply group_elem; rewrite Eg; by constructor).
  assert (Hm : is_monitor_check first = false).
  { destruct (is_monitor_check first) eqn:Em; [|done]. exfalso.
    assert (exists k, k ∈ ks) as [k Hks]
      by (clear -L; destruct ks as [|k r]; [simpl in L; lia|exists k; constructor]).
    destruct (mergeable_elem k Hks) as [Hk Hmk].
    apply group_elem in Hk as [Hk Hh].
    apply (APART first k (proj1 Hf) Hk Em (mergeable_not_monitor k Hmk)).
    destruct Hf. congruence. }
  assert (Hp : priority first = if_action_val first).
  { apply good_priority; [|by apply Z.eqb_neq].
    rewrite Forall_forall in GOOD. apply GOOD, Hf. }
  exists first, rest. repeat split; try done.
  apply Forall_forall. intros c Hc. apply mergeable_elem in Hc as [Hc Hmc].
  pose proof (group_elem c Hc) as [Hcs Hh]. rewrite Forall_forall in GOOD.
  repeat split; try apply GOOD; try done.
  rewrite forallb_forall in Ef. rewrite <- Hp. apply Z.eqb_eq, Ef, list_elem_of_In.
  by rewrite <- Eg.
Qed.

Lemma merge_group_best e : best e (merge_group h cs) = best e cs.
Proof.
  destruct merge_group_cases as [->|(first & rest & Eg & _ & -> & _ & _ & Hk)]; [done|].
  destruct group_indices_spec as [Hn Ha]. rewrite best_app. cbn [best foldr].
  rewrite (right_id_L None omax), (contrib_merged e first h (if_action_val first)); try done.
  - by rewrite (best_invalidate e ix cs ks Hn Ha), (comm_L omax).
  - apply group_elem. rewrite Eg. by constructor.
Qed.

(** What is true of the checks, of the invalidated ones and of the merged
    one is true of the result. *)
Lemma merge_group_Forall (P : Check -> Prop) :
  Forall P cs ->
  (forall c, c ∈ cs -> header c = h -> is_mergeable c = true -> P (invalid_check c)) ->
  (forall first, first ∈ cs -> header first = h -> is_monitor_check first = false ->
     P (merged_check first (mjoin (items_of <$> ks)))) ->
  Forall P (merge_group h cs).
Proof.
  intros H HI HM.
  destruct merge_group_cases as [->|(first & rest & Eg & _ & -> & Nm & _ & Hk)]; [done|].
  destruct group_indices_spec as [Hn Ha].
  assert (Hf : first ∈ g) by (rewrite Eg; constructor). apply group_elem in Hf as [Hf Hh].
  apply Forall_app. split; [|by constructor; [apply HM|constructor]].
  apply (invalidate_Forall P _ cs ks Hn Ha); [|done].
  apply Forall_forall. intros c Hc. apply mergeable_elem in Hc as [Hc Hm].
  apply group_elem in Hc as [Hc Hch]. by apply HI.
Qed.

Lemma merge_group_good : Forall good (merge_group h cs).
Proof.
  apply merge_group_Forall; [done| |].
  - intros c Hc _ Hm. rewrite Forall_forall in GOOD. specialize (GOOD c Hc).
    split; try done; [exact (good_id c GOOD)|]. intros _. apply (good_priority c GOOD).
    by apply Z.eqb_neq, mergeable_not_monitor.
  - intros first Hf _ _. rewrite Forall_forall in GOOD.
    split; try done. exact (good_id first (GOOD first Hf)).
Qed.

Lemma merge_group_apart : monitors_apart (merge_group h cs).
Proof.
  assert (H : Forall (fun d => exists c, c ∈ cs /\ header d = header c /\
                                 is_monitor_check d = is_monitor_check c) (merge_group h cs)).
  { apply merge_group_Forall.
    - apply Forall_forall. eauto.
    - intros c Hc _ Hm. exists c. by rewrite (mergeable_not_monitor c Hm).
    - intros first Hf Hh Nm. exists first. by rewrite Nm. }
  rewrite Forall_forall in H. intros c d Hc Hd Mc Md E.
  destruct (H c Hc) as (c' & Hc' & E1 & M1), (H d Hd) as (d' & Hd' & E2 & M2).
  apply (APART c' d'); congruence.
Qed.

Lemma merge_group_filter (f : Check -> bool) :
  (forall c, header c = h -> is_monitor_check c = false -> f c = false) ->
  List.filter f (merge_group h cs) = List.filter f cs.
Proof.
  intros Hf. destruct merge_group_cases as [->|(first & rest & Eg & _ & -> & Nm & _ & Hk)]; [done|].
  destruct group_indices_spec as [Hn Ha]. rewrite List.filter_app.
  assert (header first = h) by (apply group_elem; rewrite Eg; constructor).
  rewrite (invalidate_filter f _ cs ks Hn Ha).
  - cbn [List.filter]. rewrite Hf by done. by rewrite app_nil_r.
  - eapply Forall_impl; [exact Hk|]. intros c (_ & Hm & Hc & _).
    split; [|by apply Hf]. apply Hf; [done|by apply mergeable_not_monitor].
Qed.

(** The ids of the valid checks stay distinct when the first check of the
    header is one of those merged. *)
Definition head_merged : Prop :=
  match g with
  | [] => True
  | first :: _ => is_mergeable first = true \/ (length ks <= 1)%nat
  end.

Lemma merged_valid c : is_mergeable c = true -> valid c = true.
Proof.
  unfold valid, is_mergeable. intros Mc. apply negb_true_iff, Z.eqb_neq.
  intros E. by rewrite E in Mc.
Qed.

(** The number of valid checks never grows. *)
Lemma merge_group_count :
  (length (List.filter valid (merge_group h cs)) <= length (List.filter valid cs))%nat.
Proof.
  destruct merge_group_cases as [->|(first & rest & Eg & L & -> & Nm & _ & Hk)]; [done|].
  destruct group_indices_spec as [Hn Ha].
  assert (Hv : Forall valid ks)
    by (eapply Forall_impl; [exact Hk|]; intros c (_ & Mc & _); by apply Is_true_true, merged_valid).
  rewrite (Permutation_length (invalidate_valid _ cs ks Hn Ha Hv)).
  rewrite List.filter_app, !length_app.
  assert (Em : forall l, length (List.filter valid [merged_check first l]) = 1%nat) by done.
  rewrite Em. lia.
Qed.

Lemma merge_group_ids :
  head_merged -> NoDup (cid <$> List.filter valid cs) ->
  NoDup (cid <$> List.filter valid (merge_group h cs)).
Proof.
  unfold head_merged. intros Hh Hid.
  destruct merge_group_cases as [->|(first & rest & Eg & L & -> & Nm & _ & Hk)]; [done|].
  rewrite Eg in Hh. destruct Hh as [Hm|Hh]; [|lia].
  destruct group_indices_spec as [Hn Ha].
  assert (Hv : Forall valid ks)
    by (eapply Forall_impl; [exact Hk|]; intros c (_ & Mc & _); by apply Is_true_true, merged_valid).
  rewrite (invalidate_valid _ cs ks Hn Ha Hv) in Hid.
  rewrite List.filter_app, fmap_app.
  assert (Em : forall l, cid <$> List.filter valid [merged_check first l] = [cid first]) by done.
  rewrite Em, (comm (++)).
  assert (Ek : ks = first :: List.filter is_mergeable rest)
    by (unfold group_merged; rewrite Eg; cbn [List.filter]; by rewrite Hm).
  rewrite Ek, fmap_app, fmap_cons in Hid.
  rewrite <- app_comm_cons in Hid.
  apply NoDup_cons in Hid as [H1 H2]. apply NoDup_app in H2 as (_ & _ & H2).
  apply NoDup_cons. split; [|done]. intros Hin. apply H1, elem_of_app. by right.
Qed.
End Group.

Definition merge_groups (hs : list string) (cs : list Check) : list Check :=
  foldl (fun cs h => merge_group h cs) cs hs.

(** What merging keeps: the invariant, the monitor checks and every decision. *)
Record merge_keeps (cs cs' : list Check) : Prop := {
  keeps_good : Forall good cs';
  keeps_apart : monitors_apart cs';
  keeps_monitors : List.filter is_monitor_check cs' = List.filter is_monitor_check cs;
  keeps_best : forall e, best e cs' = best e cs;
  keeps_count : (length (List.filter valid cs') <= length (List.filter valid cs))%nat
}.

Lemma merge_groups_keeps hs : forall cs,
  Forall good cs -> monitors_apart cs -> merge_keeps cs (merge_groups hs cs).
Proof.
  induction hs as [|h hs IH]; intros cs Hg Ha; [by split|].
  destruct (IH (merge_group h cs)) as [H1 H2 H3 H4 H5];
    [by apply merge_group_good|by apply merge_group_apart|].
  split; [done|done| | |].
  - etrans; [exact H3|]. by apply merge_group_filter.
  - intros e. etrans; [apply H4|]. by apply merge_group_best.
  - etrans; [exact H5|]. by apply merge_group_count.
Qed.

Lemma merge_groups_ids hs : forall cs,
  NoDup hs -> Forall good cs -> monitors_apart cs ->
  (forall h, h ∈ hs -> head_merged h cs) -> NoDup (cid <$> List.filter valid cs) ->
  NoDup (cid <$> List.filter valid (merge_groups hs cs)).
Proof.
  induction hs as [|h hs IH]; intros cs Hn Hg Ha Hh Hid; [done|].
  apply NoDup_cons in Hn as [Hi Hn].
  apply (IH (merge_group h cs)); auto using merge_group_good, merge_group_apart.
  - intros h' Hh'. specialize (Hh h' ltac:(by right)).
    unfold head_merged, group_merged, group in *. rewrite merge_group_filter; [done|done|done|].
    intros c Ec _. apply bool_decide_eq_false. set_solver.
  - apply merge_group_ids; auto. apply Hh. by left.
Qed.

Lemma merge_headers_spec hs : forall p,
  Forall good (check_v p) -> monitors_apart (check_v p) ->
  merge_headers hs p = Ok (p_check_v (merge_groups hs (check_v p)) p).
Proof.
  induction hs as [|h hs IH]; intros p Hg Ha; [by destruct p|].
  cbn [merge_headers]. rewrite merge_header_spec by done. rewrite bind_ret_l, IH.
  - done.
  - by apply merge_group_good.
  - by apply merge_group_apart.
Qed.

Lemma best_filter_valid e cs : best e (List.filter valid cs) = best e cs.
Proof.
  induction cs as [|c cs IH]; [done|]. cbn [List.filter best foldr]. fold (best e cs).
  destruct (valid c) eqn:E; cbn [best foldr]; rewrite <- IH; [done|].
  by rewrite best_invalid, (left_id_L None omax).
Qed.

Lemma filter_filter {A} (f g : A -> bool) l :
  (forall x, g x = true -> f x = true) -> List.filter g (List.filter f l) = List.filter g l.
Proof.
  intros H. induction l as [|x l IH]; [done|]. simpl.
  destruct (f x) eqn:F, (g x) eqn:G; simpl; rewrite ?G, ?IH; try done.
  apply H in G. congruence.
Qed.

Lemma filter_elem {A} (f : A -> bool) l x : x ∈ List.filter f l <-> x ∈ l /\ f x = true.
Proof. by rewrite !list_elem_of_In, filter_In. Qed.

Lemma remove_invalid_keeps cs :
  Forall good cs -> monitors_apart cs -> merge_keeps cs (List.filter valid cs).
Proof.
  intros Hg Ha. split.
  - by apply filter_Forall.
  - intros c d Hc Hd. apply filter_elem in Hc as [Hc _], Hd as [Hd _]. by apply Ha.
  - apply filter_filter. intros c. unfold is_monitor_check, valid.
    intros E%Z.eqb_eq. by rewrite E.
  - intros e. apply best_filter_valid.
  - by rewrite filter_filter.
Qed.

Lemma merge_keeps_trans a b c : merge_keeps a b -> merge_keeps b c -> merge_keeps a c.
Proof. intros [] []. split; try done; [congruence| |lia]. intros e. congruence. Qed.

(** Merging the checks on each header succeeds, leaves only valid checks and
    keeps every decision. *)
Lemma merge_same_headers_ok p :
  Forall good (check_v p) -> monitors_apart (check_v p) ->
  exists cs, merge_same_headers p = Ok (p_check_v cs p) /\ Forall valid cs /\
    merge_keeps (check_v p) cs /\
    (NoDup (header_v p) -> (forall h, h ∈ header_v p -> head_merged h (check_v p)) ->
     NoDup (cid <$> List.filter valid (check_v p)) -> NoDup (cid <$> cs)).
Proof.
  intros Hg Ha. exists (List.filter valid (merge_groups (header_v p) (check_v p))).
  pose proof (merge_groups_keeps (header_v p) (check_v p) Hg Ha) as K.
  split; [|split; [|split]].
  - unfold merge_same_headers. rewrite merge_headers_spec by done. by rewrite bind_ret_l.
  - apply Forall_forall. intros c Hc. apply filter_elem in Hc as [_ Hc]. by apply Is_true_true.
  - eapply merge_keeps_trans; [exact K|]. apply remove_invalid_keeps; apply K.
  - intros Hn Hh Hid. by apply merge_groups_ids.
Qed.

(** ** [merge_monitors] *)

Lemma absorb_extra_spec c f :
  exists m, absorb_extra c f = set_h_to_val m (set_extra_header (extra_header f ++ extra_header c) f)
  /\ forall h, default EmptyString (m !! h) =
       default EmptyString (if decide (h ∈ extra_header c) then h_to_val c !! h
                            else h_to_val f !! h).
Proof.
  unfold absorb_extra.
  induction (extra_header c) as [|h hs IH] using rev_ind.
  - exists (h_to_val f). rewrite app_nil_r. split; [by destruct f|].
    intros h. case_decide; [set_solver|done].
  - destruct IH as (m & E & Hm). rewrite foldl_app, E. cbn [foldl].
    exists (<[h := default EmptyString (h_to_val c !! h)]> m). split.
    + cbn. by rewrite (assoc_L (++)).
    + intros h'. destruct (decide (h' = h)) as [->|N].
      * rewrite lookup_insert_eq. cbn. rewrite decide_True by set_solver. done.
      * rewrite lookup_insert_ne, Hm by done.
        destruct (decide (h' ∈ hs)); [rewrite decide_True by set_solver|
                                      rewrite decide_False by set_solver]; done.
Qed.

(** The checks on a monitor that can be merged: none has an extra predicate,
    or there is one check only. *)
Definition monitors_compatible (ks : list Check) : Prop :=
  Forall (fun c => extra_check c = 0%Z /\ extra_header c = []) ks \/ (length ks <= 1)%nat.

(** Checks of one monitor with one action. *)
Definition same_monitor (f c : Check) : Prop :=
  ctype c = CHECK_TYPE_MONITOR /\ mon_name c = mon_name f /\
  else_action_val c = else_action_val f.

Definition absorb_all (f : Check) (ks : list Check) : Check :=
  foldl (fun f c => absorb_extra c f) f ks.

Lemma monitor_hit_plain e c :
  ctype c = CHECK_TYPE_MONITOR -> extra_check c = 0%Z ->
  check_hit e c = (active e (mon_name c) =? 0)%Z.
Proof.
  intros Ht He. rewrite check_hit_fit by by left. unfold check_keys. rewrite Ht, He.
  change (existsb (forallb (key_matches e)) [[KActive (mon_name c)]] =
          (active e (mon_name c) =? 0)%Z).
  cbn. by rewrite andb_true_r, orb_false_r.
Qed.

Lemma monitor_hit_extra e c h :
  ctype c = CHECK_TYPE_MONITOR -> extra_check c <> 0%Z -> extra_header c = [h] ->
  check_hit e c = (active e (mon_name c) =? 0)%Z &&
                  key_matches e (KExact h (default EmptyString (h_to_val c !! h))).
Proof.
  intros Ht He%Z.eqb_neq Hh. rewrite check_hit_fit by eauto. unfold check_keys. rewrite Ht, He, Hh.
  change (existsb (forallb (key_matches e))
    [[KActive (mon_name c); KExact h (default EmptyString (h_to_val c !! h))]] =
    key_matches e (KActive (mon_name c)) && key_matches e (KExact h (default EmptyString (h_to_val c !! h)))).
  cbn [existsb forallb]. by rewrite andb_true_r, orb_false_r.
Qed.

Lemma absorb_all_contrib e ks : forall f,
  ctype f = CHECK_TYPE_MONITOR -> Forall (same_monitor f) ks ->
  monitors_compatible (f :: ks) ->
  contrib e (absorb_all f ks) = omax (contrib e f) (best e ks).
Proof.
  intros f Tf Hs [Hc|Hl]; [|destruct ks; [symmetry; apply (right_id_L None omax)|cbn in Hl; lia]].
  apply Forall_cons in Hc as [[Xf _] Hc].
  assert (absorb_all f ks = f) as ->.
  { clear -Hc. revert f. induction Hc as [|c ks [_ Hx] _ IH]; intros f; [done|].
    change (absorb_all f (c :: ks)) with (absorb_all (absorb_extra c f) ks). rewrite IH.
    unfold absorb_extra. by rewrite Hx. }
  induction Hs as [|c ks (Tc & Nc & Vc) _ IH]; [symmetry; apply (right_id_L None omax)|].
  apply Forall_cons in Hc as [[Xc _] Hc]. cbn [best foldr]. fold (best e ks).
  rewrite (assoc_L omax).
  assert (contrib e c = contrib e f) as ->.
  { unfold contrib, check_value. by rewrite !monitor_hit_plain, Tf, Tc, Nc, Vc. }
  rewrite (idemp_L omax). by apply IH.
Qed.

Lemma invalidate_alter (g : Check -> Check) i ix : forall cs,
  i ∉ ix -> invalidate ix (alter g i cs) = alter g i (invalidate ix cs).
Proof.
  induction ix as [|j ix IH]; intros cs Hi; [done|]. apply not_elem_of_cons in Hi as [Hj Hi].
  change (invalidate ix (alter invalid_check j (alter g i cs)) =
          alter g i (invalidate ix (alter invalid_check j cs))).
  by rewrite list_alter_alter_ne, IH.
Qed.

Lemma insert_alter {A} (g : A -> A) i x (l : list A) : <[i := x]> (alter g i l) = <[i := x]> l.
Proof. by rewrite !list_insert_alter, list_alter_alter_eq. Qed.

Lemma absorb_checks_spec first rest : forall f ks p,
  first ∉ rest -> NoDup rest -> check_v p !! first = Some f -> at_indices (check_v p) rest ks ->
  absorb_checks first rest p =
  Ok (p_check_v (<[first := absorb_all f ks]> (invalidate rest (check_v p))) p).
Proof.
  induction rest as [|i rest IH]; intros f ks p Hf Hn Hl Hk; inversion Hk as [|? c ? ks' Hc Hks]; subst.
  - cbn. rewrite list_insert_id by done. by destruct p.
  - apply NoDup_cons in Hn as [Hi Hn]. apply not_elem_of_cons in Hf as [Hfi Hf].
    cbn [absorb_checks]. rewrite Hc. cbn [deref]. rewrite bind_ret_l.
    rewrite (IH (absorb_extra c f) ks'); try done.
    + assert (Ep : forall x, p_check_v x (upd_check i (set_ctype CHECK_TYPE_INVALID)
        (upd_check first (absorb_extra c) p)) = p_check_v x p) by done.
      rewrite Ep. cbn. f_equal. f_equal.
      change (invalidate (i :: rest) (check_v p)) with
        (invalidate rest (alter invalid_check i (check_v p))).
      change (foldl (fun f c => absorb_extra c f) (absorb_extra c f) ks') with
        (absorb_all (absorb_extra c f) ks').
      rewrite list_alter_alter_ne by done.
      rewrite (invalidate_alter _ first) by done. apply insert_alter.
    + cbn. rewrite list_lookup_alter_ne by done. rewrite list_lookup_alter_eq, Hl. done.
    + cbn. by apply at_indices_alter, at_indices_alter.
Qed.

Definition mon_group (m : string) (cs : list Check) : list Check :=
  List.filter (fun c => (ctype c =? CHECK_TYPE_MONITOR)%Z && bool_decide (mon_name c = m)) cs.

Definition mon_indices (m : string) (cs : list Check) : list nat :=
  find_checks (fun c => (ctype c =? CHECK_TYPE_MONITOR)%Z && bool_decide (mon_name c = m)) cs.

(** The effect of [merge_monitor] on the checks. *)
Definition merge_mon (m : string) (cs : list Check) : list Check :=
  match mon_indices m cs, mon_group m cs with
  | first :: (_ :: _) as rest, f :: ks =>
      let f' := absorb_all f ks in
      <[first := set_table_size (Z.of_nat (length (extra_header f'))) f']> (invalidate rest cs)
  | _, _ => cs
  end.

Lemma merge_monitor_spec m p :
  merge_monitor m p = Ok (p_check_v (merge_mon (mon_mvar m) (check_v p)) p).
Proof.
  unfold merge_monitor, merge_mon. fold (mon_indices (mon_mvar m) (check_v p)).
  destruct (find_checks_spec (fun c => (ctype c =? CHECK_TYPE_MONITOR)%Z &&
                                bool_decide (mon_name c = mon_mvar m)) (check_v p)) as [Hn Ha].
  fold (mon_indices (mon_mvar m) (check_v p)) in Hn, Ha.
  fold (mon_group (mon_mvar m) (check_v p)) in Ha.
  destruct (mon_indices (mon_mvar m) (check_v p)) as [|first [|r rest]];
    [by rewrite p_check_v_id|by rewrite p_check_v_id|].
  inversion Ha as [|? f ? ks Hf Hks]; subst. apply NoDup_cons in Hn as [Hi Hn].
  rewrite (absorb_checks_spec first (r :: rest) f ks) by done. rewrite bind_ret_l.
  unfold mret, res_ret, upd_check. cbn [check_v p_check_v]. f_equal. unfold p_check_v. cbn.
  f_equal. rewrite list_insert_alter, list_alter_alter_eq, list_insert_alter. done.
Qed.

(** Inserting at the index of a check replaces its contribution. *)
Lemma best_insert e cs i c d :
  cs !! i = Some c ->
  exists x, best e cs = omax (contrib e c) x /\ best e (<[i := d]> cs) = omax (contrib e d) x.
Proof.
  intros H. exists (omax (best e (take i cs)) (best e (drop (S i) cs))).
  rewrite list_insert_alter.
  destruct (alter_split (fun _ => d) cs i c H) as [E1 E2]. rewrite E2. rewrite E1 at 1.
  rewrite !best_app. cbn [best foldr]. fold (best e (drop (S i) cs)).
  split; by rewrite !(assoc_L omax), (comm_L omax (best e (take i cs))).
Qed.

Lemma mon_group_elem m cs c :
  c ∈ mon_group m cs <-> c ∈ cs /\ ctype c = CHECK_TYPE_MONITOR /\ mon_name c = m.
Proof.
  unfold mon_group. rewrite list_elem_of_In, filter_In, <- list_elem_of_In, andb_true_iff.
  by rewrite Z.eqb_eq, bool_decide_eq_true.
Qed.

(** What the order of the checks and the code generator rely on. *)
Record sane (c : Check) : Prop := {
  sane_type : (0 <= ctype c <= 4)%Z;
  sane_id : (0 <= cid c)%Z;
  sane_drop : ctype c = CHECK_TYPE_MONITOR -> else_action_val c = DROP_ACTION_VAL;
  sane_priority : valid c = true -> priority c = check_value c
}.

Lemma good_sane c : good c -> sane c.
Proof.
  intros [Ht Hi Hp Hm _]. split; [done|done|by intros E; apply Hm|].
  intros _. unfold check_value. destruct (Z.eqb_spec (ctype c) CHECK_TYPE_MONITOR); [|by apply Hp].
  by apply Hm.
Qed.

(** When two or more checks read the monitor [m]. *)
Section Monitor.
Context (m : string) (cs : list Check).
Context (SANE : Forall sane cs).

Lemma merge_mon_cases :
  merge_mon m cs = cs \/
  exists first rest f ks, mon_group m cs = f :: ks /\
    first ∉ rest /\ NoDup rest /\ cs !! first = Some f /\ at_indices cs rest ks /\
    invalidate rest cs !! first = Some f /\
    merge_mon m cs =
      <[first := set_table_size (Z.of_nat (length (extra_header (absorb_all f ks))))
                   (absorb_all f ks)]> (invalidate rest cs).
Proof.
  unfold merge_mon, mon_indices.
  destruct (find_checks_spec (fun c => (ctype c =? CHECK_TYPE_MONITOR)%Z &&
                                bool_decide (mon_name c = m)) cs) as [Hn Ha].
  fold (mon_group m cs) in Ha.
  destruct (find_checks _ cs) as [|first [|r rest]]; [by left|by left|].
  destruct (mon_group m cs) as [|f ks] eqn:Em; [by left|]. right.
  inversion Ha as [|? ? ? ? Hf Hks]; subst. apply NoDup_cons in Hn as [Hi Hn].
  exists first, (r :: rest), f, ks. repeat split; try done.
  clear -Hf Hi. revert cs Hf. induction (r :: rest) as [|j l IH]; intros cs Hf; [done|].
  apply not_elem_of_cons in Hi as [Hj Hi]. apply (IH Hi (alter invalid_check j cs)).
  by rewrite list_lookup_alter_ne by done.
Qed.

Lemma mon_group_same f ks :
  mon_group m cs = f :: ks -> ctype f = CHECK_TYPE_MONITOR /\ Forall (same_monitor f) ks.
Proof.
  intros E. pose proof (fun c => proj1 (mon_group_elem m cs c)) as Hel. rewrite E in Hel.
  rewrite Forall_forall in SANE.
  assert (Hd : forall c, c ∈ f :: ks -> else_action_val c = DROP_ACTION_VAL).
  { intros c Hc'. apply Hel in Hc' as (H1 & H2 & _). by apply (sane_drop c (SANE c H1)). }
  destruct (Hel f) as (_ & Tf & Nf); [constructor|]. split; [done|].
  apply Forall_forall. intros c Hc'. destruct (Hel c) as (_ & ? & ?); [by constructor|].
  repeat split; [done|congruence|]. rewrite !Hd; [done|constructor|by constructor].
Qed.

Lemma merge_mon_best e :
  monitors_compatible (mon_group m cs) -> best e (merge_mon m cs) = best e cs.
Proof.
  intros Hc.
  destruct merge_mon_cases as [->|(first & rest & f & ks & Eg & Hi & Hn & Hf & Hks & Hl & ->)];
    [done|].
  destruct (mon_group_same f ks Eg) as [Tf Hs]. rewrite Eg in Hc.
  set (F := absorb_all f ks).
  destruct (best_insert e _ first f
    (set_table_size (Z.of_nat (length (extra_header F))) F) Hl) as (x & E1 & ->).
  rewrite (best_invalidate e rest cs ks Hn Hks), E1.
  assert (EF : forall n, contrib e (set_table_size n F) = contrib e F) by done.
  rewrite EF. unfold F. rewrite absorb_all_contrib by done.
  by rewrite !(assoc_L omax), (comm_L omax (best e ks)).
Qed.

(** The absorbing check changes only its extra headers and values. *)
Lemma absorb_all_fields f ks :
  exists m' l, absorb_all f ks = set_h_to_val m' (set_extra_header l f).
Proof.
  revert f. induction ks as [|c ks IH]; intros f.
  - exists (h_to_val f), (extra_header f). by destruct f.
  - destruct (absorb_extra_spec c f) as (m1 & E & _).
    change (absorb_all f (c :: ks)) with (absorb_all (absorb_extra c f) ks).
    destruct (IH (absorb_extra c f)) as (m2 & l & ->). rewrite E. by exists m2, l.
Qed.

Lemma merge_mon_sane : Forall sane (merge_mon m cs).
Proof.
  destruct merge_mon_cases as [->|(first & rest & f & ks & Eg & Hi & Hn & Hf & Hks & Hl & ->)];
    [done|].
  apply Forall_insert.
  - apply (invalidate_Forall sane rest cs ks); try done.
    apply Forall_forall. intros c Hc. split; try done.
    apply list_elem_of_lookup in Hc as [k Hk].
    destruct (Forall2_lookup_r _ _ _ _ _ Hks Hk) as (j & _ & Hj).
    rewrite Forall_forall in SANE.
    exact (sane_id c (SANE c (list_elem_of_lookup_2 _ _ _ Hj))).
  - assert (Sf : sane f) by (rewrite Forall_forall in SANE; by apply SANE, list_elem_of_lookup_2 with first).
    destruct (absorb_all_fields f ks) as (m' & l & ->). destruct Sf. by split.
Qed.

Lemma merge_mon_other m' : m' <> m -> mon_group m' (merge_mon m cs) = mon_group m' cs.
Proof.
  intros N.
  destruct merge_mon_cases as [->|(first & rest & f & ks & Eg & Hi & Hn & Hf & Hks & Hl & ->)];
    [done|].
  assert (Hm : forall c, c ∈ f :: ks -> mon_name c <> m')
    by (intros c Hc; rewrite <- Eg in Hc; apply mon_group_elem in Hc as (_ & _ & ->); done).
  unfold mon_group.
  assert (Hfalse : forall c, mon_name c <> m' ->
    (ctype c =? CHECK_TYPE_MONITOR)%Z && bool_decide (mon_name c = m') = false)
    by (intros c Hc; by rewrite (bool_decide_eq_false_2 _ Hc), andb_false_r).
  rewrite list_insert_alter.
  destruct (alter_split (fun _ => set_table_size
    (Z.of_nat (length (extra_header (absorb_all f ks)))) (absorb_all f ks)) _ _ _ Hl) as [E1 E2].
  rewrite E2, List.filter_app. cbn [List.filter].
  rewrite Hfalse by (destruct (absorb_all_fields f ks) as (? & ? & ->); apply (Hm f); constructor).
  rewrite <- (invalidate_filter _ rest cs ks Hn Hks).
  - rewrite E1 at 3. rewrite List.filter_app. cbn [List.filter].
    rewrite Hfalse by (apply Hm; constructor). done.
  - apply Forall_forall. intros c Hc. by rewrite Hfalse by (apply Hm; by constructor).
Qed.

(** One check on the monitor is left. *)
Lemma merge_mon_group f ks :
  mon_group m cs = f :: ks ->
  exists n, mon_group m (merge_mon m cs) = [set_table_size n (absorb_all f ks)].
Proof.
  intros Eg. unfold merge_mon, mon_indices.
  destruct (find_checks_spec (monitor_check m) cs) as [Hn Ha].
  change (List.filter (monitor_check m) cs) with (mon_group m cs) in Ha.
  change (fun c => (ctype c =? CHECK_TYPE_MONITOR)%Z && bool_decide (mon_name c = m)) with (monitor_check m).
  rewrite Eg in Ha |- *. inversion Ha as [|first ? rest ? Hf Hks E1]; subst.
  assert (Hgf : monitor_check m f = true /\ Forall (monitor_check m) ks).
  { assert (H : Forall (monitor_check m) (mon_group m cs)).
    { apply Forall_forall. intros c Hc. apply list_elem_of_In, filter_In in Hc as [_ Hc]. by apply Is_true_true. }
    rewrite Eg in H. apply Forall_cons in H as [H1 H2]. by apply Is_true_true in H1. }
  destruct Hgf as [Gf Gk]. destruct rest as [|r rest].
  { inversion Hks; subst. exists (table_size f). rewrite Eg. cbn. by destruct f. }
  rewrite <- E1 in Hn. apply NoDup_cons in Hn as [Hi Hn].
  assert (Hl : forall ix, first ∉ ix -> invalidate ix cs !! first = Some f).
  { clear -Hf. intros ix. revert cs Hf. induction ix as [|j l IH]; intros cs Hf Hi; [done|].
    apply not_elem_of_cons in Hi as [Hj Hi]. apply (IH (alter invalid_check j cs)); [|done].
    by rewrite list_lookup_alter_ne by done. }
  specialize (Hl (r :: rest) Hi). eexists.
  pose proof (invalidate_remove (monitor_check m) (r :: rest) ltac:(done) cs ks Hn Hks Gk) as P.
  change (List.filter (monitor_check m) cs) with (mon_group m cs) in P. rewrite Eg, (Permutation_cons_append ks f) in P.
  apply Permutation_app_inv_l, Permutation_length_1_inv in P.
  set (F := set_table_size _ _). rewrite list_insert_alter.
  destruct (alter_split (fun _ => F) _ _ _ Hl) as [S1 S2].
  assert (GF : monitor_check m F = true) by (unfold F; destruct (absorb_all_fields f ks) as (? & ? & ->); done).
  unfold mon_group in *. change (fun c => (ctype c =? CHECK_TYPE_MONITOR)%Z && bool_decide (mon_name c = m)) with (monitor_check m) in *.
  rewrite S2. rewrite S1 in P. rewrite List.filter_app in P |- *. cbn [List.filter] in P |- *. rewrite Gf in P. rewrite GF.
  destruct (List.filter (monitor_check m) (take first _)) as [|x [|? ?]]; [|discriminate P..].
  injection P as P. change (invalidate (r :: rest) cs) with (invalidate rest (alter invalid_check r cs)). by rewrite P.
Qed.

(** The ids left are some of the ids. *)
Lemma merge_mon_ids :
  exists l, cid <$> List.filter valid cs ≡ₚ l ++ (cid <$> List.filter valid (merge_mon m cs)).
Proof.
  destruct merge_mon_cases as [->|(first & rest & f & ks & Eg & Hi & Hn & Hf & Hks & Hl & ->)];
    [by exists []|].
  destruct (mon_group_same f ks Eg) as [Tf Hs].
  assert (Hv : Forall valid ks).
  { eapply Forall_impl; [exact Hs|]. intros c (Tc & _). unfold valid. by rewrite Tc. }
  exists (cid <$> ks). rewrite (invalidate_valid rest cs ks Hn Hks Hv), fmap_app.
  apply reflexive_eq. f_equal.
  set (F := set_table_size _ _). rewrite list_insert_alter.
  destruct (alter_split (fun _ => F) _ _ _ Hl) as [E1 E2].
  rewrite E2. rewrite E1 at 1. rewrite !List.filter_app, !fmap_app. cbn [List.filter].
  assert (EF : valid F = valid f /\ cid F = cid f)
    by (unfold F; destruct (absorb_all_fields f ks) as (? & ? & ->); done).
  destruct EF as [-> EF]. destruct (valid f); [|done]. by rewrite !fmap_cons, EF.
Qed.
End Monitor.

Definition merge_mons (ms : list string) (cs : list Check) : list Check :=
  foldl (fun cs m => merge_mon m cs) cs ms.

Lemma merge_mons_ok ms : forall cs,
  Forall sane cs -> Forall sane (merge_mons ms cs) /\
  (exists l, cid <$> List.filter valid cs ≡ₚ
             l ++ (cid <$> List.filter valid (merge_mons ms cs))) /\
  (NoDup ms -> (forall m, m ∈ ms -> monitors_compatible (mon_group m cs)) ->
   forall e, best e (merge_mons ms cs) = best e cs) /\
  (NoDup ms -> forall m f ks, m ∈ ms -> mon_group m cs = f :: ks ->
   exists n, mon_group m (merge_mons ms cs) = [set_table_size n (absorb_all f ks)]) /\
  (forall m, m ∉ ms -> mon_group m (merge_mons ms cs) = mon_group m cs).
Proof.
  induction ms as [|m ms IH]; intros cs Hs.
  { split; [done|]. split; [by exists []|]. split; [done|]. split; [by intros _ m f ks ?%elem_of_nil|done]. }
  destruct (IH (merge_mon m cs) (merge_mon_sane m cs Hs)) as (H1 & [l2 H2] & H3 & H4 & H5).
  split; [done|]. split; [|split; [|split]].
  { destruct (merge_mon_ids m cs Hs) as [l1 E1]. exists (l1 ++ l2).
    by rewrite E1, H2, (assoc_L (++)). }
  - intros Hn Hc e. apply NoDup_cons in Hn as [Hi Hn]. etrans; [apply H3; [done|]|].
    + intros m' Hm'. rewrite merge_mon_other by set_solver. apply Hc. by right.
    + apply merge_mon_best; [done|]. apply Hc. by left.
  - intros Hn m' f ks Hm' Eg. apply NoDup_cons in Hn as [Hi Hn]. change (merge_mons (m :: ms) cs) with (merge_mons ms (merge_mon m cs)).
    apply elem_of_cons in Hm' as [->|Hm'].
    + rewrite H5 by done. by apply merge_mon_group.
    + apply (H4 Hn m' f ks Hm'). rewrite merge_mon_other by set_solver. exact Eg.
  - intros m' [Hm' Hms]%not_elem_of_cons. change (merge_mons (m :: ms) cs) with (merge_mons ms (merge_mon m cs)).
    by rewrite H5, merge_mon_other.
Qed.

Lemma merge_monitors_loop_spec ms : forall p,
  merge_monitors_loop ms p = Ok (p_check_v (merge_mons (mon_mvar <$> ms) (check_v p)) p).
Proof.
  induction ms as [|m ms IH]; intros p; [by destruct p|].
  cbn [merge_monitors_loop]. by rewrite merge_monitor_spec, bind_ret_l, IH.
Qed.

Lemma mon_group_valid m cs : mon_group m (List.filter valid cs) = mon_group m cs.
Proof. apply filter_filter. intros c [E%Z.eqb_eq _]%andb_prop. unfold valid. by rewrite E. Qed.

(** Merging the checks on each monitor succeeds and leaves one check for each;
    it keeps every decision when the checks of a monitor are compatible. *)
Lemma merge_monitors_ok p :
  Forall sane (check_v p) ->
  exists cs, merge_monitors p = Ok (p_check_v cs p) /\ Forall valid cs /\ Forall sane cs /\
    (exists l, cid <$> List.filter valid (check_v p) ≡ₚ l ++ (cid <$> cs)) /\
    (NoDup (mon_mvar <$> monitor_v p) ->
     (forall m, m ∈ mon_mvar <$> monitor_v p -> monitors_compatible (mon_group m (check_v p))) ->
     forall e, best e cs = best e (check_v p)) /\
    (NoDup (mon_mvar <$> monitor_v p) ->
     forall m f ks, m ∈ mon_mvar <$> monitor_v p -> mon_group m (check_v p) = f :: ks ->
     exists n, mon_group m cs = [set_table_size n (absorb_all f ks)]) /\
    (forall m, mon_group m (check_v p) = [] -> mon_group m cs = []).
Proof.
  intros Hs. destruct (merge_mons_ok (mon_mvar <$> monitor_v p) (check_v p) Hs) as (H1 & H2 & H3 & H4 & H5).
  eexists. split; [|split; [|split; [|split; [|split; [|split]]]]].
  - unfold merge_monitors. by rewrite merge_monitors_loop_spec, bind_ret_l.
  - apply Forall_forall. intros c Hc. apply filter_elem in Hc as [_ Hc]. by apply Is_true_true.
  - by apply filter_Forall.
  - exact H2.
  - intros Hn Hc e. etrans; [apply best_filter_valid|]. by apply H3.
  - intros Hn m f ks Hm Eg. change (fun c => negb (ctype c =? CHECK_TYPE_INVALID)%Z) with valid.
    rewrite mon_group_valid. by apply H4.
  - intros m Eg. change (fun c => negb (ctype c =? CHECK_TYPE_INVALID)%Z) with valid. rewrite mon_group_valid.
    clear -Eg Hs. cbn [check_v p_check_v]. revert Eg Hs. generalize (check_v p) as cs.
    induction (mon_mvar <$> monitor_v p) as [|m' ms IH]; intros cs Eg Hs; [done|].
    change (merge_mons (m' :: ms) cs) with (merge_mons ms (merge_mon m' cs)).
    apply IH; [|by apply merge_mon_sane]. destruct (decide (m = m')) as [->|N]; [|by rewrite merge_mon_other].
    unfold merge_mon. rewrite Eg. by destruct (mon_indices m' cs) as [|? [|? ?]].
Qed.

(** ** The two passes *)

(** C3: [merge_same_headers] succeeds on checks made by the front of the back
    end, when no monitor reads a header that a table check matches on: the
    checks it leaves decide every packet as the checks it was given, the
    monitor checks are untouched, and there are never more checks than before. *)
Theorem merge_same_headers_decision (p : Program) :
  Forall good (check_v p) -> monitors_apart (check_v p) ->
  exists p', merge_same_headers p = Ok p' /\
    (forall e, best e (check_v p') = best e (check_v p)) /\
    List.filter is_monitor_check (check_v p') = List.filter is_monitor_check (check_v p) /\
    Forall valid (check_v p') /\ (length (check_v p') <= length (check_v p))%nat.
Proof.
  intros Hg Ha. destruct (merge_same_headers_ok p Hg Ha) as (cs & E & V & K & _).
  exists (p_check_v cs p). split; [done|]. cbn [check_v p_check_v].
  split; [exact (keeps_best _ _ K)|]. split; [exact (keeps_monitors _ _ K)|]. split; [done|].
  pose proof (keeps_count _ _ K) as L. rewrite (filter_all valid cs V) in L.
  etrans; [exact L|]. apply List.filter_length_le.
Qed.

(** Two equality checks and a list on one header. *)
Definition mergeable_checks : list Check :=
  let base := set_header "h1" (set_priority 15 (set_else_action_val 1 (set_if_action_val 15 Check_new))) in
  [set_pred_lo "5" (set_pred_hi "5" (set_ctype CHECK_TYPE_EXACT base));
   set_cid 1 (set_clist [7; 8]%Z (set_ctype CHECK_TYPE_LIST base));
   set_cid 2 (set_pred_lo "9" (set_pred_hi "9" (set_ctype CHECK_TYPE_EXACT base)))].

Lemma merge_same_headers_decision_witness :
  exists p', merge_same_headers (p_check_v mergeable_checks (p_header_v ["h1"] Program_new)) = Ok p' /\
    (length (check_v p') = 1)%nat /\
    forall e, best e (check_v p') = best e mergeable_checks.
Proof.
  destruct (merge_same_headers_decision (p_check_v mergeable_checks (p_header_v ["h1"] Program_new)))
    as (p' & E & B & _).
  - cbn [check_v p_check_v]. unfold mergeable_checks.
    apply Forall_cons; split; [|apply Forall_cons; split; [|apply Forall_cons; split; [|by apply Forall_nil]]];
      split; try done; intros _; [exists 5%Z|exists 9%Z]; done.
  - intros c d Hc Hd Mc _ _. cbn [check_v p_check_v] in Hc. unfold mergeable_checks in Hc.
    apply elem_of_cons in Hc as [->|Hc]; [discriminate Mc|].
    apply elem_of_cons in Hc as [->|Hc]; [discriminate Mc|].
    apply elem_of_cons in Hc as [->|Hc]; [discriminate Mc|by apply elem_of_nil in Hc].
  - exists p'. split; [done|]. split; [|exact B]. vm_compute in E. by injection E as <-.
Defined.

(** C4: [merge_monitors] succeeds on sane checks and leaves one check for
    every monitor that has some.  When none of the checks of a monitor has an
    extra predicate, or there is one check only, every decision stays the
    same. *)
Theorem merge_monitors_decision (p : Program) :
  Forall sane (check_v p) -> NoDup (mon_mvar <$> monitor_v p) ->
  (forall m, m ∈ mon_mvar <$> monitor_v p -> monitors_compatible (mon_group m (check_v p))) ->
  exists p', merge_monitors p = Ok p' /\
    (forall e, best e (check_v p') = best e (check_v p)) /\ Forall valid (check_v p') /\
    (forall m, m ∈ mon_mvar <$> monitor_v p ->
       length (mon_group m (check_v p')) = Nat.min 1 (length (mon_group m (check_v p)))).
Proof.
  intros Hs Hn Hc. destruct (merge_monitors_ok p Hs) as (cs & E & V & _ & _ & B & G & G0).
  exists (p_check_v cs p). split; [done|]. split; [exact (B Hn Hc)|]. split; [done|].
  intros m Hm. cbn [check_v p_check_v]. destruct (mon_group m (check_v p)) as [|f ks] eqn:Eg.
  - by rewrite G0.
  - destruct (G Hn m f ks Hm Eg) as [n ->]. by destruct ks.
Qed.

(** Two checks of one monitor. *)
Definition monitor_checks : list Check :=
  let base := set_ctype CHECK_TYPE_MONITOR (set_mon_name "m0" (set_header "h1" (set_priority 15
    (set_else_action_val 15 (set_if_action_val 1 Check_new))))) in
  [base; set_cid 1 base].

Definition monitor_program : Program :=
  p_monitor_v [mkMonitor "m0" (mkListPred "h1" "in" "list0")] Program_new.

Lemma merge_monitors_decision_witness :
  exists p', merge_monitors (p_check_v monitor_checks monitor_program) = Ok p' /\
    (length (check_v p') = 1)%nat /\
    forall e, best e (check_v p') = best e monitor_checks.
Proof.
  destruct (merge_monitors_decision (p_check_v monitor_checks monitor_program)) as (p' & E & B & _).
  - cbn [check_v p_check_v]. unfold monitor_checks.
    apply Forall_cons; split; [|apply Forall_cons; split; [|by apply Forall_nil]]; by split.
  - cbn. apply NoDup_singleton.
  - intros m Hm. cbn in Hm. apply list_elem_of_singleton in Hm as ->. left.
    assert (Eg : mon_group "m0" monitor_checks = monitor_checks) by reflexivity.
    cbn [check_v p_check_v]. rewrite Eg. unfold monitor_checks.
    apply Forall_cons; split; [|apply Forall_cons; split; [|by apply Forall_nil]]; done.
  - exists p'. split; [done|]. split; [|exact B]. vm_compute in E. by injection E as <-.
Defined.


(** Two checks of a monitor with predicates on different headers. *)
Definition extra_of (i : Z) (h v : string) : Check :=
  set_cid i (set_h_to_val {[h := v]} (set_extra_header [h] (set_extra_check 1
    (set_ctype CHECK_TYPE_MONITOR (set_mon_name "m0" (set_header "h1" (set_priority 15
      (set_else_action_val 15 (set_if_action_val 1 Check_new))))))))).

