(* ===== verification/Policy.v ===== *)
(** The meaning of a policy: what its match expressions say about a context
    packet, independent of how the compiler implements them; what the switch
    makes of each of them; and the classes of policies the back end accepts
    and implements as written. *)

From stdpp Require Import base list strings gmap sorting.
From Stdlib Require Import ZArith Lia Ascii.
From S2P Require Import Prelude Cxx Ast Backend Codegen TextProps AllocProps Switch MergeProps.

(** ** Meaning *)

(** [h == v], [h < v], [h > v], [h <= v] and [h >= v]. *)
Definition pred_holds (e : env) (bp : BinaryPred) : bool :=
  match scan_int (rhs bp) with
  | Some v =>
      if bool_decide (op bp = "==") then (hdr e (lhs bp) =? v)%Z
      else if bool_decide (op bp = "<") then (hdr e (lhs bp) <? v)%Z
      else if bool_decide (op bp = ">") then (v <? hdr e (lhs bp))%Z
      else if bool_decide (op bp = "<=") then (hdr e (lhs bp) <=? v)%Z
      else if bool_decide (op bp = ">=") then (v <=? hdr e (lhs bp))%Z
      else false
  | None => false
  end.

(** The header is one of the values of the list. *)
Definition in_list (p : Program) (e : env) (lp : ListPred) : bool :=
  match name2list p !! listbodyvar lp with
  | Some le => existsb (fun v => hdr e (listvar lp) =? v)%Z (items le)
  | None => false
  end.

(** [h in l] and [h notin l]. *)
Definition list_holds (p : Program) (e : env) (lp : ListPred) : bool :=
  xorb (bool_decide (listop lp = "notin")) (in_list p e lp).

(** The condition of a match expression: a comparison, membership, or an active
    monitor (and its extra predicate). *)
Definition me_holds (p : Program) (e : env) (me : MatchExpr) : bool :=
  if (me_type me =? MATCH_MONITOR)%Z then
    negb (active e (matchmvar me) =? 0)%Z &&
    match matchpred me with Some bp => pred_holds e bp | None => true end
  else if (me_type me =? MATCH_PRED)%Z then
    match matchpred me with Some bp => pred_holds e bp | None => false end
  else match matchlist me with Some lp => list_holds p e lp | None => false end.

(** How strong an action is; any other action overrides the normal one. *)
Definition action_strength (a : string) : option Z :=
  if (action_to_val a =? NORMAL_ACTION_VAL)%Z then None else Some (action_to_val a).

(** The action the match expression takes. *)
Definition me_decision (p : Program) (e : env) (me : MatchExpr) : option Z :=
  action_strength (if me_holds p e me then if_action me else else_action me).

Definition strongest (f : MatchExpr -> option Z) (mes : list MatchExpr) : option Z :=
  foldr (fun me acc => omax (f me) acc) None mes.

(** The decision of a policy: the strongest of the actions taken; [None] when
    all are the normal one. *)
Definition policy_decision (p : Program) (e : env) : option Z :=
  strongest (me_decision p e) (matchexpr_v p).

(** ** What the switch makes of it *)

(** Ranges include their bounds and end at 0 and 10000; [<=] and [>=] have no
    table. *)
Definition pred_compiled (e : env) (bp : BinaryPred) : bool :=
  match scan_int (rhs bp) with
  | Some v =>
      if bool_decide (op bp = "==") then (hdr e (lhs bp) =? v)%Z
      else if bool_decide (op bp = "<") then ((0 <=? hdr e (lhs bp)) && (hdr e (lhs bp) <=? v))%Z
      else if bool_decide (op bp = ">") then ((v <=? hdr e (lhs bp)) && (hdr e (lhs bp) <=? 10000))%Z
      else false
  | None => false
  end.

(** [notin] is [in]; a monitor drops while it is inactive and the header of its
    extra predicate has the value of that predicate. *)
Definition me_compiled (p : Program) (e : env) (me : MatchExpr) : option Z :=
  if (me_type me =? MATCH_MONITOR)%Z then
    if (active e (matchmvar me) =? 0)%Z &&
       match matchpred me with Some bp => key_matches e (KExact (lhs bp) (rhs bp)) | None => true end
    then Some DROP_ACTION_VAL else None
  else if (me_type me =? MATCH_PRED)%Z then
    if match matchpred me with Some bp => pred_compiled e bp | None => false end
    then Some (action_to_val (if_action me)) else None
  else if match matchlist me with Some lp => in_list p e lp | None => false end
       then Some (action_to_val (if_action me)) else None.

Definition compiled_decision (p : Program) (e : env) : option Z :=
  strongest (me_compiled p e) (matchexpr_v p).

(** ** Supported policies *)

Definition actions_ok (me : MatchExpr) : Prop :=
  num_actions me = 2%Z /\ if_action me <> EmptyString /\ else_action me <> EmptyString /\
  action_to_val (else_action me) = NORMAL_ACTION_VAL /\
  action_to_val (if_action me) <> NORMAL_ACTION_VAL.

Definition int_value (s : string) (v : Z) : Prop :=
  s = to_string v /\ (INT_MIN <= v <= INT_MAX)%Z.

(** A match expression the back end accepts. *)
Definition me_accepted (p : Program) (me : MatchExpr) : Prop :=
  (me_type me = MATCH_PRED /\ actions_ok me /\
   exists bp v, matchpred me = Some bp /\ int_value (rhs bp) v /\
                op bp ∈ ["=="; "<"; ">"; "<="; ">="]) \/
  (me_type me = MATCH_LIST /\ actions_ok me /\
   exists lp le, matchlist me = Some lp /\ name2list p !! listbodyvar lp = Some le) \/
  (me_type me = MATCH_MONITOR /\ matchmvar me ∈ mon_mvar <$> monitor_v p /\
   exists mon, name2mon p !! matchmvar me = Some mon).

(** One that means what it says: no [<=], [>=] or [notin], and of monitors
    [if match (m) then fwd1 else drop] only. *)
Definition me_exact (me : MatchExpr) : bool :=
  if (me_type me =? MATCH_PRED)%Z then
    match matchpred me with Some bp => bool_decide (op bp ∈ ["=="; "<"; ">"]) | None => false end
  else if (me_type me =? MATCH_LIST)%Z then
    match matchlist me with Some lp => bool_decide (listop lp = "in") | None => false end
  else negb (bool_decide (is_Some (matchpred me))) &&
       (action_to_val (if_action me) =? NORMAL_ACTION_VAL)%Z &&
       (action_to_val (else_action me) =? DROP_ACTION_VAL)%Z.

(** The header a match expression reads. *)
Definition me_header (p : Program) (me : MatchExpr) : string :=
  if (me_type me =? MATCH_MONITOR)%Z then
    match name2mon p !! matchmvar me with Some m => listvar (mon_lp m) | None => EmptyString end
  else if (me_type me =? MATCH_PRED)%Z then from_option lhs EmptyString (matchpred me)
  else from_option listvar EmptyString (matchlist me).

Definition me_monitor (me : MatchExpr) : bool := (me_type me =? MATCH_MONITOR)%Z.

(** Equality and membership matches, which the compiler merges. *)
Definition me_mergeable (me : MatchExpr) : bool :=
  (me_type me =? MATCH_LIST)%Z ||
  ((me_type me =? MATCH_PRED)%Z && from_option is_exact_match false (matchpred me)).

Definition on_header (p : Program) (h : string) (me : MatchExpr) : bool :=
  bool_decide (me_header p me = h).

(** On every header the first match expression is mergeable, or at most one
    is. *)
Definition header_regular (p : Program) (h : string) : Prop :=
  let g := List.filter (on_header p h) (matchexpr_v p) in
  match g with
  | [] => True
  | first :: _ => me_mergeable first = true \/ (length (List.filter me_mergeable g) <= 1)%nat
  end.

Definition uses_monitor (m : string) (me : MatchExpr) : bool :=
  me_monitor me && bool_decide (matchmvar me = m).

(** A policy as the parser leaves it, of match expressions the back end accepts
    and whose checks do not get into each other's way when they are merged. *)
Record accepted (p : Program) : Prop := {
  acc_fresh : check_v p = [] /\ curr_rec p = 0%Z /\ curr_stage p = 0%Z;
  acc_supported : Forall (me_accepted p) (matchexpr_v p);
  acc_apart : forall me me', me ∈ matchexpr_v p -> me' ∈ matchexpr_v p ->
    me_monitor me = true -> me_monitor me' = false -> me_header p me <> me_header p me';
  acc_regular : forall h, header_regular p h;
  acc_monitors : NoDup (mon_mvar <$> monitor_v p);
  acc_monitor_use : forall m,
    let g := List.filter (uses_monitor m) (matchexpr_v p) in
    (length g <= 1)%nat \/ Forall (fun me => matchpred me = None) g
}.

(** A policy the back end implements as it is written. *)
Record plain (p : Program) : Prop := {
  plain_accepted : accepted p;
  plain_exact : forallb me_exact (matchexpr_v p) = true
}.

(** Packets on which an inclusive range and a strict comparison agree: the
    compared header is not negative, not the bound itself, and for [>] not
    above the default upper bound of a range. *)
Definition off_boundary (p : Program) (e : env) : Prop :=
  forall me bp v, me ∈ matchexpr_v p -> me_type me = MATCH_PRED -> matchpred me = Some bp ->
    scan_int (rhs bp) = Some v ->
    (op bp = "<" -> 0 <= hdr e (lhs bp) /\ hdr e (lhs bp) <> v)%Z /\
    (op bp = ">" -> hdr e (lhs bp) <> v /\ hdr e (lhs bp) <= 10000)%Z.

(** ** Deciding whether a policy is plain *)

Definition int_valueb (s : string) : bool :=
  match scan_int s with
  | Some v => bool_decide (s = to_string v) && (INT_MIN <=? v)%Z && (v <=? INT_MAX)%Z
  | None => false
  end.

Definition actions_okb (me : MatchExpr) : bool :=
  (num_actions me =? 2)%Z && negb (bool_decide (if_action me = EmptyString)) &&
  negb (bool_decide (else_action me = EmptyString)) &&
  (action_to_val (else_action me) =? NORMAL_ACTION_VAL)%Z &&
  negb (action_to_val (if_action me) =? NORMAL_ACTION_VAL)%Z.

Definition me_acceptedb (p : Program) (me : MatchExpr) : bool :=
  if (me_type me =? MATCH_PRED)%Z then
    actions_okb me &&
    match matchpred me with
    | Some bp => int_valueb (rhs bp) && bool_decide (op bp ∈ ["=="; "<"; ">"; "<="; ">="])
    | None => false
    end
  else if (me_type me =? MATCH_LIST)%Z then
    actions_okb me &&
    match matchlist me with
    | Some lp => bool_decide (is_Some (name2list p !! listbodyvar lp))
    | None => false
    end
  else
    (me_type me =? MATCH_MONITOR)%Z && bool_decide (matchmvar me ∈ mon_mvar <$> monitor_v p) &&
    bool_decide (is_Some (name2mon p !! matchmvar me)).

Definition header_regularb (p : Program) (h : string) : bool :=
  let g := List.filter (on_header p h) (matchexpr_v p) in
  match g with
  | [] => true
  | first :: _ => me_mergeable first || (length (List.filter me_mergeable g) <=? 1)%nat
  end.

Definition monitor_useb (p : Program) (m : string) : bool :=
  let g := List.filter (uses_monitor m) (matchexpr_v p) in
  (length g <=? 1)%nat || forallb (fun me => negb (bool_decide (is_Some (matchpred me)))) g.

Definition acceptedb (p : Program) : bool :=
  match check_v p with [] => true | _ => false end &&
  (curr_rec p =? 0)%Z && (curr_stage p =? 0)%Z &&
  forallb (me_acceptedb p) (matchexpr_v p) &&
  forallb (fun me => forallb (fun me' =>
    negb (me_monitor me && negb (me_monitor me') &&
          bool_decide (me_header p me = me_header p me'))) (matchexpr_v p)) (matchexpr_v p) &&
  forallb (header_regularb p) (me_header p <$> matchexpr_v p) &&
  bool_decide (NoDup (mon_mvar <$> monitor_v p)) &&
  forallb (monitor_useb p) (matchmvar <$> matchexpr_v p).

Definition plainb (p : Program) : bool := acceptedb p && forallb me_exact (matchexpr_v p).

Lemma int_valueb_sound s : int_valueb s = true -> exists v, int_value s v.
Proof.
  unfold int_valueb. destruct (scan_int s) as [v|]; [|done].
  intros [[H1%bool_decide_eq_true H2%Z.leb_le]%andb_true_iff H3%Z.leb_le]%andb_true_iff.
  by exists v.
Qed.

Lemma actions_okb_sound me : actions_okb me = true -> actions_ok me.
Proof.
  unfold actions_okb. rewrite !andb_true_iff, !negb_true_iff, !bool_decide_eq_false.
  intros ((((H1%Z.eqb_eq & H2) & H3) & H4%Z.eqb_eq) & H5%Z.eqb_neq). done.
Qed.

Lemma me_acceptedb_sound p me : me_acceptedb p me = true -> me_accepted p me.
Proof.
  intros H. unfold me_acceptedb in H. unfold me_accepted.
  destruct (Z.eqb_spec (me_type me) MATCH_PRED) as [T|T]; [left|right].
  - cbn iota in H. rewrite andb_true_iff in H. destruct H as [H1%actions_okb_sound H2].
    destruct (matchpred me) as [bp|]; [|done]. rewrite andb_true_iff in H2.
    destruct H2 as [[v Hv]%int_valueb_sound H2%bool_decide_eq_true].
    split; [done|]. split; [done|]. by exists bp, v.
  - destruct (Z.eqb_spec (me_type me) MATCH_LIST) as [T'|T']; [left|right].
    + cbn iota in H. rewrite andb_true_iff in H. destruct H as [H1%actions_okb_sound H2].
      destruct (matchlist me) as [lp|]; [|done].
      apply bool_decide_eq_true in H2 as [le Hle].
      split; [done|]. split; [done|]. by exists lp, le.
    + cbn iota in H. rewrite !andb_true_iff in H.
      destruct H as ((H1%Z.eqb_eq & H2%bool_decide_eq_true) & [mon H3]%bool_decide_eq_true).
      split; [done|]. split; [done|]. by exists mon.
Qed.

Lemma forallb_elem {A} (f : A -> bool) l x : forallb f l = true -> x ∈ l -> f x = true.
Proof. intros H Hx. rewrite forallb_forall in H. by apply H, list_elem_of_In. Qed.

Lemma acceptedb_sound p : acceptedb p = true -> accepted p.
Proof.
  unfold acceptedb. rewrite !andb_true_iff.
  intros (((((((H1 & H2%Z.eqb_eq) & H3%Z.eqb_eq) & H4) & H5) & H6) & H7%bool_decide_eq_true) & H8).
  split; [by destruct (check_v p)| | | |done|].
  - apply Forall_forall. intros me Hm. by apply me_acceptedb_sound, (forallb_elem _ _ _ H4).
  - intros me me' Hm Hm' M M' E.
    pose proof (forallb_elem _ _ _ (forallb_elem _ _ _ H5 Hm) Hm') as H.
    cbn beta in H. by rewrite M, M', (bool_decide_eq_true_2 _ E) in H.
  - intros h. unfold header_regular.
    destruct (List.filter (on_header p h) (matchexpr_v p)) as [|first g] eqn:E; [done|].
    assert (Hf : first ∈ matchexpr_v p /\ me_header p first = h).
    { assert (Hin : first ∈ List.filter (on_header p h) (matchexpr_v p))
        by (rewrite E; constructor).
      apply filter_elem in Hin as [Hin Hh]. by apply bool_decide_eq_true in Hh. }
    destruct Hf as [Hin Hh].
    assert (Hr : header_regularb p h = true).
    { rewrite <- Hh. apply (forallb_elem _ _ _ H6). by apply list_elem_of_fmap_2. }
    unfold header_regularb in Hr. rewrite E in Hr.
    apply orb_true_iff in Hr as [Hr|Hr%Nat.leb_le]; [by left|by right].
  - intros m. cbv zeta.
    destruct (List.filter (uses_monitor m) (matchexpr_v p)) as [|first g] eqn:E; [left; cbn; lia|].
    assert (Hf : first ∈ matchexpr_v p /\ matchmvar first = m).
    { assert (Hin : first ∈ List.filter (uses_monitor m) (matchexpr_v p))
        by (rewrite E; constructor).
      apply filter_elem in Hin as [Hin Hh]. apply andb_true_iff in Hh as [_ Hh].
      by apply bool_decide_eq_true in Hh. }
    destruct Hf as [Hin Hm].
    assert (Hr : monitor_useb p m = true).
    { rewrite <- Hm. apply (forallb_elem _ _ _ H8). by apply list_elem_of_fmap_2. }
    unfold monitor_useb in Hr. rewrite E in Hr.
    apply orb_true_iff in Hr as [Hr%Nat.leb_le|Hr]; [by left|right].
    apply Forall_forall. intros me Hme. pose proof (forallb_elem _ _ _ Hr Hme) as H. cbn beta in H.
    apply negb_true_iff, bool_decide_eq_false in H. by destruct (matchpred me); [destruct H; eauto|].
Qed.

Lemma plainb_sound p : plainb p = true -> plain p.
Proof. intros [H1%acceptedb_sound H2]%andb_prop. by split. Qed.

(** ** Where the two meanings agree *)

Definition off_boundary_me (e : env) (me : MatchExpr) : Prop :=
  forall bp v, me_type me = MATCH_PRED -> matchpred me = Some bp ->
    scan_int (rhs bp) = Some v ->
    (op bp = "<" -> 0 <= hdr e (lhs bp) /\ hdr e (lhs bp) <> v)%Z /\
    (op bp = ">" -> hdr e (lhs bp) <> v /\ hdr e (lhs bp) <= 10000)%Z.

Lemma action_strength_ok me b : actions_ok me ->
  action_strength (if b : bool then if_action me else else_action me) =
  if b then Some (action_to_val (if_action me)) else None.
Proof.
  intros (_ & _ & _ & H1 & H2%Z.eqb_neq). unfold action_strength. destruct b; [by rewrite H2|by rewrite H1].
Qed.

Lemma me_exact_agrees p e me :
  me_accepted p me -> me_exact me = true -> off_boundary_me e me -> me_compiled p e me = me_decision p e me.
Proof.
  intros Ha Hx He. unfold me_compiled, me_decision, me_holds, me_exact in *.
  destruct Ha as [(T & A & bp & v & Hb & Hv & _)|[(T & A & lp & le & Hl & Hd)|(T & _)]]; rewrite T in *.
  - change (MATCH_PRED =? MATCH_MONITOR)%Z with false. change (MATCH_PRED =? MATCH_PRED)%Z with true in *. cbn iota in *.
    rewrite Hb in *. apply bool_decide_eq_true in Hx. rewrite action_strength_ok by done.
    assert (pred_compiled e bp = pred_holds e bp) as ->; [|done].
    assert (Hs : scan_int (rhs bp) = Some v) by (destruct Hv as [-> _]; apply scan_int_to_string).
    destruct (He bp v T Hb Hs) as [H1 H2]. unfold pred_compiled, pred_holds. rewrite Hs.
    apply elem_of_cons in Hx as [Ho|[Ho|Ho%list_elem_of_singleton]%elem_of_cons]; rewrite Ho in *.
    + done.
    + destruct H1 as [? ?]; [done|]. change (bool_decide ("<" = "==")) with false. change (bool_decide ("<" = "<")) with true.
      cbn iota. destruct (Z.leb_spec 0 (hdr e (lhs bp))), (Z.leb_spec (hdr e (lhs bp)) v), (Z.ltb_spec (hdr e (lhs bp)) v); lia || done.
    + destruct H2 as [? ?]; [done|]. change (bool_decide (">" = "==")) with false. change (bool_decide (">" = "<")) with false.
      change (bool_decide (">" = ">")) with true. cbn iota.
      destruct (Z.leb_spec v (hdr e (lhs bp))), (Z.leb_spec (hdr e (lhs bp)) 10000), (Z.ltb_spec v (hdr e (lhs bp))); lia || done.
  - change (MATCH_LIST =? MATCH_MONITOR)%Z with false. change (MATCH_LIST =? MATCH_PRED)%Z with false in *.
    change (MATCH_LIST =? MATCH_LIST)%Z with true in *. cbn iota in *. rewrite Hl in *.
    apply bool_decide_eq_true in Hx. rewrite action_strength_ok by done. unfold list_holds. by rewrite Hx.
  - change (MATCH_MONITOR =? MATCH_MONITOR)%Z with true. change (MATCH_MONITOR =? MATCH_PRED)%Z with false in *.
    change (MATCH_MONITOR =? MATCH_LIST)%Z with false in *. cbn iota in *.
    apply andb_prop in Hx as [[Hx%negb_true_iff%bool_decide_eq_false H1%Z.eqb_eq]%andb_prop H2%Z.eqb_eq].
    destruct (matchpred me); [by destruct Hx|]. rewrite !andb_true_r. unfold action_strength.
    destruct (active e (matchmvar me) =? 0)%Z; cbn [negb]; [by rewrite H2|by rewrite H1].
Qed.

Lemma strongest_ext f g mes : Forall (fun me => f me = g me) mes -> strongest f mes = strongest g mes.
Proof. induction 1 as [|me mes E _ IH]; [done|]. unfold strongest in *. cbn. by rewrite E, IH. Qed.

(** On packets off the range boundaries the switch takes the decision of a
    plain policy. *)
Lemma plain_agrees p e : plain p -> off_boundary p e -> compiled_decision p e = policy_decision p e.
Proof.
  intros [A X] He. apply strongest_ext, Forall_forall. intros me Hm. apply me_exact_agrees.
  - pose proof (acc_supported p A) as S. rewrite Forall_forall in S. by apply S.
  - by apply (forallb_elem _ _ _ X).
  - intros bp v. by apply (He me bp v).
Qed.
