(* ===== verification/CompileProps.v ===== *)
(** Correctness of the back end as a whole: for a policy the back end
    implements as written, [compile_tofino] succeeds, its two files are the
    text of a switch program, and running that program gives the decision of
    the policy. *)

From stdpp Require Import base list strings gmap sorting.
From Stdlib Require Import ZArith Lia Ascii.
From S2P Require Import Prelude Cxx Ast Backend Codegen TextProps AllocProps Switch MergeProps Policy.

(** ** From match expressions to checks *)

(** Decides the equality tests between literal strings in the goal. *)
Ltac decide_strings :=
  repeat match goal with
  | |- context [bool_decide (?a = ?b)] =>
      let v := eval vm_compute in (bool_decide (a = b)) in
      lazymatch v with
      | true => change (bool_decide (a = b)) with true
      | false => change (bool_decide (a = b)) with false
      end
  end; cbn iota.

(** The check made from the match expression number [i]. *)
Record implements (p : Program) (i : nat) (me : MatchExpr) (c : Check) : Prop := {
  imp_good : good c;
  imp_id : cid c = Z.of_nat i;
  imp_header : header c = me_header p me;
  imp_monitor : is_monitor_check c = me_monitor me;
  imp_mergeable : is_mergeable c = me_mergeable me;
  imp_name : me_monitor me = true -> mon_name c = matchmvar me;
  imp_timeout : timeout_val c = timeout_val Check_new;
  imp_extra : me_monitor me = true ->
    match matchpred me with
    | None => extra_check c = 0%Z /\ extra_header c = []
    | Some bp => extra_check c = 1%Z /\ extra_header c = [lhs bp]
    end;
  imp_contrib : forall e, contrib e c = me_compiled p e me
}.

Lemma scan_int_value s v : int_value s v -> scan_int s = Some v.
Proof. intros [-> _]. apply scan_int_to_string. Qed.

Lemma get_if_action_ok me :
  if_action me <> EmptyString -> get_if_action me = Ok (if_action me).
Proof. intros H. unfold get_if_action. by rewrite (bool_decide_eq_true_2 _ H). Qed.

Lemma get_else_action_ok me :
  else_action me <> EmptyString -> get_else_action me = Ok (else_action me).
Proof. intros H. unfold get_else_action. by rewrite (bool_decide_eq_true_2 _ H). Qed.

(** The guard on the two action values passes. *)
Lemma actions_guard me :
  actions_ok me ->
  negb (action_to_val (else_action me) =? NORMAL_ACTION_VAL)%Z ||
  (action_to_val (if_action me) =? action_to_val (else_action me))%Z = false.
Proof.
  intros (_ & _ & _ & H1 & H2). rewrite H1, Z.eqb_refl. by apply Z.eqb_neq.
Qed.

Lemma get_ifthenelse_ok me : actions_ok me -> get_ifthenelse me = true.
Proof. intros (H & _). unfold get_ifthenelse. by rewrite H. Qed.

(** The check [parse_match_pred] makes of a supported predicate. *)
Definition pred_check (me : MatchExpr) (bp : BinaryPred) : Check :=
  let check := set_header (lhs bp) (set_priority (action_to_val (if_action me))
    (set_else_action_val (action_to_val (else_action me))
      (set_if_action_val (action_to_val (if_action me)) Check_new))) in
  if bool_decide (op bp = "==") then
    set_pred_lo (rhs bp) (set_pred_hi (rhs bp) (set_ctype CHECK_TYPE_EXACT check))
  else if bool_decide (op bp = "<") then
    set_pred_hi (rhs bp) (set_pred_lo DEFAULT_LOW (set_ctype CHECK_TYPE_RANGE check))
  else if bool_decide (op bp = ">") then
    set_pred_lo (rhs bp) (set_pred_hi DEFAULT_HIGH (set_ctype CHECK_TYPE_RANGE check))
  else check.

Lemma parse_match_pred_ok me bp :
  actions_ok me -> matchpred me = Some bp ->
  parse_match_pred me Check_new = Ok (0%Z, pred_check me bp).
Proof.
  intros Ha Hb. unfold parse_match_pred, get_binarypred. rewrite Hb. cbn [deref].
  rewrite bind_ret_l, (get_ifthenelse_ok me Ha). cbn [negb].
  destruct (Ha) as (_ & H1 & H2 & _).
  rewrite (get_if_action_ok me H1), bind_ret_l, (get_else_action_ok me H2), bind_ret_l.
  cbn [if_action_val else_action_val set_if_action_val set_else_action_val set_priority].
  rewrite (actions_guard me Ha). unfold pred_check.
  repeat case_bool_decide; done.
Qed.

Lemma exact_hit e c :
  ctype c = CHECK_TYPE_EXACT -> check_hit e c = key_matches e (KExact (header c) (pred_hi c)).
Proof.
  intros H. rewrite check_hit_fit by (unfold is_monitor_check; by rewrite H). unfold check_keys. rewrite H.
  change (existsb (forallb (key_matches e)) [[KExact (header c) (pred_hi c)]] =
          key_matches e (KExact (header c) (pred_hi c))).
  cbn [existsb forallb]. by rewrite andb_true_r, orb_false_r.
Qed.

Lemma range_hit e c :
  ctype c = CHECK_TYPE_RANGE ->
  check_hit e c = key_matches e (KRange (header c) (pred_lo c) (pred_hi c)).
Proof.
  intros H. rewrite check_hit_fit by (unfold is_monitor_check; by rewrite H). unfold check_keys. rewrite H.
  change (existsb (forallb (key_matches e)) [[KRange (header c) (pred_lo c) (pred_hi c)]] =
          key_matches e (KRange (header c) (pred_lo c) (pred_hi c))).
  cbn [existsb forallb]. by rewrite andb_true_r, orb_false_r.
Qed.

Lemma process_pred p i me :
  me_type me = MATCH_PRED -> actions_ok me ->
  (exists bp v, matchpred me = Some bp /\ int_value (rhs bp) v /\ op bp ∈ ["=="; "<"; ">"; "<="; ">="]) ->
  exists c, process_matchexpr p i me = Ok c /\ implements p i me c.
Proof.
  intros Ht Ha (bp & v & Hb & Hv & Ho).
  exists (set_cid (Z.of_nat i) (pred_check me bp)). split.
  { unfold process_matchexpr. rewrite Ht.
    change (MATCH_PRED =? MATCH_MONITOR)%Z with false. change (MATCH_PRED =? MATCH_PRED)%Z with true.
    cbn iota. by rewrite (parse_match_pred_ok me bp Ha Hb), bind_ret_l. }
  pose proof (scan_int_value _ _ Hv) as Hs. destruct Hv as [Hr Hv].
  assert (Hm : me_monitor me = false) by (unfold me_monitor; by rewrite Ht).
  assert (Hh : me_header p me = lhs bp) by (unfold me_header; by rewrite Ht, Hb).
  assert (Hg : me_mergeable me = bool_decide (op bp = "==")) by (unfold me_mergeable; by rewrite Ht, Hb).
  assert (Hf : forall e, me_compiled p e me = if pred_compiled e bp then Some (action_to_val (if_action me)) else None)
    by (intros e; unfold me_compiled; by rewrite Ht, Hb).
  assert (Hi : forall c e, ctype c = CHECK_TYPE_INVALID -> contrib e c = None)
    by (intros c e H; unfold contrib, check_hit, check_keys; by rewrite H).
  repeat (apply elem_of_cons in Ho as [Ho|Ho]); [..|by apply elem_of_nil in Ho];
    unfold pred_check; rewrite Ho in Hg |- *; revert Hg; decide_strings; intros Hg;
    split; rewrite ?Hh, ?Hm, ?Hg; try done;
    try (by split; try done; first [cbn; lia|intros _; exists v; cbn; rewrite Hr]);
    intros e; rewrite Hf; unfold contrib, pred_compiled; rewrite Hs, Ho; decide_strings; try done.
  - rewrite exact_hit by done. cbn. by rewrite Hs.
  - rewrite range_hit by done. cbn. by rewrite Hs.
  - rewrite range_hit by done. cbn. by rewrite Hs.
Qed.

Lemma process_list p i me :
  me_type me = MATCH_LIST -> actions_ok me ->
  (exists lp le, matchlist me = Some lp /\ name2list p !! listbodyvar lp = Some le) ->
  exists c, process_matchexpr p i me = Ok c /\ implements p i me c.
Proof.
  intros Ht Ha (lp & le & Hl & Hn).
  exists (set_cid (Z.of_nat i) (set_table_size (Z.of_nat (length (items le)))
    (set_priority (action_to_val (if_action me)) (set_else_action_val (action_to_val (else_action me))
      (set_if_action_val (action_to_val (if_action me)) (set_ctype CHECK_TYPE_LIST
        (set_clist (items le) (set_header (listvar lp) Check_new)))))))). split.
  - unfold process_matchexpr. rewrite Ht.
    change (MATCH_LIST =? MATCH_MONITOR)%Z with false. change (MATCH_LIST =? MATCH_PRED)%Z with false.
    change (MATCH_LIST =? MATCH_LIST)%Z with true. cbn iota.
    unfold parse_match_list, get_listpred. rewrite Ht.
    change (cassert (MATCH_LIST =? MATCH_LIST)%Z) with (Ok tt). rewrite !bind_ret_l.
    rewrite (get_ifthenelse_ok me Ha), Hl. cbn [negb deref].
    rewrite bind_ret_l. unfold get_list_by_name. rewrite Hn. cbn [deref]. rewrite bind_ret_l.
    destruct (Ha) as (_ & H1 & H2 & _).
    rewrite (get_if_action_ok me H1), bind_ret_l, (get_else_action_ok me H2), bind_ret_l.
    cbn [if_action_val else_action_val set_if_action_val set_else_action_val set_priority].
    by rewrite (actions_guard me Ha).
  - assert (Hm : me_monitor me = false) by (unfold me_monitor; by rewrite Ht).
    assert (Hh : me_header p me = listvar lp) by (unfold me_header; by rewrite Ht, Hl).
    assert (Hg : me_mergeable me = true) by (unfold me_mergeable; by rewrite Ht).
    split; rewrite ?Hh, ?Hm, ?Hg; try done; [split; try done; cbn; lia|].
    intros e. unfold contrib. rewrite list_check_hit by done. cbn.
    unfold me_compiled, in_list. rewrite Ht, Hl, Hn. done.
Qed.

Lemma process_monitor p i me mon :
  me_type me = MATCH_MONITOR -> name2mon p !! matchmvar me = Some mon ->
  exists c, process_matchexpr p i me = Ok c /\ implements p i me c.
Proof.
  intros Ht Hn.
  assert (Hm : me_monitor me = true) by (unfold me_monitor; by rewrite Ht).
  assert (Hh : me_header p me = listvar (mon_lp mon)) by (unfold me_header; by rewrite Ht, Hn).
  assert (Hg : me_mergeable me = false) by (unfold me_mergeable; by rewrite Ht).
  unfold process_matchexpr. rewrite Ht.
  change (MATCH_MONITOR =? MATCH_MONITOR)%Z with true. cbn iota.
  unfold parse_match_mon, get_mvar. rewrite Ht.
  change (cassert (MATCH_MONITOR =? MATCH_MONITOR)%Z) with (Ok tt). rewrite !bind_ret_l.
  unfold get_mon_by_name. rewrite Hn. cbn [deref].
  rewrite bind_ret_l. unfold get_binarypred.
  destruct (matchpred me) as [bp|] eqn:Ep; cbv zeta; rewrite bind_ret_l; cbv beta iota;
    change (cassert (0 =? 0)%Z) with (Ok tt); rewrite bind_ret_l;
    (eexists; split; [reflexivity|]); split; rewrite ?Hh, ?Hm, ?Hg, ?Ep; try done;
    try (by split; try done; cbn; lia); intros e; unfold contrib, me_compiled; rewrite Ht, Ep;
    change (MATCH_MONITOR =? MATCH_MONITOR)%Z with true; cbn iota.
  - rewrite (monitor_hit_extra e _ (lhs bp)) by done. cbn [mon_name set_cid set_h_to_val
      set_extra_header set_extra_check set_mon_name set_header set_ctype h_to_val Check_new
      set_priority set_else_action_val set_if_action_val].
    rewrite lookup_insert_eq. done.
  - rewrite monitor_hit_plain by done. cbn [mon_name set_cid set_extra_check set_mon_name]. by rewrite andb_true_r.
Qed.

Lemma process_matchexpr_ok p i me :
  me_accepted p me -> exists c, process_matchexpr p i me = Ok c /\ implements p i me c.
Proof.
  intros [(H1 & H2 & H3)|[(H1 & H2 & H3)|(H1 & _ & mon & H2)]];
    eauto using process_pred, process_list, process_monitor.
Qed.

(** The maps the checks are made from do not change. *)
Definition same_names (p q : Program) : Prop :=
  name2list p = name2list q /\ name2mon p = name2mon q.

Lemma process_matchexpr_names p q i me :
  same_names p q -> process_matchexpr p i me = process_matchexpr q i me.
Proof.
  intros [H1 H2]. unfold process_matchexpr, parse_match_mon, parse_match_list,
    get_mon_by_name, get_list_by_name. by rewrite H1, H2.
Qed.

Lemma process_loop_ok p mes : forall i q,
  same_names q p -> Forall (me_accepted p) mes ->
  exists cs, process_loop i mes q = Ok (p_check_v (check_v q ++ cs) q) /\
    Forall2 (fun '(j, me) c => implements p j me c) (zip (seq i (length mes)) mes) cs.
Proof.
  induction mes as [|me mes IH]; intros i q Hq Hs.
  - exists []. rewrite app_nil_r. split; [by destruct q|constructor].
  - apply Forall_cons in Hs as [Hm Hs]. destruct (process_matchexpr_ok p i me Hm) as (c & Hc & Hi).
    cbn [process_loop]. rewrite (process_matchexpr_names q p) by done. rewrite Hc, bind_ret_l.
    destruct (IH (S i) (add_check c q) Hq Hs) as (cs & -> & Hcs).
    exists (c :: cs). split; [|by constructor].
    f_equal. cbn. rewrite <- (assoc_L (++)). done.
Qed.

(** ** The optimised checks *)

Lemma string_lt_false a b : string_lt a b = false <-> String.le b a.
Proof.
  unfold string_lt, String.le, String.ltb, String.leb.
  rewrite (String.compare_antisym a b). destruct (b ?= a)%string; simpl; split; done.
Qed.

#[export] Instance string_lt_weak : StrictWeak string_lt.
Proof.
  split.
  - intros a b H. apply string_lt_false. destruct (total String.le b a) as [Hle|Hle]; [|done].
    apply string_lt_false in Hle. congruence.
  - intros a b c. rewrite !string_lt_false. intros. by etrans.
Qed.

Lemma unique_sorted_NoDup (l : list string) :
  StronglySorted (fun a b => string_lt b a = false) l -> NoDup (unique l).
Proof.
  induction 1 as [|a [|b r] Hs IH Hf]; [constructor|repeat constructor; set_solver|].
  change (unique (a :: b :: r)) with
    (if decide (a = b) then unique (b :: r) else a :: unique (b :: r)).
  case_decide as E; [done|]. apply NoDup_cons. split; [|done].
  rewrite unique_elem_of. intros Ha. rewrite Forall_forall in Hf.
  apply StronglySorted_inv in Hs as [_ Hs]. rewrite Forall_forall in Hs.
  apply elem_of_cons in Ha as [?|Ha]; [done|].
  apply E. apply (anti_symm String.le); apply string_lt_false.
  - apply Hf. by left.
  - by apply Hs.
Qed.

Lemma count_headers_NoDup p : NoDup (header_v (fst (count_headers p))).
Proof. exact (unique_sorted_NoDup _ (proj2 (insertion_sort_spec string_lt (header_v p)))). Qed.

Lemma Forall2_filter {A B} (R : A -> B -> Prop) (f : A -> bool) (g : B -> bool) l k :
  (forall a b, R a b -> f a = g b) -> Forall2 R l k ->
  Forall2 R (List.filter f l) (List.filter g k).
Proof.
  intros H. induction 1 as [|a b l k Hab _ IH]; [constructor|]. simpl.
  rewrite (H a b Hab). destruct (g b); [by constructor|done].
Qed.

(** What processing gives, without the numbering. *)
Lemma implements_zip p mes cs : forall i,
  Forall2 (fun '(j, me) c => implements p j me c) (zip (seq i (length mes)) mes) cs ->
  Forall2 (fun me c => exists j, implements p j me c) mes cs /\
  cid <$> cs = Z.of_nat <$> seq i (length mes).
Proof.
  revert cs. induction mes as [|me mes IH]; intros cs i H; cbn [length seq zip_with] in H;
    inversion H as [|? c ? cs' Hc Hcs]; subst; [by split; [constructor|]|].
  destruct (IH cs' (S i) Hcs) as [H1 H2]. split; [constructor; eauto|].
  rewrite fmap_cons, H2, (imp_id _ _ _ _ Hc). done.
Qed.

Section Processed.
Context (p : Program) (ACC : accepted p).
Context (cs : list Check).
Context (CHECKS : Forall2 (fun me c => exists j, implements p j me c) (matchexpr_v p) cs).

Lemma processed_check c : c ∈ cs -> exists me j, me ∈ matchexpr_v p /\ implements p j me c.
Proof.
  intros Hc. apply list_elem_of_lookup in Hc as [k Hk].
  destruct (Forall2_lookup_r _ _ _ _ _ CHECKS Hk) as (me & Hme & j & Hj).
  exists me, j. split; [by apply list_elem_of_lookup_2 with k|done].
Qed.

Lemma processed_good : Forall good cs.
Proof.
  apply Forall_forall. intros c Hc. destruct (processed_check c Hc) as (me & j & _ & H). apply H.
Qed.

Lemma processed_apart : monitors_apart cs.
Proof.
  intros c d Hc Hd Mc Md.
  destruct (processed_check c Hc) as (me & j & Hm & H), (processed_check d Hd) as (me' & j' & Hm' & H').
  rewrite (imp_header _ _ _ _ H), (imp_header _ _ _ _ H').
  rewrite (imp_monitor _ _ _ _ H) in Mc. rewrite (imp_monitor _ _ _ _ H') in Md.
  by apply (acc_apart p ACC).
Qed.

Lemma processed_heads h : head_merged h cs.
Proof.
  pose proof (acc_regular p ACC h) as Hr. unfold header_regular in Hr. cbv zeta in Hr.
  assert (Hg : Forall2 (fun me c => exists j, implements p j me c)
                 (List.filter (on_header p h) (matchexpr_v p)) (group h cs)).
  { apply Forall2_filter; [|done]. intros me c [j H]. unfold on_header, same_header.
    by rewrite (imp_header _ _ _ _ H). }
  assert (Hk : Forall2 (fun me c => exists j, implements p j me c)
                 (List.filter me_mergeable (List.filter (on_header p h) (matchexpr_v p)))
                 (group_merged h cs)).
  { apply Forall2_filter; [|done]. intros me c [j H]. by rewrite (imp_mergeable _ _ _ _ H). }
  apply Forall2_length in Hk. unfold head_merged. rewrite <- Hk.
  destruct Hg as [|me c mes ds [j H] _]; [done|]. by rewrite (imp_mergeable _ _ _ _ H).
Qed.

Lemma processed_best e : best e cs = compiled_decision p e.
Proof.
  unfold compiled_decision. generalize CHECKS. generalize (matchexpr_v p) cs.
  induction 1 as [|me c mes ds [j H] _ IH]; [done|].
  cbn [best foldr strongest]. fold (best e ds). by rewrite (imp_contrib _ _ _ _ H e), IH.
Qed.

Lemma processed_monitors m : monitors_compatible (mon_group m cs).
Proof.
  pose proof (acc_monitor_use p ACC m) as Hu. cbv zeta in Hu.
  assert (Hg : Forall2 (fun me c => exists j, implements p j me c)
                 (List.filter (uses_monitor m) (matchexpr_v p)) (mon_group m cs)).
  { apply Forall2_filter; [|done]. intros me c [j H]. unfold uses_monitor.
    fold (is_monitor_check c). rewrite (imp_monitor _ _ _ _ H).
    destruct (me_monitor me) eqn:E; [|done]. by rewrite (imp_name _ _ _ _ H E). }
  assert (Hm : Forall (fun me => me_monitor me = true)
                 (List.filter (uses_monitor m) (matchexpr_v p))).
  { apply Forall_forall. intros me Hme. apply filter_elem in Hme as [_ Hme].
    by apply andb_true_iff in Hme as [? _]. }
  destruct Hu as [Hu|Hu].
  - destruct Hg as [|me c mes ds [j H] Hr]; [by left|].
    destruct mes as [|? mes]; [|simpl in Hu; lia]. inversion Hr; subst.
    right. cbn. lia.
  - left. induction Hg as [|me c mes ds [j H] _ IH]; constructor.
    + apply Forall_cons in Hu as [Hu _], Hm as [Hm _].
      pose proof (imp_extra _ _ _ _ H Hm) as Hx. by rewrite Hu in Hx.
    + apply Forall_cons in Hu as [_ Hu], Hm as [_ Hm]. by apply IH.
Qed.
End Processed.

Lemma mon_group_monitors m cs ds :
  List.filter is_monitor_check cs = List.filter is_monitor_check ds ->
  mon_group m cs = mon_group m ds.
Proof.
  intros H. unfold mon_group.
  assert (Hf : forall l, List.filter (fun c => (ctype c =? CHECK_TYPE_MONITOR)%Z &&
    bool_decide (mon_name c = m)) (List.filter is_monitor_check l) =
    List.filter (fun c => (ctype c =? CHECK_TYPE_MONITOR)%Z && bool_decide (mon_name c = m)) l).
  { intros l. apply filter_filter. by intros c [? _]%andb_true_iff. }
  by rewrite <- (Hf cs), <- (Hf ds), H.
Qed.

Lemma groups_NoDup cs : (forall m, (length (mon_group m cs) <= 1)%nat) -> NoDup (monitors_of cs).
Proof.
  induction cs as [|c cs IH]; intros H; [constructor|]. rewrite monitors_of_cons.
  assert (H' : forall m, (length (mon_group m cs) <= 1)%nat).
  { intros m. specialize (H m). unfold mon_group in *. cbn [List.filter] in H. destruct (_ && _); cbn in H; lia. }
  destruct (is_monitor_check c) eqn:Em; [|by apply IH]. cbn [app]. apply NoDup_cons. split; [|by apply IH].
  intros Hin. apply list_elem_of_fmap in Hin as (d & E & Hd). apply list_elem_of_In, filter_In in Hd as [Hd Md].
  specialize (H (mon_name c)). unfold mon_group in H. cbn [List.filter] in H. unfold is_monitor_check in Em.
  rewrite Em, bool_decide_eq_true_2 in H by done. cbn in H.
  assert (Hg : d ∈ mon_group (mon_name c) cs).
  { apply list_elem_of_In, filter_In. split; [done|]. unfold is_monitor_check in Md. by rewrite Md, bool_decide_eq_true_2. }
  unfold mon_group in Hg. destruct (List.filter _ cs); [by apply elem_of_nil in Hg|cbn in H; lia].
Qed.

(** A monitor check of the policy [p]: of a declared monitor, on its header. *)
Definition monitor_of (p : Program) (c : Check) : Prop :=
  is_monitor_check c = true ->
  mon_name c ∈ mon_mvar <$> monitor_v p /\ timeout_val c = timeout_val Check_new /\
  exists mon, name2mon p !! mon_name c = Some mon /\ header c = listvar (mon_lp mon).

Lemma processed_monitor_of p cs :
  accepted p -> Forall2 (fun me c => exists j, implements p j me c) (matchexpr_v p) cs -> Forall (monitor_of p) cs.
Proof.
  intros A H0. apply Forall_forall. intros c Hc Hm.
  destruct (processed_check p cs H0 c Hc) as (me & j & Hme & H).
  rewrite (imp_monitor _ _ _ _ H) in Hm. rewrite (imp_name _ _ _ _ H Hm), (imp_header _ _ _ _ H).
  pose proof (acc_supported p A) as S. rewrite Forall_forall in S. unfold me_monitor in Hm. apply Z.eqb_eq in Hm.
  destruct (S me Hme) as [(T & _)|[(T & _)|(_ & Hd & mon & Hn)]]; [by rewrite Hm in T..|].
  split; [done|]. split; [exact (imp_timeout _ _ _ _ H)|].
  exists mon. split; [done|]. unfold me_header. by rewrite Hm, Hn.
Qed.

(** The optimised checks of an accepted policy. *)
Lemma optimise_ok p :
  accepted p ->
  exists cs, optimise p = Ok (p_check_v cs (fst (count_headers p))) /\
    Forall valid cs /\ Forall sane cs /\ NoDup (cid <$> cs) /\
    (length cs <= length (matchexpr_v p))%nat /\
    NoDup (monitors_of cs) /\ Forall (monitor_of p) cs /\
    (forall me, me ∈ matchexpr_v p -> me_monitor me = true -> matchmvar me ∈ monitors_of cs) /\
    forall e, best e cs = compiled_decision p e.
Proof.
  intros P. pose proof (acc_fresh p P) as (Hc & Hr & Hs).
  unfold optimise, process_matchexprs. cbn [count_headers]. set (p0 := p_header_v _ p).
  destruct (process_loop_ok p (matchexpr_v p) 0 p0 (conj eq_refl eq_refl) (acc_supported p P))
    as (cs0 & E0 & H0).
  change (matchexpr_v p0) with (matchexpr_v p). rewrite E0, bind_ret_l.
  change (check_v p0) with (check_v p). rewrite Hc. cbn [app].
  apply implements_zip in H0 as [H0 Hid0].
  pose proof (processed_good p cs0 H0) as G0. pose proof (processed_monitor_of p cs0 P H0) as M0.
  destruct (merge_same_headers_ok (p_check_v cs0 p0)) as (cs1 & E1 & V1 & K1 & N1);
    [exact G0|exact (processed_apart p P cs0 H0)|].
  rewrite E1, bind_ret_l. cbn [check_v p_check_v header_v monitor_v] in *.
  assert (V1' : List.filter valid cs1 = cs1) by by apply filter_all.
  destruct (merge_monitors_ok (p_check_v cs1 (p_check_v cs0 p0))) as (cs2 & E2 & V2 & S2 & N2 & B2 & G2 & Z2).
  { eapply Forall_impl; [exact (keeps_good _ _ K1)|]. apply good_sane. }
  rewrite E2. cbn [check_v p_check_v header_v monitor_v] in *. rewrite V1' in N2.
  change (monitor_v p0) with (monitor_v p) in *.
  destruct N2 as [l N2].
  assert (ND0 : NoDup (cid <$> cs0)).
  { rewrite Hid0. apply NoDup_fmap_2; [apply _|]. apply NoDup_ListNoDup, seq_NoDup. }
  assert (ND1 : NoDup (cid <$> cs1)).
  { apply N1; [exact (count_headers_NoDup p)|by intros; apply (processed_heads p P)|].
    eapply sublist_NoDup; [exact ND0|]. clear. induction cs0 as [|c cs IH]; [constructor|]. cbn [List.filter].
    destruct (valid c); rewrite ?fmap_cons; by constructor. }
  assert (M1 : Forall (monitor_of p) cs1).
  { apply Forall_forall. intros c Hin Hm.
    assert (Hf : c ∈ List.filter is_monitor_check cs1) by (by apply filter_elem).
    rewrite (keeps_monitors _ _ K1) in Hf. apply filter_elem in Hf as [Hf _].
    rewrite Forall_forall in M0. by apply M0. }
  pose proof (acc_monitors p P) as NM.
  exists cs2. split; [done|]. split; [done|]. split; [done|]. split; [|split; [|split; [|split; [|split]]]].
  - rewrite N2 in ND1. by apply NoDup_app in ND1 as (_ & _ & ?).
  - apply Permutation_length in N2. rewrite length_app, !length_fmap in N2.
    pose proof (keeps_count _ _ K1) as L1. rewrite V1' in L1.
    pose proof (List.filter_length_le valid cs0). apply Forall2_length in H0. lia.
  - apply groups_NoDup. intros m. destruct (mon_group m cs1) as [|f ks] eqn:Eg; [by rewrite (Z2 m Eg); cbn; lia|].
    assert (Hf : f ∈ mon_group m cs1) by (rewrite Eg; left). apply mon_group_elem in Hf as (Hf & T & Nf).
    rewrite Forall_forall in M1. destruct (M1 f Hf) as [Hd _]; [unfold is_monitor_check; by rewrite T|].
    rewrite Nf in Hd. destruct (G2 NM m f ks Hd Eg) as [n ->]. cbn. lia.
  - apply Forall_forall. intros c Hin Hm. set (m := mon_name c).
    assert (Hg : c ∈ mon_group m cs2).
    { apply mon_group_elem. split; [done|]. split; [by apply Z.eqb_eq|done]. }
    destruct (mon_group m cs1) as [|f ks] eqn:Eg; [by rewrite (Z2 m Eg) in Hg; apply elem_of_nil in Hg|].
    assert (Hf : f ∈ mon_group m cs1) by (rewrite Eg; left). apply mon_group_elem in Hf as (Hf & T & Nf).
    rewrite Forall_forall in M1. destruct (M1 f Hf) as (Hd & Ht & mon & H1 & H2); [unfold is_monitor_check; by rewrite T|].
    rewrite Nf in Hd, H1. destruct (G2 NM m f ks Hd Eg) as [n En]. rewrite En in Hg.
    apply list_elem_of_singleton in Hg. fold m. split; [done|].
    split; [rewrite <- Ht, Hg; by destruct (absorb_all_fields f ks) as (? & ? & ->)|].
    exists mon. split; [done|]. rewrite <- H2, Hg. by destruct (absorb_all_fields f ks) as (? & ? & ->).
  - intros me Hin Hm. apply list_elem_of_lookup in Hin as [k Hk].
    destruct (Forall2_lookup_l _ _ _ _ _ H0 Hk) as (c & Hck & j & Hi).
    assert (Hc1 : c ∈ List.filter is_monitor_check cs0).
    { apply filter_elem. split; [by apply list_elem_of_lookup_2 with k|]. by rewrite (imp_monitor _ _ _ _ Hi). }
    rewrite <- (keeps_monitors _ _ K1) in Hc1. apply filter_elem in Hc1 as [Hc1 Mc].
    rewrite <- (imp_name _ _ _ _ Hi Hm). rewrite Forall_forall in M1. destruct (M1 c Hc1 Mc) as [Hd _].
    assert (Hg : c ∈ mon_group (mon_name c) cs1) by (apply mon_group_elem; split; [done|split; [by apply Z.eqb_eq|done]]).
    destruct (mon_group (mon_name c) cs1) as [|f ks] eqn:Eg; [by apply elem_of_nil in Hg|].
    destruct (G2 NM (mon_name c) f ks Hd Eg) as [n En]. set (F := set_table_size _ _) in En.
    assert (HF : F ∈ mon_group (mon_name c) cs2) by (rewrite En; left).
    apply mon_group_elem in HF as (HF & TF & <-). apply monitors_of_elem; [done|]. by apply Z.eqb_eq.
  - intros e. rewrite B2, (keeps_best _ _ K1); [by apply processed_best|exact NM|].
    intros m _. rewrite (mon_group_monitors m cs1 cs0 (keeps_monitors _ _ K1)).
    by apply (processed_monitors p P).
Qed.

(** ** Sorted checks: the last hit is the largest *)

Lemma best_elem e cs b : best e cs = Some b -> exists c, c ∈ cs /\ check_value c = b.
Proof.
  revert b. induction cs as [|c cs IH]; intros b; [done|]. cbn [best foldr]. fold (best e cs).
  unfold contrib. destruct (check_hit e c), (best e cs) as [b'|]; cbn [omax]; intros H; simplify_eq.
  - destruct (Z.max_spec (check_value c) b') as [[? ->]|[? ->]];
      [destruct (IH b' eq_refl) as (d & ? & ?); exists d|exists c]; set_solver.
  - exists c. set_solver.
  - destruct (IH _ eq_refl) as (d & ? & ?). exists d. set_solver.
Qed.

Lemma eval_checks_best e cs : forall d,
  Forall sane cs -> Forall valid cs ->
  StronglySorted (fun a b => check_lt b a = false) cs ->
  eval_checks e cs d = default d (best e cs).
Proof.
  induction cs as [|c cs IH]; intros d Hs Hv Hl; [done|].
  apply StronglySorted_inv in Hl as [Hl Hf]. apply Forall_cons in Hs as [Sc Hs], Hv as [Vc Hv].
  change (eval_checks e (c :: cs) d) with (eval_checks e cs (eval_check e d c)).
  rewrite IH by done. cbn [best foldr]. fold (best e cs).
  unfold eval_check, contrib. destruct (check_hit e c); [|done].
  destruct (best e cs) as [b|] eqn:Eb; [|done]. cbn.
  apply best_elem in Eb as (c' & Hc' & <-).
  rewrite Forall_forall in Hf, Hs, Hv. specialize (Hf c' Hc'). apply Z.ltb_ge in Hf.
  pose proof (sane_priority c' (Hs c' Hc')) as P'. pose proof (sane_priority c Sc) as P.
  rewrite P in Hf by by apply Is_true_true. rewrite P' in Hf by by apply Is_true_true, Hv. lia.
Qed.

(** ** Allocation never fails on few checks *)

Definition sane_emittable c : sane c -> valid c = true -> emittable c = true.
Proof.
  intros [Ht _ _ _] Hv. unfold emittable, is_table_check, valid in *.
  apply negb_true_iff, Z.eqb_neq in Hv.
  unfold CHECK_TYPE_INVALID, CHECK_TYPE_EXACT, CHECK_TYPE_RANGE, CHECK_TYPE_LIST,
    CHECK_TYPE_MONITOR in *.
  destruct (Z.eqb_spec (ctype c) 2), (Z.eqb_spec (ctype c) 1), (Z.eqb_spec (ctype c) 3),
    (Z.eqb_spec (ctype c) 4); try done; lia.
Qed.

Lemma emittable_stages c : emittable c = true -> exists n, stages_needed c = Ok n.
Proof.
  unfold emittable, is_table_check, stages_needed. intros H.
  repeat (case_match; [by eexists|]). done.
Qed.

(** Two checks or more fill every round but the last: [j] counts those of
    the current round. *)
Lemma allocate_loop_rounds cs : forall cr0 st0 j ds cr st,
  (0 <= cr0)%Z -> (0 <= st0 <= 3 * j)%Z -> (0 <= j)%Z -> (cr0 = 0 \/ 1 <= j)%Z ->
  allocate_loop cs cr0 st0 = Ok (ds, cr, st) ->
  (2 * cr <= 2 * cr0 + j + Z.of_nat (length cs) - 1 \/ cr = 0)%Z.
Proof.
  induction cs as [|c cs IH]; intros cr0 st0 j ds cr st Hc Hst Hj Hcj H.
  - cbn in H. simplify_eq. cbn. lia.
  - cbn [allocate_loop] in H. apply bind_Ok in H as (need & Hneed & H).
    apply stages_needed_range in Hneed. unfold stages_per_rec in H.
    destruct (Z.gtb_spec (st0 + need) 7) as [G|G];
      apply bind_Ok in H as ([[r cr'] st'] & Hr & H); injection H as <- <- <-; cbn [length].
    + apply (IH (cr0 + 1)%Z (0 + need)%Z 1%Z) in Hr; lia.
    + apply (IH cr0 (st0 + need)%Z (j + 1)%Z) in Hr; lia.
Qed.

(** ** Table names *)

Lemma digits_suffix c x y : forall a b,
  is_digit c = false -> all_digits x = true -> all_digits y = true ->
  a +:+ String c x = b +:+ String c y -> x = y.
Proof.
  assert (Hno : forall a y, is_digit c = false -> all_digits (a +:+ String c y) = false).
  { intros a z Hc. induction a as [|k a IH].
    - change (all_digits (String c z) = false). cbn. by rewrite Hc.
    - rewrite append_cons. cbn. rewrite IH. apply andb_false_r. }
  induction a as [|k a IH]; intros [|k' b] Hc Hx Hy E.
  - change (String c x = String c y) in E. congruence.
  - change (String c x = String k' (b +:+ String c y)) in E. injection E as _ E.
    rewrite E, Hno in Hx; done.
  - change (String k (a +:+ String c x) = String c y) in E. injection E as _ E.
    rewrite <- E, Hno in Hy; done.
  - rewrite !append_cons in E. injection E as _ E. by apply (IH b).
Qed.

Lemma eval_table_name_id b b' c c' :
  (0 <= cid c)%Z -> (0 <= cid c')%Z -> eval_table_name b c = eval_table_name b' c' -> cid c = cid c'.
Proof.
  intros H H' E. unfold eval_table_name in E.
  apply to_string_inj.
  apply (digits_suffix "d"%char _ _
    ("eval_" +:+ b +:+ "_tab_rec" +:+ to_string (rec c) +:+ "_i")
    ("eval_" +:+ b' +:+ "_tab_rec" +:+ to_string (rec c') +:+ "_i"));
    [done|by apply to_string_nonneg_digits|by apply to_string_nonneg_digits|].
  rewrite !append_assoc. exact E.
Qed.

(** A check with its table name. *)
Definition named (c : Check) : Check :=
  set_table_name (eval_table_name (if is_table_check c then header c else mon_name c) c) c.

Lemma named_NoDup cs :
  Forall sane cs -> NoDup (cid <$> cs) -> NoDup (table_name <$> (named <$> cs)).
Proof.
  intros Hs Hn. rewrite <- list_fmap_compose. induction cs as [|c cs IH]; [constructor|].
  apply Forall_cons in Hs as [Sc Hs]. rewrite fmap_cons in *.
  apply NoDup_cons in Hn as [Hc Hn]. apply NoDup_cons. split; [|by apply IH].
  intros Hin. apply list_elem_of_fmap in Hin as (d & E & Hd). apply Hc.
  rewrite Forall_forall in Hs.
  rewrite (eval_table_name_id _ _ c d (sane_id c Sc) (sane_id d (Hs d Hd)) E).
  by apply list_elem_of_fmap_2.
Qed.

Lemma monitor_text_ok tmpl c : exists t, monitor_text tmpl c = Ok t.
Proof.
  unfold monitor_text.
  repeat (rewrite bind_ret_l || rewrite ReplaceStringInPlace_eq by done).
  case_match; by eexists.
Qed.

Lemma generate_tables_ok tmpl cs :
  Forall emittable cs ->
  exists decls, generate_tables tmpl cs = Ok (named <$> cs, concat_strings decls) /\
    Forall2 (declares tmpl) (named <$> cs) decls.
Proof.
  induction 1 as [|c cs Hc _ (ts & IH & F)]; [exists []; by split; [|constructor]|]. cbn [generate_tables].
  assert (exists tc, generate_table tmpl c = Ok (named c, tc) /\ declares tmpl (named c) tc) as (tc & Et & Dt).
  { unfold generate_table, named, emittable, declares in *. destruct (is_table_check c) eqn:T.
    - eexists. split; [reflexivity|]. change (is_table_check (set_table_name _ c)) with (is_table_check c). rewrite T.
      by apply table_text_prints.
    - destruct (ctype c =? CHECK_TYPE_MONITOR)%Z; [|done].
      destruct (monitor_text_ok tmpl (set_table_name (eval_table_name (mon_name c) c) c)) as [t' E].
      rewrite E, bind_ret_l. eexists. split; [reflexivity|].
      change (is_table_check (set_table_name _ c)) with (is_table_check c). by rewrite T. }
  rewrite Et, bind_ret_l, IH, bind_ret_l. exists (tc :: ts). split; [done|]. rewrite fmap_cons. by constructor.
Qed.

(** Stages and table names do not change what a check decides. *)
Lemma eval_checks_Forall2 (R : Check -> Check -> Prop) e cs ds :
  (forall c c', R c c' -> check_hit e c = check_hit e c' /\ check_value c = check_value c') ->
  Forall2 R cs ds -> forall d, eval_checks e cs d = eval_checks e ds d.
Proof.
  intros HR. induction 1 as [|c c' cs ds Hc _ IH]; intros d; [done|].
  change (eval_checks e cs (eval_check e d c) = eval_checks e ds (eval_check e d c')).
  destruct (HR c c' Hc) as [H1 H2]. unfold eval_check. by rewrite H1, H2, IH.
Qed.

Lemma same_but_stages_decides e c c' :
  same_but_stages c c' -> check_hit e c = check_hit e c' /\ check_value c = check_value c'.
Proof. intros ->. done. Qed.

Lemma same_but_stages_sane c c' :
  same_but_stages c c' -> sane c /\ valid c = true ->
  sane c' /\ valid c' = true /\ cid c' = cid c.
Proof. intros -> [[H1 H2 H3 H4] H5]. done. Qed.

(** ** [generate_p4] *)

Lemma named_apart c m : table_name (named c) <> monitor_tab m.
Proof. intros H. unfold named, eval_table_name, monitor_tab in H. cbn [table_name set_table_name] in H. discriminate H. Qed.

(** What naming and placing a check leave alone. *)
Definition same_face (c c' : Check) : Prop :=
  ctype c' = ctype c /\ header c' = header c /\ mon_name c' = mon_name c /\ timeout_val c' = timeout_val c.

Lemma same_face_monitors cs ds : Forall2 same_face cs ds -> monitors_of ds = monitors_of cs.
Proof.
  induction 1 as [|c d cs ds (T & _ & N & _) _ IH]; [done|]. rewrite !monitors_of_cons, IH.
  unfold is_monitor_check. by rewrite T, N.
Qed.

Section Generate.
Context `{SORT : !StdSort check_lt} (tmpl : string).

(** The code generated from sane checks with distinct ids and monitors. *)
Lemma generate_p4_ok p :
  curr_rec p = 0%Z -> curr_stage p = 0%Z ->
  Forall valid (check_v p) -> Forall sane (check_v p) -> NoDup (cid <$> check_v p) ->
  NoDup (monitors_of (check_v p)) -> (length (check_v p) <= 16)%nat ->
  exists p' p4, generate_p4 tmpl p = Ok (p', p4) /\
    let cs := check_v p' in
    files_hold tmpl cs (curr_rec p') p4 (generate_cmd p') /\
    (curr_rec p' < max_rec_times)%Z /\ monitors_of cs ≡ₚ monitors_of (check_v p) /\
    Forall (fun c => exists c0, c0 ∈ check_v p /\ same_face c0 c) cs /\
    Forall (fun c => 0 <= rec c <= curr_rec p')%Z cs /\
    forall fresh mes pk s, Forall monitor_entry mes ->
      let s' := run_switch fresh cs (curr_rec p') mes pk s in
      dec s' = default (dec s) (best (monitor_env fresh cs mes pk (regs s)) (check_v p)) /\
      regs s' = refresh cs mes pk cs (regs s).
Proof.
  intros Hr Hst Hv Hs Hid Hmon Hlen. set (cs0 := std_sort (check_v p)).
  pose proof (std_sort_perm (check_v p)) as Hp. fold cs0 in Hp.
  assert (Hmon0 : NoDup (monitors_of cs0)).
  { unfold monitors_of in *. by rewrite (filter_perm is_monitor_check _ _ Hp). }
  rewrite <- Hp in Hv, Hs, Hid. rewrite <- (Permutation_length Hp) in Hlen.
  destruct (allocate_loop_total cs0 0 0) as [[[ds cr] st] Ea].
  { apply Forall_forall. intros c Hc. rewrite Forall_forall in Hv, Hs.
    apply emittable_stages, sane_emittable; [by apply Hs|by apply Is_true_true, Hv]. }
  destruct (allocate_loop_spec cs0 0 0 ds cr st ltac:(lia) ltac:(by vm_compute) Ea)
    as ((Hsame & Hwin & _ & Hplaced) & Hcr & Hstr & Hb).
  pose proof (allocate_loop_rounds cs0 0 0 0 ds cr st ltac:(lia) ltac:(lia) ltac:(lia)
                ltac:(lia) Ea) as Hrounds.
  assert (Hcr8 : (cr < max_rec_times)%Z) by (unfold max_rec_times; lia).
  assert (Hds : Forall (fun c => sane c /\ valid c = true) ds /\ cid <$> ds = cid <$> cs0).
  { clear -Hsame Hs Hv. induction Hsame as [|c c' cs ds Hc _ IH]; [done|].
    apply Forall_cons in Hs as [Sc Hs], Hv as [Vc Hv]. apply Is_true_true in Vc.
    destruct (same_but_stages_sane c c' Hc (conj Sc Vc)) as (S' & V' & I').
    destruct (IH Hv Hs) as [H1 H2]. split; [by constructor|]. by rewrite !fmap_cons, I', H2. }
  destruct Hds as [Hds Hids].
  assert (Hface : Forall2 same_face cs0 (named <$> ds)).
  { clear -Hsame. induction Hsame as [|c c' cs ds -> _ IH]; constructor; done. }
  assert (Hem : Forall emittable ds).
  { eapply Forall_impl; [exact Hds|]. intros c [S V]. by apply Is_true_true, sane_emittable. }
  destruct (generate_tables_ok tmpl ds Hem) as (decls & Et & Hdecl).
  assert (Hmon' : NoDup (monitors_of (named <$> ds))) by by rewrite (same_face_monitors _ _ Hface).
  unfold generate_p4, allocate_resources.
  cbn [check_v p_check_v curr_rec curr_stage]. fold cs0. rewrite Hr, Hst, Ea, bind_ret_l.
  cbv beta iota zeta. destruct (Z.geb_spec cr max_rec_times); [lia|].
  rewrite bind_ret_l. change (cassert (0 =? 0)%Z) with (Ok tt). rewrite bind_ret_l.
  unfold generate_table_def. cbn [check_v p_check_v p_curr_rec p_curr_stage].
  rewrite Et, !bind_ret_l. rewrite generate_eval_ctx_prints.
  2: { cbn [check_v p_check_v p_curr_rec p_curr_stage].
       apply Forall_fmap. eapply Forall_impl; [exact Hem|]. by intros c. }
  rewrite bind_ret_l. eexists _, _. split; [reflexivity|].
  cbn [check_v p_check_v p_curr_rec p_curr_stage curr_rec].
  split; [|split; [done|split; [|split; [|split]]]].
  - split.
    + exists decls. split; [done|]. unfold p4_header, prologue, header_text, generate_header_def.
      cbn [check_v p_check_v p_curr_rec p_curr_stage curr_rec].
      assert (header_field <$> (named <$> ds) = header_field <$> ds) as -> by (rewrite <- list_fmap_compose; done).
      done.
    + apply generate_cmd_prints.
  - rewrite (same_face_monitors _ _ Hface). unfold monitors_of. by rewrite (filter_perm is_monitor_check _ _ Hp).
  - apply Forall_forall. intros c Hc. apply list_elem_of_lookup in Hc as [k Hk].
    destruct (Forall2_lookup_r _ _ _ _ _ Hface Hk) as (c0 & Hc0 & Hf). exists c0. split; [|done].
    rewrite <- Hp. by apply list_elem_of_lookup_2 with k.
  - apply Forall_fmap, Forall_forall. intros c Hc. rewrite Forall_forall in Hb, Hwin.
    destruct (Hb c Hc) as [? _], (Hwin c Hc) as (_ & _ & _ & ?). cbn. lia.
  - intros fresh mes pk s Hmes. unfold run_switch.
    destruct (run_control_checks fresh (named <$> ds) mes pk) with (R := cr) (s := s) as [D G].
    + apply named_NoDup; [|by rewrite Hids]. eapply Forall_impl; [exact Hds|]. by intros c [? _].
    + intros c m Hc. apply list_elem_of_fmap in Hc as (c' & -> & _). apply named_apart.
    + done.
    + apply Forall_fmap. eapply Forall_impl; [exact Hem|]. by intros c.
    + done.
    + clear -Hplaced. induction Hplaced as [|c ds _ IH Hf]; [constructor|].
      rewrite fmap_cons. constructor; [done|].
      apply Forall_fmap. eapply Forall_impl; [exact Hf|]. by intros c'.
    + apply Forall_fmap. eapply Forall_impl; [exact Hwin|]. by intros c.
    + apply Forall_fmap. eapply Forall_impl; [exact Hb|]. by intros c [? _].
    + split; [|exact G]. rewrite D. set (e := monitor_env _ _ _ _ _).
      rewrite <- (eval_checks_Forall2 (fun c c' => c' = named c) e ds).
      * rewrite <- (eval_checks_Forall2 _ e cs0 ds (same_but_stages_decides e) Hsame).
        rewrite eval_checks_best; [by rewrite Hp|done|done|]. apply std_sort_sorted.
      * by intros c _ ->.
      * clear. induction ds; by constructor.
Qed.
End Generate.

(** The back end on an accepted policy: the files it writes, and what the
    switch programmed with them does with every packet. *)
Lemma compile_tofino_exact `{!StdSort check_lt} (tmpl : string) (p : Program) :
  accepted p -> (length (matchexpr_v p) <= 16)%nat ->
  exists p' p4 cmd, compile_tofino tmpl p = Ok (p', p4, cmd) /\
    let cs := check_v p' in
    files_hold tmpl cs (curr_rec p') p4 cmd /\ (curr_rec p' < max_rec_times)%Z /\
    NoDup (monitors_of cs) /\ Forall (monitor_of p) cs /\ Forall (fun c => 0 <= rec c <= curr_rec p')%Z cs /\
    (forall me, me ∈ matchexpr_v p -> me_monitor me = true -> matchmvar me ∈ monitors_of cs) /\
    forall fresh mes pk s, Forall monitor_entry mes ->
      let s' := run_switch fresh cs (curr_rec p') mes pk s in
      dec s' = default (dec s) (compiled_decision p (monitor_env fresh cs mes pk (regs s))) /\
      regs s' = refresh cs mes pk cs (regs s).
Proof.
  intros P Hlen. destruct (optimise_ok p P) as (cs & Eo & V & Sn & N & L & NM & M & U & B).
  pose proof (acc_fresh p P) as (_ & Hr & Hst).
  destruct (generate_p4_ok tmpl (p_check_v cs (fst (count_headers p)))) as (p' & p4 & E & H1 & H2 & H3 & H4 & H5 & H6);
    [exact Hr|exact Hst|exact V|exact Sn|exact N|exact NM|cbn; lia|].
  exists p', p4, (generate_cmd p'). unfold compile_tofino. rewrite Eo, bind_ret_l, E, bind_ret_l.
  split; [done|]. split; [exact H1|]. split; [done|]. split; [by rewrite H3|]. split; [|split; [done|split]].
  - eapply Forall_impl; [exact H4|]. intros c (c0 & Hc0 & T & Hh & Hn & Ht) Hm.
    rewrite Forall_forall in M. unfold is_monitor_check in Hm. rewrite T in Hm. rewrite Hn, Hh, Ht. by apply M.
  - intros me Hin Hm. rewrite H3. by apply U.
  - intros fresh mes pk s Hmes. cbn [check_v p_check_v] in H6. destruct (H6 fresh mes pk s Hmes) as [-> ->]. by rewrite B.
Qed.

(** The back end on a plain policy: the decision is that of the policy. *)
Lemma compile_tofino_ok `{!StdSort check_lt} (tmpl : string) (p : Program) :
  plain p -> (length (matchexpr_v p) <= 16)%nat ->
  exists p' p4 cmd, compile_tofino tmpl p = Ok (p', p4, cmd) /\
    let cs := check_v p' in
    files_hold tmpl cs (curr_rec p') p4 cmd /\ (curr_rec p' < max_rec_times)%Z /\
    NoDup (monitors_of cs) /\ Forall (monitor_of p) cs /\ Forall (fun c => 0 <= rec c <= curr_rec p')%Z cs /\
    (forall me, me ∈ matchexpr_v p -> me_monitor me = true -> matchmvar me ∈ monitors_of cs) /\
    forall fresh mes pk s, Forall monitor_entry mes ->
      let s' := run_switch fresh cs (curr_rec p') mes pk s in
      let e := monitor_env fresh cs mes pk (regs s) in
      (off_boundary p e -> dec s' = default (dec s) (policy_decision p e)) /\
      regs s' = refresh cs mes pk cs (regs s).
Proof.
  intros P Hlen. destruct (compile_tofino_exact tmpl p (plain_accepted p P) Hlen) as (p' & p4 & cmd & E & H1 & H2 & H3 & H4 & H5 & H7 & H6).
  exists p', p4, cmd. do 7 (split; [done|]). intros fresh mes pk s Hmes s' e. destruct (H6 fresh mes pk s Hmes) as [D G].
  split; [|exact G]. intros He. unfold s', e in *. by rewrite D, plain_agrees.
Qed.

(** A policy with a range, two membership tests that are merged and a
    monitor. *)
Definition example_policy : Program :=
  let act f a b := mkMatchExpr (me_type f) (matchlist f) (matchpred f) (matchmvar f) a b 2 in
  mkProgram [mkListExpr [1; 2]%Z] ["list0"]
    [act (MatchExpr_pred (BinaryPred_int "h1" "<" 9)) "DROP" "FWD1";
     act (MatchExpr_list (mkListPred "h2" "in" "list0")) "DROP" "FWD1";
     act (MatchExpr_pred (BinaryPred_int "h2" "==" 7)) "DROP" "FWD1";
     act (MatchExpr_monitor "m0") "FWD1" "DROP"]
    [mkMonitor "m0" (mkListPred "h3" "in" "list0")] ["h1"; "h2"; "h2"; "h3"] []
    {["list0" := mkListExpr [1; 2]%Z]} {["m0" := mkMonitor "m0" (mkListPred "h3" "in" "list0")]}
    0 0.

Lemma example_plain : plain example_policy.
Proof. apply plainb_sound. by vm_compute. Qed.
