(* ===== verification/ParseTables.v ===== *)
(** The tables of the generated parser (src/compiler/poise.tab.c) and the
    constants that index them. *)

From stdpp Require Import base list.
From Stdlib Require Import ZArith.
From S2P Require Import Prelude.

Definition YYFINAL : Z := 11.
Definition YYLAST : Z := 110.
Definition YYNTOKENS : Z := 47.
Definition YYNRULES : Z := 54.
Definition YYNSTATES : Z := 91.
Definition YYUNDEFTOK : Z := 2.
Definition YYMAXUTOK : Z := 301.
Definition YYPACT_NINF : Z := -42.
Definition YYEMPTY : Z := -2.
Definition YYEOF : Z := 0.
Definition YYINITDEPTH : Z := 200.
Definition YYMAXDEPTH : Z := 10000.

(** Symbol number of a token number. *)
Definition yytranslate : list Z :=
  [0; 2; 2; 2; 2; 2; 2; 2; 2; 2; 2; 2; 2; 2; 2; 2; 2; 2; 2; 2; 2; 2; 2; 2; 2; 2; 2; 2; 2;
   2; 2; 2; 2; 2; 2; 2; 2; 2; 2; 2; 2; 2; 2; 2; 2; 2; 2; 2; 2; 2; 2; 2; 2; 2; 2; 2; 2; 2;
   2; 2; 2; 2; 2; 2; 2; 2; 2; 2; 2; 2; 2; 2; 2; 2; 2; 2; 2; 2; 2; 2; 2; 2; 2; 2; 2; 2; 2;
   2; 2; 2; 2; 2; 2; 2; 2; 2; 2; 2; 2; 2; 2; 2; 2; 2; 2; 2; 2; 2; 2; 2; 2; 2; 2; 2; 2; 2;
   2; 2; 2; 2; 2; 2; 2; 2; 2; 2; 2; 2; 2; 2; 2; 2; 2; 2; 2; 2; 2; 2; 2; 2; 2; 2; 2; 2; 2;
   2; 2; 2; 2; 2; 2; 2; 2; 2; 2; 2; 2; 2; 2; 2; 2; 2; 2; 2; 2; 2; 2; 2; 2; 2; 2; 2; 2; 2;
   2; 2; 2; 2; 2; 2; 2; 2; 2; 2; 2; 2; 2; 2; 2; 2; 2; 2; 2; 2; 2; 2; 2; 2; 2; 2; 2; 2; 2;
   2; 2; 2; 2; 2; 2; 2; 2; 2; 2; 2; 2; 2; 2; 2; 2; 2; 2; 2; 2; 2; 2; 2; 2; 2; 2; 2; 2; 2;
   2; 2; 2; 2; 2; 2; 2; 2; 2; 2; 2; 2; 2; 2; 2; 2; 2; 2; 2; 2; 2; 2; 2; 2; 1; 2; 3; 4; 5;
   6; 7; 8; 9; 10; 11; 12; 13; 14; 15; 16; 17; 18; 19; 20; 21; 22; 23; 24; 25; 26; 27; 28;
   29; 30; 31; 32; 33; 34; 35; 36; 37; 38; 39; 40; 41; 42; 43; 44; 45; 46]%Z.

(** Index in [yytable] of the portion of a state. *)
Definition yypact : list Z :=
  [-1; 30; -41; 7; 38; -1; -42; 43; 87; 52; 16; -42; -42; -40; -2; 67; 70; 71; -42; 23; 72;
   73; -3; -42; -42; -42; -42; -42; -42; -42; -42; -42; -42; -42; -42; -42; -42; -42; -42;
   91; 54; -42; 55; 55; -42; -42; -42; -42; -42; -42; -42; -42; -42; -42; -11; 56; 58; -3;
   24; 57; 4; -42; -42; 40; 59; 61; -42; -23; 45; 80; 81; 82; -42; -42; -42; -42; -42; -11;
   -42; -42; -42; -42; -42; -42; -42; -42; -42; -42; -42; -42; -42]%Z.

(** Default reduction of a state; 0 is an error. *)
Definition yydefact : list Z :=
  [0; 0; 0; 0; 0; 2; 4; 0; 0; 0; 0; 1; 3; 0; 0; 0; 0; 0; 41; 0; 0; 0; 0; 18; 19; 20; 21;
   22; 23; 24; 25; 26; 27; 28; 29; 30; 31; 32; 11; 9; 0; 14; 0; 0; 7; 47; 46; 49; 48; 50;
   42; 43; 44; 45; 0; 0; 0; 0; 0; 0; 0; 6; 5; 0; 0; 0; 16; 0; 0; 0; 0; 0; 33; 34; 52; 53;
   54; 0; 38; 35; 36; 40; 39; 37; 10; 15; 17; 12; 13; 8; 51]%Z.

(** Index in [yytable] of the gotos of a nonterminal. *)
Definition yypgoto : list Z :=
  [-42; -42; -42; -42; 32; -42; -42; 44; 47; -13; -42; 86; 88; -42]%Z.

(** Default goto of a nonterminal. *)
Definition yydefgoto : list Z :=
  [-1; 4; 5; 8; 6; 41; 67; 39; 20; 58; 22; 59; 60; 77]%Z.

(** What to do: a positive entry is a state to enter. *)
Definition yytable : list Z :=
  [21; 1; 1; 9; 85; 18; 19; 23; 24; 25; 26; 27; 28; 29; 30; 31; 32; 33; 34; 35; 36; 37; 86;
   16; 17; 45; 46; 47; 48; 49; 50; 51; 52; 53; 18; 57; 7; 12; 11; 2; 2; 71; 18; 57; 3; 3;
   38; 10; 44; 79; 80; 45; 46; 47; 48; 49; 50; 51; 52; 53; 54; 74; 75; 76; 90; 55; 56; 13;
   18; 57; 23; 24; 25; 26; 27; 28; 29; 30; 31; 32; 33; 34; 35; 36; 37; 81; 82; 55; 56; 69;
   70; 14; 15; 40; 42; 43; 65; 61; 62; 66; 72; 68; 73; 78; 83; 87; 88; 89; 63; 84; 64]%Z.

(** What an entry of [yytable] belongs to. *)
Definition yycheck : list Z :=
  [13; 3; 3; 44; 27; 45; 46; 9; 10; 11; 12; 13; 14; 15; 16; 17; 18; 19; 20; 21; 22; 23; 45;
   7; 8; 28; 29; 30; 31; 32; 33; 34; 35; 36; 45; 46; 6; 5; 0; 41; 41; 54; 45; 46; 46; 46;
   14; 40; 25; 45; 46; 28; 29; 30; 31; 32; 33; 34; 35; 36; 37; 37; 38; 39; 77; 42; 43; 24;
   45; 46; 9; 10; 11; 12; 13; 14; 15; 16; 17; 18; 19; 20; 21; 22; 23; 45; 46; 42; 43; 42;
   43; 4; 40; 26; 24; 24; 5; 25; 25; 45; 44; 46; 44; 46; 45; 25; 25; 25; 22; 65; 22]%Z.

(** Accessing symbol of a state. *)
Definition yystos : list Z :=
  [0; 3; 41; 46; 48; 49; 51; 6; 50; 44; 40; 0; 51; 24; 4; 40; 7; 8; 45; 46; 55; 56; 57; 9;
   10; 11; 12; 13; 14; 15; 16; 17; 18; 19; 20; 21; 22; 23; 51; 54; 26; 52; 24; 24; 25; 28;
   29; 30; 31; 32; 33; 34; 35; 36; 37; 42; 43; 46; 56; 58; 59; 25; 25; 58; 59; 5; 45; 53;
   46; 55; 55; 56; 44; 44; 37; 38; 39; 60; 46; 45; 46; 45; 46; 45; 54; 27; 45; 25; 25; 25;
   56]%Z.

(** Symbol a rule derives. *)
Definition yyr1 : list Z :=
  [0; 47; 48; 49; 49; 50; 50; 50; 50; 51; 51; 51; 51; 51; 51; 52; 53; 53; 54; 54; 54; 54;
   54; 54; 54; 54; 54; 54; 54; 54; 54; 54; 54; 55; 55; 56; 56; 56; 57; 57; 57; 57; 58; 58;
   58; 58; 59; 59; 59; 59; 59; 59; 60; 60; 60]%Z.

(** Number of symbols on the right-hand side of a rule. *)
Definition yyr2 : list Z :=
  [0; 2; 1; 2; 1; 4; 4; 4; 6; 4; 6; 4; 6; 6; 4; 3; 1; 2; 1; 1; 1; 1; 1; 1; 1; 1; 1; 1; 1;
   1; 1; 1; 1; 3; 3; 3; 3; 3; 3; 3; 3; 1; 1; 1; 1; 1; 1; 1; 1; 1; 1; 3; 1; 1; 1]%Z.
