(* ===== verification/LexTables.v ===== *)
(** The tables of the generated scanner (src/compiler/lex.yy.c). *)

From stdpp Require Import base list.
From Stdlib Require Import ZArith.
From S2P Require Import Prelude.

Definition YY_NUM_RULES : Z := 48.
Definition YY_END_OF_BUFFER : Z := 49.

(** Rule a state accepts; 0 is none. *)
Definition yy_accept : list Z :=
  [0; 0; 0; 49; 47; 44; 44; 43; 28; 29; 42; 40; 41; 47; 45; 47; 32; 47; 34; 46; 30; 31; 46;
   46; 46; 46; 46; 46; 46; 46; 46; 46; 46; 1; 45; 46; 23; 33; 36; 35; 46; 46; 46; 46; 46;
   46; 2; 24; 46; 46; 46; 46; 38; 46; 1; 37; 46; 21; 46; 46; 46; 46; 46; 46; 39; 46; 46; 5;
   4; 6; 7; 8; 9; 10; 11; 12; 13; 14; 46; 46; 46; 46; 3; 26; 15; 16; 17; 18; 19; 22; 20;
   46; 25; 46; 27; 0]%Z.

(** Equivalence class of a character. *)
Definition yy_ec : list Z :=
  [0; 1; 1; 1; 1; 1; 1; 1; 1; 2; 3; 1; 1; 1; 1; 1; 1; 1; 1; 1; 1; 1; 1; 1; 1; 1; 1; 1; 1;
   1; 1; 1; 2; 1; 1; 1; 1; 4; 1; 1; 5; 6; 7; 8; 1; 9; 1; 10; 11; 12; 13; 14; 15; 16; 17;
   18; 19; 20; 21; 1; 22; 23; 24; 1; 1; 25; 25; 25; 25; 25; 25; 25; 25; 25; 25; 25; 25; 25;
   25; 25; 25; 25; 25; 25; 25; 25; 25; 25; 25; 25; 25; 26; 1; 27; 1; 1; 1; 28; 25; 29; 30;
   31; 32; 25; 33; 34; 25; 25; 35; 36; 37; 38; 39; 25; 40; 41; 42; 43; 25; 44; 25; 25; 25;
   1; 1; 1; 1; 1; 1; 1; 1; 1; 1; 1; 1; 1; 1; 1; 1; 1; 1; 1; 1; 1; 1; 1; 1; 1; 1; 1; 1; 1;
   1; 1; 1; 1; 1; 1; 1; 1; 1; 1; 1; 1; 1; 1; 1; 1; 1; 1; 1; 1; 1; 1; 1; 1; 1; 1; 1; 1; 1;
   1; 1; 1; 1; 1; 1; 1; 1; 1; 1; 1; 1; 1; 1; 1; 1; 1; 1; 1; 1; 1; 1; 1; 1; 1; 1; 1; 1; 1;
   1; 1; 1; 1; 1; 1; 1; 1; 1; 1; 1; 1; 1; 1; 1; 1; 1; 1; 1; 1; 1; 1; 1; 1; 1; 1; 1; 1; 1;
   1; 1; 1; 1; 1; 1; 1; 1; 1; 1; 1; 1; 1; 1; 1; 1; 1]%Z.

(** Meta equivalence class of a class, used by the templates. *)
Definition yy_meta : list Z :=
  [0; 1; 1; 2; 1; 1; 1; 1; 1; 1; 1; 3; 3; 3; 3; 3; 3; 3; 3; 3; 3; 1; 1; 1; 1; 3; 1; 1; 3;
   3; 3; 3; 3; 3; 3; 3; 3; 3; 3; 3; 3; 3; 3; 3; 3]%Z.

(** Index in [yy_nxt] and [yy_chk] of a state. *)
Definition yy_base : list Z :=
  [0; 0; 0; 136; 137; 137; 137; 137; 137; 137; 137; 137; 137; 125; 34; 111; 110; 109; 108;
   0; 137; 137; 93; 91; 24; 93; 83; 24; 92; 29; 87; 84; 90; 0; 57; 0; 137; 137; 137; 137;
   92; 78; 88; 81; 77; 87; 0; 0; 75; 73; 77; 71; 0; 81; 0; 0; 74; 0; 71; 78; 66; 66; 78;
   72; 71; 66; 24; 0; 0; 76; 0; 0; 0; 0; 0; 0; 0; 0; 81; 32; 21; 25; 0; 0; 0; 0; 0; 0; 0;
   0; 0; 22; 0; 19; 0; 137; 55; 101]%Z.

(** State to fall back to. *)
Definition yy_def : list Z :=
  [0; 95; 1; 95; 95; 95; 95; 95; 95; 95; 95; 95; 95; 95; 96; 95; 95; 95; 95; 96; 95; 95;
   96; 96; 96; 96; 96; 96; 96; 96; 96; 96; 96; 97; 96; 96; 95; 95; 95; 95; 96; 96; 96; 96;
   96; 96; 96; 96; 96; 96; 96; 96; 96; 96; 97; 96; 96; 96; 96; 96; 96; 96; 96; 96; 96; 96;
   96; 96; 96; 96; 96; 96; 96; 96; 96; 96; 96; 96; 96; 96; 96; 96; 96; 96; 96; 96; 96; 96;
   96; 96; 96; 96; 96; 96; 96; 0; 95; 95]%Z.

(** Next state. *)
Definition yy_nxt : list Z :=
  [0; 4; 5; 6; 7; 8; 9; 10; 11; 12; 13; 14; 14; 14; 14; 14; 14; 14; 14; 14; 14; 15; 16; 17;
   18; 19; 20; 21; 22; 23; 24; 25; 26; 19; 27; 28; 29; 30; 31; 19; 19; 19; 32; 19; 19; 34;
   34; 34; 34; 34; 34; 34; 34; 34; 34; 42; 46; 49; 35; 94; 93; 47; 92; 91; 43; 90; 83; 50;
   34; 34; 34; 34; 34; 34; 34; 34; 34; 34; 69; 70; 71; 72; 73; 74; 75; 76; 77; 84; 85; 86;
   87; 88; 89; 89; 89; 89; 89; 89; 89; 89; 89; 89; 54; 82; 54; 81; 80; 79; 78; 68; 67; 66;
   65; 64; 63; 62; 61; 60; 59; 58; 57; 56; 55; 53; 52; 51; 48; 45; 44; 41; 40; 39; 38; 37;
   36; 33; 95; 3; 95; 95; 95; 95; 95; 95; 95; 95; 95; 95; 95; 95; 95; 95; 95; 95; 95; 95;
   95; 95; 95; 95; 95; 95; 95; 95; 95; 95; 95; 95; 95; 95; 95; 95; 95; 95; 95; 95; 95; 95;
   95; 95; 95; 95]%Z.

(** State an entry of [yy_nxt] belongs to. *)
Definition yy_chk : list Z :=
  [0; 1; 1; 1; 1; 1; 1; 1; 1; 1; 1; 1; 1; 1; 1; 1; 1; 1; 1; 1; 1; 1; 1; 1; 1; 1; 1; 1; 1;
   1; 1; 1; 1; 1; 1; 1; 1; 1; 1; 1; 1; 1; 1; 1; 1; 14; 14; 14; 14; 14; 14; 14; 14; 14; 14;
   24; 27; 29; 96; 93; 91; 27; 81; 80; 24; 79; 66; 29; 34; 34; 34; 34; 34; 34; 34; 34; 34;
   34; 60; 60; 60; 60; 60; 60; 60; 60; 60; 69; 69; 69; 69; 69; 78; 78; 78; 78; 78; 78; 78;
   78; 78; 78; 97; 65; 97; 64; 63; 62; 61; 59; 58; 56; 53; 51; 50; 49; 48; 45; 44; 43; 42;
   41; 40; 32; 31; 30; 28; 26; 25; 23; 22; 18; 17; 16; 15; 13; 3; 95; 95; 95; 95; 95; 95;
   95; 95; 95; 95; 95; 95; 95; 95; 95; 95; 95; 95; 95; 95; 95; 95; 95; 95; 95; 95; 95; 95;
   95; 95; 95; 95; 95; 95; 95; 95; 95; 95; 95; 95; 95; 95; 95; 95; 95]%Z.
