(* ===== verification/Parser.v ===== *)
(** The generated parser (src/compiler/poise.tab.c): the semantic actions of
    poise.y on the parser's global variables, and [yyparse] as a step
    function of the automaton the tables describe.  A token is its number
    with the value of [yylval] when the scanner returned it. *)

From stdpp Require Import base list strings gmap.
From Stdlib Require Import ZArith Lia Ascii.
From S2P Require Import Prelude Cxx Ast ParseTables.

(** ** Tokens and semantic values *)

Definition IF : Z := 258.
Definition THEN : Z := 259.
Definition ELSE : Z := 260.
Definition MATCH : Z := 261.
Definition COUNT : Z := 262.
Definition MONITOR : Z := 263.
Definition DROP : Z := 264.
Definition FWD1 : Z := 265.
Definition FWD2 : Z := 266.
Definition FWD3 : Z := 267.
Definition FWD4 : Z := 268.
Definition FWD5 : Z := 269.
Definition FWD6 : Z := 270.
Definition FWD7 : Z := 271.
Definition FWD8 : Z := 272.
Definition FWD9 : Z := 273.
Definition FWD10 : Z := 274.
Definition FWD11 : Z := 275.
Definition FWD12 : Z := 276.
Definition FWD13 : Z := 277.
Definition FWD14 : Z := 278.
Definition LP : Z := 279.
Definition RP : Z := 280.
Definition LB : Z := 281.
Definition RB : Z := 282.
Definition LT : Z := 283.
Definition GT : Z := 284.
Definition GE : Z := 285.
Definition LE : Z := 286.
Definition EQ : Z := 287.
Definition PLUS : Z := 288.
Definition MINUS : Z := 289.
Definition MULTI : Z := 290.
Definition MOD : Z := 291.
Definition AND : Z := 292.
Definition OR : Z := 293.
Definition NOT : Z := 294.
Definition ASSIGN : Z := 295.
Definition DEF : Z := 296.
Definition IN : Z := 297.
Definition NOTIN : Z := 298.
Definition LISTVAR : Z := 299.
Definition CONST : Z := 300.
Definition VAR : Z := 301.

(** The union [YYSTYPE], by the member last written. *)
Inductive yystype : Type :=
| Ival (z : Z)
| Sval (s : string).

(** Reading a member that was not the last written is undefined. *)
Definition get_ival (v : yystype) : res Z :=
  match v with Ival z => Ok z | Sval _ => Err Undefined end.
Definition get_sval (v : yystype) : res string :=
  match v with Sval s => Ok s | Ival _ => Err Undefined end.

Definition token : Type := Z * yystype.

(** ** The parser's global variables *)

Record genv : Type := mkGenv {
  prog : Program;
  lp : option ListPred;
  bp : option BinaryPred;
  thebinaryop : string;
  ae_stack : list ArithExpr;
  ao : string;
  action_v : list string;
  list_items : list Z
}.

Definition genv_new : genv := mkGenv Program_new None None EmptyString [] EmptyString [] [].

Definition g_prog v g := mkGenv v (lp g) (bp g) (thebinaryop g) (ae_stack g) (ao g) (action_v g) (list_items g).
Definition g_lp v g := mkGenv (prog g) v (bp g) (thebinaryop g) (ae_stack g) (ao g) (action_v g) (list_items g).
Definition g_bp v g := mkGenv (prog g) (lp g) v (thebinaryop g) (ae_stack g) (ao g) (action_v g) (list_items g).
Definition g_thebinaryop v g := mkGenv (prog g) (lp g) (bp g) v (ae_stack g) (ao g) (action_v g) (list_items g).
Definition g_ae_stack v g := mkGenv (prog g) (lp g) (bp g) (thebinaryop g) v (ao g) (action_v g) (list_items g).
Definition g_ao v g := mkGenv (prog g) (lp g) (bp g) (thebinaryop g) (ae_stack g) v (action_v g) (list_items g).
Definition g_action_v v g := mkGenv (prog g) (lp g) (bp g) (thebinaryop g) (ae_stack g) (ao g) v (list_items g).
Definition g_list_items v g := mkGenv (prog g) (lp g) (bp g) (thebinaryop g) (ae_stack g) (ao g) (action_v g) v.

(** [regex_match] against an h, respectively an m, followed by digits. *)
Definition is_header_name (s : string) : bool :=
  match s with String c r => bool_decide (c = "h"%char) && all_digits r | EmptyString => false end.
Definition is_monitor_name (s : string) : bool :=
  match s with String c r => bool_decide (c = "m"%char) && all_digits r | EmptyString => false end.

(** ** The semantic actions *)

(** [$k] of a rule whose right-hand side has the values [vs]. *)
Definition arg (vs : list yystype) (k : nat) : res yystype := deref (vs !! pred k).
Definition arg_s (vs : list yystype) (k : nat) : res string := arg vs k ≫= get_sval.
Definition arg_i (vs : list yystype) (k : nat) : res Z := arg vs k ≫= get_ival.

(** matchexpr: MATCH LP binaryexpr RP *)
Definition act_match_pred (g : genv) : res genv :=
  match bp g with
  | None => Err AssertFail
  | Some b => Ok (g_bp None (g_prog (add_matchexpr (MatchExpr_pred b) (prog g)) g))
  end.

(** matchexpr: MATCH LP listexpr RP *)
Definition act_match_list (g : genv) : res genv :=
  match lp g with
  | None => Err AssertFail
  | Some l => Ok (g_lp None (g_prog (add_matchexpr (MatchExpr_list l) (prog g)) g))
  end.

(** matchexpr: MATCH LP VAR RP *)
Definition act_match_mon (vs : list yystype) (g : genv) : res genv :=
  m ← arg_s vs 3;
  _ ← cassert (is_monitor_name m);
  mret (g_prog (add_matchexpr (MatchExpr_monitor m) (prog g)) g).

(** matchexpr: MATCH LP VAR AND binaryexpr RP *)
Definition act_match_mon_and (vs : list yystype) (g : genv) : res genv :=
  _ ← cassert (bool_decide (is_Some (bp g)));
  m ← arg_s vs 3;
  _ ← cassert (is_monitor_name m);
  let theme := set_binarypred (bp g) (MatchExpr_monitor m) in
  mret (g_prog (add_matchexpr theme (prog g)) (g_bp None g)).

(** statement: IF matchexpr THEN action ELSE action *)
Definition act_if_then_else (g : genv) : res genv :=
  theme ← get_latestmatchexpr (prog g);
  _ ← MatchExpr_stringify theme;
  a0 ← deref (action_v g !! 0);
  theme ← set_if_action a0 theme;
  a1 ← deref (action_v g !! 1);
  theme ← set_else_action a1 theme;
  mret (g_action_v [] (g_prog (put_latestmatchexpr theme (prog g)) g)).

(** statement: VAR ASSIGN MONITOR LP listexpr RP *)
Definition act_monitor (vs : list yystype) (g : genv) : res genv :=
  v ← arg_s vs 1;
  _ ← deref (lp g);
  m ← Monitor_new v (lp g);
  let g := g_prog (add_monitor m (prog g)) g in
  _ ← cassert (negb (is_header_name v));
  mret g.

(** statement: DEF LISTVAR ASSIGN listbody *)
Definition act_def_list (vs : list yystype) (g : genv) : res genv :=
  let le := mkListExpr (list_items g) in
  let g := g_list_items [] g in
  v ← arg_s vs 2;
  mret (g_prog (add_listexpr v le (prog g)) g).

(** listcontent: CONST, and listcontent: listcontent CONST with [k = 2]. *)
Definition act_listcontent (k : nat) (vs : list yystype) (g : genv) : res genv :=
  z ← arg_i vs k;
  mret (g_list_items (list_items g ++ [z]) g).

(** action: DROP | FWD1 | ... | FWD14 *)
Definition act_action (a : string) (g : genv) : res genv :=
  Ok (g_action_v (action_v g ++ [a]) g).

(** listexpr: VAR IN LISTVAR, and listexpr: VAR NOTIN LISTVAR *)
Definition act_listexpr (o : string) (vs : list yystype) (g : genv) : res genv :=
  v ← arg_s vs 1;
  l ← arg_s vs 3;
  let g := g_lp (Some (mkListPred v o l)) g in
  _ ← cassert (is_header_name v);
  mret (g_prog (add_header v (prog g)) g).

(** binaryexpr: VAR binaryop CONST *)
Definition act_binary_const (vs : list yystype) (g : genv) : res genv :=
  v ← arg_s vs 1;
  z ← arg_i vs 3;
  let g := g_bp (Some (BinaryPred_int v (thebinaryop g) z)) g in
  _ ← cassert (is_header_name v || is_monitor_name v);
  mret (g_prog (add_header v (prog g)) g).

(** binaryexpr: VAR binaryop VAR *)
Definition act_binary_var (vs : list yystype) (g : genv) : res genv :=
  v1 ← arg_s vs 1;
  v3 ← arg_s vs 3;
  let g := g_bp (Some (mkBinaryPred v1 (thebinaryop g) v3)) g in
  _ ← cassert (is_header_name v1);
  let g := g_prog (add_header v1 (prog g)) g in
  _ ← cassert (is_header_name v3);
  mret (g_prog (add_header v3 (prog g)) g).

(** [ae_stack.back()] and [pop_back()]: undefined on an empty vector. *)
Definition pop_ae (g : genv) : res (ArithExpr * genv) :=
  a ← deref (last (ae_stack g));
  mret (a, g_ae_stack (take (pred (length (ae_stack g))) (ae_stack g)) g).

Definition push_ae (a : ArithExpr) (g : genv) : genv := g_ae_stack (ae_stack g ++ [a]) g.

(** binaryexpr: arithexpr binaryop CONST *)
Definition act_binary_arith (vs : list yystype) (g : genv) : res genv :=
  '(theae, g) ← pop_ae g;
  z ← arg_i vs 3;
  mret (g_bp (Some (BinaryPred_int (ArithExpr_stringify theae) (thebinaryop g) z)) g).

(** arithexpr: VAR arithop VAR *)
Definition act_arith_vars (vs : list yystype) (g : genv) : res genv :=
  v1 ← arg_s vs 1;
  v3 ← arg_s vs 3;
  let g := push_ae (ArithExpr_vars v1 (ao g) v3) g in
  _ ← cassert (is_header_name v1);
  let g := g_prog (add_header v1 (prog g)) g in
  _ ← cassert (is_header_name v3);
  mret (g_prog (add_header v3 (prog g)) g).

(** arithexpr: arithexpr arithop VAR *)
Definition act_arith_var (vs : list yystype) (g : genv) : res genv :=
  '(theae, g) ← pop_ae g;
  v3 ← arg_s vs 3;
  let g := push_ae (ArithExpr_chain theae (ao g) v3) g in
  _ ← cassert (is_header_name v3);
  mret (g_prog (add_header v3 (prog g)) g).

(** arithexpr: arithexpr arithop CONST *)
Definition act_arith_const (vs : list yystype) (g : genv) : res genv :=
  '(theae, g) ← pop_ae g;
  z ← arg_i vs 3;
  mret (push_ae (ArithExpr_chain theae (ao g) (to_string z)) g).

(** The rules for the operators, 42 to 50; other rules have no action. *)
Definition yyaction_operators (yyn : Z) (g : genv) : genv :=
  match yyn with
  | 42 => g_ao "+" g
  | 43 => g_ao "-" g
  | 44 => g_ao "*" g
  | 45 => g_ao "%" g
  | 46 => g_thebinaryop ">" g
  | 47 => g_thebinaryop "<" g
  | 48 => g_thebinaryop "<=" g
  | 49 => g_thebinaryop ">=" g
  | 50 => g_thebinaryop "==" g
  | _ => g
  end%Z.

(** The [switch] on the rule number in [yyreduce]. *)
Definition yyaction (yyn : Z) (vs : list yystype) (g : genv) : res genv :=
  match yyn with
  | 2 => _ ← Program_print (prog g); Ok g
  | 5 => act_match_pred g
  | 6 => act_match_list g
  | 7 => act_match_mon vs g
  | 8 => act_match_mon_and vs g
  | 10 => act_if_then_else g
  | 12 => Err AssertFail
  | 13 => act_monitor vs g
  | 14 => act_def_list vs g
  | 16 => act_listcontent 1 vs g
  | 17 => act_listcontent 2 vs g
  | 18 => act_action "DROP" g
  | 19 => act_action "FWD1" g
  | 20 => act_action "FWD2" g
  | 21 => act_action "FWD3" g
  | 22 => act_action "FWD4" g
  | 23 => act_action "FWD5" g
  | 24 => act_action "FWD6" g
  | 25 => act_action "FWD7" g
  | 26 => act_action "FWD8" g
  | 27 => act_action "FWD9" g
  | 28 => act_action "FWD10" g
  | 29 => act_action "FWD11" g
  | 30 => act_action "FWD12" g
  | 31 => act_action "FWD13" g
  | 32 => act_action "FWD14" g
  | 33 => act_listexpr "in" vs g
  | 34 => act_listexpr "notin" vs g
  | 35 => act_binary_const vs g
  | 36 => act_binary_var vs g
  | 37 => act_binary_arith vs g
  | 38 => act_arith_vars vs g
  | 39 => act_arith_var vs g
  | 40 => act_arith_const vs g
  | _ => Ok (yyaction_operators yyn g)
  end%Z.

(** ** The automaton *)

(** What the tables say in a state; [None] is an index out of a table. *)
Inductive action : Type :=
| Shift (s : Z)
| Reduce (r : Z)
| Error.

Definition YYTRANSLATE (yychar : Z) : option Z :=
  if (0 <=? yychar)%Z && (yychar <=? YYMAXUTOK)%Z then znth yytranslate yychar
  else Some YYUNDEFTOK.

(** yydefault *)
Definition yydefault (yystate : Z) : option action :=
  yyn ← znth yydefact yystate;
  mret (if (yyn =? 0)%Z then Error else Reduce yyn).

(** The part of yybackup after a lookahead is known. *)
Definition yylookup (yystate yytoken : Z) : option action :=
  pact ← znth yypact yystate;
  let yyn := (pact + yytoken)%Z in
  if (yyn <? 0)%Z || (YYLAST <? yyn)%Z then yydefault yystate else
  chk ← znth yycheck yyn;
  if negb (chk =? yytoken)%Z then yydefault yystate else
  t ← znth yytable yyn;
  mret (if (t <=? 0)%Z then Reduce (- t) else Shift t).

(** The state entered after reducing to the nonterminal [lhs] on top of
    [yystate]. *)
Definition yygoto (yystate lhs : Z) : option Z :=
  pg ← znth yypgoto (lhs - YYNTOKENS);
  let i := (pg + yystate)%Z in
  let dflt := znth yydefgoto (lhs - YYNTOKENS) in
  if (0 <=? i)%Z && (i <=? YYLAST)%Z then
    chk ← znth yycheck i;
    if (chk =? yystate)%Z then znth yytable i else dflt
  else dflt.

(** The parser's state: the stack of states with their values, the top
    first and the initial state left out, the size of the stacks, the
    lookahead if one was read, the tokens the scanner still has, and the
    global variables. *)
Record pstate : Type := mkPstate {
  stk : list (Z * yystype);
  yystacksize : Z;
  look : option token;
  toks : list token;
  glob : genv
}.

Definition top (st : list (Z * yystype)) : Z :=
  match st with (s, _) :: _ => s | [] => 0%Z end.

(** [yylex ()] on the remaining tokens; after the last it returns 0. *)
Definition next_token (ts : list token) : token * list token :=
  match ts with t :: r => (t, r) | [] => ((YYEOF, Ival 0), []) end.

Inductive outcome : Type :=
| More (st : pstate)
| Accept (g : genv).

(** yynewstate and yysetstate: push, grow the stacks if they are full, and
    accept in the final state.  [yyerror] calls [exit(-1)]. *)
Definition yynewstate (s : Z) (v : yystype) (st : pstate) : res outcome :=
  let stack := (s, v) :: stk st in
  let yysize := (Z.of_nat (length stack) + 1)%Z in
  size ← (if (yystacksize st <=? yysize)%Z then
            if (YYMAXDEPTH <=? yystacksize st)%Z then Err (Exit (-1))
            else Ok (Z.min YYMAXDEPTH (2 * yystacksize st))
          else Ok (yystacksize st));
  mret (if (s =? YYFINAL)%Z then Accept (glob st)
        else More (mkPstate stack size (look st) (toks st) (glob st))).

(** yyreduce: run the action, pop the right-hand side, push the left. *)
Definition yyreduce (yyn : Z) (st : pstate) : res outcome :=
  yylen ← deref (znth yyr2 yyn);
  let n := Z.to_nat yylen in
  let vs := rev (snd <$> take n (stk st)) in
  yyval ← deref (head vs);
  g ← yyaction yyn vs (glob st);
  lhs ← deref (znth yyr1 yyn);
  let rest := drop n (stk st) in
  s ← deref (yygoto (top rest) lhs);
  yynewstate s yyval (mkPstate rest (yystacksize st) (look st) (toks st) g).

(** One pass from yybackup to the next yynewstate. *)
Definition yystep (st : pstate) : res outcome :=
  pact ← deref (znth yypact (top (stk st)));
  if (pact =? YYPACT_NINF)%Z then
    a ← deref (yydefault (top (stk st)));
    match a with Reduce r => yyreduce r st | _ => Err (Exit (-1)) end
  else
    let '(t, ts) := match look st with
                    | Some t => (t, toks st)
                    | None => next_token (toks st)
                    end in
    let yychar := if (t.1 <=? YYEOF)%Z then YYEOF else t.1 in
    yytoken ← deref (YYTRANSLATE yychar);
    a ← deref (yylookup (top (stk st)) yytoken);
    let st := mkPstate (stk st) (yystacksize st) (Some (yychar, t.2)) ts (glob st) in
    match a with
    | Shift s => yynewstate s (t.2) (mkPstate (stk st) (yystacksize st) None ts (glob st))
    | Reduce r => yyreduce r st
    | Error => Err (Exit (-1))
    end.

Fixpoint yyloop (fuel : nat) (st : pstate) : res genv :=
  match fuel with
  | O => Err NoFuel
  | S f =>
      o ← yystep st;
      match o with More st => yyloop f st | Accept g => Ok g end
  end.

(** [yyparse ()] on the tokens of the whole file. *)
Definition yyparse_fuel (ts : list token) : nat := 10 * (length ts + 2).

Definition yyparse (ts : list token) (g : genv) : res genv :=
  yyloop (yyparse_fuel ts) (mkPstate [] YYINITDEPTH None ts g).
