(* ===== verification/Lexer.v ===== *)
(** The generated scanner (src/compiler/lex.yy.c).  The text still to scan is
    a list of characters.  LexBuffer.v models
    the buffer the file is read through, and LexBufferProps.v shows that it
    presents the file as this text.  The end of the list is the end of the
    file: text already matched is processed first (EOB_ACT_LAST_MATCH), and
    with none the scanner returns 0 (EOB_ACT_END_OF_FILE). *)

From stdpp Require Import base list strings.
From Stdlib Require Import ZArith Lia Ascii.
From S2P Require Import Prelude Cxx LexTables Parser.

(** ** The automaton *)

(** The class of a character; a NUL in the file has class 1
    ([yy_try_NUL_trans]). *)
Definition yy_class (c : ascii) : option Z :=
  if (char_code c =? 0)%Z then Some 1%Z else znth yy_ec (char_code c).

(** The inner [while]: follow [yy_def] until [yy_chk] names the state.  The
    chains of [yy_def] have at most two links. *)
Fixpoint yy_resolve (fuel : nat) (yy_current_state yy_c : Z) : option Z :=
  match fuel with
  | O => None
  | S f =>
      base ← znth yy_base yy_current_state;
      chk ← znth yy_chk (base + yy_c);
      if (chk =? yy_current_state)%Z then znth yy_nxt (base + yy_c)
      else
        s ← znth yy_def yy_current_state;
        if (s >=? 96)%Z then yy_c ← znth yy_meta yy_c; yy_resolve f s yy_c
        else yy_resolve f s yy_c
  end.

Definition yy_next (yy_current_state : Z) (c : ascii) : option Z :=
  yy_c ← yy_class c; yy_resolve 3 yy_current_state yy_c.

(** The loop stops in a state with no way out. *)
Definition yy_stop (yy_current_state : Z) : option bool :=
  base ← znth yy_base yy_current_state; mret (base =? 137)%Z.

(** yy_find_action: the rule to run and the length of its text. *)
Definition yy_find_action (yy_current_state : Z) (n : nat) (last : option (Z * nat))
  : option (Z * nat) :=
  yy_act ← znth yy_accept yy_current_state;
  if (yy_act =? 0)%Z then
    '(ls, ln) ← last;
    yy_act ← znth yy_accept ls;
    mret (yy_act, ln)
  else mret (yy_act, n).

(** yy_match: [n] characters were read, [last] is the last accepting state
    with its position. *)
Fixpoint yy_match (yy_current_state : Z) (n : nat) (last : option (Z * nat))
    (inp : list ascii) : option (Z * nat) :=
  match inp with
  | [] => yy_find_action yy_current_state n last
  | c :: r =>
      acc ← znth yy_accept yy_current_state;
      let last := if (acc =? 0)%Z then last else Some (yy_current_state, n) in
      s ← yy_next yy_current_state c;
      stop ← yy_stop s;
      if stop : bool then yy_find_action s (S n) last else yy_match s (S n) last r
  end.

Definition yy_start : Z := 1.

(** ** The rules *)

(** What an action does: go on scanning, or return a token with [yylval]. *)
Inductive lexact : Type :=
| Skip
| Return (t : Z) (yylval : yystype).

(** The token numbers of poise.tab.h, which the scanner is compiled with; the
    parser has an enumeration of its own in poise.tab.c. *)
Definition yytokentype : list (string * Z) :=
  [("IF", 258); ("THEN", 259); ("ELSE", 260); ("MATCH", 261); ("COUNT", 262);
   ("MONITOR", 263); ("DROP", 264); ("FWD1", 265); ("FWD2", 266); ("FWD3", 267);
   ("FWD4", 268); ("FWD5", 269); ("FWD6", 270); ("FWD7", 271); ("FWD8", 272); ("FWD9", 273);
   ("FWD10", 274); ("FWD11", 275); ("FWD12", 276); ("FWD13", 277); ("FWD14", 278);
   ("LP", 279); ("RP", 280); ("LB", 281); ("RB", 282); ("LT", 283); ("GT", 284); ("GE", 285);
   ("LE", 286); ("EQ", 287); ("PLUS", 288); ("MINUS", 289); ("MULTI", 290); ("MOD", 291);
   ("AND", 292); ("OR", 293); ("NOT", 294); ("ASSIGN", 295); ("DEF", 296); ("IN", 297);
   ("NOTIN", 298); ("LISTVAR", 299); ("CONST", 300); ("VAR", 301)]%Z.

(** The cases 28 to 48 of the [switch], for symbols, operators, numbers,
    names and blanks; there are no others. *)
Definition yy_action_symbols (yy_act : Z) (yytext : string) (yylval : yystype) : res lexact :=
  let tok t := Ok (Return t yylval) in
  match yy_act with
  | 28 => tok LP
  | 29 => tok RP
  | 30 => tok LB
  | 31 => tok RB
  | 32 => tok LT
  | 33 => tok LE
  | 34 => tok GT
  | 35 => tok GE
  | 36 => tok EQ
  | 37 => tok AND
  | 38 => tok OR
  | 39 => tok NOT
  | 40 => tok PLUS
  | 41 => tok MINUS
  | 42 => tok MULTI
  | 43 => tok MOD
  | 44 => Ok Skip
  | 45 => Ok (Return CONST (Ival (atoi yytext)))
  | 46 => Ok (Return VAR (Sval yytext))
  | 47 => Ok Skip
  | 48 => Ok Skip
  | _ => Err (Exit 2)
  end%Z.

(** The [switch] on the rule number; [yytext] is the matched text and
    [yylval] the value left by the previous token. *)
Definition yy_action (yy_act : Z) (yytext : string) (yylval : yystype) : res lexact :=
  let tok t := Ok (Return t yylval) in
  match yy_act with
  | 1 => Ok Skip
  | 2 => tok IF
  | 3 => tok THEN
  | 4 => tok ELSE
  | 5 => tok DROP
  | 6 => tok FWD1
  | 7 => tok FWD2
  | 8 => tok FWD3
  | 9 => tok FWD4
  | 10 => tok FWD5
  | 11 => tok FWD6
  | 12 => tok FWD7
  | 13 => tok FWD8
  | 14 => tok FWD9
  | 15 => tok FWD10
  | 16 => tok FWD11
  | 17 => tok FWD12
  | 18 => tok FWD13
  | 19 => tok FWD14
  | 20 => tok MATCH
  | 21 => tok DEF
  | 22 => Ok (Return LISTVAR (Sval yytext))
  | 23 => tok ASSIGN
  | 24 => tok IN
  | 25 => tok NOTIN
  | 26 => tok COUNT
  | 27 => tok MONITOR
  | _ => yy_action_symbols yy_act yytext yylval
  end%Z.

(** One pass of the outer [while] of [yylex]: the action and the text left.
    [None] at the end of the file. *)
Definition yy_scan (inp : list ascii) (yylval : yystype)
  : res (option (lexact * list ascii)) :=
  match inp with
  | [] => Ok None
  | _ =>
      '(yy_act, n) ← deref (yy_match yy_start 0 None inp);
      a ← yy_action yy_act (String.string_of_list_ascii (take n inp)) yylval;
      mret (Some (a, drop n inp))
  end.

(** Every call of [yylex] until it returns 0: the tokens of the file. *)
Fixpoint yylex_loop (fuel : nat) (inp : list ascii) (yylval : yystype) : res (list token) :=
  match fuel with
  | O => Err NoFuel
  | S f =>
      o ← yy_scan inp yylval;
      match o with
      | None => Ok []
      | Some (Skip, r) => yylex_loop f r yylval
      | Some (Return t v, r) => ts ← yylex_loop f r v; mret ((t, v) :: ts)
      end
  end.

(** [yylval] is a global, zero before the first token. *)
Definition yylex (text : string) : res (list token) :=
  let inp := String.list_ascii_of_string text in
  yylex_loop (S (length inp)) inp (Ival 0).
