(* ===== verification/LexBuffer.v ===== *)
(** The input buffer of the generated scanner (src/compiler/lex.yy.c, lines
    710-792 and 1048-1375, and the functions that set the buffer up).  The
    array [yy_ch_buf] has [yy_buf_size + 2] bytes, [None] being one nobody has
    written; pointers into it are indices.  The file is what is left to read
    of it, and [fread i] bounds what the [i]-th read delivers.  Memory is
    taken to be available. *)

From stdpp Require Import base list strings.
From Stdlib Require Import ZArith Lia Ascii.
From S2P Require Import Prelude Cxx LexTables Parser Lexer.

(** ** The state of the scanner *)

Definition YY_BUF_SIZE : nat := Z.to_nat 16384.
Definition YY_READ_BUF_SIZE : Z := 8192.

Definition YY_END_OF_BUFFER_CHAR : ascii := zero.

Inductive buffer_status : Type := YY_BUFFER_NEW | YY_BUFFER_NORMAL | YY_BUFFER_EOF_PENDING.

#[export] Instance buffer_status_eq_dec : EqDecision buffer_status.
Proof. solve_decision. Defined.

(** The current [yy_buffer_state] and the static variables. *)
Record lexer : Type := mkLexer {
  yy_ch_buf : list (option ascii);
  yy_buf_size : Z;
  b_n_chars : nat;              (* the member [yy_n_chars] of the buffer *)
  yy_buffer_status : buffer_status;
  yy_n_chars : nat;
  yytext_ptr : nat;
  yy_c_buf_p : nat;
  yy_hold_char : ascii;
  yy_last_accepting_state : Z;
  yy_last_accepting_cpos : nat;
  yyin : list ascii;
  reads : nat
}.

Definition set_buf v l := mkLexer v (yy_buf_size l) (b_n_chars l) (yy_buffer_status l) (yy_n_chars l) (yytext_ptr l) (yy_c_buf_p l) (yy_hold_char l) (yy_last_accepting_state l) (yy_last_accepting_cpos l) (yyin l) (reads l).
Definition set_size v l := mkLexer (yy_ch_buf l) v (b_n_chars l) (yy_buffer_status l) (yy_n_chars l) (yytext_ptr l) (yy_c_buf_p l) (yy_hold_char l) (yy_last_accepting_state l) (yy_last_accepting_cpos l) (yyin l) (reads l).
Definition set_b_n_chars v l := mkLexer (yy_ch_buf l) (yy_buf_size l) v (yy_buffer_status l) (yy_n_chars l) (yytext_ptr l) (yy_c_buf_p l) (yy_hold_char l) (yy_last_accepting_state l) (yy_last_accepting_cpos l) (yyin l) (reads l).
Definition set_status v l := mkLexer (yy_ch_buf l) (yy_buf_size l) (b_n_chars l) v (yy_n_chars l) (yytext_ptr l) (yy_c_buf_p l) (yy_hold_char l) (yy_last_accepting_state l) (yy_last_accepting_cpos l) (yyin l) (reads l).
Definition set_n_chars v l := mkLexer (yy_ch_buf l) (yy_buf_size l) (b_n_chars l) (yy_buffer_status l) v (yytext_ptr l) (yy_c_buf_p l) (yy_hold_char l) (yy_last_accepting_state l) (yy_last_accepting_cpos l) (yyin l) (reads l).
Definition set_text v l := mkLexer (yy_ch_buf l) (yy_buf_size l) (b_n_chars l) (yy_buffer_status l) (yy_n_chars l) v (yy_c_buf_p l) (yy_hold_char l) (yy_last_accepting_state l) (yy_last_accepting_cpos l) (yyin l) (reads l).
Definition set_p v l := mkLexer (yy_ch_buf l) (yy_buf_size l) (b_n_chars l) (yy_buffer_status l) (yy_n_chars l) (yytext_ptr l) v (yy_hold_char l) (yy_last_accepting_state l) (yy_last_accepting_cpos l) (yyin l) (reads l).
Definition set_hold v l := mkLexer (yy_ch_buf l) (yy_buf_size l) (b_n_chars l) (yy_buffer_status l) (yy_n_chars l) (yytext_ptr l) (yy_c_buf_p l) v (yy_last_accepting_state l) (yy_last_accepting_cpos l) (yyin l) (reads l).
Definition set_last s p l := mkLexer (yy_ch_buf l) (yy_buf_size l) (b_n_chars l) (yy_buffer_status l) (yy_n_chars l) (yytext_ptr l) (yy_c_buf_p l) (yy_hold_char l) s p (yyin l) (reads l).
Definition set_file v n l := mkLexer (yy_ch_buf l) (yy_buf_size l) (b_n_chars l) (yy_buffer_status l) (yy_n_chars l) (yytext_ptr l) (yy_c_buf_p l) (yy_hold_char l) (yy_last_accepting_state l) (yy_last_accepting_cpos l) v n.

(** [*p] and [*p = c]. *)
Definition get_ch (i : nat) (l : lexer) : res ascii :=
  match yy_ch_buf l !! i with Some (Some c) => Ok c | _ => Err Undefined end.
Definition put_ch (i : nat) (c : ascii) (l : lexer) : res lexer :=
  if (i <? length (yy_ch_buf l))%nat then Ok (set_buf (<[i := Some c]> (yy_ch_buf l)) l) else Err Undefined.

(** ** Setting up the buffer *)

Definition yy_load_buffer_state (l : lexer) : res lexer :=
  let l := set_n_chars (b_n_chars l) l in
  let l := set_text 0 (set_p 0 l) in
  c ← get_ch (yy_c_buf_p l) l;
  mret (set_hold c l).

(** [current] tells whether the buffer is the current one; [yy_buf_pos] is
    the start of the array from here on. *)
Definition yy_flush_buffer (current : bool) (l : lexer) : res lexer :=
  let l := set_b_n_chars 0 l in
  l ← put_ch 0 YY_END_OF_BUFFER_CHAR l;
  l ← put_ch 1 YY_END_OF_BUFFER_CHAR l;
  let l := set_status YY_BUFFER_NEW l in
  if current then yy_load_buffer_state l else mret l.

Definition yy_init_buffer (current : bool) (l : lexer) : res lexer := yy_flush_buffer current l.

(** There is a current buffer whenever it is called. *)
Definition yyrestart (l : lexer) : res lexer :=
  l ← yy_init_buffer true l; yy_load_buffer_state l.

(** [yy_create_buffer] of [file], and the initialisation of [yylex]. *)
Definition yy_create_buffer (file : list ascii) (size : nat) : res lexer :=
  yy_init_buffer false (mkLexer (replicate (size + 2) None) (Z.of_nat size) 0 YY_BUFFER_NEW 0 0 0 zero 0 0 file 0).

Definition yylex_init (file : list ascii) : res lexer :=
  l ← yy_create_buffer file YY_BUF_SIZE; yy_load_buffer_state l.

(** ** Refilling the buffer *)

Inductive eob_act : Type := EOB_ACT_CONTINUE_SCAN | EOB_ACT_END_OF_FILE | EOB_ACT_LAST_MATCH.

Section Reading.
Context (fread : nat -> nat).

(** [YY_INPUT] of at most [max] characters to [dest]: a read of a file, or of
    a line of a terminal; read errors are left out. *)
Definition yy_input (dest : nat) (max : Z) (l : lexer) : res lexer :=
  let cs := take (Z.to_nat max `min` fread (reads l)) (yyin l) in
  if (dest + length cs <=? length (yy_ch_buf l))%nat then
    let buf := take dest (yy_ch_buf l) ++ (Some <$> cs) ++ drop (dest + length cs) (yy_ch_buf l) in
    Ok (set_n_chars (length cs) (set_file (drop (length cs) (yyin l)) (S (reads l)) (set_buf buf l)))
  else Err Undefined.

(** The loop that moves the text matched so far to the start of the array. *)
Fixpoint move_chars (k dest source : nat) (l : lexer) : res lexer :=
  match k with
  | O => Ok l
  | S k => c ← get_ch source l; l ← put_ch dest c l; move_chars k (S dest) (S source) l
  end.

(** The loop that makes room: the size is doubled; a size that does not fit
    [int] is undefined. *)
Fixpoint yy_grow (fuel : nat) (number_to_move : Z) (l : lexer) : res lexer :=
  match fuel with
  | O => Err NoFuel
  | S fuel =>
      if (yy_buf_size l - number_to_move - 1 <=? 0)%Z then
        let new_size := (yy_buf_size l * 2)%Z in
        if (2 ^ 31 <=? new_size + 2)%Z then Err Undefined else
        let buf := yy_ch_buf l ++ replicate (Z.to_nat (new_size + 2) - length (yy_ch_buf l)) None in
        yy_grow fuel number_to_move (set_size new_size (set_buf buf l))
      else mret l
  end.

(** The array is extended when the read filled more than its size. *)
Definition yy_extend (number_to_move : nat) (l : lexer) : lexer :=
  if (Z.of_nat (yy_n_chars l + number_to_move) >? yy_buf_size l)%Z then
    let new_size := (yy_n_chars l + number_to_move + yy_n_chars l / 2)%nat in
    set_size (Z.of_nat new_size - 2)
      (set_buf (yy_ch_buf l ++ replicate (new_size - length (yy_ch_buf l)) None) l)
  else l.

(** The end of the buffer is marked after the text. *)
Definition yy_mark_end (number_to_move : nat) (l : lexer) : res lexer :=
  let l := yy_extend number_to_move l in
  let l := set_n_chars (yy_n_chars l + number_to_move) l in
  l ← put_ch (yy_n_chars l) YY_END_OF_BUFFER_CHAR l;
  l ← put_ch (yy_n_chars l + 1) YY_END_OF_BUFFER_CHAR l;
  mret (set_text 0 l).

(** What is read goes behind the text; with [YY_BUFFER_EOF_PENDING] nothing is
    read.  [yy_fill_buffer] is set, as always for a file. *)
Definition yy_read_more (number_to_move : nat) (l : lexer) : res lexer :=
  if decide (yy_buffer_status l = YY_BUFFER_EOF_PENDING) then
    mret (set_b_n_chars 0 (set_n_chars 0 l))
  else
    l ← yy_grow 32 (Z.of_nat number_to_move) l;
    let num_to_read := (yy_buf_size l - Z.of_nat number_to_move - 1)%Z in
    l ← yy_input number_to_move (Z.min num_to_read YY_READ_BUF_SIZE) l;
    mret (set_b_n_chars (yy_n_chars l) l).

Definition yy_get_next_buffer (l : lexer) : res (eob_act * lexer) :=
  if (yy_n_chars l + 1 <? yy_c_buf_p l)%nat then Err (Exit 2) else
  let number_to_move := (yy_c_buf_p l - yytext_ptr l - 1)%nat in
  l ← move_chars number_to_move 0 (yytext_ptr l) l;
  l ← yy_read_more number_to_move l;
  '(ret_val, l) ←
    (if (yy_n_chars l =? 0)%nat then
       if (number_to_move =? 0)%nat then l ← yyrestart l; mret (EOB_ACT_END_OF_FILE, l)
       else mret (EOB_ACT_LAST_MATCH, set_status YY_BUFFER_EOF_PENDING l)
     else mret (EOB_ACT_CONTINUE_SCAN, l));
  l ← yy_mark_end number_to_move l;
  mret (ret_val, l).

(** ** The automaton over the buffer *)

(** The transition on an equivalence class, and the note of an accepting
    state at [yy_cp]. *)
Definition yy_goto (yy_current_state yy_c : Z) : res Z := deref (yy_resolve 3 yy_current_state yy_c).

Definition note_accept (yy_current_state : Z) (yy_cp : nat) (l : lexer) : res lexer :=
  a ← deref (znth yy_accept yy_current_state);
  mret (if (a =? 0)%Z then l else set_last yy_current_state yy_cp l).

Definition ec (c : ascii) : res Z := deref (znth yy_ec (char_code c)).

(** The loop of [yy_get_previous_state]: [k] characters from [yy_cp] on. *)
Fixpoint previous_loop (k yy_cp : nat) (s : Z) (l : lexer) : res (Z * lexer) :=
  match k with
  | O => Ok (s, l)
  | S k =>
      c ← get_ch yy_cp l;
      yy_c ← (if (char_code c =? 0)%Z then mret 1%Z else ec c);
      l ← note_accept s yy_cp l;
      s ← yy_goto s yy_c;
      previous_loop k (S yy_cp) s l
  end.

Definition yy_get_previous_state (l : lexer) : res (Z * lexer) :=
  previous_loop (yy_c_buf_p l - yytext_ptr l) (yytext_ptr l) yy_start l.

Definition yy_try_NUL_trans (s : Z) (l : lexer) : res (option Z * lexer) :=
  l ← note_accept s (yy_c_buf_p l) l;
  s ← yy_goto s 1;
  mret (if (s =? 95)%Z then None else Some s, l).

(** [YY_DO_BEFORE_ACTION]. *)
Definition yy_before_action (yy_bp yy_cp : nat) (l : lexer) : res lexer :=
  let l := set_text yy_bp l in
  c ← get_ch yy_cp l;
  l ← put_ch yy_cp YY_END_OF_BUFFER_CHAR (set_hold c l);
  mret (set_p yy_cp l).

(** Where control is: at the label [yy_match] or at [yy_find_action] with a
    state and [yy_cp], or past the switch because the file has ended. *)
Inductive yy_control : Type :=
| Match (s : Z) (yy_cp : nat)
| Find (s : Z) (yy_cp : nat)
| Ended.

(** A NUL of the text is consumed if the automaton has a way on; at the end
    of the buffer more is read.  [yywrap] returns 1. *)
Definition eob_case (yy_amount_of_matched_text : nat) (l : lexer) : res (yy_control * lexer) :=
  if (yy_c_buf_p l <=? yy_n_chars l)%nat then
    let l := set_p (yytext_ptr l + yy_amount_of_matched_text) l in
    '(s, l) ← yy_get_previous_state l;
    '(o, l) ← yy_try_NUL_trans s l;
    match o with
    | Some s => let l := set_p (S (yy_c_buf_p l)) l in mret (Match s (yy_c_buf_p l), l)
    | None => mret (Find s (yy_c_buf_p l), l)
    end
  else
    '(a, l) ← yy_get_next_buffer l;
    match a with
    | EOB_ACT_END_OF_FILE => mret (Ended, set_p (yytext_ptr l) l)
    | EOB_ACT_CONTINUE_SCAN =>
        let l := set_p (yytext_ptr l + yy_amount_of_matched_text) l in
        '(s, l) ← yy_get_previous_state l;
        mret (Match s (yy_c_buf_p l), l)
    | EOB_ACT_LAST_MATCH =>
        let l := set_p (yy_n_chars l) l in
        '(s, l) ← yy_get_previous_state l;
        mret (Find s (yy_c_buf_p l), l)
    end.

(** The case [YY_END_OF_BUFFER] of the switch: where it goes, with [yy_bp]
    set to [yytext_ptr]. *)
Definition end_of_buffer (yy_cp : nat) (l : lexer) : res (yy_control * lexer) :=
  let yy_amount_of_matched_text := (yy_cp - yytext_ptr l - 1)%nat in
  l ← put_ch yy_cp (yy_hold_char l) l;
  let l := if decide (yy_buffer_status l = YY_BUFFER_NEW)
           then set_status YY_BUFFER_NORMAL (set_n_chars (b_n_chars l) l) else l in
  eob_case yy_amount_of_matched_text l.

(** From the labels on to the action of a rule: the rule and the state, or
    none at the end of the file. *)
Fixpoint yy_run (fuel : nat) (yy_bp : nat) (pc : yy_control) (l : lexer) : res (option Z * lexer) :=
  match fuel with
  | O => Err NoFuel
  | S fuel =>
      match pc with
      | Ended => mret (None, l)
      | Match s yy_cp =>
          c ← get_ch yy_cp l;
          yy_c ← ec c;
          l ← note_accept s yy_cp l;
          s ← yy_goto s yy_c;
          stop ← deref (yy_stop s);
          yy_run fuel yy_bp (if stop : bool then Find s (S yy_cp) else Match s (S yy_cp)) l
      | Find s yy_cp =>
          a ← deref (znth yy_accept s);
          '(yy_act, yy_cp) ←
            (if (a =? 0)%Z then
               a ← deref (znth yy_accept (yy_last_accepting_state l));
               mret (a, yy_last_accepting_cpos l)
             else mret (a, yy_cp));
          l ← yy_before_action yy_bp yy_cp l;
          if (yy_act =? YY_END_OF_BUFFER)%Z then
            '(pc, l) ← end_of_buffer yy_cp l;
            yy_run fuel (yytext_ptr l) pc l
          else mret (Some yy_act, l)
      end
  end.

(** [yytext] as a string of [yyleng] characters. *)
Definition yytext (l : lexer) : res string :=
  cs ← deref (mapM id (take (yy_c_buf_p l - yytext_ptr l) (drop (yytext_ptr l) (yy_ch_buf l))));
  mret (String.string_of_list_ascii cs).

(** The calls of [yylex] until it returns 0: the tokens of the file.  [steps]
    bounds each pass of the outer loop and [fuel] their number. *)
Fixpoint yylex_calls (steps fuel : nat) (l : lexer) (yylval : yystype) : res (list token) :=
  match fuel with
  | O => Err NoFuel
  | S fuel =>
      l ← put_ch (yy_c_buf_p l) (yy_hold_char l) l;
      '(o, l) ← yy_run steps (yy_c_buf_p l) (Match yy_start (yy_c_buf_p l)) l;
      match o with
      | None => Ok []
      | Some yy_act =>
          text ← yytext l;
          a ← yy_action yy_act text yylval;
          match a with
          | Skip => yylex_calls steps fuel l yylval
          | Return t v => ts ← yylex_calls steps fuel l v; mret ((t, v) :: ts)
          end
      end
  end.

Definition yylex_file (steps fuel : nat) (file : list ascii) : res (list token) :=
  l ← yylex_init file; yylex_calls steps fuel l (Ival 0).
End Reading.
