(* ===== verification/LexSpec.v ===== *)
(** The scanner against its specification: the rules of src/compiler/poise.l
    as regular expressions, and the proof that the compressed tables of
    lex.yy.c return, on every text, the longest match and among the longest
    the first rule.  The proof runs the table automaton in lock step with the
    derivatives of the rules; the finite relation between the two is checked
    by computation. *)

From stdpp Require Import base list strings sorting.
From Stdlib Require Import ZArith Lia Ascii.
From S2P Require Import Prelude Cxx LexTables Parser Lexer.

(** ** Regular expressions over characters *)

(** [Cls] is a character class, a list of inclusive ranges of codes. *)
Inductive re : Type :=
| Emp
| Eps
| Cls (ranges : list (Z * Z))
| Cat (r s : re)
| Alt (r s : re)
| Star (r : re).

#[export] Instance re_eq_dec : EqDecision re.
Proof. solve_decision. Defined.

Definition in_class (l : list (Z * Z)) (c : ascii) : bool :=
  existsb (fun '(lo, hi) => (lo <=? char_code c)%Z && (char_code c <=? hi)%Z) l.

Inductive matches : re -> list ascii -> Prop :=
| m_eps : matches Eps []
| m_cls l c : in_class l c = true -> matches (Cls l) [c]
| m_cat r s u v : matches r u -> matches s v -> matches (Cat r s) (u ++ v)
| m_alt_l r s u : matches r u -> matches (Alt r s) u
| m_alt_r r s u : matches s u -> matches (Alt r s) u
| m_star_nil r : matches (Star r) []
| m_star_cons r c u v : matches r (c :: u) -> matches (Star r) v ->
    matches (Star r) (c :: u ++ v).

Fixpoint nullable (r : re) : bool :=
  match r with
  | Emp | Cls _ => false
  | Eps | Star _ => true
  | Cat r s => nullable r && nullable s
  | Alt r s => nullable r || nullable s
  end.

(** Constructors that drop the dead parts, so that the derivatives of a rule
    are finitely many terms. *)
Definition cat (r s : re) : re :=
  match r with Emp => Emp | Eps => s | _ => Cat r s end.
Definition alt (r s : re) : re :=
  match r, s with Emp, _ => s | _, Emp => r | _, _ => Alt r s end.

Fixpoint deriv (c : ascii) (r : re) : re :=
  match r with
  | Emp | Eps => Emp
  | Cls l => if in_class l c then Eps else Emp
  | Cat r s =>
      if nullable r then alt (cat (deriv c r) s) (deriv c s) else cat (deriv c r) s
  | Alt r s => alt (deriv c r) (deriv c s)
  | Star r => cat (deriv c r) (Star r)
  end.

(** ** The rules of poise.l *)

Definition chr (c : ascii) : re := Cls [(char_code c, char_code c)].
Definition lit (s : string) : re :=
  foldr (fun c r => Cat (chr c) r) Eps (String.list_ascii_of_string s).
Definition plus (r : re) : re := Cat r (Star r).

Definition digits : re := Cls [(48, 57)]%Z.
Definition alnum : re := Cls [(97, 122); (65, 90); (48, 57)]%Z.
(** [.] is every character but a newline. *)
Definition dot : re := Cls [(0, 9); (11, 255)]%Z.

Definition rules : list re :=
  [Cat (lit "//") (Star dot);
   lit "if"; lit "then"; lit "else"; lit "drop"; lit "fwd1"; lit "fwd2"; lit "fwd3";
   lit "fwd4"; lit "fwd5"; lit "fwd6"; lit "fwd7"; lit "fwd8"; lit "fwd9"; lit "fwd10";
   lit "fwd11"; lit "fwd12"; lit "fwd13"; lit "fwd14"; lit "match"; lit "def";
   Cat (lit "list") digits; lit ":="; lit "in"; lit "notin"; lit "count"; lit "monitor";
   lit "("; lit ")"; lit "["; lit "]"; lit "<"; lit "<="; lit ">"; lit ">="; lit "==";
   lit "and"; lit "or"; lit "not"; lit "+"; lit "-"; lit "*"; lit "%";
   Cls [(32, 32); (9, 9); (10, 10)]%Z;
   plus digits;
   plus alnum;
   dot].

(** Rule [i] (from 1) matches the text [w]. *)
Definition rule_matches (i : Z) (w : list ascii) : Prop :=
  exists r, znth rules (i - 1) = Some r /\ matches r w.

(** What a scanner of these rules returns on a nonempty text: the longest
    match, and of the rules that match that long the first. *)
Record longest_match (inp : list ascii) (act : Z) (n : nat) : Prop := {
  lm_nonempty : (0 < n <= length inp)%nat;
  lm_match : rule_matches act (take n inp);
  lm_first : forall i, (i < act)%Z -> ~ rule_matches i (take n inp);
  lm_longest : forall i m, (n < m <= length inp)%nat -> ~ rule_matches i (take m inp)
}.

(** ** Derivatives *)

Lemma nullable_spec r : nullable r = true <-> matches r [].
Proof.
  split.
  - induction r; simpl; intros H; try discriminate.
    + constructor.
    + apply andb_true_iff in H as [H1 H2].
      apply (m_cat r1 r2 [] []); auto.
    + apply orb_true_iff in H as [H|H]; [apply m_alt_l|apply m_alt_r]; auto.
    + constructor.
  - intros H. remember [] as u eqn:E.
    induction H; simpl; try done; try discriminate.
    + apply app_nil in E as [-> ->]. by rewrite IHmatches1, IHmatches2.
    + by rewrite IHmatches.
    + rewrite IHmatches by done. apply orb_true_r.
Qed.

Lemma cat_spec r s u : matches (cat r s) u <-> matches (Cat r s) u.
Proof.
  destruct r; simpl; try done; split; intros H.
  - inversion H.
  - inversion H as [| |? ? ? ? H1 H2| | | |]; subst. inversion H1.
  - by apply (m_cat Eps s [] u); [constructor|].
  - inversion H as [| |? ? ? ? H1 H2| | | |]; subst. by inversion H1; subst.
Qed.

Lemma alt_spec r s u : matches (alt r s) u <-> matches r u \/ matches s u.
Proof.
  assert (E : forall t, matches Emp t <-> False) by (split; [inversion 1|done]).
  destruct r; simpl; destruct s; rewrite ?E;
    try (split; [by inversion 1; auto|intros [?|?]; by constructor]); naive_solver.
Qed.

Lemma matches_cat_cons r s c u :
  matches (Cat r s) (c :: u) <->
  (exists u1 u2, u = u1 ++ u2 /\ matches r (c :: u1) /\ matches s u2) \/
  (matches r [] /\ matches s (c :: u)).
Proof.
  split.
  - intros H. inversion H as [| |? ? x y H1 H2 E0 E| | | |]; subst.
    destruct x as [|c' x]; simpl in *; simplify_eq; eauto 10.
  - intros [(u1 & u2 & -> & H1 & H2)|[H1 H2]].
    + by apply (m_cat r s (c :: u1) u2).
    + by apply (m_cat r s [] (c :: u)).
Qed.

Lemma deriv_spec c r u : matches (deriv c r) u <-> matches r (c :: u).
Proof.
  revert u. induction r as [| |l|r IHr s IHs|r IHr s IHs|r IHr]; intros u; simpl.
  - split; inversion 1.
  - split; inversion 1.
  - split.
    + destruct (in_class l c) eqn:E; inversion 1; subst. by constructor.
    + inversion 1; subst. match goal with H : in_class l c = true |- _ => rewrite H end. constructor.
  - rewrite matches_cat_cons, <- nullable_spec.
    assert (Hc : matches (Cat (deriv c r) s) u <->
                 exists u1 u2, u = u1 ++ u2 /\ matches r (c :: u1) /\ matches s u2).
    { split.
      - inversion 1 as [| |? ? x y H1 H2| | | |]; subst. apply IHr in H1. eauto.
      - intros (u1 & u2 & -> & H1 & H2). constructor; [by apply IHr|done]. }
    destruct (nullable r); rewrite ?alt_spec, cat_spec, Hc, ?IHs; naive_solver.
  - rewrite alt_spec, IHr, IHs. split.
    + intros [H|H]; [by apply m_alt_l|by apply m_alt_r].
    + inversion 1; auto.
  - rewrite cat_spec. split.
    + inversion 1 as [| |? ? x y H1 H2| | | |]; subst. apply IHr in H1. by constructor.
    + inversion 1 as [| | | | | |? ? x y H1 H2]; subst. constructor; [by apply IHr|done].
Qed.

(** ** The rules still alive after some text *)

Definition live : Type := list (Z * re).

Definition live_start : live :=
  imap (fun i r => (Z.of_nat i + 1, r)%Z) rules.

Definition live_step (c : ascii) (v : live) : live :=
  List.filter (fun p => negb (bool_decide (p.2 = Emp))) ((fun p => (p.1, deriv c p.2)) <$> v).

(** The first rule that accepts, 0 when none does. *)
Fixpoint live_accept (v : live) : Z :=
  match v with
  | [] => 0
  | (i, r) :: v => if nullable r then i else live_accept v
  end.

Definition live_matches (v : live) (i : Z) (u : list ascii) : Prop :=
  exists r, (i, r) ∈ v /\ matches r u.

Lemma live_start_spec i u : live_matches live_start i u <-> rule_matches i u.
Proof.
  unfold live_matches, rule_matches, live_start. split; intros (r & Hr & Hm); exists r; split; try done.
  - apply list_elem_of_lookup in Hr as [k Hk].
    rewrite list_lookup_imap in Hk. destruct (rules !! k) eqn:E; simplify_eq/=.
    replace (Z.of_nat k + 1 - 1)%Z with (Z.of_nat k) by lia. by rewrite znth_nat.
  - unfold znth in Hr. destruct (Z.ltb_spec (i - 1) 0); [done|].
    apply list_elem_of_lookup. exists (Z.to_nat (i - 1)).
    rewrite list_lookup_imap, Hr. simpl. do 2 f_equal. lia.
Qed.

Lemma live_step_spec c v i u : live_matches (live_step c v) i u <-> live_matches v i (c :: u).
Proof.
  unfold live_matches, live_step. split.
  - intros (r & Hr & Hm).
    apply list_elem_of_In, filter_In in Hr as [Hr _]. apply list_elem_of_In in Hr.
    apply list_elem_of_fmap in Hr as ([j s] & E & Hs). simplify_eq/=.
    exists s. split; [done|]. by apply deriv_spec.
  - intros (r & Hr & Hm). exists (deriv c r). apply deriv_spec in Hm. split; [|done].
    apply list_elem_of_In, filter_In. split.
    + apply list_elem_of_In, list_elem_of_fmap. by exists (i, r).
    + simpl. apply negb_true_iff, bool_decide_eq_false. intros E. rewrite E in Hm. inversion Hm.
Qed.

(** Rule numbers in increasing order, all positive. *)
Definition ordered (v : live) : Prop :=
  StronglySorted Z.lt (fst <$> v) /\ Forall (fun p => 0 < p.1)%Z v.

Lemma ordered_start : ordered live_start.
Proof.
  assert (E : bool_decide (StronglySorted Z.lt (fst <$> live_start)) = true
              /\ bool_decide (Forall (fun p => 0 < p.1)%Z live_start) = true)
    by (split; vm_compute; reflexivity).
  destruct E as [E1 E2]. split; by eapply bool_decide_eq_true_1.
Qed.

Lemma ordered_step c v : ordered v -> ordered (live_step c v).
Proof.
  intros [H1 H2]. unfold ordered, live_step. induction v as [|[i r] v IH]; simpl in *.
  - by split.
  - apply StronglySorted_inv in H1 as [H1 Hf]. apply Forall_cons in H2 as [Hi H2].
    destruct (IH H1 H2) as [IH1 IH2]. case_match; simpl; [|by split].
    split; constructor; simpl; try done.
    rewrite Forall_forall in Hf |- *. intros j Hj.
    apply list_elem_of_fmap in Hj as ([j' s] & -> & Hj).
    apply list_elem_of_In, filter_In in Hj as [Hj _]. apply list_elem_of_In in Hj.
    apply list_elem_of_fmap in Hj as ([j2 s2] & E & Hj). simplify_eq/=.
    apply Hf, list_elem_of_fmap. by exists (j2, s2).
Qed.

Lemma live_accept_nonneg v : ordered v -> (0 <= live_accept v)%Z.
Proof.
  intros [_ H]. induction H as [|[i r] v Hi H IH]; simpl in *; [lia|]. case_match; lia.
Qed.

(** Zero exactly when no rule accepts, else the first rule that does. *)
Lemma live_accept_spec v :
  ordered v ->
  (live_accept v = 0%Z /\ forall i, ~ live_matches v i []) \/
  (live_accept v <> 0%Z /\ live_matches v (live_accept v) [] /\
   forall i, (i < live_accept v)%Z -> ~ live_matches v i []).
Proof.
  intros [H1 H2]. induction v as [|[i r] v IH]; simpl in *.
  - left. split; [done|]. intros i (r & Hr & _). by apply elem_of_nil in Hr.
  - apply StronglySorted_inv in H1 as [H1 Hf]. apply Forall_cons in H2 as [Hi H2].
    simpl in Hi. destruct (nullable r) eqn:N.
    + right. split; [lia|]. split.
      * exists r. split; [constructor|by apply nullable_spec].
      * intros j Hj (s & Hs & _). apply elem_of_cons in Hs as [Hs|Hs]; [simplify_eq; lia|].
        rewrite Forall_forall in Hf.
        assert (i < j)%Z; [|lia]. apply Hf, list_elem_of_fmap. by exists (j, s).
    + assert (Hno : ~ matches r []) by (rewrite <- nullable_spec, N; done).
      assert (Hiff : forall j, live_matches ((i, r) :: v) j [] <-> live_matches v j []).
      { intros j. split; intros (s & Hs & Hm).
        - apply elem_of_cons in Hs as [Hs|Hs]; [by simplify_eq|by exists s].
        - exists s. split; [by constructor|done]. }
      setoid_rewrite Hiff. auto.
Qed.

(** ** The relation between table states and live rules *)

Definition all_chars : list ascii := (fun n => ascii_of_nat n) <$> seq 0 256.

Lemma all_chars_spec c : c ∈ all_chars.
Proof.
  apply list_elem_of_fmap. exists (nat_of_ascii c). split.
  - by rewrite ascii_nat_embedding.
  - apply elem_of_seq. pose proof (nat_ascii_bounded c). lia.
Qed.

Definition find_state (s : Z) (l : list (Z * live)) : option live :=
  snd <$> List.find (fun p => (p.1 =? s)%Z) l.

(** The states reachable from those of [todo], each with its live rules. *)
Fixpoint explore (fuel : nat) (todo seen : list (Z * live)) : list (Z * live) :=
  match fuel, todo with
  | S f, (s, v) :: r =>
      match find_state s seen with
      | Some _ => explore f r seen
      | None =>
          let next := omap (fun c => s' ← yy_next s c; Some (s', live_step c v)) all_chars in
          explore f (next ++ r) ((s, v) :: seen)
      end
  | _, _ => seen
  end.

Definition lex_rel : list (Z * live) := explore (Z.to_nat 30000) [(yy_start, live_start)] [].

(** A state agrees with its live rules: it accepts their first accepting
    rule, the scanner stops only where no rule can go on, and every
    character leads to a state that agrees again. *)
Definition state_ok (rel : list (Z * live)) (s : Z) (v : live) : bool :=
  bool_decide (znth yy_accept s = Some (live_accept v)) &&
  match yy_stop s with
  | Some true => forallb (fun c => bool_decide (live_step c v = [])) all_chars
  | Some false => true
  | None => false
  end &&
  forallb (fun c => match yy_next s c with
                    | Some s' => bool_decide (find_state s' rel = Some (live_step c v))
                    | None => false
                    end) all_chars.

Definition rel_ok (rel : list (Z * live)) : bool :=
  bool_decide (find_state yy_start rel = Some live_start) &&
  forallb (fun '(s, v) => state_ok rel s v) rel.

Lemma lex_rel_ok : rel_ok lex_rel = true.
Proof. vm_cast_no_check (eq_refl true). Qed.

Section Agreement.
Context (rel : list (Z * live)) (Hrel : rel_ok rel = true).

Record agrees (s : Z) (v : live) : Prop := {
  ag_accept : znth yy_accept s = Some (live_accept v);
  ag_stop : exists b, yy_stop s = Some b /\ (b = true -> forall c, live_step c v = []);
  ag_next : forall c, exists s',
    yy_next s c = Some s' /\ find_state s' rel = Some (live_step c v)
}.

Lemma rel_agrees s v : find_state s rel = Some v -> agrees s v.
Proof.
  intros Hf. pose proof Hrel as H. unfold rel_ok in H.
  apply andb_true_iff in H as [_ H]. rewrite forallb_forall in H.
  unfold find_state in Hf. destruct (List.find _ rel) as [[s' v']|] eqn:E; simplify_eq/=.
  apply List.find_some in E as [Hin Hs]. simpl in Hs. apply Z.eqb_eq in Hs as ->.
  specialize (H _ Hin). cbv beta iota in H. unfold state_ok in H.
  apply andb_true_iff in H as [H H3]. apply andb_true_iff in H as [H1 H2].
  apply bool_decide_eq_true in H1. split; [done| |].
  - destruct (yy_stop s) as [b|]; [|done]. exists b. split; [done|]. intros -> c.
    rewrite forallb_forall in H2.
    eapply bool_decide_eq_true, H2, list_elem_of_In, all_chars_spec.
  - intros c. rewrite forallb_forall in H3.
    specialize (H3 c (proj1 (list_elem_of_In _ _) (all_chars_spec c))).
    destruct (yy_next s c) as [s'|]; [|done]. apply bool_decide_eq_true in H3. eauto.
Qed.

Lemma rel_start : find_state yy_start rel = Some live_start.
Proof.
  pose proof Hrel as H. apply andb_true_iff in H as [H _].
  by apply bool_decide_eq_true in H.
Qed.

(** ** From states to texts *)

Definition live_after (w : list ascii) : live := foldl (fun v c => live_step c v) live_start w.

Lemma live_after_snoc w c : live_after (w ++ [c]) = live_step c (live_after w).
Proof. unfold live_after. by rewrite foldl_app. Qed.

Lemma live_after_spec w i u : live_matches (live_after w) i u <-> rule_matches i (w ++ u).
Proof.
  revert u. induction w as [|c w IH] using rev_ind; intros u.
  - apply live_start_spec.
  - rewrite live_after_snoc, live_step_spec, IH. by rewrite <- app_assoc.
Qed.

Lemma live_after_ordered w : ordered (live_after w).
Proof.
  induction w as [|c w IH] using rev_ind; [apply ordered_start|].
  rewrite live_after_snoc. by apply ordered_step.
Qed.

(** [act] is the first rule that matches [w]. *)
Definition first_rule (act : Z) (w : list ascii) : Prop :=
  act <> 0%Z /\ rule_matches act w /\ forall i, (i < act)%Z -> ~ rule_matches i w.

Lemma live_after_accept w :
  (live_accept (live_after w) = 0%Z /\ forall i, ~ rule_matches i w) \/
  first_rule (live_accept (live_after w)) w.
Proof.
  assert (E : forall i, live_matches (live_after w) i [] <-> rule_matches i w)
    by (intros i; rewrite live_after_spec; by rewrite app_nil_r).
  destruct (live_accept_spec (live_after w) (live_after_ordered w)) as [[H1 H2]|(H1 & H2 & H3)].
  - left. split; [done|]. intros i. rewrite <- E. apply H2.
  - right. split; [done|]. split; [by apply E|]. intros i Hi. rewrite <- E. by apply H3.
Qed.

Lemma one_char_accepted c : exists i, rule_matches i [c].
Proof.
  assert (H : forallb (fun c => negb (live_accept (live_after [c]) =? 0)%Z) all_chars = true)
    by (vm_compute; reflexivity).
  rewrite forallb_forall in H.
  specialize (H c (proj1 (list_elem_of_In _ _) (all_chars_spec c))).
  cbv beta in H. apply negb_true_iff, Z.eqb_neq in H.
  destruct (live_after_accept [c]) as [[H1 _]|(_ & H1 & _)].
  - contradiction.
  - by eexists.
Qed.

(** The scanner's memory of the last accepting state after reading [w]. *)
Definition last_ok (w : list ascii) (last : option (Z * nat)) : Prop :=
  match last with
  | None => forall k i, (k < length w)%nat -> ~ rule_matches i (take k w)
  | Some (ls, ln) =>
      (ln < length w)%nat /\
      (exists act, znth yy_accept ls = Some act /\ first_rule act (take ln w)) /\
      forall k i, (ln < k < length w)%nat -> ~ rule_matches i (take k w)
  end.

Lemma no_rule_nil i : ~ rule_matches i [].
Proof.
  assert (E : live_accept (live_after []) = 0%Z) by (vm_compute; reflexivity).
  destruct (live_after_accept []) as [[_ H]|[H _]]; [apply H|congruence].
Qed.

(** The new memory after one more character [c]. *)
Lemma last_ok_step w c s last :
  znth yy_accept s = Some (live_accept (live_after w)) ->
  last_ok w last ->
  last_ok (w ++ [c])
    (if (live_accept (live_after w) =? 0)%Z then last else Some (s, length w)).
Proof.
  intros Ha Hl. destruct (live_after_accept w) as [[E Hno]|Hf].
  - rewrite E, Z.eqb_refl. destruct last as [[ls ln]|]; simpl in *; rewrite length_app; simpl.
    + destruct Hl as (H1 & (act & H2 & H3) & H4). split; [lia|]. split.
      * exists act. split; [done|]. by rewrite take_app_le by lia.
      * intros k i Hk. rewrite take_app_le by lia.
        destruct (decide (k = length w)) as [->|]; [by rewrite take_ge by lia|].
        apply H4. lia.
    + intros k i Hk. rewrite take_app_le by lia.
      destruct (decide (k = length w)) as [->|]; [by rewrite take_ge by lia|]. apply Hl. lia.
  - destruct Hf as [Hz Hf]. destruct (Z.eqb_spec (live_accept (live_after w)) 0); [done|].
    simpl. rewrite length_app; simpl. split; [lia|]. split.
    + exists (live_accept (live_after w)). split; [done|].
      rewrite take_app_le, take_ge by lia. by split.
    + intros k i Hk. lia.
Qed.

(** What [yy_find_action] finds, when nothing longer than [w] can match. *)
Lemma find_action_spec w rest s last :
  w <> [] ->
  znth yy_accept s = Some (live_accept (live_after w)) ->
  last_ok w last ->
  (forall k i, (length w < k <= length (w ++ rest))%nat -> ~ rule_matches i (take k (w ++ rest))) ->
  exists act n, yy_find_action s (length w) last = Some (act, n) /\ longest_match (w ++ rest) act n.
Proof.
  intros Hw Ha Hl Hlong. unfold yy_find_action. rewrite Ha. simpl.
  assert (Hlen : (0 < length w)%nat) by (destruct w; simpl; [done|lia]).
  destruct (live_after_accept w) as [[E Hno]|(Hz & Hm & Hfirst)].
  - rewrite E, Z.eqb_refl. destruct last as [[ls ln]|]; simpl in *.
    + destruct Hl as (H1 & (act & H2 & H3 & H4 & H5) & H6). rewrite H2. simpl.
      exists act, ln. split; [done|].
      assert (Hln : ln <> 0%nat) by (intros ->; rewrite take_0 in H4; by eapply no_rule_nil).
      split; rewrite ?length_app, ?take_app_le by lia; try done; [lia|].
      intros i k Hk. destruct (decide (k <= length w)%nat).
      * rewrite take_app_le by lia. destruct (decide (k = length w)) as [->|].
        -- by rewrite take_ge by lia.
        -- apply H6. lia.
      * apply Hlong. rewrite length_app. lia.
    + exfalso. destruct w as [|c w]; [done|].
      destruct (one_char_accepted c) as [i Hi].
      destruct w as [|c' w]; [by eapply Hno|]. apply (Hl 1%nat i); simpl; [lia|done].
  - destruct (Z.eqb_spec (live_accept (live_after w)) 0); [done|].
    exists (live_accept (live_after w)), (length w). split; [done|].
    split; rewrite ?length_app; try lia; rewrite ?take_app_le, ?take_ge by lia; try done.
    intros i k Hk. apply Hlong. rewrite length_app. lia.
Qed.

Lemma yy_match_spec inp : forall w s last,
  find_state s rel = Some (live_after w) ->
  last_ok w last ->
  w ++ inp <> [] ->
  exists act n, yy_match s (length w) last inp = Some (act, n) /\ longest_match (w ++ inp) act n.
Proof.
  induction inp as [|c inp IH]; intros w s last Hs Hl Hne.
  - rewrite app_nil_r in Hne. apply (find_action_spec w [] s last Hne); [|done|].
    + apply (ag_accept _ _ (rel_agrees _ _ Hs)).
    + rewrite app_nil_r. intros. lia.
  - destruct (rel_agrees _ _ Hs) as [Ha _ Hn].
    destruct (Hn c) as (s' & Hs' & Hf'). rewrite <- live_after_snoc in Hf'.
    destruct (rel_agrees _ _ Hf') as [Ha' (b & Hb & Hdead) _].
    cbn [yy_match]. rewrite Ha. cbn. rewrite Hs'. cbn. rewrite Hb. cbn.
    pose proof (last_ok_step w c s last Ha Hl) as Hl'.
    replace (w ++ c :: inp) with ((w ++ [c]) ++ inp) in * by by rewrite <- app_assoc.
    replace (S (length w)) with (length (w ++ [c])) by (rewrite length_app; simpl; lia).
    destruct b.
    + apply find_action_spec; [by destruct w|done|done|].
      intros k i Hk Hm. rewrite take_app_ge in Hm by lia.
      apply live_after_spec in Hm.
      destruct inp as [|c' inp]; [rewrite app_nil_r in Hk; lia|].
      destruct (k - length (w ++ [c]))%nat eqn:Ek; [lia|]. simpl in Hm.
      apply live_step_spec in Hm. rewrite Hdead in Hm by done.
      destruct Hm as (r & Hr & _). by apply elem_of_nil in Hr.
    + apply IH; [done|done|]. by destruct w.
Qed.

End Agreement.

Lemma yy_match_start (inp : list ascii) :
  inp <> [] ->
  exists act n, yy_match yy_start 0 None inp = Some (act, n) /\ longest_match inp act n.
Proof.
  intros Hne. apply (yy_match_spec lex_rel lex_rel_ok inp [] yy_start None
           (rel_start lex_rel lex_rel_ok)); [|done].
  intros k i Hk. simpl in Hk. lia.
Qed.

(** C7: on every nonempty text the scanner's table automaton returns, and
    what it returns is the longest match of the rules of poise.l, the first
    rule among those that match that long. *)
Theorem yy_match_longest (inp : list ascii) :
  inp <> [] ->
  exists act n, yy_match yy_start 0 None inp = Some (act, n) /\ longest_match inp act n.
Proof. apply yy_match_start. Qed.

Lemma yy_match_longest_witness :
  exists act n,
    yy_match yy_start 0 None (String.list_ascii_of_string "drop else") = Some (act, n) /\
    longest_match (String.list_ascii_of_string "drop else") act n.
Proof. exact (yy_match_longest (String.list_ascii_of_string "drop else") ltac:(done)). Defined.
