(* ===== verification/LexBufferProps.v ===== *)
(** The buffered scanner reads a file as if it were one text: whatever the
    sizes of the reads, the tokens of [yylex_file] are those of [yylex].  The
    proof follows the text of one token through refills, moves and growth of
    the buffer, and through characters NUL of the file, which look like the
    end of the buffer. *)

From stdpp Require Import base list strings.
From Stdlib Require Import ZArith Lia Ascii.
From S2P Require Import Prelude Cxx LexTables Parser Lexer LexSpec LexProps LexBuffer.

#[local] Arguments yy_resolve : simpl never.
#[local] Arguments znth : simpl never.
#[local] Arguments yy_stop : simpl never.
#[local] Arguments yy_next : simpl never.
#[local] Arguments yy_find_action : simpl never.

(** ** Facts of the tables *)

(** The states a text can lead to. *)
Definition good (s : Z) : bool := ((s =? 1) || (4 <=? s) && (s <=? 94))%Z.

Definition all_states : list Z := Z.of_nat <$> seq 0 98.
Definition all_classes : list Z := Z.of_nat <$> seq 1 44.

(** What the proof uses of one state, decided by evaluation. *)
Definition state_facts (s : Z) : bool :=
  negb (good s) ||
  (bool_decide (yy_resolve 3 s 0 = Some 3%Z) &&
   match znth yy_accept s with Some a => negb (a =? 49)%Z | None => false end &&
   match yy_stop s with
   | Some stop =>
       forallb (fun k => match yy_resolve 3 s k with
                         | Some s' => if stop then (s' =? 95)%Z else good s' || (s' =? 95)%Z
                         | None => false end) all_classes &&
       (negb stop || match znth yy_accept s with Some a => negb (a =? 0)%Z | None => false end)
   | None => false
   end).

Lemma tables_checked :
  forallb state_facts all_states = true /\
  forallb (fun k => bool_decide (yy_resolve 3 3 k = Some 95%Z)) (0%Z :: all_classes) = true /\
  forallb (fun n => let c := ascii_of_nat n in
     match znth yy_ec (char_code c) with
     | Some k => if (char_code c =? 0)%Z then (k =? 0)%Z else (1 <=? k)%Z && (k <=? 44)%Z
     | None => false end) (seq 0 256) = true.
Proof. vm_compute. repeat split. Qed.

Lemma good_facts s : good s = true -> state_facts s = true.
Proof.
  intros Hg. destruct tables_checked as [H _]. rewrite forallb_forall in H. apply H.
  apply in_map_iff. exists (Z.to_nat s). unfold good in Hg.
  rewrite in_seq. lia.
Qed.

Lemma class_in k : (1 <= k <= 44)%Z -> List.In k all_classes.
Proof. intros H. apply in_map_iff. exists (Z.to_nat k). rewrite in_seq. lia. Qed.

Lemma good_EOB s : good s = true -> yy_goto s 0 = Ok 3%Z.
Proof.
  intros Hg. pose proof (good_facts s Hg) as H. unfold state_facts in H. rewrite Hg in H. cbn [negb orb] in H.
  apply andb_prop in H as [[H _]%andb_prop _]. apply bool_decide_eq_true in H. unfold yy_goto. by rewrite H.
Qed.

Lemma EOB_jams k : (0 <= k <= 44)%Z -> yy_goto 3 k = Ok 95%Z.
Proof.
  intros Hk. destruct tables_checked as (_ & H & _). rewrite forallb_forall in H. unfold yy_goto.
  specialize (H k). rewrite bool_decide_eq_true in H. rewrite H; [done|].
  destruct (Z.eq_dec k 0) as [->|]; [by left|right; apply class_in; lia].
Qed.

(** The class of a character for the loop over the buffer and for the text. *)
Lemma ec_facts c : exists k, ec c = Ok k /\ (0 <= k <= 44)%Z /\
  (char_code c <> 0%Z -> (1 <= k)%Z /\ yy_class c = Some k) /\ (char_code c = 0%Z -> k = 0%Z).
Proof.
  destruct tables_checked as (_ & _ & H). rewrite forallb_forall in H.
  specialize (H (nat_of_ascii c)). rewrite ascii_nat_embedding, in_seq in H.
  specialize (H ltac:(pose proof (nat_ascii_bounded c); lia)). unfold ec, yy_class.
  cbv zeta in H. revert H. destruct (znth yy_ec (char_code c)) as [k|]; [|done]. intros H. exists k. split; [done|].
  destruct (Z.eqb_spec (char_code c) 0) as [E|E].
  - apply Z.eqb_eq in H as ->. split; [lia|]. by split.
  - split; [lia|]. split; [|done]. intros _. split; [lia|done].
Qed.

Lemma class_range c : exists k, yy_class c = Some k /\ (1 <= k <= 44)%Z.
Proof.
  destruct (ec_facts c) as (k & _ & Hk & H & _). unfold yy_class in *.
  destruct (Z.eqb_spec (char_code c) 0) as [E|E]; [by exists 1%Z|].
  destruct (H E) as [H1 H2]. exists k. split; [done|lia].
Qed.

(** A step of the automaton on a character of the text. *)
Lemma good_next s c : good s = true ->
  exists s' a stop, yy_next s c = Some s' /\ znth yy_accept s = Some a /\ a <> 49%Z /\
    yy_stop s = Some stop /\ (s' = 95%Z \/ good s' = true /\ stop = false) /\
    (stop = true -> a <> 0%Z).
Proof.
  intros Hg. pose proof (good_facts s Hg) as H. unfold state_facts in H. rewrite Hg in H. cbn [negb orb] in H.
  apply andb_prop in H as [[_ H1]%andb_prop H2].
  revert H1 H2. destruct (znth yy_accept s) as [a|]; [|done].
  destruct (yy_stop s) as [stop|]; [|done]. intros H1 H2.
  apply andb_prop in H2 as [H2 H3]. rewrite forallb_forall in H2.
  destruct (class_range c) as (k & Hk & Hr). specialize (H2 k (class_in k Hr)).
  unfold yy_next. rewrite Hk. cbn. revert H2. destruct (yy_resolve 3 s k) as [s'|]; [|done]. intros H2.
  exists s', a, stop. split; [done|]. split; [done|].
  split; [by apply negb_true_iff, Z.eqb_neq in H1|]. split; [done|]. split.
  - destruct stop; [left; lia|]. apply orb_prop in H2 as [H2|H2]; [by right|left; lia].
  - intros ->. cbn in H3. by apply negb_true_iff, Z.eqb_neq in H3.
Qed.

Lemma jam_facts : znth yy_accept 95 = Some 0%Z /\ yy_stop 95 = Some true /\
  znth yy_accept 3 = Some 49%Z /\ yy_stop 3 = Some false.
Proof. done. Qed.

(** ** Scanning without the early stop *)

(** [yy_match], going on until the automaton jams. *)
Fixpoint match2 (s : Z) (n : nat) (last : option (Z * nat)) (inp : list ascii) : option (Z * nat) :=
  match inp with
  | [] => yy_find_action s n last
  | c :: r =>
      acc ← znth yy_accept s;
      let last := if (acc =? 0)%Z then last else Some (s, n) in
      s' ← yy_next s c;
      if (s' =? 95)%Z then yy_find_action s' (S n) last else match2 s' (S n) last r
  end.

Lemma find_jam n s a k : znth yy_accept s = Some a -> yy_find_action 95 n (Some (s, k)) = Some (a, k).
Proof. intros H. unfold yy_find_action. destruct jam_facts as (-> & _). cbn. by rewrite H. Qed.

(** From a state that stops, going on changes nothing. *)
Lemma match2_stop s n last inp : good s = true -> yy_stop s = Some true ->
  match2 s n last inp = yy_find_action s n last.
Proof.
  intros Hg Hs. destruct inp as [|c r]; [done|].
  destruct (good_next s c Hg) as (s' & a & stop & Hn & Ha & _ & Hst & Hd & Hz).
  rewrite Hs in Hst. injection Hst as <-. destruct Hd as [->|[_ ?]]; [|done].
  cbn [match2]. rewrite Ha. cbn. rewrite Hn. cbn. specialize (Hz eq_refl).
  destruct (Z.eqb_spec a 0); [done|]. rewrite (find_jam (S n) s a n Ha).
  unfold yy_find_action. rewrite Ha. cbn. by destruct (Z.eqb_spec a 0).
Qed.

Lemma match2_eq inp : forall s n last, good s = true ->
  match2 s n last inp = yy_match s n last inp.
Proof.
  induction inp as [|c r IH]; intros s n last Hg; [done|].
  destruct (good_next s c Hg) as (s' & a & stop & Hn & Ha & _ & _ & Hd & _).
  cbn [match2 yy_match]. rewrite Ha. cbn. rewrite Hn. cbn.
  destruct Hd as [->|[Hg' _]]; [by destruct jam_facts as (_ & -> & _)|].
  destruct (Z.eqb_spec s' 95) as [->|_]; [done|].
  destruct (yy_stop s') as [b|] eqn:Es; cbn.
  - destruct b; [by apply match2_stop|by apply IH].
  - pose proof (good_facts s' Hg') as H. unfold state_facts in H. rewrite Hg', Es in H.
    cbn [negb orb] in H. by rewrite andb_false_r in H.
Qed.

(** The state and the last accepting state after a part of the text. *)
Fixpoint walk (s : Z) (n : nat) (last : option (Z * nat)) (w : list ascii)
  : option (Z * option (Z * nat)) :=
  match w with
  | [] => Some (s, last)
  | c :: r =>
      acc ← znth yy_accept s;
      let last := if (acc =? 0)%Z then last else Some (s, n) in
      s' ← yy_next s c;
      if (s' =? 95)%Z then None else walk s' (S n) last r
  end.

Lemma walk_snoc w c : forall s n last s1 last1,
  walk s n last w = Some (s1, last1) -> walk s n last (w ++ [c]) = walk s1 (n + length w) last1 [c].
Proof.
  induction w as [|d w IH]; intros s n last s1 last1 H.
  - cbn in H. injection H as -> ->. cbn [app length]. by rewrite Nat.add_0_r.
  - cbn [walk app] in *. destruct (znth yy_accept s) as [a|]; [|done]. cbn [mbind option_bind] in *.
    destruct (yy_next s d) as [s'|]; [|done]. cbn [mbind option_bind] in *. destruct (s' =? 95)%Z; [done|].
    rewrite (IH _ _ _ _ _ H).
    by replace (n + length (d :: w))%nat with (S n + length w)%nat by (cbn [length]; lia).
Qed.

Lemma walk_good w : forall s n last s1 last1,
  good s = true -> walk s n last w = Some (s1, last1) ->
  (forall ls ln, last = Some (ls, ln) -> (ln <= n)%nat) ->
  good s1 = true /\ (forall ls ln, last1 = Some (ls, ln) -> (ln <= n + length w)%nat).
Proof.
  induction w as [|c w IH]; intros s n last s1 last1 Hg H Hl.
  - cbn in H. injection H as -> ->. split; [done|]. intros ls ln E. specialize (Hl ls ln E). lia.
  - cbn [walk] in H. destruct (good_next s c Hg) as (s' & a & stop & Hn & Ha & _ & _ & Hd & _).
    rewrite Ha in H. cbn in H. rewrite Hn in H. cbn in H.
    destruct (Z.eqb_spec s' 95); [done|]. destruct Hd as [?|[Hg' _]]; [done|].
    destruct (IH s' (S n) _ s1 last1 Hg' H) as [H1 H2].
    + intros ls ln E. destruct (a =? 0)%Z; [specialize (Hl ls ln E); lia|]. injection E as <- <-. lia.
    + split; [done|]. intros ls ln E. specialize (H2 ls ln E). cbn [length]. lia.
Qed.

(** ** The text in the buffer *)

(** The part of the state that holds the text. *)
Definition core (l : lexer) :=
  (yy_ch_buf l, yy_buf_size l, b_n_chars l, yy_buffer_status l, yy_n_chars l, yyin l).

(** In state [l] the buffer holds [w] from [bp] on, then the two characters
    that mark its end.  [N] bounds the text of the whole file. *)
Record view (N : nat) (l : lexer) (bp : nat) (w : list ascii) : Prop := {
  v_n : yy_n_chars l = (bp + length w)%nat;
  v_len : Z.of_nat (length (yy_ch_buf l)) = (yy_buf_size l + 2)%Z;
  v_fit : (Z.of_nat (yy_n_chars l) <= yy_buf_size l)%Z;
  v_min : (16384 <= yy_buf_size l)%Z;
  v_max : (yy_buf_size l <= Z.max 16384 (2 * Z.of_nat N + 2))%Z;
  v_all : (length w + length (yyin l) <= N)%nat;
  v_chars : forall i c, w !! i = Some c -> yy_ch_buf l !! (bp + i)%nat = Some (Some c);
  v_eob0 : yy_ch_buf l !! (bp + length w)%nat = Some (Some zero);
  v_eob1 : yy_ch_buf l !! S (bp + length w) = Some (Some zero);
  v_new : yy_buffer_status l = YY_BUFFER_NEW -> b_n_chars l = yy_n_chars l;
  v_pending : yy_buffer_status l = YY_BUFFER_EOF_PENDING -> yyin l = []
}.

Lemma view_core N l l' bp w : core l = core l' -> view N l bp w -> view N l' bp w.
Proof.
  unfold core. intros [= E1 E2 E3 E4 E5 E6] []. constructor; rewrite <- ?E1, <- ?E2, <- ?E3, <- ?E4, <- ?E5, <- ?E6; done.
Qed.

(** The last accepting state of the text is the scanner's, if there is one. *)
Definition last_rel (bp : nat) (last : option (Z * nat)) (l : lexer) : Prop :=
  forall ls ln, last = Some (ls, ln) ->
    yy_last_accepting_state l = ls /\ yy_last_accepting_cpos l = (bp + ln)%nat.

Lemma get_ch_view N l bp w i c : view N l bp w -> w !! i = Some c -> get_ch (bp + i) l = Ok c.
Proof. intros V H. unfold get_ch. by rewrite (v_chars _ _ _ _ V i c H). Qed.

Lemma get_ch_core l l' i : core l = core l' -> get_ch i l = get_ch i l'.
Proof. unfold core, get_ch. intros [= E _ _ _ _ _]. by rewrite E. Qed.

(** [*p = c] in the array. *)
Lemma put_ch_ok i c l : (i < length (yy_ch_buf l))%nat ->
  put_ch i c l = Ok (set_buf (<[i := Some c]> (yy_ch_buf l)) l).
Proof. intros H. unfold put_ch. by destruct (Nat.ltb_spec i (length (yy_ch_buf l))); [|lia]. Qed.

Lemma note_accept_ok s a cp l : znth yy_accept s = Some a ->
  note_accept s cp l = Ok (if (a =? 0)%Z then l else set_last s cp l).
Proof. intros H. unfold note_accept. by rewrite H. Qed.

Lemma note_accept_rel s a bp k last l :
  znth yy_accept s = Some a -> last_rel bp last l ->
  exists l', note_accept s (bp + k) l = Ok l' /\ core l' = core l /\ yytext_ptr l' = yytext_ptr l /\
    yy_c_buf_p l' = yy_c_buf_p l /\ last_rel bp (if (a =? 0)%Z then last else Some (s, k)) l'.
Proof.
  intros Ha Hl. rewrite (note_accept_ok s a) by done. destruct (a =? 0)%Z.
  - by exists l.
  - eexists. split; [reflexivity|]. do 3 (split; [done|]). intros ls ln [= <- <-]. done.
Qed.

Lemma yy_goto_next s c s' :
  char_code c <> 0%Z -> yy_next s c = Some s' -> exists k, ec c = Ok k /\ yy_goto s k = Ok s'.
Proof.
  intros Hc Hn. destruct (ec_facts c) as (k & E & _ & H & _). destruct (H Hc) as [_ Hk].
  exists k. split; [done|]. unfold yy_goto, yy_next in *. rewrite Hk in Hn. cbn in Hn. by rewrite Hn.
Qed.

Lemma yy_goto_nul s c s' : char_code c = 0%Z -> yy_next s c = Some s' -> yy_goto s 1 = Ok s'.
Proof.
  intros Hc Hn. unfold yy_goto, yy_next, yy_class in *. rewrite Hc in Hn. cbn in Hn. by rewrite Hn.
Qed.

(** [yy_get_previous_state] finds the state of the text again. *)
Lemma previous_ok N w : forall u l bp s n last s1 last1,
  view N l bp w -> good s = true -> last_rel bp last l ->
  (exists v, w = take n w ++ u ++ v /\ n <= length w)%nat ->
  walk s n last u = Some (s1, last1) ->
  exists l', previous_loop (length u) (bp + n) s l = Ok (s1, l') /\ core l' = core l /\
    yytext_ptr l' = yytext_ptr l /\ yy_c_buf_p l' = yy_c_buf_p l /\ last_rel bp last1 l'.
Proof.
  induction u as [|c u IH]; intros l bp s n last s1 last1 V Hg Hl (v & Hw & Hn) Hwk.
  - cbn in Hwk. injection Hwk as <- <-. by exists l.
  - cbn [walk previous_loop length] in *.
    assert (Hc : w !! n = Some c).
    { rewrite Hw, lookup_app_r by (rewrite length_take; lia). rewrite length_take, Nat.min_l by lia.
      by rewrite Nat.sub_diag. }
    rewrite (get_ch_view N l bp w n c V Hc), bind_ret_l.
    destruct (good_next s c Hg) as (s' & a & stop & Hx & Ha & _ & _ & Hd & _).
    rewrite Ha in Hwk. cbn [mbind option_bind] in Hwk. rewrite Hx in Hwk. cbn [mbind option_bind] in Hwk.
    destruct (Z.eqb_spec s' 95) as [|Hj]; [done|]. destruct Hd as [?|[Hg' _]]; [done|].
    assert (E : exists k, (if (char_code c =? 0)%Z then mret 1%Z else ec c) = Ok k /\ yy_goto s k = Ok s').
    { destruct (Z.eqb_spec (char_code c) 0) as [E|E].
      - exists 1%Z. split; [done|by eapply yy_goto_nul].
      - by apply yy_goto_next. }
    destruct E as (k & -> & Ek). rewrite bind_ret_l.
    destruct (note_accept_rel s a bp n last l Ha Hl) as (l1 & -> & C1 & T1 & P1 & R1).
    rewrite bind_ret_l, Ek, bind_ret_l. rewrite <- Nat.add_succ_r.
    destruct (IH l1 bp s' (S n) _ s1 last1 (view_core N l l1 bp w (eq_sym C1) V) Hg' R1) as (l' & E & C & T & P & R).
    + exists v. rewrite (take_S_r _ _ c) by done. split.
      * rewrite Hw at 1. by rewrite <- !(assoc_L (++)).
      * apply lookup_lt_Some in Hc. lia.
    + exact Hwk.
    + exists l'. split; [done|]. split; [congruence|]. split; [congruence|]. split; [congruence|done].
Qed.

(** ** One token *)

Definition restored (l : lexer) : lexer :=
  set_buf (<[yy_c_buf_p l := Some (yy_hold_char l)]> (yy_ch_buf l)) l.

(** After a token of [m] characters of the text [inp]. *)
Definition scanned (N : nat) (l : lexer) (inp : list ascii) (m : nat) : Prop :=
  exists w, yy_c_buf_p l = (yytext_ptr l + m)%nat /\ (m <= length w)%nat /\
    (yy_c_buf_p l < length (yy_ch_buf l))%nat /\
    view N (restored l) (yytext_ptr l) w /\ w ++ yyin l = inp.

(** The character at an offset of the text, or the mark of its end. *)
Lemma view_get N l bp w m : view N l bp w -> (m <= length w)%nat ->
  exists c, yy_ch_buf l !! (bp + m)%nat = Some (Some c).
Proof.
  intros V Hm. destruct (Nat.eq_dec m (length w)) as [->|].
  - exists zero. exact (v_eob0 _ _ _ _ V).
  - destruct (lookup_lt_is_Some_2 w m) as [c Hc]; [lia|]. exists c. exact (v_chars _ _ _ _ V m c Hc).
Qed.

(** [YY_DO_BEFORE_ACTION], and undoing it. *)
Definition before (bp p : nat) (c : ascii) (l : lexer) : lexer :=
  set_p p (set_buf (<[p := Some zero]> (yy_ch_buf l)) (set_hold c (set_text bp l))).

Lemma before_action_ok bp p c l : yy_ch_buf l !! p = Some (Some c) ->
  yy_before_action bp p l = Ok (before bp p c l).
Proof.
  intros H. unfold yy_before_action, get_ch. cbn [yy_ch_buf set_text]. rewrite H, bind_ret_l.
  rewrite put_ch_ok by (cbn; by eapply lookup_lt_Some). done.
Qed.

Lemma restored_before bp p c l : yy_ch_buf l !! p = Some (Some c) ->
  restored (before bp p c l) = set_p p (set_hold c (set_text bp l)).
Proof.
  intros H. unfold restored, before. destruct l. cbn in *. unfold set_buf. cbn.
  by rewrite list_insert_insert_eq, list_insert_id.
Qed.

Lemma before_scanned N l bp w m c :
  view N l bp w -> (m <= length w)%nat -> yy_ch_buf l !! (bp + m)%nat = Some (Some c) ->
  scanned N (before bp (bp + m) c l) (w ++ yyin l) m.
Proof.
  intros V Hm Hc. exists w. rewrite (restored_before bp (bp + m) c l Hc). cbn.
  split; [done|]. split; [done|]. split; [rewrite length_insert; by eapply lookup_lt_Some|].
  split; [by eapply view_core, V|done].
Qed.

(** Moving the text to the front of the array. *)
Lemma move_chars_ok u : forall l dest source,
  (dest <= source)%nat -> (forall i c, u !! i = Some c -> yy_ch_buf l !! (source + i)%nat = Some (Some c)) ->
  exists buf, move_chars (length u) dest source l = Ok (set_buf buf l) /\
    length buf = length (yy_ch_buf l) /\
    (forall i c, u !! i = Some c -> buf !! (dest + i)%nat = Some (Some c)) /\
    (forall i, (i < dest)%nat -> buf !! i = yy_ch_buf l !! i).
Proof.
  induction u as [|c u IH]; intros l dest source Hd Hu.
  - exists (yy_ch_buf l). split; [by destruct l|]. done.
  - cbn [length move_chars]. pose proof (Hu 0%nat c eq_refl) as H0. rewrite Nat.add_0_r in H0.
    assert (L0 : (source < length (yy_ch_buf l))%nat) by by eapply lookup_lt_Some.
    unfold get_ch. rewrite H0, bind_ret_l, put_ch_ok, bind_ret_l by lia.
    set (l1 := set_buf _ l).
    destruct (IH l1 (S dest) (S source)) as (buf & E & L & H1 & H2); [lia| |].
    + intros i d Hi. cbn. rewrite list_lookup_insert_ne by lia.
      specialize (Hu (S i) d Hi). by rewrite Nat.add_succ_r in Hu.
    + exists buf. split; [rewrite E; by destruct l|].
      cbn in L. rewrite length_insert in L. split; [done|]. split.
      * intros [|i] d Hi; [|rewrite Nat.add_succ_r; by apply H1].
        injection Hi as <-. rewrite Nat.add_0_r, H2 by lia. cbn. apply list_lookup_insert_eq. lia.
      * intros i Hi. rewrite H2 by lia. cbn. by rewrite list_lookup_insert_ne by lia.
Qed.

Section Run.
Context (fread : nat -> nat) (fread_pos : forall i, (1 <= fread i)%nat).
Context (N : nat) (N_small : (Z.of_nat N < 2 ^ 29)%Z).

(** From [yy_find_action] on, when the rule is not the end of the buffer. *)
Lemma find_ok fuel l bp w s k last act m :
  view N l bp w -> last_rel bp last l -> (k <= length w)%nat ->
  (forall ls ln, last = Some (ls, ln) -> (ln <= k)%nat) ->
  yy_find_action s k last = Some (act, m) -> act <> 49%Z ->
  exists l', yy_run fread (S fuel) bp (Find s (bp + k)) l = Ok (Some act, l') /\
    scanned N l' (w ++ yyin l) m.
Proof using Type.
  intros V Hl Hk Hb Hf Ha. unfold yy_find_action in Hf. cbn [yy_run].
  destruct (znth yy_accept s) as [a|] eqn:Es; [|done]. cbn [mbind option_bind] in Hf. cbn [deref].
  rewrite bind_ret_l.
  assert (E : (m <= length w)%nat /\
    (if (a =? 0)%Z then a0 ← deref (znth yy_accept (yy_last_accepting_state l)); mret (a0, yy_last_accepting_cpos l)
     else mret (a, (bp + k)%nat)) = Ok (act, (bp + m)%nat)).
  { destruct (a =? 0)%Z; [|injection Hf as <- <-; by split].
    destruct last as [[ls ln]|]; [|done]. cbn [mbind option_bind] in Hf.
    destruct (znth yy_accept ls) as [a'|] eqn:El; [|done]. injection Hf as <- <-.
    specialize (Hb ls ln eq_refl). destruct (Hl ls ln eq_refl) as [-> ->]. split; [lia|]. by rewrite El. }
  destruct E as [Hm ->]. rewrite bind_ret_l. destruct (view_get N l bp w m V Hm) as [c Hc].
  rewrite (before_action_ok bp (bp + m) c l Hc), bind_ret_l.
  destruct (Z.eqb_spec act YY_END_OF_BUFFER); [done|].
  eexists. split; [reflexivity|]. by apply before_scanned.
Qed.

(** A character NUL, of the text or of the end of the buffer, leads to the
    case for the end of the buffer. *)
Lemma to_eob fuel l bp w s k c :
  view N l bp w -> good s = true -> (k <= length w)%nat ->
  yy_ch_buf l !! (bp + k)%nat = Some (Some zero) ->
  yy_ch_buf l !! S (bp + k) = Some (Some c) ->
  yy_run fread (3 + fuel) bp (Match s (bp + k)) l =
  '(pc, l) ← end_of_buffer fread (S (bp + k)) (before bp (S (bp + k)) c (set_last 3 (S (bp + k)) l));
  yy_run fread fuel (yytext_ptr l) pc l.
Proof using Type.
  intros V Hg Hk H0 H1. change (3 + fuel)%nat with (S (S (S fuel))).
  destruct (good_next s zero Hg) as (_ & a & stop & _ & Ha & _).
  assert (G0 : get_ch (bp + k) l = Ok zero) by (unfold get_ch; by rewrite H0).
  cbn [yy_run]. rewrite G0, bind_ret_l.
  destruct (ec_facts zero) as (z & -> & _ & _ & Hz). rewrite bind_ret_l, (Hz eq_refl).
  rewrite (note_accept_ok s a) by done. rewrite bind_ret_l, (good_EOB s Hg), bind_ret_l.
  destruct jam_facts as (J1 & J2 & J3 & J4). rewrite J4. cbn [deref]. rewrite bind_ret_l. cbv iota.
  set (l1 := if (a =? 0)%Z then l else _). assert (C1 : yy_ch_buf l1 = yy_ch_buf l) by (subst l1; by destruct (a =? 0)%Z).
  assert (G1 : get_ch (S (bp + k)) l1 = Ok c) by (unfold get_ch; by rewrite C1, H1).
  rewrite G1, bind_ret_l.
  destruct (ec_facts c) as (k' & -> & Hk' & _). rewrite bind_ret_l.
  rewrite (note_accept_ok 3 49) by done. rewrite bind_ret_l, (EOB_jams k' Hk'), bind_ret_l, J2.
  cbn [deref]. rewrite bind_ret_l. cbv iota. rewrite J1. cbn [deref]. rewrite bind_ret_l.
  change (0 =? 0)%Z with true. change (49 =? 0)%Z with false. cbv iota.
  cbn [yy_last_accepting_state yy_last_accepting_cpos set_last]. rewrite J3. cbn [deref].
  rewrite bind_ret_l, bind_ret_l. change (49 =? YY_END_OF_BUFFER)%Z with true. cbv iota.
  rewrite (before_action_ok bp (S (bp + k)) c) by (cbn [yy_ch_buf set_last]; by rewrite C1).
  rewrite bind_ret_l. subst l1. by destruct (a =? 0)%Z.
Qed.

(** There the text is as it was. *)
Lemma end_of_buffer_undo l bp w p c :
  view N l bp w -> yy_ch_buf l !! p = Some (Some c) ->
  exists l', view N l' bp w /\ yytext_ptr l' = bp /\ yy_c_buf_p l' = p /\ yyin l' = yyin l /\
    yy_buffer_status l' <> YY_BUFFER_NEW /\
    end_of_buffer fread p (before bp p c l) = eob_case fread (p - bp - 1) l'.
Proof using Type.
  intros V Hc. unfold end_of_buffer.
  rewrite put_ch_ok by (cbn; rewrite length_insert; by eapply lookup_lt_Some). rewrite bind_ret_l.
  change (set_buf _ (before bp p c l)) with (restored (before bp p c l)).
  rewrite (restored_before bp p c l Hc). cbn [yytext_ptr before set_p set_buf set_hold set_text].
  set (l1 := set_p p (set_hold c (set_text bp l))).
  assert (V1 : view N l1 bp w) by (eapply view_core, V; done).
  destruct (decide (yy_buffer_status l1 = YY_BUFFER_NEW)) as [E|E].
  - eexists. split; [|split; [|split; [|split; [|split; [|reflexivity]]]]]; try done.
    pose proof (v_new _ _ _ _ V1 E) as En. destruct V1. constructor; cbn in *; try done; congruence.
  - exists l1. done.
Qed.


(** ** Refilling *)

(** The array holds [W] at its front and has room for the marks. *)
Record filled (l : lexer) (W : list ascii) : Prop := {
  f_len : Z.of_nat (length (yy_ch_buf l)) = (yy_buf_size l + 2)%Z;
  f_fit : (Z.of_nat (length W) <= yy_buf_size l)%Z;
  f_min : (16384 <= yy_buf_size l)%Z;
  f_max : (yy_buf_size l <= Z.max 16384 (2 * Z.of_nat N + 2))%Z;
  f_chars : forall i c, W !! i = Some c -> yy_ch_buf l !! i = Some (Some c)
}.

Lemma mark_end_ok l n W :
  filled l W -> (yy_n_chars l + n)%nat = length W -> (length W + length (yyin l) <= N)%nat ->
  yy_buffer_status l <> YY_BUFFER_NEW -> (yy_buffer_status l = YY_BUFFER_EOF_PENDING -> yyin l = []) ->
  exists l', yy_mark_end n l = Ok l' /\ view N l' 0 W /\ yytext_ptr l' = 0%nat /\ yyin l' = yyin l.
Proof using N_small.
  intros [F1 F2 F3 F4 F5] Hn HN Hs Hp. unfold yy_mark_end, yy_extend. rewrite Hn.
  destruct (Z.gtb_spec (Z.of_nat (length W)) (yy_buf_size l)); [lia|].
  cbn [yy_n_chars set_n_chars]. rewrite Hn.
  rewrite put_ch_ok, bind_ret_l by (cbn; lia). cbn [yy_n_chars set_n_chars set_buf].
  rewrite put_ch_ok, bind_ret_l by (cbn; rewrite length_insert; lia).
  eexists. split; [reflexivity|]. split; [|done]. constructor; cbn; try done; try lia.
  - rewrite !length_insert. done.
  - intros i c Hi. pose proof (lookup_lt_Some _ _ _ Hi).
    rewrite !list_lookup_insert_ne by lia. by apply F5.
  - rewrite list_lookup_insert_ne by lia. apply list_lookup_insert_eq. lia.
  - rewrite Nat.add_1_r. apply list_lookup_insert_eq. rewrite length_insert. lia.
Qed.

Lemma yy_grow_S f n l : yy_grow (S f) n l =
  if (yy_buf_size l - n - 1 <=? 0)%Z then
    if (2 ^ 31 <=? yy_buf_size l * 2 + 2)%Z then Err Undefined else
    yy_grow f n (set_size (yy_buf_size l * 2)
      (set_buf (yy_ch_buf l ++ replicate (Z.to_nat (yy_buf_size l * 2 + 2) - length (yy_ch_buf l)) None) l))
  else mret l.
Proof using Type. done. Qed.

Lemma grow_ok l W : filled l W -> (length W <= N)%nat ->
  exists l', yy_grow 32 (Z.of_nat (length W)) l = Ok l' /\ filled l' W /\
    (0 < yy_buf_size l' - Z.of_nat (length W) - 1)%Z /\ yyin l' = yyin l /\
    yy_buffer_status l' = yy_buffer_status l /\ reads l' = reads l.
Proof using N_small.
  intros [F1 F2 F3 F4 F5] HN. rewrite (yy_grow_S 31).
  destruct (Z.leb_spec (yy_buf_size l - Z.of_nat (length W) - 1) 0) as [G|G].
  - destruct (Z.leb_spec (2 ^ 31) (yy_buf_size l * 2 + 2)); [lia|].
    rewrite (yy_grow_S 30). cbn [yy_buf_size set_size].
    destruct (Z.leb_spec (yy_buf_size l * 2 - Z.of_nat (length W) - 1) 0); [lia|].
    eexists. split; [reflexivity|]. split; [|split; [cbn; lia|done]]. constructor; cbn; try lia.
    + rewrite length_app, length_replicate. lia.
    + intros i c Hi. specialize (F5 i c Hi). rewrite lookup_app_l; [done|by eapply lookup_lt_Some].
  - exists l. split; [done|]. split; [by constructor|]. done.
Qed.

(** A read: what the file gives is appended to the text. *)
Lemma read_more_ok l W :
  filled l W -> (length W + length (yyin l) <= N)%nat -> yy_buffer_status l <> YY_BUFFER_NEW ->
  (yy_buffer_status l = YY_BUFFER_EOF_PENDING -> yyin l = []) ->
  exists cs l', yy_read_more fread (length W) l = Ok l' /\ filled l' (W ++ cs) /\
    yyin l = cs ++ yyin l' /\ (yyin l <> [] -> cs <> []) /\ yy_n_chars l' = length cs /\
    yy_buffer_status l' = yy_buffer_status l /\ b_n_chars l' = length cs.
Proof using fread_pos N_small.
  intros F HN Hs Hp. unfold yy_read_more. destruct (decide _) as [E|E].
  - exists [], (set_b_n_chars 0 (set_n_chars 0 l)). rewrite app_nil_r.
    split; [done|]. split; [destruct F; by constructor|]. split; [done|]. split; [by rewrite (Hp E)|done].
  - destruct (grow_ok l W F ltac:(lia)) as (l1 & -> & [F1 F2 F3 F4 F5] & G & Y & S1 & R1). rewrite bind_ret_l.
    set (max := Z.min _ YY_READ_BUF_SIZE). unfold yy_input. rewrite Y, R1.
    set (cs := take (Z.to_nat max `min` fread (reads l)) (yyin l)).
    assert (Lc : (length cs <= Z.to_nat max)%nat) by (subst cs; rewrite length_take; lia).
    assert (Hm : (1 <= max <= yy_buf_size l1 - Z.of_nat (length W) - 1)%Z) by (subst max; unfold YY_READ_BUF_SIZE; lia).
    destruct (Nat.leb_spec (length W + length cs) (length (yy_ch_buf l1))); [|lia]. rewrite bind_ret_l.
    exists cs. eexists. split; [reflexivity|]. cbn.
    assert (Ecs : cs ++ drop (length cs) (yyin l) = yyin l).
    { subst cs. set (k := (Z.to_nat max `min` fread (reads l))%nat). rewrite length_take.
      destruct (Nat.le_ge_cases (length (yyin l)) k).
      - rewrite take_ge by lia. rewrite Nat.min_r by lia. by rewrite drop_all, app_nil_r.
      - rewrite Nat.min_l by lia. apply take_drop. }
    split; [|split; [done|split; [|done]]].
    + constructor; cbn; try done.
      * rewrite !length_app, length_take, length_fmap, length_drop. lia.
      * rewrite length_app. lia.
      * intros i c Hi. destruct (Nat.ltb_spec i (length W)) as [Hl|Hl].
        -- rewrite lookup_app_l in Hi by done. rewrite lookup_app_l by (rewrite length_take; lia).
           rewrite lookup_take_lt by done. by apply F5.
        -- rewrite lookup_app_r in Hi by done. rewrite lookup_app_r by (rewrite length_take; lia).
           rewrite length_take, Nat.min_l by lia.
           rewrite lookup_app_l by (rewrite length_fmap; by eapply lookup_lt_Some).
           by rewrite list_lookup_fmap, Hi.
    + intros Hy. subst cs. pose proof (fread_pos (reads l)).
      destruct (yyin l) as [|c r]; [done|]. destruct (Z.to_nat max `min` fread (reads l))%nat eqn:Em; [lia|done].
Qed.

Lemma yyrestart_ok l : (2 <= length (yy_ch_buf l))%nat ->
  exists buf, yyrestart l = Ok (set_hold zero (set_text 0 (set_p 0 (set_n_chars 0
    (set_status YY_BUFFER_NEW (set_buf buf (set_b_n_chars 0 l))))))) /\ length buf = length (yy_ch_buf l).
Proof using Type.
  clear N_small. intros H. unfold yyrestart, yy_init_buffer, yy_flush_buffer, yy_load_buffer_state.
  rewrite put_ch_ok, bind_ret_l by (cbn; lia). rewrite put_ch_ok, bind_ret_l by (cbn; rewrite length_insert; lia).
  eexists (<[1 := Some zero]> (<[0 := Some zero]> (yy_ch_buf l)))%nat. cbn. unfold get_ch. cbn.
  rewrite list_lookup_insert_ne, list_lookup_insert_eq by lia. cbn.
  rewrite list_lookup_insert_ne, list_lookup_insert_eq by lia.
  split; [done|]. by rewrite !length_insert.
Qed.

(** [yy_get_next_buffer] with all of the text [w] matched and more wanted. *)
Lemma next_buffer_ok l bp w :
  view N l bp w -> yytext_ptr l = bp -> yy_c_buf_p l = S (bp + length w) ->
  yy_buffer_status l <> YY_BUFFER_NEW ->
  exists act l', yy_get_next_buffer fread l = Ok (act, l') /\
    match act with
    | EOB_ACT_CONTINUE_SCAN =>
        yytext_ptr l' = 0%nat /\
        exists cs, cs <> [] /\ yyin l = cs ++ yyin l' /\ view N l' 0 (w ++ cs)
    | EOB_ACT_LAST_MATCH => yytext_ptr l' = 0%nat /\ w <> [] /\ yyin l = [] /\ yyin l' = [] /\ view N l' 0 w
    | EOB_ACT_END_OF_FILE => w = [] /\ yyin l = []
    end.
Proof using fread_pos N_small.
  intros V Ht Hp Hs. unfold yy_get_next_buffer. rewrite (v_n _ _ _ _ V), Ht, Hp.
  destruct (Nat.ltb_spec (bp + length w + 1) (S (bp + length w))); [lia|].
  replace (S (bp + length w) - bp - 1)%nat with (length w) by lia.
  destruct (move_chars_ok w l 0 bp) as (buf & -> & Lb & Hb & _); [lia|apply (v_chars _ _ _ _ V)|].
  rewrite bind_ret_l. pose proof (v_n _ _ _ _ V) as Vn. pose proof (v_all _ _ _ _ V) as Va.
  assert (F : filled (set_buf buf l) w).
  { destruct V. constructor; cbn; try done; lia. }
  destruct (read_more_ok (set_buf buf l) w F) as (cs & l1 & -> & F1 & Y1 & C1 & N1 & S1 & B1);
    [exact Va|exact Hs|exact (v_pending _ _ _ _ V)|].
  rewrite bind_ret_l, N1. cbn in Y1, C1, S1. destruct cs as [|c cs].
  - cbn [length Nat.eqb]. rewrite app_nil_r in F1.
    assert (Y0 : yyin l = []) by (destruct (yyin l); [done|by destruct (C1 ltac:(done))]).
    cbn in Y1. destruct w as [|a w].
    + cbn [length Nat.eqb]. destruct F1 as [G1 _ G3 _ _].
      destruct (yyrestart_ok l1 ltac:(lia)) as (buf' & -> & L'). rewrite !bind_ret_l.
      unfold yy_mark_end, yy_extend. cbn [yy_n_chars yy_buf_size set_n_chars set_hold set_text set_p set_status set_buf set_b_n_chars].
      destruct (Z.gtb_spec (Z.of_nat (0 + 0)) (yy_buf_size l1)); [lia|].
      rewrite put_ch_ok, bind_ret_l by (cbn; lia). rewrite put_ch_ok, bind_ret_l by (cbn; rewrite length_insert; lia).
      by eexists EOB_ACT_END_OF_FILE, _.
    + destruct (Nat.eqb_spec (length (a :: w)) 0); [done|]. rewrite bind_ret_l.
      destruct (mark_end_ok (set_status YY_BUFFER_EOF_PENDING l1) (length (a :: w)) (a :: w))
        as (l2 & -> & V2 & T2 & Y2); [by destruct F1; constructor| | |done|cbn; congruence|].
      * cbn [yy_n_chars set_status]. rewrite N1. done.
      * cbn [yyin set_status]. rewrite <- Y1. exact Va.
      * rewrite bind_ret_l. eexists EOB_ACT_LAST_MATCH, _. split; [reflexivity|].
        split; [done|]. split; [done|]. split; [done|]. split; [cbn in Y2; congruence|done].
  - cbn [length Nat.eqb]. rewrite bind_ret_l.
    destruct (mark_end_ok l1 (length w) (w ++ c :: cs)) as (l2 & -> & V2 & T2 & Y2).
    + done.
    + rewrite N1, length_app. lia.
    + rewrite length_app. rewrite Y1, length_app in Va. lia.
    + congruence.
    + rewrite S1. intros E. pose proof (v_pending _ _ _ _ V E) as E0. rewrite E0 in Y1. done.
    + rewrite bind_ret_l. eexists EOB_ACT_CONTINUE_SCAN, _. split; [reflexivity|]. split; [done|].
      exists (c :: cs). split; [done|]. split; [congruence|done].
Qed.

(** ** The scan of one token *)

(** Going on with one more character of the text. *)
Lemma walk_more w k c s last s' a :
  w !! k = Some c -> walk yy_start 0 None (take k w) = Some (s, last) ->
  znth yy_accept s = Some a -> yy_next s c = Some s' -> s' <> 95%Z ->
  walk yy_start 0 None (take (S k) w) = Some (s', if (a =? 0)%Z then last else Some (s, k)).
Proof using Type.
  clear N_small. intros Hc Hw Ha Hn Hj. rewrite (take_S_r _ _ c) by done.
  rewrite (walk_snoc _ c _ _ _ _ _ Hw). cbn [walk]. rewrite Ha. cbn [mbind option_bind].
  rewrite Hn. cbn [mbind option_bind]. destruct (Z.eqb_spec s' 95); [done|].
  rewrite length_take, Nat.min_l; [done|]. apply lookup_lt_Some in Hc. lia.
Qed.

(** A jam on the next character is a match of what was read before. *)
Lemma jam_find s a n k last :
  znth yy_accept s = Some a ->
  yy_find_action 95 n (if (a =? 0)%Z then last else Some (s, k)) = yy_find_action s k last.
Proof using Type.
  clear N_small. intros Ha. destruct (Z.eqb_spec a 0) as [->|Hz].
  - unfold yy_find_action. destruct jam_facts as (-> & _). rewrite Ha. done.
  - rewrite (find_jam n s a k Ha). unfold yy_find_action. rewrite Ha. cbn.
    by destruct (Z.eqb_spec a 0).
Qed.

(** What the scan of the text of a token ends with. *)
Definition token_result (o : option Z) (l' : lexer) (inp : list ascii) (act : Z) (m : nat) : Prop :=
  (inp = [] /\ o = None) \/ (inp <> [] /\ o = Some act /\ scanned N l' inp m).

Lemma eob_previous l bp w k s last :
  view N l bp w -> (k <= length w)%nat -> yytext_ptr l = bp -> yy_c_buf_p l = (bp + k)%nat ->
  walk yy_start 0 None (take k w) = Some (s, last) ->
  exists l', yy_get_previous_state l = Ok (s, l') /\ core l' = core l /\ yytext_ptr l' = bp /\
    yy_c_buf_p l' = (bp + k)%nat /\ last_rel bp last l'.
Proof using Type.
  clear N_small. intros V Hk Ht Hp Hw. unfold yy_get_previous_state. rewrite Ht, Hp.
  replace (bp + k - bp)%nat with (length (take k w)) by (rewrite length_take; lia).
  destruct (previous_ok N w (take k w) l bp yy_start 0 None s last V eq_refl) as (l' & E & C & T & P & R).
  - intros ls ln. done.
  - exists (drop k w). split; [by rewrite take_0, take_drop|lia].
  - exact Hw.
  - rewrite Nat.add_0_r in E. exists l'. rewrite E. split; [done|]. split; [done|]. split; [congruence|]. split; [congruence|done].
Qed.

Lemma core_eqs l l' : core l = core l' -> yyin l = yyin l' /\ yy_n_chars l = yy_n_chars l'.
Proof using Type. clear N_small. unfold core. intros [= _ _ _ _ ? ?]. done. Qed.

(** The scan of the text [w] and what the file has left, from the character
    [k] on, with the state and the last accepting state found so far. *)
Record scanning (l : lexer) (bp : nat) (w : list ascii) (k : nat) (s : Z) (last : option (Z * nat)) : Prop := {
  s_view : view N l bp w;
  s_k : (k <= length w)%nat;
  s_walk : walk yy_start 0 None (take k w) = Some (s, last);
  s_last : last_rel bp last l
}.

Definition run_goal (fuel : nat) : Prop := forall l bp w k s last act m,
  scanning l bp w k s last ->
  (w ++ yyin l <> [] -> match2 s k last (drop k w ++ yyin l) = Some (act, m) /\ act <> 49%Z) ->
  (3 * (length w - k) + 6 * length (yyin l) + 5 <= fuel)%nat ->
  exists o l', yy_run fread fuel bp (Match s (bp + k)) l = Ok (o, l') /\
    token_result o l' (w ++ yyin l) act m.

Lemma scanning_good l bp w k s last : scanning l bp w k s last ->
  good s = true /\ (forall ls ln, last = Some (ls, ln) -> (ln <= k)%nat).
Proof using Type.
  clear N_small. intros [V Hk Hw _].
  destruct (walk_good (take k w) yy_start 0 None s last eq_refl Hw ltac:(done)) as [Hg Hb].
  split; [done|]. intros ls ln E. specialize (Hb ls ln E). rewrite length_take in Hb. lia.
Qed.

(** At the end of the buffer. *)
Lemma run_eob fuel l bp w s last act m :
  run_goal fuel -> scanning l bp w (length w) s last ->
  (w ++ yyin l <> [] -> match2 s (length w) last (yyin l) = Some (act, m) /\ act <> 49%Z) ->
  (6 * length (yyin l) + 2 <= fuel)%nat ->
  exists o l', yy_run fread (3 + fuel) bp (Match s (bp + length w)) l = Ok (o, l') /\
    token_result o l' (w ++ yyin l) act m.
Proof using fread_pos N_small.
  intros IH Sc Hm Hf. destruct (scanning_good _ _ _ _ _ _ Sc) as [Hg Hb]. destruct Sc as [V Hk Hw _].
  rewrite take_ge in Hw by lia.
  rewrite (to_eob fuel l bp w s (length w) zero V Hg Hk (v_eob0 _ _ _ _ V) (v_eob1 _ _ _ _ V)).
  destruct (end_of_buffer_undo (set_last 3 (S (bp + length w)) l) bp w (S (bp + length w)) zero)
    as (l1 & V1 & T1 & P1 & Y1 & S1 & ->); [by eapply view_core, V|exact (v_eob1 _ _ _ _ V)|]. cbn in Y1.
  unfold eob_case. rewrite P1, (v_n _ _ _ _ V1).
  destruct (Nat.leb_spec (S (bp + length w)) (bp + length w)); [lia|].
  replace (S (bp + length w) - bp - 1)%nat with (length w) by lia.
  destruct (next_buffer_ok l1 bp w V1 T1 P1 S1) as (a & l2 & -> & Hcase). rewrite bind_ret_l.
  destruct a; cbv zeta iota beta.
  - destruct Hcase as (T2 & cs & Hcs & Y2 & V2). rewrite T2.
    destruct (eob_previous (set_p (0 + length w) l2) 0 (w ++ cs) (length w) s last)
      as (l3 & -> & C3 & T3 & P3 & R3);
      [by eapply view_core, V2|rewrite length_app; lia|done|done|by rewrite take_app_length|].
    rewrite !bind_ret_l, P3, T3. destruct (core_eqs _ _ C3) as [Y3 _]. cbn in Y3.
    assert (E : (w ++ cs) ++ yyin l3 = w ++ yyin l) by (rewrite <- (assoc_L (++)), Y3, <- Y2; congruence).
    rewrite <- E in Hm |- *. apply (IH l3 0%nat (w ++ cs) (length w) s last act m).
    + split; [eapply view_core; [symmetry; exact C3|]; by eapply view_core, V2
             |rewrite length_app; lia|by rewrite take_app_length|exact R3].
    + intros Hx. destruct (Hm Hx) as [Hm1 Hm2]. split; [|done].
      by rewrite drop_app_length, Y3, <- Y2, Y1.
    + rewrite Y3, length_app. rewrite <- Y1, Y2, length_app in Hf.
      destruct cs; [done|]. cbn [length] in *. lia.
  - destruct Hcase as [-> Y0]. rewrite !bind_ret_l. destruct fuel as [|fuel]; [lia|].
    eexists _, _. split; [reflexivity|]. left. split; [|done]. cbn. congruence.
  - destruct Hcase as (T2 & Hw0 & Y0 & Y2 & V2).
    destruct (eob_previous (set_p (yy_n_chars l2) l2) 0 w (length w) s last)
      as (l3 & -> & C3 & T3 & P3 & R3);
      [by eapply view_core, V2|lia|done|cbn; exact (v_n _ _ _ _ V2)|by rewrite take_ge by lia|].
    rewrite !bind_ret_l, P3, T3. destruct (core_eqs _ _ C3) as [Y3 _]. cbn in Y3.
    rewrite <- Y1, Y0, app_nil_r in *. destruct (Hm Hw0) as [Hm1 Hm2]. cbn [match2] in Hm1.
    destruct fuel as [|fuel]; [lia|].
    destruct (find_ok fuel l3 0 w s (length w) last act m) as (l4 & -> & Sc);
      [eapply view_core; [symmetry; exact C3|]; by eapply view_core, V2|exact R3|lia|exact Hb|exact Hm1|exact Hm2|].
    eexists _, _. split; [reflexivity|]. right. split; [done|]. split; [done|].
    by rewrite Y3, Y2, app_nil_r in Sc.
Qed.

(** A character of the text, other than NUL. *)
Lemma run_plain fuel l bp w k s last act m c :
  run_goal (S fuel) -> scanning l bp w k s last -> w !! k = Some c -> char_code c <> 0%Z ->
  match2 s k last (drop k w ++ yyin l) = Some (act, m) -> act <> 49%Z ->
  (3 * (length w - S k) + 6 * length (yyin l) + 5 <= S fuel)%nat ->
  exists o l', yy_run fread (S (S fuel)) bp (Match s (bp + k)) l = Ok (o, l') /\
    token_result o l' (w ++ yyin l) act m.
Proof using Type.
  clear N_small. intros IH Sc Hc H0 Hm Ha Hf. destruct (scanning_good _ _ _ _ _ _ Sc) as [Hg Hb].
  destruct Sc as [V Hk Hw Hl]. pose proof (lookup_lt_Some _ _ _ Hc) as Hlt.
  assert (Hne : w ++ yyin l <> []) by (by destruct w).
  rewrite (drop_S _ _ _ Hc) in Hm. cbn [app match2] in Hm.
  destruct (good_next s c Hg) as (s' & a & stop & Hn & Hacc & _ & _ & Hd & _).
  rewrite Hacc in Hm. cbn [mbind option_bind] in Hm. rewrite Hn in Hm. cbn [mbind option_bind] in Hm.
  remember (S fuel) as f eqn:Ef. cbn [yy_run].
  rewrite (get_ch_view N l bp w k c V Hc), bind_ret_l.
  destruct (yy_goto_next s c s' H0 Hn) as (z & -> & Hz). rewrite bind_ret_l.
  destruct (note_accept_rel s a bp k last l Hacc Hl) as (l1 & -> & C1 & T1 & P1 & R1).
  rewrite bind_ret_l, Hz, bind_ret_l. destruct (core_eqs _ _ C1) as [Y1 _]. rewrite <- Y1 in *.
  pose proof (view_core N l l1 bp w (eq_sym C1) V) as V1. rewrite <- Nat.add_succ_r.
  set (last' := if (a =? 0)%Z then last else Some (s, k)) in *.
  assert (Hb' : forall ls ln, last' = Some (ls, ln) -> (ln <= S k)%nat).
  { intros ls ln. subst last'. destruct (a =? 0)%Z; [intros E; specialize (Hb ls ln E); lia|]. intros [= <- <-]. lia. }
  assert (Finds : yy_find_action s' (S k) last' = Some (act, m) ->
    exists o l', yy_run fread f bp (Find s' (bp + S k)) l1 = Ok (o, l') /\ token_result o l' (w ++ yyin l1) act m).
  { intros E. rewrite Ef. destruct (find_ok fuel l1 bp w s' (S k) last' act m V1 R1 Hlt Hb' E Ha) as (l2 & -> & S2).
    eexists _, _. split; [reflexivity|]. by right. }
  destruct (Z.eqb_spec s' 95) as [->|Hj].
  - destruct jam_facts as (_ & -> & _). cbn [deref]. rewrite bind_ret_l. by apply Finds.
  - destruct Hd as [?|[Hg' _]]; [done|].
    destruct (good_next s' zero Hg') as (_ & _ & stop' & _ & _ & _ & Hst & _). rewrite Hst. cbn [deref]. rewrite bind_ret_l.
    destruct stop'; [apply Finds; by rewrite match2_stop in Hm|].
    apply (IH l1 bp w (S k) s' last' act m); [|done|exact Hf].
    split; [exact V1|exact Hlt|by eapply walk_more|exact R1].
Qed.

(** A character NUL of the text. *)
Lemma run_nul fuel l bp w k s last act m :
  run_goal (S fuel) -> scanning l bp w k s last -> w !! k = Some zero ->
  match2 s k last (drop k w ++ yyin l) = Some (act, m) -> act <> 49%Z ->
  (3 * (length w - S k) + 6 * length (yyin l) + 5 <= S fuel)%nat ->
  exists o l', yy_run fread (3 + S fuel) bp (Match s (bp + k)) l = Ok (o, l') /\
    token_result o l' (w ++ yyin l) act m.
Proof using Type.
  clear N_small. intros IH Sc Hc Hm Ha Hf. destruct (scanning_good _ _ _ _ _ _ Sc) as [Hg Hb].
  destruct Sc as [V Hk Hw _]. pose proof (lookup_lt_Some _ _ _ Hc) as Hlt.
  assert (Hne : w ++ yyin l <> []) by (by destruct w).
  destruct (view_get N l bp w (S k) V Hlt) as [c1 Hc1]. rewrite Nat.add_succ_r in Hc1.
  rewrite (to_eob (S fuel) l bp w s k c1 V Hg Hk (v_chars _ _ _ _ V k zero Hc) Hc1).
  destruct (end_of_buffer_undo (set_last 3 (S (bp + k)) l) bp w (S (bp + k)) c1)
    as (l1 & V1 & T1 & P1 & Y1 & _ & ->); [by eapply view_core, V|exact Hc1|]. cbn in Y1.
  unfold eob_case. rewrite P1, (v_n _ _ _ _ V1).
  destruct (Nat.leb_spec (S (bp + k)) (bp + length w)); [|lia].
  replace (S (bp + k) - bp - 1)%nat with k by lia. rewrite T1.
  destruct (eob_previous (set_p (bp + k) l1) bp w k s last) as (l2 & -> & C2 & T2 & P2 & R2);
    [by eapply view_core, V1|exact Hk|done|done|done|].
  rewrite bind_ret_l. unfold yy_try_NUL_trans. rewrite P2.
  rewrite (drop_S _ _ _ Hc) in Hm. cbn [app match2] in Hm.
  destruct (good_next s zero Hg) as (s' & a & stop & Hn & Hacc & _ & _ & Hd & _).
  rewrite Hacc in Hm. cbn [mbind option_bind] in Hm. rewrite Hn in Hm. cbn [mbind option_bind] in Hm.
  destruct (note_accept_rel s a bp k last l2 Hacc R2) as (l3 & -> & C3 & T3 & P3 & R3).
  rewrite bind_ret_l, (yy_goto_nul s zero s' eq_refl Hn), bind_ret_l, bind_ret_l.
  destruct (core_eqs _ _ C3) as [Y3 _]. destruct (core_eqs _ _ C2) as [Y2 _]. cbn in Y2.
  assert (V3 : view N l3 bp w).
  { eapply view_core; [symmetry; exact C3|]. eapply view_core; [symmetry; exact C2|]. by eapply view_core, V1. }
  assert (Y : yyin l = yyin l3) by congruence. rewrite Y in *.
  destruct (Z.eqb_spec s' 95) as [->|Hj].
  - rewrite (jam_find s a (S k) k last Hacc) in Hm. rewrite P3, P2, bind_ret_l, T3, T2. cbv beta iota zeta.
    destruct (find_ok fuel l3 bp w s k (if (a =? 0)%Z then last else Some (s, k)) act m V3 R3 Hk)
      as (l4 & E4 & S4).
    + intros ls ln. destruct (a =? 0)%Z; [apply Hb|]. by intros [= <- <-].
    + revert Hm. unfold yy_find_action. rewrite Hacc. cbn. by destruct (a =? 0)%Z.
    + exact Ha.
    + rewrite E4. eexists _, _. split; [reflexivity|]. by right.
  - destruct Hd as [?|[Hg' _]]; [done|]. cbv beta iota zeta. rewrite bind_ret_l.
    cbn [yy_c_buf_p yytext_ptr set_p]. rewrite P3, P2, T3, T2, <- Nat.add_succ_r.
    apply (IH (set_p (bp + S k) l3) bp w (S k) s' (if (a =? 0)%Z then last else Some (s, k)) act m); [|done|exact Hf].
    split; [by eapply view_core, V3|exact Hlt|by eapply walk_more|exact R3].
Qed.

Lemma char_code_zero c : char_code c = 0%Z -> c = zero.
Proof using Type.
  clear N_small. unfold char_code. intros H. rewrite <- (ascii_N_embedding c).
  by replace (N_of_ascii c) with 0%N by lia.
Qed.

(** The scan finds what [match2] finds, from every point of the text. *)
Lemma run_ok fuel : run_goal fuel.
Proof using fread_pos N_small.
  induction (lt_wf fuel) as [fuel _ IH]. intros l bp w k s last act m Sc Hm Hf.
  destruct (w !! k) as [c|] eqn:Hc.
  - pose proof (lookup_lt_Some _ _ _ Hc) as Hlt.
    destruct (Hm ltac:(by destruct w)) as [Hm1 Ha].
    destruct (Z.eq_dec (char_code c) 0) as [H0|H0].
    + apply char_code_zero in H0 as ->. destruct fuel as [|[|[|[|fuel]]]]; [lia..|].
      eapply run_nul; try done; [apply IH; lia|lia].
    + destruct fuel as [|[|fuel]]; [lia..|]. eapply run_plain; try done; [apply IH; lia|lia].
  - apply lookup_ge_None in Hc. pose proof (s_k _ _ _ _ _ _ Sc) as Hk.
    assert (k = length w) as -> by lia. destruct fuel as [|[|[|fuel]]]; [lia..|].
    rewrite drop_all in Hm. eapply (run_eob fuel); try done; [apply IH; lia|lia].
Qed.

(** ** All of the file *)

(** Before a call of [yylex] with [inp] left of the file. *)
Definition ready (l : lexer) (inp : list ascii) : Prop :=
  exists w, (yy_c_buf_p l < length (yy_ch_buf l))%nat /\
    view N (restored l) (yy_c_buf_p l) w /\ w ++ yyin l = inp.

Lemma view_drop l bp w m : view N l bp w -> (m <= length w)%nat -> view N l (bp + m) (drop m w).
Proof using Type.
  clear N_small. intros [] Hm. assert (bp + m + length (drop m w) = bp + length w)%nat as E by (rewrite length_drop; lia).
  constructor; rewrite ?E; try done.
  - rewrite length_drop. lia.
  - intros i c Hi. rewrite lookup_drop in Hi. rewrite <- Nat.add_assoc. by apply v_chars0.
Qed.

Lemma scanned_ready l inp m : scanned N l inp m -> ready l (drop m inp) /\ (m <= length inp)%nat.
Proof using Type.
  clear N_small. intros (w & Hp & Hm & Hl & V & <-). split; [|rewrite length_app; lia].
  exists (drop m w). split; [done|]. split; [rewrite Hp; by apply view_drop|]. by rewrite drop_app_le.
Qed.

Lemma mapM_chars (buf : list (option ascii)) : forall bp (w : list ascii),
  (forall i c, w !! i = Some c -> buf !! (bp + i)%nat = Some (Some c)) ->
  mapM id (take (length w) (drop bp buf)) = Some w.
Proof using Type.
  clear N_small. intros bp w. revert bp. induction w as [|c w IH]; intros bp H; [done|].
  pose proof (H 0%nat c eq_refl) as H0. rewrite Nat.add_0_r in H0.
  rewrite (drop_S _ _ _ H0). cbn [length take mapM]. cbn [id mbind option_bind].
  rewrite IH; [done|]. intros i d Hi. specialize (H (S i) d Hi). by rewrite Nat.add_succ_r in H.
Qed.

(** The text of the token. *)
Lemma scanned_text l inp m : scanned N l inp m -> yytext l = Ok (String.string_of_list_ascii (take m inp)).
Proof using Type.
  clear N_small. intros (w & Hp & Hm & Hl & V & <-). unfold yytext. rewrite Hp, take_app_le by done.
  replace (yytext_ptr l + m - yytext_ptr l)%nat with (length (take m w)) by (rewrite length_take; lia).
  rewrite mapM_chars; [done|]. intros i c Hi.
  pose proof (lookup_lt_Some _ _ _ Hi) as Hi'. rewrite length_take in Hi'. rewrite lookup_take_lt in Hi by lia.
  pose proof (v_chars _ _ _ _ V i c Hi) as E. cbn in E. rewrite Hp in E. by rewrite list_lookup_insert_ne in E by lia.
Qed.

(** One pass of the outer loop. *)
Lemma pass_ok steps l inp : ready l inp -> (6 * length inp + 5 <= steps)%nat ->
  exists l0 o l', put_ch (yy_c_buf_p l) (yy_hold_char l) l = Ok l0 /\
    yy_run fread steps (yy_c_buf_p l0) (Match yy_start (yy_c_buf_p l0)) l0 = Ok (o, l') /\
    match inp with
    | [] => o = None
    | _ => exists act m, yy_match yy_start 0 None inp = Some (act, m) /\ o = Some act /\ scanned N l' inp m
    end.
Proof using fread_pos N_small.
  intros (w & Hl & V & Hi) Hs. exists (restored l). rewrite put_ch_ok by done.
  assert (Hm : exists act m, (w ++ yyin (restored l) <> [] ->
    match2 yy_start 0 None (drop 0 w ++ yyin (restored l)) = Some (act, m) /\ act <> 49%Z)).
  { cbn [yyin restored set_buf]. rewrite drop_0, Hi. destruct inp as [|c inp]; [exists 0%Z, 0%nat; intros H; by destruct H|].
    destruct (yy_match_start (c :: inp)) as (act & n & E & LM); [done|]. exists act, n. intros _.
    rewrite match2_eq by reflexivity. split; [exact E|]. destruct LM as [_ Hr _ _]. apply rule_matches_range in Hr. lia. }
  destruct Hm as (act & m & Hm).
  destruct (run_ok steps (restored l) (yy_c_buf_p l) w 0 yy_start None act m) as (o & l' & E & T).
  - split; [exact V|lia|by rewrite take_0|intros ls ln; done].
  - exact Hm.
  - cbn [yyin restored set_buf]. rewrite <- Hi, length_app in Hs. lia.
  - rewrite Nat.add_0_r in E. exists o, l'. split; [done|]. split; [exact E|].
    cbn [yyin restored set_buf] in Hm, T. rewrite drop_0, Hi in Hm. rewrite Hi in T. destruct T as [[-> ->]|(Hne & -> & T)]; [done|].
    destruct (Hm Hne) as [E1 _]. rewrite match2_eq in E1 by reflexivity. destruct inp; [done|]. by exists act, m.
Qed.

Lemma yylex_calls_ok steps fuel : forall l inp v,
  ready l inp -> (6 * length inp + 5 <= steps)%nat ->
  yylex_calls fread steps fuel l v = yylex_loop fuel inp v.
Proof using fread_pos N_small.
  induction fuel as [|fuel IH]; intros l inp v R Hs; [done|]. cbn [yylex_calls yylex_loop].
  destruct (pass_ok steps l inp R Hs) as (l0 & o & l' & -> & E & T). rewrite bind_ret_l, E, bind_ret_l.
  destruct inp as [|c inp]; [by rewrite T|]. destruct T as (act & m & Hy & -> & T).
  unfold yy_scan. rewrite Hy. cbn [deref]. rewrite bind_ret_l, (scanned_text _ _ _ T), bind_ret_l.
  destruct (scanned_ready _ _ _ T) as [R' Hm].
  destruct (yy_action _ _ v) as [a|e]; [|done]. rewrite !bind_ret_l.
  assert (Hs' : (6 * length (drop m (c :: inp)) + 5 <= steps)%nat) by (rewrite length_drop; lia).
  destruct a as [|t v']; by rewrite (IH _ _ _ R' Hs').
Qed.

Lemma init_ready file : length file = N -> exists l, yylex_init file = Ok l /\ ready l file.
Proof using Type.
  clear N_small. intros HN. unfold yylex_init, yy_create_buffer, yy_init_buffer, yy_flush_buffer.
  set (B := YY_BUF_SIZE). assert (HB : Z.of_nat B = 16384%Z) by (subst B; unfold YY_BUF_SIZE; by rewrite Z2Nat.id).
  clearbody B. rewrite put_ch_ok, bind_ret_l by (cbn [yy_ch_buf set_b_n_chars]; rewrite length_replicate; lia).
  rewrite put_ch_ok, bind_ret_l by (cbn [yy_ch_buf set_b_n_chars set_buf]; rewrite length_insert, length_replicate; lia).
  rewrite bind_ret_l. unfold yy_load_buffer_state, get_ch. cbn [yy_c_buf_p yy_ch_buf set_text set_p set_n_chars set_status set_buf set_b_n_chars].
  rewrite list_lookup_insert_ne, list_lookup_insert_eq by (rewrite ?length_replicate; lia). rewrite bind_ret_l.
  eexists. split; [reflexivity|]. exists []. cbn [yy_c_buf_p yy_ch_buf set_text set_p set_n_chars set_status set_buf set_b_n_chars set_hold].
  rewrite !length_insert, length_replicate. split; [lia|]. split; [|done].
  constructor; cbn [restored length app yy_buf_size yy_n_chars b_n_chars yy_c_buf_p yy_ch_buf yyin yy_hold_char set_text set_p set_n_chars set_status set_buf set_b_n_chars set_hold]; rewrite ?length_insert, ?length_replicate; try done; try lia.
  - apply list_lookup_insert_eq. rewrite !length_insert, length_replicate. lia.
  - rewrite list_lookup_insert_ne by lia. apply list_lookup_insert_eq. rewrite length_insert, length_replicate. lia.
Qed.
End Run.

(** C8: Whatever the sizes of the reads, scanning a file through the buffer
    gives the tokens of its text: refills, the moves of the text of an
    unfinished token, the growth of the buffer and characters NUL in the
    file do not show.  A file may be up to 512 MB long, and [steps] passes
    through the labels are enough for each token. *)
Theorem yylex_file_correct (fread : nat -> nat) (steps : nat) (file : list ascii) :
  (forall i, 1 <= fread i)%nat -> (Z.of_nat (length file) < 2 ^ 29)%Z ->
  (6 * length file + 5 <= steps)%nat ->
  yylex_file fread steps (S (length file)) file = yylex (String.string_of_list_ascii file).
Proof.
  intros Hr HN Hs. unfold yylex_file, yylex.
  destruct (init_ready (length file) file eq_refl) as (l & -> & R). rewrite bind_ret_l.
  rewrite (yylex_calls_ok fread Hr (length file) HN steps _ l file _ R Hs).
  by rewrite String.list_ascii_of_string_of_list_ascii.
Qed.

Lemma yylex_file_correct_witness :
  let text := "if (temp > 10) then drop else fwd1"%string in
  yylex_file (fun i => S (i mod 3)) 300 35 (String.list_ascii_of_string text) = yylex text.
Proof.
  apply (yylex_file_correct (fun i => S (i mod 3)) 300 (String.list_ascii_of_string
    "if (temp > 10) then drop else fwd1"%string)); [intros i; lia|vm_compute; reflexivity|cbn; lia].
Defined.
