(* ===== verification/LexInput.v ===== *)
(** Reading and pushing back single characters: [input] and [yyunput] of
    src/compiler/lex.yy.c (lines 1382-1499), which flex generates for the
    actions of a scanner.  Over the text that is still to be scanned they are
    the removal of its first character and its extension at the front. *)

From stdpp Require Import base list strings.
From Stdlib Require Import ZArith Lia Ascii.
From S2P Require Import Prelude Cxx LexTables Parser Lexer LexSpec LexProps LexBuffer LexBufferProps.

#[local] Open Scope list_scope.

(** ** The functions *)

(** The loop of [yyunput] that moves the buffer up: [k] characters, the last
    first; [dest] and [source] are one past the characters moved. *)
Fixpoint move_up (k dest source : nat) (l : lexer) : res lexer :=
  match k, dest, source with
  | O, _, _ => Ok l
  | S k, S dest, S source => c ← get_ch source l; l ← put_ch dest c l; move_up k dest source l
  | _, _, _ => Err Undefined
  end.

(** The character goes before [yy_cp], which becomes the current position. *)
Definition unput_char (c : ascii) (yy_cp yy_bp : nat) (l : lexer) : res lexer :=
  let yy_cp := (yy_cp - 1)%nat in
  l ← put_ch yy_cp c l;
  let l := set_text yy_bp l in
  h ← get_ch yy_cp l;
  mret (set_p yy_cp (set_hold h l)).

(** [yyunput (c, yy_bp)]; [unput] passes [yytext_ptr] for [yy_bp]. *)
Definition yyunput (c : ascii) (yy_bp : nat) (l : lexer) : res lexer :=
  l ← put_ch (yy_c_buf_p l) (yy_hold_char l) l;
  '(yy_cp, yy_bp, l) ←
    (if (yy_c_buf_p l <? 2)%nat then
       let number_to_move := (yy_n_chars l + 2)%nat in
       let dest := Z.to_nat (yy_buf_size l + 2) in
       l ← move_up number_to_move dest number_to_move l;
       let d := (dest - number_to_move)%nat in
       let n := Z.to_nat (yy_buf_size l) in
       let l' := set_b_n_chars n (set_n_chars n l) in
       if (yy_c_buf_p l + d <? 2)%nat then Err (Exit 2)
       else mret ((yy_c_buf_p l + d)%nat, (yy_bp + d)%nat, l')
     else mret (yy_c_buf_p l, yy_bp, l));
  unput_char c yy_cp yy_bp l.

(** The character at the current position, which the text then ends before. *)
Definition input_char (l : lexer) : res (Z * lexer) :=
  c ← get_ch (yy_c_buf_p l) l;
  l ← put_ch (yy_c_buf_p l) zero l;
  let l := set_p (S (yy_c_buf_p l)) l in
  h ← get_ch (yy_c_buf_p l) l;
  mret (char_code c, set_hold h l).

Section Reading.
Context (fread : nat -> nat).

(** The end of the buffer is reached: [None] when the file has ended too,
    for [yywrap] returns 1. *)
Definition input_refill (l : lexer) : res (bool * lexer) :=
  let offset := (yy_c_buf_p l - yytext_ptr l)%nat in
  '(a, l) ← yy_get_next_buffer fread (set_p (S (yy_c_buf_p l)) l);
  match a with
  | EOB_ACT_LAST_MATCH => l ← yyrestart l; mret (false, l)
  | EOB_ACT_END_OF_FILE => mret (false, l)
  | EOB_ACT_CONTINUE_SCAN => mret (true, set_p (yytext_ptr l + offset) l)
  end.

(** [input ()]: the character, or 0 at the end of the file. *)
Definition input (l : lexer) : res (Z * lexer) :=
  l ← put_ch (yy_c_buf_p l) (yy_hold_char l) l;
  c ← get_ch (yy_c_buf_p l) l;
  '(more, l) ←
    (if decide (c = YY_END_OF_BUFFER_CHAR) then
       if (yy_c_buf_p l <? yy_n_chars l)%nat
       then l ← put_ch (yy_c_buf_p l) zero l; mret (true, l)
       else input_refill l
     else mret (true, l));
  if negb more then mret (0%Z, l) else input_char l.
End Reading.

(** ** What they do to the text to be scanned *)

(** A character of the text is replaced. *)
Lemma view_insert N l bp w i c : view N l bp w -> (i < length w)%nat ->
  view N (set_buf (<[(bp + i)%nat := Some c]> (yy_ch_buf l)) l) bp (<[i := c]> w).
Proof.
  intros [V1 V2 V3 V4 V5 V6 V7 V8 V9 V10 V11] Hi. constructor; cbn; rewrite ?length_insert; try done.
  - intros j d Hj. destruct (decide (i = j)) as [<-|Ne].
    + rewrite list_lookup_insert_eq in Hj by done. injection Hj as <-. apply list_lookup_insert_eq. lia.
    + rewrite list_lookup_insert_ne in Hj by done. rewrite list_lookup_insert_ne by lia. by apply V7.
  - by rewrite list_lookup_insert_ne by lia.
  - by rewrite list_lookup_insert_ne by lia.
Qed.

(** The character at the current position is taken. *)
Lemma take_char N l bp w m c : view N l bp w -> w !! m = Some c -> yy_c_buf_p l = (bp + m)%nat ->
  yytext_ptr l = bp ->
  exists l', input_char l = Ok (char_code c, l') /\
   scanned N l' (<[m := zero]> (w ++ yyin l)) (S m) /\ yy_buffer_status l' = yy_buffer_status l.
Proof.
  intros V Hc Hp Ht. pose proof (lookup_lt_Some _ _ _ Hc) as Hm.
  assert (Hlen : (bp + length w < length (yy_ch_buf l))%nat) by (destruct V; lia).
  unfold input_char. rewrite Hp, (get_ch_view N l bp w m c V Hc), bind_ret_l, put_ch_ok, bind_ret_l by lia.
  cbn [yy_c_buf_p set_buf set_p]. rewrite Hp. pose proof (view_insert N l bp w m zero V Hm) as V1.
  assert (exists l1, set_buf (<[(bp + m)%nat := Some zero]> (yy_ch_buf l)) l = l1 /\ yytext_ptr l1 = bp /\ yyin l1 = yyin l /\
    yy_buffer_status l1 = yy_buffer_status l) as (l1 & E1 & Ht1 & Hy1 & Hs1) by (by eexists).
  rewrite E1 in *. destruct (view_get N l1 bp (<[m := zero]> w) (S m) V1) as [h Hh]; [rewrite length_insert; lia|].
  unfold get_ch. cbn [yy_ch_buf set_p]. rewrite <- plus_n_Sm in Hh. rewrite Hh, bind_ret_l.
  eexists. split; [done|]. split; [|done]. exists (<[m := zero]> w). cbn [yy_c_buf_p yytext_ptr set_hold set_p yy_ch_buf yyin].
  rewrite Ht1, Hy1, length_insert.
  split; [lia|]. split; [lia|]. split; [by eapply lookup_lt_Some|]. split.
  - eapply view_core, V1. unfold core, restored. cbn. rewrite list_insert_id by done. done.
  - by rewrite insert_app_l.
Qed.

(** A refill does not make the buffer new. *)
Lemma move_chars_status k : forall dest source l l', move_chars k dest source l = Ok l' ->
  yy_buffer_status l' = yy_buffer_status l.
Proof.
  induction k as [|k IH]; intros dest source l l' H; cbn [move_chars] in H; [by injection H as <-|].
  invok H. unfold put_ch in *. destruct (_ <? _)%nat; simplify_eq. by apply IH in H.
Qed.

Lemma yy_grow_status fuel n : forall l l', yy_grow fuel n l = Ok l' -> yy_buffer_status l' = yy_buffer_status l.
Proof.
  induction fuel as [|f IH]; intros l l' H; [done|]. cbn [yy_grow] in H. destruct (_ <=? _)%Z; [|by injection H as <-].
  destruct (_ <=? _)%Z; [done|]. by apply IH in H.
Qed.

Lemma yy_mark_end_status n l l' : yy_mark_end n l = Ok l' -> yy_buffer_status l' = yy_buffer_status l.
Proof.
  unfold yy_mark_end, yy_extend. intros H. invok H. unfold put_ch in *.
  repeat destruct (_ <? _)%nat; simplify_eq. cbn. by destruct (_ >? _)%Z.
Qed.

Lemma read_more_status fread n l l' : yy_read_more fread n l = Ok l' -> yy_buffer_status l' = yy_buffer_status l.
Proof.
  unfold yy_read_more. destruct (decide _); intros H; [by injection H as <-|]. invok H. subst l'. cbn.
  apply yy_grow_status in Hx. unfold yy_input in Hx0. destruct (_ <=? _)%nat; simplify_eq. done.
Qed.

Lemma next_buffer_status fread l l' : yy_get_next_buffer fread l = Ok (EOB_ACT_CONTINUE_SCAN, l') ->
  yy_buffer_status l' = yy_buffer_status l.
Proof.
  unfold yy_get_next_buffer. destruct (_ <? _)%nat; [done|]. intros H. invok H.
  apply move_chars_status in Hx. apply read_more_status in Hx0. destruct (yy_n_chars x0 =? 0)%nat.
  - destruct (_ =? 0)%nat; invok Hx1; subst x1; invok H; simplify_eq.
  - injection Hx1 as <-. invok H. apply yy_mark_end_status in Hx1. simplify_eq. congruence.
Qed.

Section Ops.
Context (fread : nat -> nat) (fread_pos : forall i, (1 <= fread i)%nat).
Context (N : nat) (N_small : (Z.of_nat N < 2 ^ 29)%Z).

Lemma input_ok l inp m c r :
  scanned N l inp m -> (yy_c_buf_p l < yy_n_chars l)%nat \/ yy_buffer_status l <> YY_BUFFER_NEW ->
  drop m inp = c :: r ->
  exists l', input fread l = Ok (char_code c, l') /\ scanned N l' (<[m := zero]> inp) (S m) /\
    yy_buffer_status l' = yy_buffer_status l.
Proof using fread_pos N_small.
  intros (w & Hp & Hm & Hl & V & Hi) Hs Hd. unfold input. rewrite put_ch_ok, bind_ret_l by done. fold (restored l).
  assert (exists l1, restored l = l1 /\ yy_c_buf_p l1 = (yytext_ptr l1 + m)%nat /\ yyin l1 = yyin l /\ yytext_ptr l1 = yytext_ptr l /\
    yy_buffer_status l1 = yy_buffer_status l /\ yy_n_chars l1 = yy_n_chars l) as (l1 & El & Hp1 & Hy & Ht & Hs1 & Hn) by (by eexists).
  rewrite El in V |- *. clear El.
  rewrite Hp, <- Ht, <- Hs1, <- Hn in Hs. rewrite <- Hy in Hi. rewrite <- Ht in V. rewrite <- Hs1. clear Hp Hl Hy Ht Hs1 Hn. rename Hp1 into Hp.
  destruct (Nat.eq_dec m (length w)) as [->|Ne].
  - assert (yyin l1 = c :: r) as Hf by (rewrite <- Hd, <- Hi; by rewrite drop_app_length).
    assert (get_ch (yy_c_buf_p l1) l1 = Ok zero) as -> by (unfold get_ch; by rewrite Hp, (v_eob0 _ _ _ _ V)).
    rewrite bind_ret_l, decide_True, Hp by done.
    rewrite (v_n _ _ _ _ V), Nat.ltb_irrefl. unfold input_refill.
    destruct (next_buffer_ok fread fread_pos N N_small (set_p (S (yy_c_buf_p l1)) l1) (yytext_ptr l1) w)
      as (a & l2 & E & H); [by eapply view_core, V|done|cbn; lia|pose proof (v_n _ _ _ _ V); destruct Hs; [lia|done]|].
    rewrite E, bind_ret_l. cbn in H. destruct a; [|by destruct H as [_ H]; rewrite Hf in H|by destruct H as (_ & _ & H & _); rewrite Hf in H].
    destruct H as (Ht2 & cs & Hcs & Hf2 & V2). rewrite bind_ret_l. cbn [negb].
    destruct cs as [|c' cs]; [done|]. rewrite Hf in Hf2. injection Hf2 as <- Hr.
    rewrite Ht2, Hp. replace (yytext_ptr l1 + length w - yytext_ptr l1)%nat with (length w) by lia.
    destruct (take_char N (set_p (0 + length w) l2) 0 (w ++ c :: cs) (length w) c) as (l' & E' & Sc & St);
      [by eapply view_core, V2|by rewrite lookup_app_r, Nat.sub_diag|done|done|].
    exists l'. split; [exact E'|]. rewrite <- Hi, Hf, Hr. cbn [yyin set_p] in Sc. rewrite <- (assoc_L (++)) in Sc. split; [exact Sc|].
    rewrite St. cbn. by rewrite (next_buffer_status _ _ _ E).
  - assert (w !! m = Some c) as Hc.
    { destruct (lookup_lt_is_Some_2 w m) as [c' Hc']; [lia|]. rewrite <- Hi, drop_app_le, (drop_S _ _ _ Hc') in Hd by done.
      cbn in Hd. congruence. }
    rewrite Hp, (get_ch_view _ _ _ _ _ _ V Hc), bind_ret_l.
    assert (exists l2, (if decide (c = YY_END_OF_BUFFER_CHAR) then
        if (yytext_ptr l1 + m <? yy_n_chars l1)%nat then l ← put_ch (yytext_ptr l1 + m) zero l1; mret (true, l)
        else input_refill fread l1 else mret (true, l1)) = Ok (true, l2) /\ l2 = l1) as (l2 & -> & ->).
    { destruct (decide _) as [->|]; [|by eexists]. rewrite (v_n _ _ _ _ V).
      destruct (Nat.ltb_spec (yytext_ptr l1 + m) (yytext_ptr l1 + length w)); [|lia].
      pose proof (v_chars _ _ _ _ V m _ Hc) as Hb. rewrite put_ch_ok by (by eapply lookup_lt_Some).
      rewrite bind_ret_l. eexists. split; [done|]. rewrite list_insert_id by done. by destruct l1. }
    rewrite bind_ret_l. cbn [negb].
    destruct (take_char N l1 (yytext_ptr l1) w m c V Hc Hp eq_refl) as (l' & E' & Sc & St).
    exists l'. rewrite E', <- Hi, St. done.
Qed.

(** At the end of the file. *)
Lemma input_end l inp m :
  scanned N l inp m -> yy_buffer_status l <> YY_BUFFER_NEW -> drop m inp = [] ->
  exists l', input fread l = Ok (0%Z, l').
Proof using fread_pos N_small.
  intros (w & Hp & Hm & Hl & V & Hi) Hs Hd. unfold input. rewrite put_ch_ok, bind_ret_l by done. fold (restored l).
  assert (m = length w /\ yyin l = []) as [-> Hf].
  { assert (length (drop m inp) = 0%nat) as E by (by rewrite Hd). rewrite length_drop, <- Hi, length_app in E.
    split; [lia|]. apply length_zero_iff_nil. lia. }
  assert (get_ch (yy_c_buf_p (restored l)) (restored l) = Ok zero) as ->
    by (unfold get_ch; cbn [yy_c_buf_p restored set_buf]; rewrite Hp; by rewrite (v_eob0 _ _ _ _ V)).
  rewrite bind_ret_l, decide_True by done. rewrite (v_n _ _ _ _ V). cbn [yy_c_buf_p restored set_buf].
  rewrite Hp, Nat.ltb_irrefl. unfold input_refill.
  destruct (next_buffer_ok fread fread_pos N N_small (set_p (S (yy_c_buf_p (restored l))) (restored l)) (yytext_ptr l) w)
    as (a & l2 & E & H); [by eapply view_core, V|done|cbn; lia|done|]. fold (restored l).
  rewrite E, bind_ret_l. cbn in H. rewrite Hf in H. destruct a.
  - destruct H as (_ & cs & Hcs & H & _). by destruct cs.
  - rewrite bind_ret_l. by eexists.
  - destruct H as (_ & _ & _ & _ & V2). destruct (yyrestart_ok l2) as (buf & -> & _); [destruct V2; lia|].
    rewrite !bind_ret_l. by eexists.
Qed.
End Ops.

(** ** Pushing back *)

Lemma move_up_ok u : forall l dest source, (length u <= source)%nat -> (source <= dest)%nat ->
  (dest <= length (yy_ch_buf l))%nat ->
  (forall i c, u !! i = Some c -> yy_ch_buf l !! (source - length u + i)%nat = Some (Some c)) ->
  exists buf, move_up (length u) dest source l = Ok (set_buf buf l) /\ length buf = length (yy_ch_buf l) /\
    (forall i c, u !! i = Some c -> buf !! (dest - length u + i)%nat = Some (Some c)) /\
    (forall i, (dest <= i)%nat -> buf !! i = yy_ch_buf l !! i).
Proof.
  induction u as [|c u IH] using rev_ind; intros l dest source H1 H2 H3 Hu; [exists (yy_ch_buf l); by destruct l|].
  rewrite length_app, Nat.add_1_r in *. destruct dest as [|dest]; [lia|]. destruct source as [|source]; [lia|]. cbn [move_up].
  pose proof (Hu (length u) c ltac:(by rewrite lookup_app_r, Nat.sub_diag)) as H0.
  replace (S source - S (length u) + length u)%nat with source in H0 by lia.
  assert (get_ch source l = Ok c) as -> by (unfold get_ch; by rewrite H0).
  rewrite bind_ret_l, put_ch_ok, bind_ret_l by lia. cbn [Nat.sub].
  destruct (IH (set_buf (<[dest := Some c]> (yy_ch_buf l)) l) dest source) as (buf & E & L & B & F); cbn [yy_ch_buf set_buf]; rewrite ?length_insert; [lia..| |].
  - intros i d Hi. pose proof (lookup_lt_Some _ _ _ Hi). rewrite list_lookup_insert_ne by lia.
    apply (Hu i d). by apply lookup_app_l_Some.
  - cbn [yy_ch_buf set_buf] in L, F. rewrite length_insert in L. exists buf. split; [rewrite E; by destruct l|]. split; [done|]. split.
    + intros i d Hi. apply lookup_app_Some in Hi as [Hi|[Hi1 Hi2]]; [by apply B|].
      apply list_lookup_singleton_Some in Hi2 as [Hi2 <-]. rewrite F by lia.
      replace (dest - length u + i)%nat with dest by lia. apply list_lookup_insert_eq. lia.
    + intros i Hi. rewrite F by lia. by rewrite list_lookup_insert_ne by lia.
Qed.

Lemma unput_char_ok N l bp w m c : view N l bp w -> (1 <= m <= length w)%nat ->
  exists l', unput_char c (bp + m) bp l = Ok l' /\ scanned N l' (<[(m - 1)%nat := c]> (w ++ yyin l)) (m - 1) /\
    yy_buffer_status l' = yy_buffer_status l /\ (yy_c_buf_p l' < yy_n_chars l')%nat.
Proof.
  intros V Hm. unfold unput_char. replace (bp + m - 1)%nat with (bp + (m - 1))%nat by lia.
  assert (Hlen : (bp + length w < length (yy_ch_buf l))%nat) by (destruct V; lia).
  rewrite put_ch_ok, bind_ret_l by lia. pose proof (view_insert N l bp w (m - 1) c V ltac:(lia)) as V1.
  assert (exists l1, set_buf (<[(bp + (m - 1))%nat := Some c]> (yy_ch_buf l)) l = l1 /\ yyin l1 = yyin l /\
    yy_buffer_status l1 = yy_buffer_status l) as (l1 & E1 & Hy1 & Hs1) by (by eexists).
  rewrite E1 in *.
  assert (Hc : yy_ch_buf l1 !! (bp + (m - 1))%nat = Some (Some c))
    by (apply (v_chars _ _ _ _ V1); apply list_lookup_insert_eq; lia).
  unfold get_ch. cbn [yy_ch_buf set_text]. rewrite Hc, bind_ret_l.
  eexists. split; [done|]. split; [|split; [done|cbn; rewrite (v_n _ _ _ _ V1), length_insert; lia]]. exists (<[(m - 1)%nat := c]> w).
  cbn [yy_c_buf_p yytext_ptr set_hold set_p set_text yy_ch_buf yyin]. rewrite Hy1, length_insert.
  split; [done|]. split; [lia|]. split; [by eapply lookup_lt_Some|]. split.
  - eapply view_core, V1. unfold core, restored. cbn. by rewrite list_insert_id.
  - by rewrite insert_app_l by lia.
Qed.

(** The buffer with its text moved to the end. *)
Lemma view_moved N l w buf : view N l 0 w -> length buf = length (yy_ch_buf l) ->
  let d := (Z.to_nat (yy_buf_size l) - length w)%nat in
  let n := Z.to_nat (yy_buf_size l) in
  (forall i c, (w ++ [zero; zero]) !! i = Some c -> buf !! (d + i)%nat = Some (Some c)) ->
  view N (set_b_n_chars n (set_n_chars n (set_buf buf l))) d w.
Proof.
  intros [V1 V2 V3 V4 V5 V6 V7 V8 V9 V10 V11] Hl d n Hb. cbn [Nat.add] in V1.
  constructor; cbn; try done; try lia.
  - intros i c Hi. apply Hb. by apply lookup_app_l_Some.
  - apply Hb. by rewrite lookup_app_r, Nat.sub_diag.
  - rewrite plus_n_Sm. apply Hb. rewrite lookup_app_r by lia. by replace (S (length w) - length w)%nat with 1%nat by lia.
Qed.

(** There is room for a character in front of the current position. *)
Definition room (l : lexer) : Prop :=
  (2 <= yy_c_buf_p l)%nat \/ (Z.of_nat (yy_n_chars l) < yy_buf_size l)%Z.

(** With the current position at 1 the text starts at 0 and is moved up. *)
Lemma unput_shift N l w : view N (restored l) 0 w -> yy_c_buf_p l = 1%nat ->
  let d := (Z.to_nat (yy_buf_size l) - length w)%nat in
  exists buf, move_up (yy_n_chars l + 2) (Z.to_nat (yy_buf_size l + 2)) (yy_n_chars l + 2) (restored l) =
      Ok (set_buf buf (restored l)) /\
    (Z.to_nat (yy_buf_size l + 2) - (yy_n_chars l + 2) = d)%nat /\
    view N (set_b_n_chars (Z.to_nat (yy_buf_size l)) (set_n_chars (Z.to_nat (yy_buf_size l)) (set_buf buf (restored l)))) d w.
Proof.
  intros V Hp d. pose proof V as [V1 V2 V3 V4 _ _ V7 V8 V9 _ _]. cbn in V1, V2, V3, V4. rewrite V1.
  replace (length w + 2)%nat with (length (w ++ [zero; zero])) by (rewrite length_app; done).
  destruct (move_up_ok (w ++ [zero; zero]) (restored l) (Z.to_nat (yy_buf_size l + 2)) (length (w ++ [zero; zero])))
    as (buf & E & L & B & _); rewrite ?length_app; cbn [length]; try lia.
  - cbn. lia.
  - intros i c Hi. rewrite Nat.sub_diag. apply lookup_app_Some in Hi as [Hi|[Hi1 Hi2]]; [by apply V7|].
    destruct (i - length w)%nat as [|[|k]] eqn:Ek; [| |done]; injection Hi2 as <-.
    + replace i with (length w) by lia. exact V8.
    + replace i with (S (length w)) by lia. exact V9.
  - exists buf. split; [rewrite <- E; by rewrite length_app|]. split; [subst d; lia|].
    apply (view_moved N (restored l) w buf V L). intros i c Hi. cbn. rewrite <- (B i c Hi). f_equal. rewrite length_app. cbn. lia.
Qed.

Lemma unput_ok N l inp m c :
  scanned N l inp m -> (1 <= m)%nat -> room l ->
  exists l', yyunput c (yytext_ptr l) l = Ok l' /\ scanned N l' (<[(m - 1)%nat := c]> inp) (m - 1) /\
    yy_buffer_status l' = yy_buffer_status l /\ (yy_c_buf_p l' < yy_n_chars l')%nat.
Proof.
  intros (w & Hp & Hm & Hl & V & Hi) H1 Hr. unfold yyunput. rewrite put_ch_ok, bind_ret_l by done. fold (restored l).
  change (yy_c_buf_p (restored l)) with (yy_c_buf_p l). change (yy_n_chars (restored l)) with (yy_n_chars l).
  change (yy_buf_size (restored l)) with (yy_buf_size l). change (yyin l) with (yyin (restored l)) in Hi.
  destruct (Nat.ltb_spec (yy_c_buf_p l) 2) as [Hc|Hc].
  - assert (yytext_ptr l = 0%nat /\ m = 1%nat) as [Ht ->] by lia. rewrite Ht in *.
    destruct (unput_shift N l w V ltac:(lia)) as (buf & -> & -> & V1). rewrite bind_ret_l.
    cbn [yy_c_buf_p restored set_buf yy_buf_size]. fold (restored l). pose proof (v_n _ _ _ _ V) as Vn. cbn in Vn.
    pose proof (v_min _ _ _ _ V) as Vm. cbn in Vm.
    destruct Hr as [Hr|Hr]; [lia|]. destruct (Nat.ltb_spec (yy_c_buf_p l + (Z.to_nat (yy_buf_size l) - length w)) 2); [lia|].
    rewrite bind_ret_l. destruct (unput_char_ok _ _ _ _ 1 c V1 ltac:(lia)) as (l' & E & Sc & St).
    exists l'. split; [|split; [rewrite <- Hi; exact Sc|exact St]].
    rewrite <- E. f_equal; lia.
  - rewrite bind_ret_l, Hp. destruct (unput_char_ok _ _ _ _ m c V ltac:(lia)) as (l' & E & Sc & St).
    exists l'. split; [exact E|]. rewrite <- Hi. done.
Qed.

(** Without room the scanner gives up. *)
Lemma unput_overflow N l inp m c :
  scanned N l inp m -> (1 <= m)%nat -> ~ room l -> yyunput c (yytext_ptr l) l = Err (Exit 2).
Proof.
  intros (w & Hp & Hm & Hl & V & Hi) H1 Hr. unfold room in Hr. unfold yyunput. rewrite put_ch_ok, bind_ret_l by done. fold (restored l).
  change (yy_c_buf_p (restored l)) with (yy_c_buf_p l). change (yy_n_chars (restored l)) with (yy_n_chars l).
  change (yy_buf_size (restored l)) with (yy_buf_size l).
  destruct (Nat.ltb_spec (yy_c_buf_p l) 2) as [Hc|Hc]; [|lia]. assert (yytext_ptr l = 0%nat) as Ht by lia. rewrite Ht in *.
  destruct (unput_shift N l w V ltac:(lia)) as (buf & -> & -> & V1). rewrite bind_ret_l.
  cbn [yy_c_buf_p restored set_buf]. pose proof (v_n _ _ _ _ V) as Vn. cbn in Vn.
  destruct (Nat.ltb_spec (yy_c_buf_p l + (Z.to_nat (yy_buf_size l) - length w)) 2); [done|lia].
Qed.

(** ** Pushing a character back and reading it again *)

(** The first pass of the loop of [yylex] on a file. *)
Definition first_pass (fread : nat -> nat) (steps : nat) (file : list ascii) : res (option Z * lexer) :=
  l ← yylex_init file;
  l ← put_ch (yy_c_buf_p l) (yy_hold_char l) l;
  yy_run fread steps (yy_c_buf_p l) (Match yy_start (yy_c_buf_p l)) l.

(** A character pushed back is the next one.  After the first token of a
    file, [yyunput] puts any character in front of the rest of the file: the
    tokens that follow are those of that text.  [input] gives the character
    back, and the tokens that follow are those of the rest.  The token has at
    least two characters, so that the buffer has room. *)
Theorem unput_input (fread : nat -> nat) (steps : nat) (file : list ascii) (act : Z) (m : nat) (c : ascii) :
  (forall i, 1 <= fread i)%nat -> (Z.of_nat (length file) < 2 ^ 29)%Z -> (6 * length file + 5 <= steps)%nat ->
  yy_match yy_start 0 None file = Some (act, m) -> (2 <= m)%nat ->
  exists l l1 l2, first_pass fread steps file = Ok (Some act, l) /\
    yyunput c (yytext_ptr l) l = Ok l1 /\ input fread l1 = Ok (char_code c, l2) /\
    forall fuel v, yylex_calls fread steps fuel l1 v = yylex_loop fuel (c :: drop m file) v /\
                   yylex_calls fread steps fuel l2 v = yylex_loop fuel (drop m file) v.
Proof.
  intros Hr HN Hs Hy Hm. unfold first_pass.
  destruct (init_ready (length file) file eq_refl) as (l0 & -> & R). rewrite bind_ret_l.
  destruct (pass_ok fread Hr (length file) HN steps l0 file R Hs) as (l1 & o & l & -> & E & T).
  rewrite bind_ret_l, E. destruct file as [|x file]; [exfalso; vm_compute in Hy; simplify_eq; lia|].
  destruct T as (act' & m' & Hy' & -> & Sc). rewrite Hy in Hy'. injection Hy' as <- <-. exists l.
  destruct (scanned_ready _ _ _ _ Sc) as [_ Hlen].
  destruct (unput_ok _ _ _ _ c Sc) as (l2 & E2 & Sc2 & St2 & P2); [lia|left; destruct Sc as (w & -> & _); lia|].
  assert (Hd : drop (m - 1) (<[(m - 1)%nat := c]> (x :: file)) = c :: drop m (x :: file)).
  { rewrite drop_insert_ge, Nat.sub_diag by lia. destruct (lookup_lt_is_Some_2 (x :: file) (m - 1)) as [y Hy']; [lia|].
    rewrite (drop_S _ _ _ Hy'). cbn [insert list_insert]. by replace (S (m - 1)) with m by lia. }
  destruct (input_ok fread Hr _ HN _ _ _ _ _ Sc2 ltac:(by left) Hd) as (l3 & E3 & Sc3 & _).
  exists l2, l3. do 3 (split; [done|]). intros fuel v.
  destruct (scanned_ready _ _ _ _ Sc2) as [R2 _], (scanned_ready _ _ _ _ Sc3) as [R3 _]. rewrite Hd in R2.
  rewrite drop_insert_lt, drop_insert_lt in R3 by lia. replace (S (m - 1)) with m in R3 by lia.
  split; eapply (yylex_calls_ok fread Hr _ HN); try done; cbn [length] in *; rewrite ?length_drop; cbn [length]; lia.
Qed.

Lemma unput_input_witness :
  let file := String.list_ascii_of_string "then drop"%string in
  exists l l1 l2, first_pass (fun i => S (i mod 3)) 100 file = Ok (Some 3%Z, l) /\
    yyunput "x" (yytext_ptr l) l = Ok l1 /\ input (fun i => S (i mod 3)) l1 = Ok (120%Z, l2) /\
    forall fuel v, yylex_calls (fun i => S (i mod 3)) 100 fuel l1 v = yylex_loop fuel (String.list_ascii_of_string "x drop"%string) v /\
                   yylex_calls (fun i => S (i mod 3)) 100 fuel l2 v = yylex_loop fuel (String.list_ascii_of_string " drop"%string) v.
Proof.
  exact (unput_input (fun i => S (i mod 3)) 100 (String.list_ascii_of_string "then drop"%string) 3 4 "x"
    ltac:(intros i; apply le_n_S, Nat.le_0_l) ltac:(vm_compute; reflexivity) ltac:(cbn; lia) ltac:(vm_compute; reflexivity) ltac:(lia)).
Defined.
