(* ===== verification/LexStack.v ===== *)
(** The buffers of the generated scanner as objects and their stack
    (src/compiler/lex.yy.c, lines 1501-1840 and 1953-1998): flex generates
    these functions for scanners that read from several places.  Buffers live
    in a heap, pointers to them are its keys, and the current one is the top
    of the stack [yy_buffer_stack].  Memory is taken to be available; what
    the compiler itself uses of one buffer is in LexBuffer.v. *)

From stdpp Require Import base list strings gmap.
From Stdlib Require Import ZArith Lia Ascii.
From S2P Require Import Prelude Cxx Lexer LexBuffer.

#[local] Open Scope list_scope.

(** ** State *)

(** [struct yy_buffer_state]; [yb_pos] is [yy_buf_pos] as an index. *)
Record ybuf : Type := mkYbuf {
  yb_file : option nat;
  yb_ch : list (option ascii);
  yb_pos : nat;
  yb_size : Z;
  yb_n : nat;
  yb_ours : bool;
  yb_interactive : bool;
  yb_bol : bool;
  yb_lineno : Z;
  yb_column : Z;
  yb_fill : bool;
  yb_status : buffer_status
}.

(** The static variables; [yy_buffer_stack_max] is the length of the stack. *)
Record flex : Type := mkFlex {
  heap : gmap nat ybuf;
  fresh_ptr : nat;
  yy_buffer_stack : option (list (option nat));
  yy_buffer_stack_top : nat;
  g_n_chars : nat;
  g_text : nat;
  g_c_buf_p : nat;
  g_hold : ascii;
  yy_did_buffer_switch_on_eof : bool;
  g_yyin : option nat;
  yy_init : bool;
  g_start : Z
}.

Definition f_heap v f := mkFlex v (fresh_ptr f) (yy_buffer_stack f) (yy_buffer_stack_top f) (g_n_chars f) (g_text f) (g_c_buf_p f) (g_hold f) (yy_did_buffer_switch_on_eof f) (g_yyin f) (yy_init f) (g_start f).
Definition f_stack v t f := mkFlex (heap f) (fresh_ptr f) v t (g_n_chars f) (g_text f) (g_c_buf_p f) (g_hold f) (yy_did_buffer_switch_on_eof f) (g_yyin f) (yy_init f) (g_start f).
Definition f_loaded n p h i f := mkFlex (heap f) (fresh_ptr f) (yy_buffer_stack f) (yy_buffer_stack_top f) n p p h (yy_did_buffer_switch_on_eof f) i (yy_init f) (g_start f).
Definition f_did v f := mkFlex (heap f) (fresh_ptr f) (yy_buffer_stack f) (yy_buffer_stack_top f) (g_n_chars f) (g_text f) (g_c_buf_p f) (g_hold f) v (g_yyin f) (yy_init f) (g_start f).

(** [yyalloc] of a buffer object. *)
Definition new_buffer (b : ybuf) (f : flex) : nat * flex :=
  let p := fresh_ptr f in
  (p, mkFlex (<[p := b]> (heap f)) (S p) (yy_buffer_stack f) (yy_buffer_stack_top f) (g_n_chars f) (g_text f) (g_c_buf_p f) (g_hold f) (yy_did_buffer_switch_on_eof f) (g_yyin f) (yy_init f) (g_start f)).

(** [YY_CURRENT_BUFFER] and an assignment to [YY_CURRENT_BUFFER_LVALUE]. *)
Definition current (f : flex) : option nat :=
  st ← yy_buffer_stack f; p ← st !! yy_buffer_stack_top f; p.

Definition set_current (p : option nat) (f : flex) : res flex :=
  match yy_buffer_stack f with
  | Some st =>
      if (yy_buffer_stack_top f <? length st)%nat
      then Ok (f_stack (Some (<[yy_buffer_stack_top f := p]> st)) (yy_buffer_stack_top f) f)
      else Err Undefined
  | None => Err Undefined
  end.

(** [p->...]: the object a pointer refers to. *)
Definition object (p : option nat) (f : flex) : res (nat * ybuf) :=
  match p with
  | Some p => match heap f !! p with Some b => Ok (p, b) | None => Err Undefined end
  | None => Err Undefined
  end.

(** ** Operations *)

(** The stack starts with one slot and grows by eight when it is full. *)
Definition yyensure_buffer_stack (f : flex) : flex :=
  match yy_buffer_stack f with
  | None => f_stack (Some [None]) 0 f
  | Some st =>
      if (length st <=? S (yy_buffer_stack_top f))%nat
      then f_stack (Some (st ++ replicate 8 None)) (yy_buffer_stack_top f) f
      else f
  end.

Definition load_buffer_state (f : flex) : res flex :=
  '(_, b) ← object (current f) f;
  match yb_ch b !! yb_pos b with
  | Some (Some c) => mret (f_loaded (yb_n b) (yb_pos b) c (yb_file b) f)
  | _ => Err Undefined
  end.

(** Flush out information for old buffer. *)
Definition save_current (f : flex) : res flex :=
  '(p, b) ← object (current f) f;
  if (g_c_buf_p f <? length (yb_ch b))%nat then
    let b := mkYbuf (yb_file b) (<[g_c_buf_p f := Some (g_hold f)]> (yb_ch b)) (g_c_buf_p f) (yb_size b)
               (g_n_chars f) (yb_ours b) (yb_interactive b) (yb_bol b) (yb_lineno b) (yb_column b) (yb_fill b) (yb_status b) in
    mret (f_heap (<[p := b]> (heap f)) f)
  else Err Undefined.

Definition yy_switch_to_buffer (new : option nat) (f : flex) : res flex :=
  let f := yyensure_buffer_stack f in
  if decide (current f = new) then mret f else
  f ← (match current f with Some _ => save_current f | None => mret f end);
  f ← set_current new f;
  f ← load_buffer_state f;
  mret (f_did true f).

Definition yypush_buffer_state (new : option nat) (f : flex) : res flex :=
  match new with
  | None => mret f
  | Some _ =>
      let f := yyensure_buffer_stack f in
      f ← (match current f with Some _ => save_current f | None => mret f end);
      let f := match current f with
               | Some _ => f_stack (yy_buffer_stack f) (S (yy_buffer_stack_top f)) f
               | None => f
               end in
      f ← set_current new f;
      f ← load_buffer_state f;
      mret (f_did true f)
  end.

(** The object and, if the scanner owns it, the array are freed. *)
Definition yy_delete_buffer (p : option nat) (f : flex) : res flex :=
  match p with
  | None => mret f
  | Some q =>
      f ← (if decide (current f = p) then set_current None f else mret f);
      '(_, _) ← object p f;
      mret (f_heap (delete q (heap f)) f)
  end.

Definition yypop_buffer_state (f : flex) : res flex :=
  match current f with
  | None => mret f
  | Some _ =>
      f ← yy_delete_buffer (current f) f;
      f ← set_current None f;
      let f := f_stack (yy_buffer_stack f) (Nat.pred (yy_buffer_stack_top f)) f in
      match current f with
      | None => mret f
      | Some _ => f ← load_buffer_state f; mret (f_did true f)
      end
  end.

Definition flush_buffer (p : option nat) (f : flex) : res flex :=
  match p with
  | None => mret f
  | Some q =>
      '(_, b) ← object p f;
      if (2 <=? length (yb_ch b))%nat then
        let ch := <[1 := Some YY_END_OF_BUFFER_CHAR]> (<[0 := Some YY_END_OF_BUFFER_CHAR]> (yb_ch b)) in
        let b := mkYbuf (yb_file b) ch 0 (yb_size b) 0 (yb_ours b) (yb_interactive b) true
                   (yb_lineno b) (yb_column b) (yb_fill b) YY_BUFFER_NEW in
        let f := f_heap (<[q := b]> (heap f)) f in
        if decide (current f = p) then load_buffer_state f else mret f
      else Err Undefined
  end%nat.

(** [tty] says whether a file is a terminal. *)
Definition init_buffer (tty : nat -> bool) (p : option nat) (file : option nat) (f : flex) : res flex :=
  f ← flush_buffer p f;
  '(q, b) ← object p f;
  let same := bool_decide (current f = p) in
  let b := mkYbuf file (yb_ch b) (yb_pos b) (yb_size b) (yb_n b) (yb_ours b)
             (match file with Some i => tty i | None => false end) (yb_bol b)
             (if same then yb_lineno b else 1%Z) (if same then yb_column b else 0%Z) true (yb_status b) in
  mret (f_heap (<[q := b]> (heap f)) f).

Definition create_buffer (tty : nat -> bool) (file : option nat) (size : nat) (f : flex) : res (nat * flex) :=
  let '(p, f) := new_buffer (mkYbuf None (replicate (size + 2) None) 0 (Z.of_nat size) 0 true false false 0 0 false YY_BUFFER_NEW) f in
  f ← init_buffer tty (Some p) file f;
  mret (p, f).

Definition restart (tty : nat -> bool) (file : option nat) (f : flex) : res flex :=
  f ← (match current f with
       | Some _ => mret f
       | None =>
           '(p, f) ← create_buffer tty (g_yyin f) YY_BUF_SIZE (yyensure_buffer_stack f);
           set_current (Some p) f
       end);
  f ← init_buffer tty (current f) file f;
  load_buffer_state f.

(** [base] must end with two end-of-buffer characters; the array stays the
    caller's.  The line and column are not set. *)
Definition yy_scan_buffer (base : list (option ascii)) (f : flex) : res (option nat * flex) :=
  let size := length base in
  if (size <? 2)%nat then mret (None, f) else
  match base !! (size - 2)%nat, base !! (size - 1)%nat with
  | Some (Some a), Some (Some b) =>
      if decide (a = YY_END_OF_BUFFER_CHAR /\ b = YY_END_OF_BUFFER_CHAR) then
        let '(p, f) := new_buffer (mkYbuf None base 0 (Z.of_nat (size - 2)) (size - 2) false false true 0 0 false YY_BUFFER_NEW) f in
        f ← yy_switch_to_buffer (Some p) f;
        mret (Some p, f)
      else mret (None, f)
  | _, _ => Err Undefined
  end.

Definition set_ours (p : nat) (f : flex) : res flex :=
  '(_, b) ← object (Some p) f;
  let b := mkYbuf (yb_file b) (yb_ch b) (yb_pos b) (yb_size b) (yb_n b) true (yb_interactive b) (yb_bol b)
             (yb_lineno b) (yb_column b) (yb_fill b) (yb_status b) in
  mret (f_heap (<[p := b]> (heap f)) f).

Definition yy_scan_bytes (yybytes : list ascii) (f : flex) : res (nat * flex) :=
  let buf := (Some <$> yybytes) ++ [Some YY_END_OF_BUFFER_CHAR; Some YY_END_OF_BUFFER_CHAR] in
  '(o, f) ← yy_scan_buffer buf f;
  match o with
  | None => Err (Exit 2)
  | Some p => f ← set_ours p f; mret (p, f)
  end.

(** A string of C has no NUL before its end. *)
Definition yy_scan_string (yystr : string) (f : flex) : res (nat * flex) :=
  yy_scan_bytes (String.list_ascii_of_string yystr) f.

Definition yy_init_globals (f : flex) : flex :=
  mkFlex (heap f) (fresh_ptr f) None 0 (g_n_chars f) (g_text f) 0 (g_hold f)
    (yy_did_buffer_switch_on_eof f) None false 0.

(** The loop of [yylex_destroy], which means to pop and delete every buffer. *)
Fixpoint destroy_loop (fuel : nat) (f : flex) : res flex :=
  match fuel with
  | O => Err NoFuel
  | S fuel =>
      match current f with
      | None => mret f
      | Some _ =>
          f ← yy_delete_buffer (current f) f;
          f ← set_current None f;
          f ← yypop_buffer_state f;
          destroy_loop fuel f
      end
  end.

Definition yylex_destroy (f : flex) : res flex :=
  f ← destroy_loop (S (S (yy_buffer_stack_top f))) f;
  mret (yy_init_globals (f_stack None (yy_buffer_stack_top f) f)).

(** ** Pushing and popping *)

(** The current buffer is a live object and the scanner is inside it. *)
Record on_buffer (f : flex) (p : nat) (b : ybuf) : Prop := {
  ob_current : current f = Some p;
  ob_live : heap f !! p = Some b;
  ob_inside : (g_c_buf_p f < length (yb_ch b))%nat
}.

Lemma current_inv f p : current f = Some p ->
  exists st, yy_buffer_stack f = Some st /\ st !! yy_buffer_stack_top f = Some (Some p).
Proof.
  unfold current. destruct (yy_buffer_stack f) as [st|]; [|done]. cbn.
  destruct (st !! yy_buffer_stack_top f) as [o|] eqn:E; [|done]. cbn. intros ->. by exists st.
Qed.

(** There is a slot above the top. *)
Lemma ensure_room f p : current f = Some p ->
  exists st, yyensure_buffer_stack f = f_stack (Some st) (yy_buffer_stack_top f) f /\
    st !! yy_buffer_stack_top f = Some (Some p) /\ (S (yy_buffer_stack_top f) < length st)%nat.
Proof.
  intros (st & E & Hp)%current_inv. unfold yyensure_buffer_stack. rewrite E.
  pose proof (lookup_lt_Some _ _ _ Hp) as Hl. destruct (Nat.leb_spec (length st) (S (yy_buffer_stack_top f))).
  - exists (st ++ replicate 8 None). split; [done|]. split; [by apply lookup_app_l_Some|].
    rewrite length_app, length_replicate. lia.
  - exists st. split; [destruct f; cbn in *; by subst|]. done.
Qed.

(** The current buffer with the state of the scanner written back. *)
Definition saved (f : flex) (b : ybuf) : ybuf :=
  mkYbuf (yb_file b) (<[g_c_buf_p f := Some (g_hold f)]> (yb_ch b)) (g_c_buf_p f) (yb_size b)
    (g_n_chars f) (yb_ours b) (yb_interactive b) (yb_bol b) (yb_lineno b) (yb_column b) (yb_fill b) (yb_status b).

Lemma save_current_ok f p b : on_buffer f p b -> save_current f = Ok (f_heap (<[p := saved f b]> (heap f)) f).
Proof.
  intros [Hc Hl Hi]. unfold save_current, object. rewrite Hc, Hl, bind_ret_l.
  by destruct (Nat.ltb_spec (g_c_buf_p f) (length (yb_ch b))); [|lia].
Qed.

Lemma load_ok f p b c : current f = Some p -> heap f !! p = Some b -> yb_ch b !! yb_pos b = Some (Some c) ->
  load_buffer_state f = Ok (f_loaded (yb_n b) (yb_pos b) c (yb_file b) f).
Proof. intros Hc Hl Hp. unfold load_buffer_state, object. by rewrite Hc, Hl, bind_ret_l, Hp. Qed.

Lemma current_f_stack st t f p : st !! t = Some p -> current (f_stack (Some st) t f) = p.
Proof. intros H. unfold current. cbn. by rewrite H. Qed.

Lemma set_current_ok p st t f : (t < length st)%nat ->
  set_current p (f_stack (Some st) t f) = Ok (f_stack (Some (<[t := p]> st)) t f).
Proof. intros H. unfold set_current. cbn [yy_buffer_stack yy_buffer_stack_top f_stack]. by rewrite (proj2 (Nat.ltb_lt _ _) H). Qed.

Lemma push_ok f p b q nb c : on_buffer f p b -> heap f !! q = Some nb -> q <> p ->
  yb_ch nb !! yb_pos nb = Some (Some c) ->
  exists st, st !! yy_buffer_stack_top f = Some (Some p) /\ (S (yy_buffer_stack_top f) < length st)%nat /\
    yypush_buffer_state (Some q) f =
      Ok (f_did true (f_loaded (yb_n nb) (yb_pos nb) c (yb_file nb)
           (f_stack (Some (<[S (yy_buffer_stack_top f) := Some q]> st)) (S (yy_buffer_stack_top f))
             (f_heap (<[p := saved f b]> (heap f)) f)))).
Proof.
  intros [Hc Hl Hi] Hq Hne Hh. destruct (ensure_room f p Hc) as (st & E & Hst & Hlen). exists st.
  split; [done|]. split; [done|]. unfold yypush_buffer_state. rewrite E, (current_f_stack _ _ _ _ Hst).
  rewrite (save_current_ok _ p b) by (split; [by apply current_f_stack|done|done]). rewrite bind_ret_l.
  change (f_heap ?h (f_stack ?s ?t f)) with (f_stack s t (f_heap h f)).
  rewrite (current_f_stack _ _ _ _ Hst). cbn [yy_buffer_stack yy_buffer_stack_top f_stack].
  change (f_stack ?s ?t (f_stack _ _ ?g)) with (f_stack s t g). rewrite set_current_ok by done. rewrite bind_ret_l.
  change (saved (f_stack ?s ?t f) b) with (saved f b). cbn [heap f_stack].
  rewrite (load_ok _ q nb c); [by rewrite bind_ret_l| |cbn; by rewrite lookup_insert_ne|done].
  apply current_f_stack. by apply list_lookup_insert_eq.
Qed.

Lemma delete_current f st t q nb : yy_buffer_stack f = Some st -> yy_buffer_stack_top f = t ->
  st !! t = Some (Some q) -> heap f !! q = Some nb ->
  current f = Some q /\
  yy_delete_buffer (Some q) f = Ok (f_stack (Some (<[t := None]> st)) t (f_heap (delete q (heap f)) f)).
Proof.
  intros Hs Ht H1 Hq. pose proof (lookup_lt_Some _ _ _ H1) as Hlen.
  assert (Hf : f = f_stack (Some st) t f) by (destruct f; cbn in *; by subst).
  assert (Hc : current f = Some q) by (rewrite Hf; by apply current_f_stack). split; [done|].
  unfold yy_delete_buffer. rewrite Hc, decide_True by done. rewrite Hf at 1. rewrite set_current_ok, bind_ret_l by done.
  unfold object. cbn [heap f_stack]. by rewrite Hq, bind_ret_l.
Qed.

Lemma pop_ok f st t p q b nb c : yy_buffer_stack f = Some st -> yy_buffer_stack_top f = S t ->
  st !! S t = Some (Some q) -> st !! t = Some (Some p) -> heap f !! q = Some nb -> heap f !! p = Some b -> q <> p ->
  yb_ch b !! yb_pos b = Some (Some c) ->
  yypop_buffer_state f = Ok (f_did true (f_loaded (yb_n b) (yb_pos b) c (yb_file b)
    (f_stack (Some (<[S t := None]> (<[S t := None]> st))) t (f_heap (delete q (heap f)) f)))).
Proof.
  intros Hs Ht H1 H0 Hq Hp Hne Hb. pose proof (lookup_lt_Some _ _ _ H1) as Hlen.
  destruct (delete_current f st (S t) q nb Hs Ht H1 Hq) as [Hc E].
  unfold yypop_buffer_state. rewrite Hc, E, bind_ret_l.
  rewrite set_current_ok by (by rewrite length_insert). rewrite bind_ret_l.
  cbn [yy_buffer_stack yy_buffer_stack_top f_stack Nat.pred]. change (f_stack ?s ?t (f_stack _ _ ?g)) with (f_stack s t g).
  assert (H2 : <[S t := None]> (<[S t := None]> st) !! t = Some (Some p)) by (by rewrite !list_lookup_insert_ne by lia).
  rewrite (current_f_stack _ _ _ _ H2).
  rewrite (load_ok _ p b c); [done|by apply current_f_stack|cbn; by rewrite lookup_delete_ne|done].
Qed.

(** Pushing a buffer and popping it again: the scanner is back on the buffer
    it was on, at the character it was at, with the text after it unchanged;
    the other buffer is freed, and no third one is touched. *)
Theorem push_pop (f : flex) (p q : nat) (b nb : ybuf) (c : ascii) :
  on_buffer f p b -> heap f !! q = Some nb -> q <> p -> yb_ch nb !! yb_pos nb = Some (Some c) ->
  exists f1 f2, yypush_buffer_state (Some q) f = Ok f1 /\ current f1 = Some q /\
    yypop_buffer_state f1 = Ok f2 /\ on_buffer f2 p (saved f b) /\
    g_c_buf_p f2 = g_c_buf_p f /\ g_n_chars f2 = g_n_chars f /\ g_hold f2 = g_hold f /\
    heap f2 !! q = None /\ forall r, r <> p -> r <> q -> heap f2 !! r = heap f !! r.
Proof.
  intros H Hq Hne Hh. destruct (push_ok f p b q nb c H Hq Hne Hh) as (st & Hst & Hlen & E).
  destruct H as [Hc Hl Hi]. rewrite E. set (t := yy_buffer_stack_top f) in *.
  set (st1 := <[S t := Some q]> st). set (f1 := f_did true _).
  assert (H1 : st1 !! S t = Some (Some q)) by by apply list_lookup_insert_eq.
  assert (H0 : st1 !! t = Some (Some p)) by (subst st1; by rewrite list_lookup_insert_ne by lia).
  exists f1. eexists. split; [done|]. split; [unfold current; cbn; by rewrite H1|].
  rewrite (pop_ok f1 st1 t p q (saved f b) nb (g_hold f)); [|done|done|done|done|cbn; by rewrite lookup_insert_ne|cbn; apply lookup_insert_eq|done|cbn; by apply list_lookup_insert_eq].
  split; [reflexivity|]. split.
  - split; [|cbn; by rewrite lookup_delete_ne, lookup_insert_eq|cbn; by rewrite length_insert].
    unfold current. cbn. by rewrite !list_lookup_insert_ne, H0 by lia.
  - do 3 (split; [done|]). cbn. split; [apply lookup_delete_eq|]. intros r R1 R2. by rewrite lookup_delete_ne, lookup_insert_ne.
Qed.

(** [yylex_destroy] means to pop every buffer; it frees the current one and
    forgets the others: the pop in its loop finds no current buffer and
    returns, and the loop ends. *)
Theorem destroy_frees_top (f : flex) (p : nat) (b : ybuf) :
  current f = Some p -> heap f !! p = Some b ->
  exists f', yylex_destroy f = Ok f' /\ yy_buffer_stack f' = None /\ heap f' = delete p (heap f).
Proof.
  intros Hc Hl. destruct (current_inv f p Hc) as (st & Hs & Hst). pose proof (lookup_lt_Some _ _ _ Hst) as Hlen.
  destruct (delete_current f st _ p b Hs eq_refl Hst Hl) as [_ E]. set (t := yy_buffer_stack_top f) in *.
  unfold yylex_destroy. fold t. cbn [destroy_loop]. rewrite Hc, E, bind_ret_l.
  rewrite set_current_ok, bind_ret_l by (by rewrite length_insert).
  assert (H2 : <[t := None]> (<[t := None]> st) !! t = Some None) by (apply list_lookup_insert_eq; by rewrite length_insert).
  unfold yypop_buffer_state. rewrite (current_f_stack _ _ _ _ H2), bind_ret_l.
  rewrite (current_f_stack _ _ _ _ H2), bind_ret_l. eexists. split; [done|]. done.
Qed.

(** ** Scanning a string *)

(** [yy_scan_bytes] makes a copy of the bytes the current buffer, from its
    start, with the two characters that mark the end behind them; the buffer
    before it keeps its place. *)
Theorem scan_bytes_ok (bs : list ascii) (f : flex) (p : nat) (b : ybuf) :
  on_buffer f p b -> (forall r nb, heap f !! r = Some nb -> (r < fresh_ptr f)%nat) ->
  exists q f' nb, yy_scan_bytes bs f = Ok (q, f') /\ on_buffer f' q nb /\ q <> p /\
    yb_ch nb = (Some <$> bs) ++ [Some zero; Some zero] /\ g_c_buf_p f' = 0%nat /\ g_n_chars f' = length bs /\
    g_hold f' = default zero (head bs) /\ heap f' !! p = Some (saved f b).
Proof.
  intros H Hfr. pose proof H as [Hc Hl Hi]. unfold yy_scan_bytes, yy_scan_buffer.
  set (buf := (Some <$> bs) ++ _). set (size := length buf).
  assert (Hsz : size = (length bs + 2)%nat) by (subst size buf; by rewrite length_app, length_fmap).
  destruct (Nat.ltb_spec size 2); [lia|].
  assert (buf !! (size - 2)%nat = Some (Some YY_END_OF_BUFFER_CHAR)) as ->
    by (subst buf; rewrite lookup_app_r, length_fmap by (rewrite length_fmap; lia); by replace (size - 2 - length bs)%nat with 0%nat by lia).
  assert (buf !! (size - 1)%nat = Some (Some YY_END_OF_BUFFER_CHAR)) as ->
    by (subst buf; rewrite lookup_app_r, length_fmap by (rewrite length_fmap; lia); by replace (size - 1 - length bs)%nat with 1%nat by lia).
  rewrite decide_True by done. set (nb := mkYbuf _ buf _ _ _ _ _ _ _ _ _ _). unfold new_buffer. set (q := fresh_ptr f) in *.
  assert (Hqp : q <> p) by (apply Hfr in Hl; lia). set (f1 := mkFlex _ _ _ _ _ _ _ _ _ _ _ _).
  assert (H1 : on_buffer f1 p b) by (split; [exact Hc|cbn; by rewrite lookup_insert_ne|exact Hi]).
  destruct (ensure_room f1 p Hc) as (st & E & Hst & Hlen). unfold yy_switch_to_buffer. rewrite E.
  rewrite (current_f_stack _ _ _ _ Hst). rewrite decide_False by congruence.
  rewrite (save_current_ok _ p b) by (destruct H1; split; [by apply current_f_stack|done|done]). rewrite bind_ret_l.
  change (f_heap ?h (f_stack ?s ?t f1)) with (f_stack s t (f_heap h f1)). rewrite set_current_ok, bind_ret_l by lia.
  assert (exists c, buf !! 0%nat = Some (Some c) /\ c = default zero (head bs)) as (c & Hc0 & Ec) by (subst buf; destruct bs; by eexists).
  change (saved (f_stack ?s ?t f1) b) with (saved f b). cbn [heap f_stack].
  assert (Hq : <[p := saved f b]> (heap f1) !! q = Some nb) by (rewrite lookup_insert_ne by done; apply lookup_insert_eq).
  rewrite (load_ok _ q nb c); [|apply current_f_stack; apply list_lookup_insert_eq; lia|exact Hq|exact Hc0].
  rewrite !bind_ret_l. unfold set_ours, object. cbn [heap f_did f_loaded f_stack f_heap]. rewrite Hq, !bind_ret_l.
  eexists _, _, _. split; [reflexivity|]. split; [split|].
  - unfold current. cbn. rewrite list_lookup_insert_eq; [done|]. exact (Nat.lt_trans _ _ _ (Nat.lt_succ_diag_r _) Hlen).
  - cbn. apply lookup_insert_eq.
  - cbn. by apply lookup_lt_Some in Hc0.
  - split; [done|]. split; [done|]. split; [done|]. split; [cbn; lia|]. split; [done|].
    cbn. by rewrite lookup_insert_ne, lookup_insert_eq.
Qed.
