(* ===== verification/ParseSpec.v ===== *)
(** The parser against its specification: the grammar of src/compiler/poise.y
    and the proof that the tables of poise.tab.c only accept sentences of it,
    running the semantic actions in the order of the parse tree, and that
    parsing ends on every input.  What the proofs need of the tables is a
    finite check, done by computation. *)

From stdpp Require Import base list strings gmap.
From Stdlib Require Import ZArith Lia Ascii.
From S2P Require Import Prelude Cxx Ast ParseTables Parser.

(** ** The grammar of poise.y *)

(** Symbol number of a token. *)
Definition tk (t : Z) : Z := (t - 255)%Z.
Definition s_end : Z := 0.
Definition s_accept : Z := 47.
Definition s_poise : Z := 48.
Definition s_statements : Z := 49.
Definition s_matchexpr : Z := 50.
Definition s_statement : Z := 51.
Definition s_listbody : Z := 52.
Definition s_listcontent : Z := 53.
Definition s_action : Z := 54.
Definition s_listexpr : Z := 55.
Definition s_binaryexpr : Z := 56.
Definition s_arithexpr : Z := 57.
Definition s_arithop : Z := 58.
Definition s_binaryop : Z := 59.
Definition s_boolop : Z := 60.

(** The rules in the order bison numbers them; rule 0 is not used. *)
Definition grammar : list (Z * list Z) :=
  [(0%Z, []);
   (s_accept, [s_poise; s_end]);
   (s_poise, [s_statements]);
   (s_statements, [s_statements; s_statement]);
   (s_statements, [s_statement]);
   (s_matchexpr, [tk MATCH; tk LP; s_binaryexpr; tk RP]);
   (s_matchexpr, [tk MATCH; tk LP; s_listexpr; tk RP]);
   (s_matchexpr, [tk MATCH; tk LP; tk VAR; tk RP]);
   (s_matchexpr, [tk MATCH; tk LP; tk VAR; tk AND; s_binaryexpr; tk RP]);
   (s_statement, [tk IF; s_matchexpr; tk THEN; s_action]);
   (s_statement, [tk IF; s_matchexpr; tk THEN; s_action; tk ELSE; s_action]);
   (s_statement, [tk IF; s_matchexpr; tk THEN; s_statement]);
   (s_statement, [tk VAR; tk ASSIGN; tk COUNT; tk LP; s_listexpr; tk RP]);
   (s_statement, [tk VAR; tk ASSIGN; tk MONITOR; tk LP; s_listexpr; tk RP]);
   (s_statement, [tk DEF; tk LISTVAR; tk ASSIGN; s_listbody]);
   (s_listbody, [tk LB; s_listcontent; tk RB]);
   (s_listcontent, [tk CONST]);
   (s_listcontent, [s_listcontent; tk CONST]);
   (s_action, [tk DROP]); (s_action, [tk FWD1]); (s_action, [tk FWD2]);
   (s_action, [tk FWD3]); (s_action, [tk FWD4]); (s_action, [tk FWD5]);
   (s_action, [tk FWD6]); (s_action, [tk FWD7]); (s_action, [tk FWD8]);
   (s_action, [tk FWD9]); (s_action, [tk FWD10]); (s_action, [tk FWD11]);
   (s_action, [tk FWD12]); (s_action, [tk FWD13]); (s_action, [tk FWD14]);
   (s_listexpr, [tk VAR; tk IN; tk LISTVAR]);
   (s_listexpr, [tk VAR; tk NOTIN; tk LISTVAR]);
   (s_binaryexpr, [tk VAR; s_binaryop; tk CONST]);
   (s_binaryexpr, [tk VAR; s_binaryop; tk VAR]);
   (s_binaryexpr, [s_arithexpr; s_binaryop; tk CONST]);
   (s_arithexpr, [tk VAR; s_arithop; tk VAR]);
   (s_arithexpr, [s_arithexpr; s_arithop; tk VAR]);
   (s_arithexpr, [s_arithexpr; s_arithop; tk CONST]);
   (s_arithexpr, [tk CONST]);
   (s_arithop, [tk PLUS]); (s_arithop, [tk MINUS]);
   (s_arithop, [tk MULTI]); (s_arithop, [tk MOD]);
   (s_binaryop, [tk GT]); (s_binaryop, [tk LT]); (s_binaryop, [tk LE]);
   (s_binaryop, [tk GE]); (s_binaryop, [tk EQ]);
   (s_binaryop, [s_binaryexpr; s_boolop; s_binaryexpr]);
   (s_boolop, [tk AND]); (s_boolop, [tk OR]); (s_boolop, [tk NOT])].

Definition rule (r : Z) : option (Z * list Z) := znth grammar r.

(** ** Parse trees *)

Inductive tree : Type :=
| Leaf (a : Z) (t : token)
| Node (r : Z) (kids : list tree).

Definition root (t : tree) : Z :=
  match t with
  | Leaf a _ => a
  | Node r _ => default 0%Z (fst <$> rule r)
  end.

(** The semantic value: no action of poise.y assigns [$$], so a node has the
    value of its first child. *)
Fixpoint tvalue (t : tree) : yystype :=
  match t with
  | Leaf _ t => t.2
  | Node _ (k :: _) => tvalue k
  | Node _ [] => Ival 0
  end.

Fixpoint yield_of (t : tree) : list token :=
  match t with
  | Leaf _ t => [t]
  | Node _ kids => concat (yield_of <$> kids)
  end.

(** The semantic actions of a tree: those of the children from left to
    right, then the action of the rule. *)
Fixpoint run_tree (t : tree) (g : genv) : res genv :=
  match t with
  | Leaf _ _ => Ok g
  | Node r kids =>
      g ← (fix run_trees (l : list tree) (g : genv) : res genv :=
             match l with
             | [] => Ok g
             | t :: l => g ← run_tree t g; run_trees l g
             end) kids g;
      yyaction r (tvalue <$> kids) g
  end.

Fixpoint run_trees (l : list tree) (g : genv) : res genv :=
  match l with
  | [] => Ok g
  | t :: l => g ← run_tree t g; run_trees l g
  end.

(** Every leaf is a token of its symbol and every node an instance of its
    rule. *)
Inductive wf_tree : tree -> Prop :=
| wf_leaf a t : YYTRANSLATE t.1 = Some a -> wf_tree (Leaf a t)
| wf_node r kids lhs : rule r = Some (lhs, root <$> kids) -> Forall wf_tree kids ->
    wf_tree (Node r kids).

(** [ts] is a sentence of the grammar with the tree [t]. *)
Definition derives (ts : list token) (t : tree) : Prop :=
  wf_tree t /\ root t = s_poise /\ yield_of t = ts.

Lemma run_tree_node r kids g :
  run_tree (Node r kids) g = (g ← run_trees kids g; yyaction r (tvalue <$> kids) g).
Proof. done. Qed.

Lemma run_trees_app l1 l2 g : run_trees (l1 ++ l2) g = (g ← run_trees l1 g; run_trees l2 g).
Proof.
  revert g. induction l1 as [|t l1 IH]; intros g; [done|]. cbn.
  destruct (run_tree t g); simpl; [apply IH|done].
Qed.

(** ** The checks on the tables *)

Definition states : list Z := Z.of_nat <$> seq 0 91.
Definition terminals : list Z := Z.of_nat <$> seq 0 47.

Definition sym_of (s : Z) : Z := default 0%Z (znth yystos s).

Definition mem_edge (e : Z * Z) (l : list (Z * Z)) : bool :=
  existsb (fun f => (f.1 =? e.1)%Z && (f.2 =? e.2)%Z) l.
Definition add_edge (l : list (Z * Z)) (e : Z * Z) : list (Z * Z) :=
  if mem_edge e l then l else l ++ [e].

(** The actions a state can take. *)
Definition state_actions (s : Z) : list action :=
  omap (yylookup s) terminals ++ omap (fun _ => yydefault s) [tt].

Definition shift_edges : list (Z * Z) :=
  s ← states;
  omap (fun a => match a with Shift t => Some (s, t) | _ => None end) (state_actions s).

Definition reductions : list (Z * Z) :=
  Eval vm_compute in
  foldl add_edge []
    (s ← states;
     omap (fun a => match a with Reduce r => Some (s, r) | _ => None end) (state_actions s)).

(** Where a reduction of [n] symbols in state [s] can land, with the symbols
    it pops, the top first.  The initial state is its own predecessor under
    the symbol 0, so that popping below the bottom of the stack shows. *)
Fixpoint back (edges : list (Z * Z)) (n : nat) (s : Z) : list (list Z * Z) :=
  match n with
  | O => [([], s)]
  | S n =>
      e ← List.filter (fun e => (e.2 =? s)%Z) ((0, 0)%Z :: edges);
      p ← back edges n (e.1);
      [(sym_of s :: p.1, p.2)]
  end.

Definition close_step (edges : list (Z * Z)) : list (Z * Z) :=
  foldl (fun E sr => foldl (fun E p =>
     match rule (sr.2) ≫= fun lr => yygoto (p.2) (lr.1) with
     | Some t => add_edge E (p.2, t)
     | None => E
     end) E (back edges (length (default [] (snd <$> rule (sr.2)))) (sr.1)))
    edges reductions.

(** The transitions of the automaton: its shifts and the gotos its
    reductions can take. *)
Definition edges : list (Z * Z) :=
  Eval vm_compute in Nat.iter 8 close_step (foldl add_edge [] shift_edges).

(** Used to bound the reductions between two shifts: a rule with one symbol
    on the right goes down in rank. *)
Definition rank (a : Z) : Z :=
  (if a =? s_poise then 0 else if a =? s_statements then 1
   else if a =? s_statement then 2 else if a <? YYNTOKENS then 3 else 0)%Z.

Arguments mem_edge : simpl never.

Definition is_state (s : Z) : bool := (0 <=? s)%Z && (s <? YYNSTATES)%Z.

Definition action_ok (s : Z) (tok : option Z) (a : option action) : bool :=
  match a with
  | Some (Shift t) =>
      is_state t && mem_edge (s, t) edges && bool_decide (tok = Some (sym_of t)) &&
      bool_decide (t = YYFINAL <-> tok = Some 0%Z)
  | Some (Reduce r) => mem_edge (s, r) reductions
  | Some Error => true
  | None => false
  end.

Definition reduction_ok (s r : Z) : bool :=
  match rule r with
  | Some (lhs, rhs) =>
      bool_decide (znth yyr1 r = Some lhs) &&
      bool_decide (znth yyr2 r = Some (Z.of_nat (length rhs))) &&
      bool_decide (rhs <> []) && negb (existsb (Z.eqb 0) rhs) &&
      (bool_decide (2 <= length rhs)%nat || (rank lhs <? rank (sym_of s))%Z) &&
      forallb (fun p => bool_decide (p.1 = rev rhs) &&
                 match yygoto (p.2) lhs with
                 | Some t => is_state t && mem_edge (p.2, t) edges &&
                             (sym_of t =? lhs)%Z && negb (t =? YYFINAL)%Z
                 | None => false
                 end)
              (back edges (length rhs) s)
  | None => false
  end.

Definition tables_ok : bool :=
  forallb (fun s => forallb (fun a => action_ok s (Some a) (yylookup s a)) terminals
                    && action_ok s None (yydefault s)
                    && bool_decide (is_Some (znth yypact s))) states &&
  forallb (fun sr => (sr.1 =? YYFINAL)%Z || reduction_ok (sr.1) (sr.2)) reductions &&
  forallb (fun e => is_state (e.1) && negb (e.2 =? 0)%Z
                    && (negb (e.2 =? YYFINAL)%Z || (e.1 =? 4)%Z)
                    && (negb (e.2 =? 4)%Z || (e.1 =? 0)%Z)) edges.

Lemma tables_ok_true : tables_ok = true.
Proof. vm_compute. reflexivity. Qed.

(** ** What the checks give *)

Lemma mem_edge_In e l : mem_edge e l = true <-> In e l.
Proof.
  unfold mem_edge. rewrite existsb_exists. split.
  - intros ([a b] & Hin & H). apply andb_true_iff in H as [H1%Z.eqb_eq H2%Z.eqb_eq].
    destruct e; simpl in *; by subst.
  - intros H. exists e. split; [done|]. by rewrite !Z.eqb_refl.
Qed.

Lemma is_state_In s : is_state s = true <-> In s states.
Proof.
  unfold is_state, states, YYNSTATES. rewrite andb_true_iff, Z.leb_le, Z.ltb_lt.
  rewrite <- list_elem_of_In, list_elem_of_fmap. split.
  - intros H. exists (Z.to_nat s). split; [lia|]. apply elem_of_seq. lia.
  - intros (n & -> & Hn%elem_of_seq). lia.
Qed.

Lemma terminals_In a : (0 <= a < YYNTOKENS)%Z -> In a terminals.
Proof.
  intros H. apply list_elem_of_In, list_elem_of_fmap. exists (Z.to_nat a).
  unfold YYNTOKENS in H. split; [lia|]. apply elem_of_seq. lia.
Qed.

Lemma tables_ok_parts :
  (forall s, is_state s = true ->
     (forall a, (0 <= a < YYNTOKENS)%Z -> action_ok s (Some a) (yylookup s a) = true) /\
     action_ok s None (yydefault s) = true /\ is_Some (znth yypact s)) /\
  (forall s r, mem_edge (s, r) reductions = true -> s <> YYFINAL -> reduction_ok s r = true) /\
  (forall e, In e edges -> is_state (e.1) = true /\ e.2 <> 0%Z /\
     (e.2 = YYFINAL -> e.1 = 4%Z) /\ (e.2 = 4%Z -> e.1 = 0%Z)).
Proof.
  pose proof tables_ok_true as H. unfold tables_ok in H.
  apply andb_true_iff in H as [H H3]. apply andb_true_iff in H as [H1 H2].
  rewrite forallb_forall in H1, H2, H3. split; [|split].
  - intros s Hs. specialize (H1 s (proj1 (is_state_In s) Hs)). cbv beta in H1.
    apply andb_true_iff in H1 as [H1 Hp]. apply andb_true_iff in H1 as [Ha Hd].
    rewrite forallb_forall in Ha. apply bool_decide_eq_true in Hp.
    split; [|done]. intros a Hlt. apply Ha, terminals_In, Hlt.
  - intros s r Hin Hs. apply mem_edge_In in Hin. specialize (H2 _ Hin). cbv beta in H2.
    apply orb_true_iff in H2 as [H2%Z.eqb_eq|H2]; [done|apply H2].
  - intros e He. specialize (H3 e He). cbv beta in H3.
    apply andb_true_iff in H3 as [H3 E4]. apply andb_true_iff in H3 as [H3 E3].
    apply andb_true_iff in H3 as [E1 E2]. apply negb_true_iff, Z.eqb_neq in E2.
    rewrite orb_true_iff, negb_true_iff, Z.eqb_neq, Z.eqb_eq in E3, E4.
    split; [done|]. split; [done|]. split; intros E; [by destruct E3|by destruct E4].
Qed.

(** ** The stack is a path of the automaton *)

Fixpoint stack_ok (st : list (Z * yystype)) : Prop :=
  match st with
  | [] => True
  | (s, _) :: r => In (top r, s) edges /\ is_state s = true /\ s <> YYFINAL /\ stack_ok r
  end.

(** The symbols of the top [n] states; below the bottom they are 0. *)
Fixpoint syms_of (n : nat) (st : list (Z * yystype)) : list Z :=
  match n with
  | O => []
  | S n => sym_of (top st) :: syms_of n (tail st)
  end.

Lemma stack_ok_top st : stack_ok st -> is_state (top st) = true /\ top st <> YYFINAL.
Proof. destruct st as [|[s v] r]; simpl; [done|]. intros (_ & H & H' & _); done. Qed.

Lemma stack_ok_drop n st : stack_ok st -> stack_ok (drop n st).
Proof.
  revert st. induction n as [|n IH]; intros [|[s v] r] H; try done. simpl.
  apply IH. by destruct H as (_ & _ & _ & H).
Qed.

Lemma back_stack n st :
  stack_ok st -> In (syms_of n st, top (drop n st)) (back edges n (top st)).
Proof.
  revert st. induction n as [|n IH]; intros st Hst; [by left|].
  assert (Ht : stack_ok (tail st)) by (destruct st as [|[s v] r]; [done|by destruct Hst as (_&_&_&?)]).
  specialize (IH _ Ht). cbn [back syms_of].
  apply list_elem_of_In, list_elem_of_bind. exists (top (tail st), top st).
  assert (Ed : drop (S n) st = drop n (tail st)) by (by destruct st, n). rewrite Ed. split.
  - apply list_elem_of_bind. exists (syms_of n (tail st), top (drop n (tail st))).
    split; [by left|]. by apply list_elem_of_In.
  - apply list_elem_of_In, filter_In. simpl. rewrite Z.eqb_refl. split; [|done].
    destruct st as [|[s v] r]; [by left|right]. by destruct Hst as (H & _).
Qed.

Lemma sym_of_0 : sym_of 0 = 0%Z.
Proof. done. Qed.

(** If no popped symbol is 0 the stack was deep enough, and the symbols are
    those of its top entries. *)
Lemma syms_of_take n st :
  ~ In 0%Z (syms_of n st) ->
  (n <= length st)%nat /\ syms_of n st = (fun p => sym_of p.1) <$> take n st.
Proof.
  revert st. induction n as [|n IH]; intros st H; [split; [lia|done]|].
  destruct st as [|[s v] r]; simpl in H |- *.
  - exfalso. apply H. by left.
  - destruct (IH r) as [H1 H2]; [tauto|]. split; [lia|]. by rewrite H2.
Qed.

(** The step to the state [t] on top of [st]. *)
Definition push_ok (t : Z) (st : list (Z * yystype)) : Prop :=
  In (top st, t) edges /\ is_state t = true /\ t <> YYFINAL.

(** A reduction the tables select finds its right-hand side on the stack and
    goes on to a state with the symbol of the left-hand side. *)
Lemma reduction_fits st r :
  stack_ok st -> mem_edge (top st, r) reductions = true ->
  exists lhs rhs t,
    rule r = Some (lhs, rhs) /\ znth yyr1 r = Some lhs /\
    znth yyr2 r = Some (Z.of_nat (length rhs)) /\ rhs <> [] /\
    (length rhs <= length st)%nat /\
    rev ((fun p => sym_of p.1) <$> take (length rhs) st) = rhs /\
    yygoto (top (drop (length rhs) st)) lhs = Some t /\
    sym_of t = lhs /\ push_ok t (drop (length rhs) st) /\
    (length rhs = 1%nat -> (rank lhs < rank (sym_of (top st)))%Z).
Proof.
  intros Hst Hr. destruct (stack_ok_top st Hst) as [_ Hnf].
  pose proof (proj1 (proj2 tables_ok_parts) _ _ Hr Hnf) as H. unfold reduction_ok in H.
  destruct (rule r) as [[lhs rhs]|]; [|done].
  apply andb_true_iff in H as [H Hb]. apply andb_true_iff in H as [H Hrank].
  apply andb_true_iff in H as [H H0]. apply andb_true_iff in H as [H Hne].
  apply andb_true_iff in H as [H1 H2].
  apply bool_decide_eq_true in H1, H2, Hne.
  rewrite forallb_forall in Hb. specialize (Hb _ (back_stack (length rhs) st Hst)). cbn [fst snd] in Hb.
  apply andb_true_iff in Hb as [Hs Hb]. apply bool_decide_eq_true in Hs.
  assert (Hn0 : ~ In 0%Z (syms_of (length rhs) st)).
  { rewrite Hs, <- in_rev. intros Hin. apply negb_true_iff in H0.
    assert (E : existsb (Z.eqb 0) rhs = true) by (apply existsb_exists; by exists 0%Z).
    congruence. }
  destruct (syms_of_take _ _ Hn0) as [Hlen Htake].
  destruct (yygoto _ lhs) as [t|] eqn:Eg; [|done].
  apply andb_true_iff in Hb as [Hb Hf]. apply andb_true_iff in Hb as [Hb Hsym].
  apply andb_true_iff in Hb as [Hst' He].
  apply negb_true_iff, Z.eqb_neq in Hf. apply Z.eqb_eq in Hsym. apply mem_edge_In in He.
  exists lhs, rhs, t. repeat (split; [done|]). split; [|repeat (split; [done|])].
  - rewrite <- Htake, Hs. apply rev_involutive.
  - intros E1. apply orb_true_iff in Hrank as [Hrank|Hrank].
    + apply bool_decide_eq_true in Hrank. lia.
    + by apply Z.ltb_lt.
Qed.

(** ** One step of the parser *)

(** Tokens as the scanner returns them: 0 only at the end of the file. *)
Definition positive_tokens (ts : list token) : Prop := Forall (fun t : token => 0 < t.1)%Z ts.

Definition look_ok (st : pstate) : Prop :=
  positive_tokens (toks st) /\
  match look st with
  | Some t => (t.1 = 0%Z /\ toks st = []) \/ (0 < t.1)%Z
  | None => True
  end.

(** The tokens not yet shifted, and the number of tokens the parser can
    still read counting the end of the file. *)
Definition pending (st : pstate) : list token :=
  match look st with
  | Some t => if (t.1 =? 0)%Z then [] else t :: toks st
  | None => toks st
  end.

Definition to_read (st : pstate) : Z :=
  match look st with
  | Some t => if (t.1 =? 0)%Z then 1 else Z.of_nat (length (toks st)) + 2
  | None => Z.of_nat (length (toks st)) + 1
  end%Z.

(** A step in which the tables ask for the reduction [r] of the state [st']. *)
Definition reduces (st : pstate) (r : Z) (st' : pstate) : Prop :=
  yystep st = yyreduce r st' /\ mem_edge (top (stk st), r) reductions = true /\
  stk st' = stk st /\ glob st' = glob st /\ look_ok st' /\
  pending st' = pending st /\ (to_read st' <= to_read st)%Z.

(** A step that shifts the token [tok] to the state [s]. *)
Definition shifts (st : pstate) (s : Z) (tok : token) (ts : list token) : Prop :=
  yystep st = yynewstate s (tok.2) (mkPstate (stk st) (yystacksize st) None ts (glob st)) /\
  In (top (stk st), s) edges /\ is_state s = true /\ positive_tokens ts /\
  ((s = YYFINAL /\ pending st = []) \/
   (s <> YYFINAL /\ pending st = tok :: ts /\ YYTRANSLATE (tok.1) = Some (sym_of s) /\
    (Z.of_nat (length ts) + 1 < to_read st)%Z)).

Lemma yytranslate_range t a : YYTRANSLATE t = Some a -> (0 <= a < YYNTOKENS)%Z.
Proof.
  assert (H : forallb (fun a => (0 <=? a)%Z && (a <? YYNTOKENS)%Z) yytranslate = true)
    by (vm_compute; reflexivity).
  rewrite forallb_forall in H. unfold YYTRANSLATE, znth. case_match.
  - case_match; [done|]. intros Ha%list_elem_of_lookup_2%list_elem_of_In.
    specialize (H _ Ha). apply andb_true_iff in H. lia.
  - unfold YYUNDEFTOK, YYNTOKENS. intros; simplify_eq; lia.
Qed.

Lemma yytranslate_total t : is_Some (YYTRANSLATE t).
Proof.
  unfold YYTRANSLATE, znth, YYMAXUTOK. case_match eqn:E; [|eauto].
  apply andb_true_iff in E as [E1%Z.leb_le E2%Z.leb_le]. case_match eqn:E3; [lia|].
  apply lookup_lt_is_Some_2. change (length yytranslate) with 302%nat. lia.
Qed.

Lemma yytranslate_0 t : (0 < t)%Z -> YYTRANSLATE t <> Some 0%Z.
Proof.
  assert (H : forallb (fun a => negb (a =? 0)%Z) (tail yytranslate) = true)
    by (vm_compute; reflexivity).
  rewrite forallb_forall in H. unfold YYTRANSLATE, znth. intros Ht. case_match; [|done].
  case_match; [lia|]. intros Ha.
  destruct (Z.to_nat t) as [|k] eqn:Ek; [lia|].
  assert (Hk : tail yytranslate !! k = Some 0%Z) by (rewrite <- Ha; reflexivity).
  apply list_elem_of_lookup_2, list_elem_of_In, H in Hk. done.
Qed.

(** The token a step looks at, and the state with it as the lookahead. *)
Definition fetch (st : pstate) : token * list token :=
  match look st with Some t => (t, toks st) | None => next_token (toks st) end.

Lemma fetch_ok st t ts :
  look_ok st -> fetch st = (t, ts) ->
  let yychar := if (t.1 <=? YYEOF)%Z then YYEOF else t.1 in
  let st' := mkPstate (stk st) (yystacksize st) (Some (yychar, t.2)) ts (glob st) in
  look_ok st' /\ pending st' = pending st /\ (to_read st' <= to_read st)%Z /\
  ((yychar = 0%Z /\ pending st = []) \/
   (yychar = t.1 /\ (0 < t.1)%Z /\ pending st = t :: ts /\
    (Z.of_nat (length ts) + 1 < to_read st)%Z)).
Proof.
  unfold look_ok, pending, to_read, fetch, positive_tokens.
  intros [Hp Hl] Hf. destruct (look st) as [[c v]|]; simpl in *.
  - simplify_eq/=. destruct Hl as [[-> Ht]|Hc].
    + simpl. rewrite Ht in *. repeat split; try done; try lia; auto.
    + destruct (Z.leb_spec c YYEOF); [unfold YYEOF in *; lia|]. simpl. destruct (Z.eqb_spec c 0); [lia|].
      split; [split; [done|right; simpl; lia]|]. split; [done|]. split; [lia|].
      right. repeat split; try done; lia.
  - destruct (toks st) as [|[c v] r]; simplify_eq/=.
    + repeat split; try done; try lia; auto.
    + apply Forall_cons in Hp as [Hc Hr]. simpl in Hc.
      destruct (Z.leb_spec c YYEOF); [unfold YYEOF in *; lia|]. simpl. destruct (Z.eqb_spec c 0); [lia|].
      split; [split; [done|right; simpl; lia]|]. split; [done|]. split; [lia|].
      right. repeat split; try done; lia.
Qed.

Lemma yystep_cases st :
  stack_ok (stk st) -> look_ok st ->
  yystep st = Err (Exit (-1)) \/
  (exists r st', reduces st r st') \/
  (exists s tok ts, shifts st s tok ts).
Proof.
  intros Hst Hl. destruct (stack_ok_top _ Hst) as [Htop _].
  destruct (proj1 tables_ok_parts _ Htop) as (Hact & Hdef & [pact Hpact]).
  unfold yystep. rewrite Hpact. cbn [deref mbind res_bind].
  destruct (Z.eqb_spec pact YYPACT_NINF).
  - destruct (yydefault (top (stk st))) as [[s|r|]|] eqn:Ed; try done; cbn.
    + by left.
    + right; left. exists r, st. split; [|by repeat split; try apply Hl].
      unfold yystep. rewrite Hpact. cbn. rewrite (proj2 (Z.eqb_eq _ _)) by done.
      by rewrite Ed.
    + by left.
  - change (match look st with Some t => (t, toks st) | None => next_token (toks st) end)
      with (fetch st).
    destruct (fetch st) as [t ts] eqn:Ef.
    pose proof (fetch_ok st t ts Hl Ef) as Hfo. cbv zeta in Hfo.
    set (yychar := if (t.1 <=? YYEOF)%Z then YYEOF else t.1) in *.
    destruct Hfo as (Hlo & Hpe & Hrd & Hcase).
    destruct (yytranslate_total yychar) as [a Ha]. rewrite Ha. cbn [deref mbind res_bind].
    pose proof (yytranslate_range _ _ Ha) as Har. specialize (Hact a Har).
    assert (Estep : forall o, yylookup (top (stk st)) a = Some o ->
      yystep st = match o with
        | Shift s => yynewstate s t.2 (mkPstate (stk st) (yystacksize st) None ts (glob st))
        | Reduce r => yyreduce r
            (mkPstate (stk st) (yystacksize st) (Some (yychar, t.2)) ts (glob st))
        | Error => Err (Exit (-1))
        end).
    { intros o Ho. unfold yystep. rewrite Hpact. cbn [deref mbind res_bind].
      destruct (Z.eqb_spec pact YYPACT_NINF); [done|].
      change (match look st with Some t => (t, toks st) | None => next_token (toks st) end)
        with (fetch st).
      rewrite Ef. cbv zeta. fold yychar. rewrite Ha. cbn [deref mbind res_bind].
      by rewrite Ho. }
    destruct (yylookup (top (stk st)) a) as [[s|r|]|] eqn:El; [| | |done]; cbn [deref mbind res_bind].
    + right; right. exists s, t, ts. cbn in Hact.
      apply andb_true_iff in Hact as [Hact Hfin]. apply andb_true_iff in Hact as [Hact Hsym].
      apply andb_true_iff in Hact as [Hs He].
      apply bool_decide_eq_true in Hsym, Hfin. apply mem_edge_In in He.
      split; [apply (Estep _ eq_refl)|]. split; [done|]. split; [done|].
      split; [apply Hlo|].
      destruct Hcase as [[E Hp]|(E & Hpos & Hp & Hr)].
      * left. split; [|done]. apply Hfin. rewrite E in Ha. vm_compute in Ha. congruence.
      * right. rewrite E in Ha. split.
        -- intros ->. apply (yytranslate_0 t.1 Hpos). rewrite Ha. by apply Hfin.
        -- repeat (split; [congruence|]). done.
    + right; left. exists r, (mkPstate (stk st) (yystacksize st) (Some (yychar, t.2)) ts (glob st)).
      split; [apply (Estep _ eq_refl)|]. by repeat split; try apply Hlo.
    + left. done.
Qed.
