(* ===== verification/ParseProps.v ===== *)
(** Soundness and termination of [yyparse]. *)

From stdpp Require Import base list strings gmap.
From Stdlib Require Import ZArith Lia Ascii.
From S2P Require Import Prelude Cxx Ast ParseTables Parser ParseSpec.

(** ** The invariant of a run *)

(** The parser has read [ts0] up to [pending]: the stack holds one tree per
    state, and the global variables are the effect of their actions. *)
Record parse_inv (ts0 : list token) (g0 : genv) (st : pstate) (forest : list tree) : Prop := {
  pi_stack : stack_ok (stk st);
  pi_look : look_ok st;
  pi_wf : Forall wf_tree forest;
  pi_trees : Forall2 (fun p t => sym_of p.1 = root t /\ p.2 = tvalue t) (stk st) forest;
  pi_run : run_trees (rev forest) g0 = Ok (glob st);
  pi_yield : concat (yield_of <$> rev forest) ++ pending st = ts0
}.

(** Decreases at every step. *)
Definition measure (st : pstate) : Z :=
  (10 * to_read st + 4 * Z.of_nat (length (stk st)) + rank (sym_of (top (stk st))))%Z.

Lemma rank_range a : (0 <= rank a <= 3)%Z.
Proof. unfold rank. repeat case_match; lia. Qed.

Lemma yynewstate_Ok s v st o :
  yynewstate s v st = Ok o ->
  (s = YYFINAL /\ o = Accept (glob st)) \/
  (s <> YYFINAL /\
   exists n, o = More (mkPstate ((s, v) :: stk st) n (look st) (toks st) (glob st))).
Proof.
  unfold yynewstate. intros H.
  apply bind_Ok in H as (n & _ & H). injection H as H.
  destruct (Z.eqb_spec s YYFINAL); [left|right]; eauto.
Qed.

Lemma parse_inv_shift ts0 g0 st forest s tok ts o :
  parse_inv ts0 g0 st forest -> shifts st s tok ts -> s <> YYFINAL ->
  yystep st = Ok o ->
  exists st', o = More st' /\ parse_inv ts0 g0 st' (Leaf (sym_of s) tok :: forest) /\
              (measure st' < measure st)%Z.
Proof.
  intros [I1 I2 I3 I4 I5 I6] (Hs & He & Hst & Hp & [[? _]|(Hf & Hpe & Htr & Hr)]) Hs' Hok; [done|].
  rewrite Hs in Hok. apply yynewstate_Ok in Hok as [[? _]|(_ & n & ->)]; [done|].
  eexists. split; [done|]. split.
  - split; simpl; try done.
    + constructor; [by constructor|done].
    + by constructor.
    + rewrite run_trees_app, I5. done.
    + rewrite fmap_app, concat_app, <- app_assoc. cbn. by rewrite <- Hpe.
  - unfold measure. cbn [stk top length].
    pose proof (rank_range (sym_of s)). pose proof (rank_range (sym_of (top (stk st)))).
    unfold to_read at 1. cbn [look toks]. lia.
Qed.

Lemma parse_inv_accept ts0 g0 st forest s tok ts o :
  parse_inv ts0 g0 st forest -> shifts st s tok ts -> s = YYFINAL ->
  yystep st = Ok o ->
  exists t, o = Accept (glob st) /\ derives ts0 t /\ run_tree t g0 = Ok (glob st).
Proof.
  intros [I1 I2 I3 I4 I5 I6] (Hs & He & _ & _ & [[_ Hpe]|[? _]]) -> Hok; [|done].
  rewrite Hs in Hok. apply yynewstate_Ok in Hok as [[_ ->]|[? _]]; [|done].
  destruct (proj2 (proj2 tables_ok_parts) _ He) as (_ & _ & Hfin & _).
  specialize (Hfin eq_refl). cbn [fst] in Hfin.
  destruct (stk st) as [|[s v] r] eqn:Est; [done|]. cbn [top] in *. subst s.
  destruct I1 as (Hin & _ & _ & I1).
  destruct (proj2 (proj2 tables_ok_parts) _ Hin) as (_ & _ & _ & H4).
  specialize (H4 eq_refl). cbn [fst] in H4.
  assert (r = []) as ->.
  { destruct r as [|[s' v'] r]; [done|]. cbn [top] in H4. subst s'.
    destruct I1 as (Hin' & _). by destruct (proj2 (proj2 tables_ok_parts) _ Hin') as (_ & ? & _). }
  apply Forall2_cons_inv_l in I4 as (t & f & [Hr Hv] & Hnil & ->).
  apply Forall2_nil_inv_l in Hnil as ->.
  exists t. split; [done|]. split; [|].
  - split; [by apply Forall_cons in I3 as [? _]|]. split; [by rewrite <- Hr|].
    rewrite Hpe in I6. cbn in I6. by rewrite !app_nil_r in I6.
  - cbn in I5. by destruct (run_tree t g0).
Qed.

Lemma rev_fmap_take_trees n (st : list (Z * yystype)) forest :
  Forall2 (fun p t => sym_of p.1 = root t /\ p.2 = tvalue t) st forest ->
  rev ((fun p => sym_of p.1) <$> take n st) = root <$> rev (take n forest) /\
  rev (snd <$> take n st) = tvalue <$> rev (take n forest).
Proof.
  intros H. apply (Forall2_take _ _ _ n) in H.
  split; rewrite fmap_rev; f_equal; induction H as [|p t st' f' [H1 H2] H IH]; cbn; by rewrite ?H1, ?H2, ?IH.
Qed.

Lemma parse_inv_reduce ts0 g0 st forest r st' o :
  parse_inv ts0 g0 st forest -> reduces st r st' -> yystep st = Ok o ->
  exists st'' forest', o = More st'' /\ parse_inv ts0 g0 st'' forest' /\
                       (measure st'' < measure st)%Z.
Proof.
  intros [I1 I2 I3 I4 I5 I6] (Hs & Hm & Hstk & Hg & Hlo & Hpe & Hrd) Hok.
  rewrite Hs in Hok. unfold yyreduce in Hok. rewrite Hstk in Hok.
  destruct (reduction_fits _ _ I1 Hm)
    as (lhs & rhs & t & Er & E1 & E2 & Hne & Hlen & Hrhs & Hgo & Hsym & (P1 & P2 & P3) & Hrk).
  rewrite E2 in Hok. cbn [deref mbind res_bind] in Hok. rewrite Nat2Z.id in Hok.
  set (n := length rhs) in *.
  destruct (rev_fmap_take_trees n _ _ I4) as [Hroots Hvals]. rewrite Hvals in Hok.
  apply bind_Ok in Hok as (v & Hv & Hok). apply deref_Ok in Hv.
  apply bind_Ok in Hok as (g & Hact & Hok).
  rewrite E1 in Hok. cbn [deref mbind res_bind] in Hok. rewrite Hgo in Hok.
  cbn [deref mbind res_bind] in Hok.
  apply yynewstate_Ok in Hok as [[? _]|(_ & k & ->)]; [done|]. cbn [stk look toks glob].
  set (kids := rev (take n forest)) in *.
  assert (Ef : rev forest = rev (drop n forest) ++ kids).
  { unfold kids. rewrite <- rev_app_distr. f_equal. symmetry. apply take_drop. }
  eexists _, (Node r kids :: drop n forest). split; [done|]. split.
  - split.
    + cbn. repeat split; try done. by apply stack_ok_drop.
    + done.
    + constructor; [|by apply Forall_drop].
      econstructor; [rewrite Er; do 2 f_equal; by rewrite <- Hroots|].
      apply Forall_rev. by apply Forall_take.
    + cbn [stk]. constructor; [|by apply Forall2_drop].
      cbn. rewrite Er. cbn. split; [done|].
      destruct kids as [|k0 kids]; cbn in *; [done|]. congruence.
    + cbn [rev]. rewrite run_trees_app. rewrite Ef, run_trees_app in I5.
      apply bind_Ok in I5 as (g1 & Hg1 & Hg2). rewrite Hg1. cbn [mbind res_bind].
      cbn [run_trees]. rewrite run_tree_node, Hg2. cbn [mbind res_bind].
      rewrite <- Hg, Hact. done.
    + cbn [rev]. rewrite Ef, fmap_app, concat_app in I6.
      rewrite fmap_app, concat_app. cbn. rewrite app_nil_r.
      change (pending _) with (pending st'). by rewrite Hpe.
  - unfold measure. cbn [stk top length]. rewrite length_drop.
    pose proof (rank_range lhs). pose proof (rank_range (sym_of (top (stk st)))).
    change (to_read _) with (to_read st') at 1. rewrite Hsym.
    assert (0 < n)%nat by (destruct rhs; [done|simpl in n; lia]).
    destruct (decide (n = 1%nat)) as [E|E]; [specialize (Hrk E)|]; lia.
Qed.

(** One step of a run. *)
Lemma parse_inv_step ts0 g0 st forest o :
  parse_inv ts0 g0 st forest -> yystep st = Ok o ->
  match o with
  | More st' => (exists forest', parse_inv ts0 g0 st' forest') /\ (measure st' < measure st)%Z
  | Accept g => exists t, derives ts0 t /\ run_tree t g0 = Ok g
  end.
Proof.
  intros I Hok.
  destruct (yystep_cases st (pi_stack _ _ _ _ I) (pi_look _ _ _ _ I))
    as [E|[(r & st' & Hr)|(s & tok & ts & Hs)]].
  - congruence.
  - destruct (parse_inv_reduce _ _ _ _ _ _ _ I Hr Hok) as (st'' & f & -> & H & Hm). eauto.
  - destruct (decide (s = YYFINAL)) as [Ef|Ef].
    + destruct (parse_inv_accept _ _ _ _ _ _ _ _ I Hs Ef Hok) as (t & -> & H). eauto.
    + destruct (parse_inv_shift _ _ _ _ _ _ _ _ I Hs Ef Hok) as (st' & -> & H & Hm). eauto.
Qed.

Lemma parse_inv_start ts g :
  positive_tokens ts -> parse_inv ts g (mkPstate [] YYINITDEPTH None ts g) [].
Proof. intros H. by repeat split. Qed.

Lemma yyloop_sound ts0 g0 fuel : forall st forest g,
  parse_inv ts0 g0 st forest -> yyloop fuel st = Ok g ->
  exists t, derives ts0 t /\ run_tree t g0 = Ok g.
Proof.
  induction fuel as [|f IH]; intros st forest g I H; [done|]. cbn [yyloop] in H.
  apply bind_Ok in H as (o & Ho & H).
  pose proof (parse_inv_step _ _ _ _ _ I Ho) as Hst. destruct o as [st'|g'].
  - destruct Hst as ((f' & I') & _). by eapply IH.
  - by simplify_eq.
Qed.

(** When [yyparse] returns, the tokens are a sentence of the grammar of
    poise.y and the global variables are the effect of running the semantic
    actions of its parse tree, children before parents and left to right. *)
Lemma yyparse_sound (ts : list token) (g0 g : genv) :
  positive_tokens ts -> yyparse ts g0 = Ok g ->
  exists t, derives ts t /\ run_tree t g0 = Ok g.
Proof. intros Hp H. eapply yyloop_sound; [by apply parse_inv_start|exact H]. Qed.

(** The tokens of [if match (h1 < 9) then drop else fwd1]. *)
Definition example_tokens : list token :=
  [(IF, Ival 0); (MATCH, Ival 0); (LP, Ival 0); (VAR, Sval "h1"); (LT, Sval "h1");
   (CONST, Ival 9); (RP, Ival 9); (THEN, Ival 9); (DROP, Ival 9); (ELSE, Ival 9); (FWD1, Ival 9)].

Lemma example_tokens_positive : positive_tokens example_tokens.
Proof. repeat constructor. Qed.

(** ** Termination *)

Lemma fuelless_arg vs k : fuelless (arg vs k).
Proof. apply fuelless_deref. Qed.
Lemma fuelless_arg_s vs k : fuelless (arg_s vs k).
Proof. unfold arg_s, get_sval. fuelless. Qed.
Lemma fuelless_arg_i vs k : fuelless (arg_i vs k).
Proof. unfold arg_i, get_ival. fuelless. Qed.
Lemma fuelless_pop_ae g : fuelless (pop_ae g).
Proof. unfold pop_ae. fuelless. Qed.
#[local] Hint Resolve fuelless_arg fuelless_arg_s fuelless_arg_i fuelless_pop_ae : fuel.

Lemma fuelless_print_section {A} title (show : A -> res string) l :
  (forall x, fuelless (show x)) -> forall i, fuelless (print_section title show i l).
Proof. intros Hs. induction l as [|x l IH]; intros i; cbn [print_section]; fuelless; by auto. Qed.

Lemma fuelless_print p : fuelless (Program_print p).
Proof.
  unfold Program_print. apply fuelless_bind; [by apply fuelless_print_section|]. intros ls.
  apply fuelless_bind; [apply fuelless_print_section; intros me; unfold MatchExpr_stringify; fuelless|]. intros ms.
  apply fuelless_bind; [by apply fuelless_print_section|]. done.
Qed.
#[local] Hint Resolve fuelless_print : fuel.

Lemma fuelless_yyaction r vs g : fuelless (yyaction r vs g).
Proof.
  unfold yyaction, act_match_pred, act_match_list, act_match_mon, act_match_mon_and,
    act_if_then_else, act_monitor, act_def_list, act_listcontent, act_action, act_listexpr,
    act_binary_const, act_binary_var, act_binary_arith, act_arith_vars, act_arith_var,
    act_arith_const, get_latestmatchexpr, MatchExpr_stringify, set_if_action, set_else_action,
    Monitor_new.
  fuelless.
Qed.
#[local] Hint Resolve fuelless_yyaction : fuel.

Lemma fuelless_yystep st : fuelless (yystep st).
Proof. unfold yystep, yyreduce, yynewstate. fuelless. Qed.

Lemma yyloop_fuel ts0 g0 fuel : forall st forest,
  parse_inv ts0 g0 st forest -> (measure st < Z.of_nat fuel)%Z -> fuelless (yyloop fuel st).
Proof.
  induction fuel as [|f IH]; intros st forest I Hm.
  - pose proof (rank_range (sym_of (top (stk st)))). unfold measure, to_read in Hm.
    repeat case_match; lia.
  - cbn [yyloop]. destruct (yystep st) as [o|e] eqn:Ho.
    + pose proof (parse_inv_step _ _ _ _ _ I Ho) as Hst. cbn. destruct o as [st'|g']; [|done].
      destruct Hst as ((f' & I') & Hlt). eapply IH; [exact I'|lia].
    + pose proof (fuelless_yystep st) as H. rewrite Ho in H. intros E. apply H.
      cbn in E. congruence.
Qed.

Lemma yyparse_fuel_enough (ts : list token) (g : genv) :
  positive_tokens ts -> fuelless (yyparse ts g).
Proof.
  intros Hp. eapply yyloop_fuel; [by apply parse_inv_start|].
  unfold measure, yyparse_fuel. cbn [stk top length].
  pose proof (rank_range (sym_of 0)). unfold to_read. cbn [look toks]. lia.
Qed.

(** [yyparse] ends on every token sequence of the scanner: the number of
    steps is at most ten times the number of tokens, plus twenty. *)
Theorem yyparse_terminates (ts : list token) (g : genv) :
  positive_tokens ts -> yyparse ts g <> Err NoFuel.
Proof. apply yyparse_fuel_enough. Qed.

Lemma yyparse_terminates_witness : yyparse example_tokens genv_new <> Err NoFuel.
Proof. exact (yyparse_terminates example_tokens genv_new example_tokens_positive). Defined.
