(* ===== verification/ParseRecover.v ===== *)
(** Error recovery of the generated parser (src/compiler/poise.tab.c, lines
    1851-1991): what the parser does after [yyerror] has reported a syntax
    error.  In the compiler [yyerror] exits, so the code is not reached; the
    grammar has no rule with the token [error], and the recovery always
    aborts. *)

From stdpp Require Import base list.
From Stdlib Require Import ZArith Lia.
From S2P Require Import Prelude Cxx ParseTables Parser.

#[local] Open Scope Z_scope.

Definition YYTERROR : Z := 1.

(** Where the recovery leads: the error token is shifted to a state on top of
    the rest of the stack, or the parser returns 1. *)
Inductive recovery : Type :=
| ShiftError (s : Z) (stack : list (Z * yystype))
| YYABORT.

(** The state to which a state shifts the error token. *)
Definition error_shift (yystate : Z) : res (option Z) :=
  yyn ← deref (znth yypact yystate);
  if yyn =? YYPACT_NINF then mret None else
  let yyn := yyn + YYTERROR in
  if (0 <=? yyn) && (yyn <=? YYLAST) then
    chk ← deref (znth yycheck yyn);
    if chk =? YYTERROR then
      t ← deref (znth yytable yyn);
      mret (if 0 <? t then Some t else None)
    else mret None
  else mret None.

(** yyerrlab1: states are popped until one shifts the error token. *)
Fixpoint yyerrlab1 (stack : list (Z * yystype)) : res recovery :=
  o ← error_shift (top stack);
  match o with
  | Some s => mret (ShiftError s stack)
  | None => match stack with [] => mret YYABORT | _ :: stack => yyerrlab1 stack end
  end.

(** yyerrlab: whether the error is reported, the lookahead that is kept, and
    the recovery.  [yyerrstatus] is 3 after an error until three tokens have
    been shifted. *)
Definition yyerrlab (yyerrstatus yychar : Z) (stack : list (Z * yystype)) : res (bool * Z * recovery) :=
  let report := yyerrstatus =? 0 in
  if yyerrstatus =? 3 then
    if yychar <=? YYEOF then
      if yychar =? YYEOF then mret (report, yychar, YYABORT)
      else r ← yyerrlab1 stack; mret (report, yychar, r)
    else r ← yyerrlab1 stack; mret (report, YYEMPTY, r)
  else r ← yyerrlab1 stack; mret (report, yychar, r).

(** No state of the parser shifts the error token. *)
Lemma no_error_shift s : 0 <= s < YYNSTATES -> error_shift s = Ok None.
Proof.
  intros Hs. assert (H : forallb (fun s => match error_shift s with Ok None => true | _ => false end)
    (Z.of_nat <$> seq 0 91) = true) by by vm_compute.
  rewrite forallb_forall in H. specialize (H s). cbn beta in H.
  destruct (error_shift s) as [[?|]|]; [exfalso|done|exfalso];
    (enough (false = true) by done; apply H, in_map_iff; exists (Z.to_nat s); rewrite in_seq; unfold YYNSTATES in Hs; lia).
Qed.

(** Whatever states are on the stack and whatever the lookahead is, the
    recovery empties the stack and the parser returns 1: a policy with a
    syntax error is never compiled, even by a [yyerror] that returned. *)
Theorem recovery_aborts (yyerrstatus yychar : Z) (stack : list (Z * yystype)) :
  Forall (fun '(s, _) => 0 <= s < YYNSTATES) stack ->
  exists yychar', yyerrlab yyerrstatus yychar stack = Ok (yyerrstatus =? 0, yychar', YYABORT).
Proof.
  intros H. assert (E : yyerrlab1 stack = Ok YYABORT).
  { induction H as [|[s v] stack Hs _ IH]; cbn [yyerrlab1 top]; [done|]. by rewrite no_error_shift. }
  unfold yyerrlab. rewrite E, !bind_ret_l.
  destruct (yyerrstatus =? 3), (yychar <=? YYEOF), (yychar =? YYEOF); by eexists.
Qed.
