(* ===== verification/ParseComplete.v ===== *)
(** Completeness of the parser: every sentence of the grammar of poise.y
    whose semantic actions succeed is accepted.  The states of the automaton
    are annotated with the items of the grammar they stand for, with the
    lookaheads of each item as a bit mask; the annotation is computed as a
    fixpoint and what the proof needs of it is checked by computation over
    the tables of poise.tab.c. *)

From stdpp Require Import base list strings gmap relations.
From Stdlib Require Import ZArith Lia Ascii.
From S2P Require Import Prelude Cxx Ast ParseTables Parser ParseSpec ParseProps.

Local Open Scope Z_scope.

(** ** Items *)

(** What the automaton does in a state on a lookahead. *)
Definition next_action (s a : Z) : option action :=
  pact ← znth yypact s;
  if pact =? YYPACT_NINF then yydefault s else yylookup s a.

(** The state after a symbol: a shift or a goto. *)
Definition next_state (s x : Z) : option Z :=
  if x <? YYNTOKENS
  then match next_action s x with Some (Shift t) => Some t | _ => None end
  else yygoto s x.

Definition rule_numbers : list Z := Z.of_nat <$> seq 1 54.

Definition rules_of (x : Z) : list Z :=
  List.filter (fun r => match rule r with Some (lhs, _) => lhs =? x | None => false end) rule_numbers.

(** The terminals a symbol can start with, as a mask; no rule is empty. *)
Definition first_step (masks : list Z) : list Z :=
  foldl (fun ms r => match r with
                     | (lhs, y :: _) =>
                         <[Z.to_nat lhs := Z.lor (nth (Z.to_nat lhs) ms 0) (nth (Z.to_nat y) ms 0)]> ms
                     | _ => ms
                     end) masks (tail grammar).

Definition firsts : list Z :=
  Eval vm_compute in
  Nat.iter 5 first_step ((fun n => if (n <? 47)%nat then 2 ^ Z.of_nat n else 0) <$> seq 0 61).

Definition first_of (x : Z) : Z := nth (Z.to_nat x) firsts 0.

(** The lookaheads after a symbol followed by [rest] in an item with the
    lookaheads [m]. *)
Definition first_rest (rest : list Z) (m : Z) : Z :=
  match rest with [] => m | y :: _ => first_of y end.

(** Rule number, position of the dot, lookaheads. *)
Definition item : Type := (Z * nat) * Z.

Fixpoint add_item (r : Z) (d : nat) (m : Z) (l : list item) : list item :=
  match l with
  | [] => [((r, d), m)]
  | ((r', d'), m') :: l =>
      if (r' =? r) && (d' =? d)%nat then ((r, d), Z.lor m m') :: l
      else ((r', d'), m') :: add_item r d m l
  end.

Definition add_at (s r : Z) (d : nat) (m : Z) (ann : list (list item)) : list (list item) :=
  alter (add_item r d m) (Z.to_nat s) ann.

(** What an item of a state adds to the annotation. *)
Definition propagate (s : Z) (ann : list (list item)) (i : item) : list (list item) :=
  let '((r, d), m) := i in
  match rule r with
  | Some (lhs, rhs) =>
      match rhs !! d with
      | Some x =>
          let ann := match next_state s x with
                     | Some t => add_at t r (S d) m ann
                     | None => ann
                     end in
          if x <? YYNTOKENS then ann
          else foldl (fun ann r' => add_at s r' 0 (first_rest (drop (S d) rhs) m) ann) ann (rules_of x)
      | None => ann
      end
  | None => ann
  end.

Definition annotate_round (ann : list (list item)) : list (list item) :=
  foldl (fun ann s => foldl (propagate s) ann (nth (Z.to_nat s) ann [])) ann states.

(** The items of every state, from the start item of rule 1 on. *)
Definition annotation : list (list item) :=
  Eval vm_compute in Nat.iter 9 annotate_round (add_at 0 1 0 1 (replicate 91 [])).

Definition items_of (s : Z) : list item := nth (Z.to_nat s) annotation [].

(** ** The checks on the annotation *)

Definition subset (m m' : Z) : bool := Z.land m m' =? m.

(** The item [(r, d)] of the state [s] has at least the lookaheads [m]. *)
Definition covers (s r : Z) (d : nat) (m : Z) : bool :=
  existsb (fun i => (i.1.1 =? r) && (i.1.2 =? d)%nat && subset m i.2) (items_of s).

Definition item_ok (s : Z) (i : item) : bool :=
  let '((r, d), m) := i in
  match rule r with
  | Some (lhs, rhs) =>
      match rhs !! d with
      | Some x =>
          match next_state s x with
          | Some t => is_state t && (negb (t =? YYFINAL) || (x =? 0)) && covers t r (S d) m
          | None => false
          end &&
          ((x <? YYNTOKENS) ||
           forallb (fun r' => covers s r' 0 (first_rest (drop (S d) rhs) m)) (rules_of x))
      | None =>
          (d =? length rhs)%nat &&
          forallb (fun a => negb (Z.testbit m a) ||
                            match next_action s a with Some (Reduce r') => r' =? r | _ => false end)
            terminals
      end
  | None => false
  end.

Definition rule_ok (r : Z) : bool :=
  match rule r with
  | Some (lhs, y :: rhs) =>
      bool_decide (znth yyr1 r = Some lhs) && bool_decide (znth yyr2 r = Some (Z.of_nat (length (y :: rhs)))) &&
      subset (first_of y) (first_of lhs) && negb (lhs <? YYNTOKENS) && negb (y =? 0) &&
      forallb (fun x => negb (x =? s_accept) && (negb (x =? 0) || (r =? 1))) (y :: rhs) &&
      (negb (lhs =? s_accept) || (r =? 1))
  | _ => false
  end.

Definition annotation_ok : bool :=
  covers 0 1 0 1 && forallb (fun s => forallb (item_ok s) (items_of s)) states &&
  forallb rule_ok rule_numbers && forallb (fun a => Z.testbit (first_of a) a) terminals &&
  match next_action 4 0 with Some (Shift t) => t =? YYFINAL | _ => false end &&
  match yygoto 0 s_poise with Some t => t =? 4 | _ => false end.

Lemma annotation_ok_true : annotation_ok = true.
Proof. vm_compute. reflexivity. Qed.

(** ** What the checks give *)

(** The state [s] has the item [(r, d)] with the lookahead [a]. *)
Definition has (s r : Z) (d : nat) (a : Z) : Prop :=
  is_state s = true /\ exists m, In ((r, d), m) (items_of s) /\ Z.testbit m a = true.

(** The state [s] can go on with the symbol [x] when [a] follows it. *)
Definition expects (s x a : Z) : Prop :=
  exists r d b lhs rhs, has s r d b /\ rule r = Some (lhs, rhs) /\ rhs !! d = Some x /\
    match drop (S d) rhs with [] => b = a | y :: _ => Z.testbit (first_of y) a = true end.

Lemma subset_testbit m m' a : subset m m' = true -> Z.testbit m a = true -> Z.testbit m' a = true.
Proof.
  intros H%Z.eqb_eq Ha. rewrite <- H, Z.land_spec in Ha. by apply andb_true_iff in Ha as [_ ?].
Qed.

Lemma covers_has s r d m a :
  is_state s = true -> covers s r d m = true -> Z.testbit m a = true -> has s r d a.
Proof.
  intros Hs H Ha. split; [done|]. apply existsb_exists in H as ([[r' d'] m'] & Hin & H).
  apply andb_true_iff in H as [H Hm]. apply andb_true_iff in H as [Hr%Z.eqb_eq Hd%Nat.eqb_eq].
  cbn in *. subst. exists m'. split; [done|]. by eapply subset_testbit.
Qed.

Lemma annotation_ok_parts :
  covers 0 1 0 1 = true /\
  (forall s i, is_state s = true -> In i (items_of s) -> item_ok s i = true) /\
  (forall r, In r rule_numbers -> rule_ok r = true) /\
  (forall a, (0 <= a < YYNTOKENS) -> Z.testbit (first_of a) a = true) /\
  next_action 4 0 = Some (Shift YYFINAL) /\ yygoto 0 s_poise = Some 4.
Proof.
  pose proof annotation_ok_true as H. unfold annotation_ok in H.
  apply andb_true_iff in H as [H H6]. apply andb_true_iff in H as [H H5].
  apply andb_true_iff in H as [H H4]. apply andb_true_iff in H as [H H3].
  apply andb_true_iff in H as [H1 H2]. rewrite forallb_forall in H2, H3, H4.
  split; [done|]. split; [|split; [done|split; [|split]]].
  - intros s i Hs Hi. specialize (H2 s (proj1 (is_state_In s) Hs)). rewrite forallb_forall in H2. by apply H2.
  - intros a Ha. by apply H4, terminals_In.
  - destruct (next_action 4 0) as [[t|?|]|]; try done. by apply Z.eqb_eq in H5 as ->.
  - destruct (yygoto 0 s_poise) as [t|]; [|done]. by apply Z.eqb_eq in H6 as ->.
Qed.

Lemma rule_in r lhs rhs : rule r = Some (lhs, rhs) -> r <> 0 -> In r rule_numbers.
Proof.
  intros H Hr. pose proof (znth_Some_range _ _ _ H) as Hl. change (length grammar) with 55%nat in Hl.
  apply list_elem_of_In, list_elem_of_fmap. exists (Z.to_nat r). split; [lia|]. apply elem_of_seq. lia.
Qed.

Lemma rule_facts r lhs rhs : rule r = Some (lhs, rhs) -> r <> 0 ->
  In r rule_numbers /\ znth yyr1 r = Some lhs /\ znth yyr2 r = Some (Z.of_nat (length rhs)) /\
  YYNTOKENS <= lhs /\ (r = 1 <-> lhs = s_accept) /\
  (exists y, head rhs = Some y /\ y <> 0 /\
     forall a, Z.testbit (first_of y) a = true -> Z.testbit (first_of lhs) a = true) /\
  (forall x, In x rhs -> x <> s_accept /\ (r <> 1 -> x <> 0)).
Proof.
  intros Hr H0. pose proof (rule_in _ _ _ Hr H0) as Hin. split; [done|].
  pose proof (proj1 (proj2 (proj2 annotation_ok_parts)) r Hin) as H. unfold rule_ok in H.
  rewrite Hr in H. destruct rhs as [|y rhs]; [done|].
  apply andb_true_iff in H as [H H7]. apply andb_true_iff in H as [H H6]. apply andb_true_iff in H as [H H5].
  apply andb_true_iff in H as [H H4]. apply andb_true_iff in H as [H H3].
  apply andb_true_iff in H as [H1%bool_decide_eq_true H2%bool_decide_eq_true].
  apply negb_true_iff, Z.ltb_ge in H4. apply negb_true_iff, Z.eqb_neq in H5. rewrite forallb_forall in H6.
  repeat (split; [done|]). split; [|split].
  - split; [intros ->; by injection Hr|]. intros ->. cbn in H7. by apply Z.eqb_eq.
  - exists y. split; [done|]. split; [done|]. intros a. by apply subset_testbit.
  - intros x Hx. specialize (H6 x Hx). cbv beta in H6. apply andb_true_iff in H6 as [Ha Hz].
    apply negb_true_iff, Z.eqb_neq in Ha. split; [done|]. intros Hr1 ->.
    apply orb_true_iff in Hz as [Hz|Hz%Z.eqb_eq]; done.
Qed.

(** Going over a symbol of an item. *)
Lemma has_next s r d a lhs rhs x :
  has s r d a -> rule r = Some (lhs, rhs) -> rhs !! d = Some x ->
  exists t, next_state s x = Some t /\ has t r (S d) a /\ (x <> 0 -> t <> YYFINAL).
Proof.
  intros (Hs & m & Hin & Ha) Hr Hx.
  pose proof (proj1 (proj2 annotation_ok_parts) s _ Hs Hin) as H. cbn [item_ok] in H. rewrite Hr, Hx in H.
  apply andb_true_iff in H as [H _]. destruct (next_state s x) as [t|]; [|done].
  apply andb_true_iff in H as [H Hc]. apply andb_true_iff in H as [Ht Hf].
  exists t. split; [done|]. split; [by eapply covers_has|].
  intros Hx0 ->. apply orb_true_iff in Hf as [Hf|Hf%Z.eqb_eq]; done.
Qed.

(** A state that can go on with a nonterminal has the items of its rules. *)
Lemma expects_rule s x a r rhs :
  expects s x a -> YYNTOKENS <= x -> rule r = Some (x, rhs) -> r <> 0 -> has s r 0 a.
Proof.
  intros (r0 & d & b & lhs & rhs0 & (Hs & m & Hin & Hb) & Hr0 & Hx & Hrest) Hnt Hr Hne.
  pose proof (proj1 (proj2 annotation_ok_parts) s _ Hs Hin) as H. cbn [item_ok] in H. rewrite Hr0, Hx in H.
  apply andb_true_iff in H as [_ H]. apply orb_true_iff in H as [H%Z.ltb_lt|H]; [lia|].
  rewrite forallb_forall in H. eapply (covers_has s r 0); [done|apply H|].
  - apply filter_In. rewrite Hr. split; [by apply (rule_facts _ _ _ Hr Hne)|apply Z.eqb_refl].
  - unfold first_rest. destruct (drop (S d) rhs0); [by subst b|done].
Qed.

(** A complete item is reduced on its lookaheads. *)
Lemma has_reduce s r a lhs rhs :
  has s r (length rhs) a -> rule r = Some (lhs, rhs) -> 0 <= a < YYNTOKENS ->
  next_action s a = Some (Reduce r).
Proof.
  intros (Hs & m & Hin & Ha) Hr Hra.
  pose proof (proj1 (proj2 annotation_ok_parts) s _ Hs Hin) as H. cbn [item_ok] in H. rewrite Hr in H.
  rewrite lookup_ge_None_2 in H by lia. apply andb_true_iff in H as [_ H].
  rewrite forallb_forall in H. specialize (H a (terminals_In a Hra)). cbv beta in H. rewrite Ha in H. cbn in H.
  destruct (next_action s a) as [[?|r'|]|]; try done. by apply Z.eqb_eq in H as ->.
Qed.

(** ** Steps of the parser *)

(** The terminal the parser looks at. *)
Definition peek (ps : list token) : option Z :=
  match ps with [] => Some 0 | t :: _ => YYTRANSLATE t.1 end.

Lemma yydefault_not_shift s t : yydefault s <> Some (Shift t).
Proof. unfold yydefault. destruct (znth yydefact s) as [n|]; [|done]. cbn. by destruct (n =? 0). Qed.

(** A step by the action for the lookahead. *)
Lemma yystep_action st a o :
  look_ok st -> peek (pending st) = Some a -> next_action (top (stk st)) a = Some o ->
  match o with
  | Shift s => exists tok ts,
      yystep st = yynewstate s tok.2 (mkPstate (stk st) (yystacksize st) None ts (glob st)) /\
      positive_tokens ts /\ (pending st = [] \/ pending st = tok :: ts)
  | Reduce r => exists st', yystep st = yyreduce r st' /\ stk st' = stk st /\
      yystacksize st' = yystacksize st /\ glob st' = glob st /\ look_ok st' /\ pending st' = pending st
  | Error => True
  end.
Proof.
  intros Hl Hp Hn. unfold next_action in Hn.
  destruct (znth yypact (top (stk st))) as [pact|] eqn:Epact; [|done]. cbn [mbind option_bind] in Hn.
  unfold yystep. rewrite Epact. cbn [deref mbind res_bind].
  destruct (Z.eqb_spec pact YYPACT_NINF).
  - rewrite Hn. cbn [deref mbind res_bind]. destruct o as [s|r|]; [|by exists st|done].
    by apply yydefault_not_shift in Hn.
  - change (match look st with Some t => (t, toks st) | None => next_token (toks st) end) with (fetch st).
    destruct (fetch st) as [t ts] eqn:Ef. pose proof (fetch_ok st t ts Hl Ef) as Hfo. cbv zeta in Hfo.
    set (yychar := if (t.1 <=? YYEOF)%Z then YYEOF else t.1) in *.
    destruct Hfo as (Hlo & Hpe & _ & Hcase).
    assert (Ha : YYTRANSLATE yychar = Some a).
    { destruct Hcase as [[-> E]|(-> & _ & E & _)]; rewrite E in Hp; [|done].
      cbn in Hp. injection Hp as <-. by vm_compute. }
    rewrite Ha. cbn [deref mbind res_bind]. rewrite Hn. cbn [deref mbind res_bind].
    destruct o as [s|r|]; [|eexists; split; [reflexivity|done]|done].
    exists t, ts. split; [done|]. split; [apply Hlo|]. destruct Hcase as [[_ E]|(_ & _ & E & _)]; eauto.
Qed.

Lemma yynewstate_push s v st :
  Z.of_nat (length (stk st)) + 2 < YYMAXDEPTH -> s <> YYFINAL ->
  exists n, yynewstate s v st = Ok (More (mkPstate ((s, v) :: stk st) n (look st) (toks st) (glob st))).
Proof.
  intros Hd Hf. unfold yynewstate. cbn [length].
  destruct (Z.eqb_spec s YYFINAL); [done|].
  destruct (Z.leb_spec (yystacksize st) (Z.of_nat (S (length (stk st))) + 1)).
  - destruct (Z.leb_spec YYMAXDEPTH (yystacksize st)); [lia|]. cbn. eauto.
  - cbn. eauto.
Qed.

Definition reaches : pstate -> pstate -> Prop := rtc (fun a b => yystep a = Ok (More b)).

(** ** Parsing a tree *)

Lemma tree_forest_ind (P : tree -> Prop) :
  (forall a t, P (Leaf a t)) -> (forall r kids, Forall P kids -> P (Node r kids)) -> forall t, P t.
Proof.
  intros HL HN. fix IH 1. intros [a t|r kids]; [apply HL|apply HN].
  induction kids as [|k kids IHk]; constructor; [apply IH|apply IHk].
Qed.

(** A tree starts with a token its symbol can start with. *)
Lemma first_yield t : wf_tree t -> root t <> 0 ->
  exists tok ts b, yield_of t = tok :: ts /\ YYTRANSLATE tok.1 = Some b /\ Z.testbit (first_of (root t)) b = true.
Proof.
  induction t as [a tok|r kids IH] using tree_forest_ind; intros Hwf Hroot;
    inversion Hwf as [? ? Ha|? ? lhs Hr Hk]; subst.
  - exists tok, [], a. split; [done|]. split; [done|]. cbn.
    apply annotation_ok_parts. by eapply yytranslate_range.
  - cbn [root] in *. rewrite Hr in Hroot |- *. cbn [fmap option_fmap option_map default fst] in *.
    assert (Hr0 : r <> 0) by (intros ->; apply Hroot; by injection Hr).
    destruct (rule_facts _ _ _ Hr Hr0) as (_ & _ & _ & _ & _ & (y & Hy & Hy0 & Hf) & _).
    destruct kids as [|k kids]; [done|]. injection Hy as Hy.
    apply Forall_cons in IH as [IH _]. apply Forall_cons in Hk as [Hk _].
    destruct (IH Hk ltac:(congruence)) as (tok & ts & b & Eq & Hb & Hfk).
    exists tok, (ts ++ concat (yield_of <$> kids)), b. split; [cbn; by rewrite Eq|]. split; [done|].
    apply Hf. by rewrite <- Hy.
Qed.

(** From a state that expects the symbol of [t], with the tokens of [t] next,
    the parser runs the actions of [t] and pushes its symbol. *)
Definition parses (t : tree) : Prop := forall st rest a g,
  look_ok st -> pending st = yield_of t ++ rest -> peek rest = Some a ->
  expects (top (stk st)) (root t) a -> root t <> 0 ->
  run_tree t (glob st) = Ok g ->
  Z.of_nat (length (stk st) + length (yield_of t)) + 2 < YYMAXDEPTH ->
  exists st' s, next_state (top (stk st)) (root t) = Some s /\ reaches st st' /\
    stk st' = (s, tvalue t) :: stk st /\ pending st' = rest /\ look_ok st' /\ glob st' = g.

Lemma expects_next s x a : expects s x a -> x <> 0 ->
  exists t, next_state s x = Some t /\ t <> YYFINAL.
Proof.
  intros (r & d & b & lhs & rhs & Hh & Hr & Hx & _) H0.
  destruct (has_next _ _ _ _ _ _ _ Hh Hr Hx) as (t & Ht & _ & Hf). eauto.
Qed.

Lemma parses_leaf x tok : wf_tree (Leaf x tok) -> parses (Leaf x tok).
Proof.
  intros Hwf st rest a g Hl Hp Hpk He Hx Hrun Hsz. cbn [yield_of root run_tree tvalue] in *.
  inversion Hwf as [? ? Ha|]; subst. destruct (expects_next _ _ _ He Hx) as (s & Hs & Hf).
  pose proof (yytranslate_range _ _ Ha) as Hrange.
  unfold next_state in Hs. rewrite (proj2 (Z.ltb_lt _ _)) in Hs by lia.
  destruct (next_action (top (stk st)) x) as [o|] eqn:En; [|done].
  assert (Hpeek : peek (pending st) = Some x) by (by rewrite Hp).
  pose proof (yystep_action st x o Hl Hpeek En) as Hstep.
  destruct o as [s'|?|]; simplify_eq. destruct Hstep as (tok' & ts & Hstep & Hpos & Hcase).
  rewrite Hp in Hcase. destruct Hcase as [?|Hcase]; [done|]. injection Hcase as <- <-.
  set (st0 := mkPstate (stk st) (yystacksize st) None rest (glob st)) in *.
  cbn [length] in Hsz.
  destruct (yynewstate_push s tok.2 st0) as (n & En'); [cbn [stk st0]; lia|done|].
  eexists _, s. split.
  { unfold next_state. rewrite (proj2 (Z.ltb_lt _ _)) by lia. by rewrite En. }
  split; [apply rtc_once; rewrite Hstep; exact En'|]. done.
Qed.

(** The children of a node from the [d]-th on. *)
Lemma parses_kids r lhs rhs a : rule r = Some (lhs, rhs) -> r <> 0 -> r <> 1 ->
  forall kids d st rest g,
  Forall parses kids -> Forall wf_tree kids -> drop d rhs = root <$> kids -> (d <= length rhs)%nat ->
  has (top (stk st)) r d a -> look_ok st -> pending st = concat (yield_of <$> kids) ++ rest ->
  peek rest = Some a -> run_trees kids (glob st) = Ok g ->
  Z.of_nat (length (stk st) + length (concat (yield_of <$> kids))) + 2 < YYMAXDEPTH ->
  exists st', reaches st st' /\ has (top (stk st')) r (length rhs) a /\ pending st' = rest /\
    look_ok st' /\ glob st' = g /\ drop (length kids) (stk st') = stk st /\
    snd <$> take (length kids) (stk st') = rev (tvalue <$> kids).
Proof.
  intros Hr Hr0 Hr1. destruct (rule_facts _ _ _ Hr Hr0) as (_ & _ & _ & _ & _ & _ & Hin).
  induction kids as [|k kids IH]; intros d st rest g HP HW Hd Hdl Hh Hl Hp Hpk Hrun Hsz.
  { exists st. split; [apply rtc_refl|]. injection Hrun as <-.
    assert (d = length rhs) as -> by (apply (f_equal length) in Hd; rewrite length_drop in Hd; cbn in Hd; lia).
    done. }
  apply Forall_cons in HP as [HPk HP]. apply Forall_cons in HW as [HWk HW].
  cbn [fmap list_fmap concat] in Hp, Hsz, Hd. rewrite <- (assoc_L (++)) in Hp. rewrite length_app in Hsz.
  assert (Hx : rhs !! d = Some (root k)) by (rewrite <- (Nat.add_0_r d), <- lookup_drop, Hd; done).
  assert (Hd' : drop (S d) rhs = root <$> kids).
  { replace (S d) with (d + 1)%nat by lia. by rewrite <- drop_drop, Hd. }
  assert (Hk0 : root k <> 0) by (apply (Hin (root k)); [by apply list_elem_of_In, (list_elem_of_lookup_2 _ d)|done]).
  assert (exists b, peek (concat (yield_of <$> kids) ++ rest) = Some b /\ expects (top (stk st)) (root k) b)
    as (b & Hpb & He).
  { unfold expects. destruct kids as [|k2 kids].
    - exists a. split; [done|]. exists r, d, a, lhs, rhs. rewrite Hd'. done.
    - assert (Hk2 : root k2 <> 0).
      { apply (Hin (root k2)); [|done]. apply list_elem_of_In, (list_elem_of_lookup_2 _ (S d)).
        rewrite <- (Nat.add_0_r (S d)), <- lookup_drop, Hd'. done. }
      apply Forall_cons in HW as [HW2 _]. destruct (first_yield k2 HW2 Hk2) as (tok & ts & b & E & Hb & Hf).
      exists b. split; [cbn; by rewrite E|]. exists r, d, a, lhs, rhs. rewrite Hd'. done. }
  cbn [run_trees] in Hrun. apply bind_Ok in Hrun as (g1 & Hg1 & Hrun).
  destruct (HPk st _ b g1 Hl Hp Hpb He Hk0 Hg1) as (st1 & s & Hs & Hre & Hstk & Hp1 & Hl1 & Hgl1); [lia|].
  destruct (has_next _ _ _ _ _ _ _ Hh Hr Hx) as (s' & Hs' & Hh' & _).
  assert (s' = s) as -> by congruence.
  destruct (first_yield k HWk Hk0) as (tok & ts & _ & Ey & _).
  destruct (IH (S d) st1 rest g) as (st2 & Hre2 & Hh2 & Hp2 & Hl2 & Hg2 & Hdrop & Htake); try done.
  - apply lookup_lt_Some in Hx. lia.
  - by rewrite Hstk.
  - by rewrite Hgl1.
  - rewrite Hstk. rewrite Ey in Hsz. cbn [length] in *. lia.
  - exists st2. split; [unfold reaches; by etrans|]. repeat (split; [done|]). rewrite Hstk in Hdrop.
    cbn [length fmap list_fmap rev]. split.
    + replace (S (length kids)) with (length kids + 1)%nat by lia. by rewrite <- drop_drop, Hdrop.
    + assert (Et : take (S (length kids)) (stk st2) = take (length kids) (stk st2) ++ [(s, tvalue k)]).
      { rewrite <- (take_drop (length kids) (stk st2)) at 1. rewrite Hdrop.
        assert (length (take (length kids) (stk st2)) = length kids).
        { apply (f_equal length) in Htake. rewrite length_fmap, length_rev, length_fmap in Htake. done. }
        rewrite take_app_ge by lia. f_equal. by replace (S (length kids) - _)%nat with 1%nat by lia. }
      by rewrite Et, fmap_app, Htake.
Qed.

Lemma parses_node r kids : wf_tree (Node r kids) -> Forall parses kids -> parses (Node r kids).
Proof.
  intros Hwf HP st rest a g Hl Hp Hpk He Hx Hrun Hsz.
  inversion Hwf as [|? ? lhs Hr HW]; subst.
  cbn [root] in *. rewrite Hr in *. cbn [fmap option_fmap option_map default fst from_option id] in *.
  assert (Hr0 : r <> 0) by (intros ->; apply Hx; by injection Hr).
  destruct (rule_facts _ _ _ Hr Hr0) as (_ & Hy1 & Hy2 & Hnt & Hacc & (y & Hy & _) & _).
  assert (Hr1 : r <> 1).
  { intros E. apply Hacc in E. destruct He as (r0 & d & b & lhs0 & rhs0 & _ & Hr' & Hx0 & _).
    assert (H0 : r0 <> 0) by (intros ->; by injection Hr' as _ <-).
    destruct (rule_facts _ _ _ Hr' H0) as (_ & _ & _ & _ & _ & _ & Hin).
    apply list_elem_of_lookup_2, list_elem_of_In in Hx0. by destruct (Hin _ Hx0). }
  rewrite run_tree_node in Hrun. apply bind_Ok in Hrun as (g1 & Hg1 & Hact).
  destruct (parses_kids r lhs _ a Hr Hr0 Hr1 kids 0 st rest g1)
    as (st1 & Hre & Hh & Hp1 & Hl1 & Hgl1 & Hdrop & Htake); try done.
  { lia. }
  { by eapply expects_rule. }
  assert (Ha : 0 <= a < YYNTOKENS).
  { destruct rest; cbn in Hpk; [injection Hpk as <-; done|by eapply yytranslate_range]. }
  pose proof (has_reduce _ _ _ _ _ Hh Hr Ha) as Hna.
  pose proof (yystep_action st1 a (Reduce r) Hl1 ltac:(by rewrite Hp1) Hna)
    as (st2 & Hst2 & Hk2 & Hsz2 & Hg2 & Hl2 & Hp2).
  rewrite length_fmap in Hy2. destruct (expects_next _ _ _ He Hx) as (s & Hs & Hf).
  assert (Hgo : yygoto (top (stk st)) lhs = Some s).
  { revert Hs. unfold next_state. destruct (Z.ltb_spec lhs YYNTOKENS); [lia|done]. }
  assert (Hstep : yystep st1 = yynewstate s (tvalue (Node r kids))
    (mkPstate (stk st) (yystacksize st2) (look st2) (toks st2) g)).
  { rewrite Hst2. unfold yyreduce. rewrite Hy2. cbn [deref mbind res_bind]. rewrite Nat2Z.id, Hk2, Htake, rev_involutive.
    destruct kids as [|k kids]; [done|]. cbn [fmap list_fmap head deref mbind res_bind tvalue].
    rewrite Hg2, Hgl1. cbn [fmap list_fmap] in Hact. rewrite Hact. cbn [mbind res_bind].
    rewrite Hy1. cbn [deref mbind res_bind]. rewrite Hdrop, Hgo. done. }
  set (st0 := mkPstate (stk st) (yystacksize st2) (look st2) (toks st2) g) in *.
  destruct (yynewstate_push s (tvalue (Node r kids)) st0) as (n & En); [cbn [stk st0]; lia|done|].
  eexists _, s. split; [done|]. split.
  { unfold reaches. etrans; [exact Hre|]. apply rtc_once. rewrite Hstep. exact En. }
  split; [done|]. split; [by rewrite <- Hp1, <- Hp2|]. done.
Qed.

Lemma parses_tree t : wf_tree t -> parses t.
Proof.
  induction t as [x tok|r kids IH] using tree_forest_ind; intros Hwf; [by apply parses_leaf|].
  apply parses_node; [done|]. inversion Hwf as [|? ? lhs _ HW]; subst.
  rewrite Forall_forall in IH, HW |- *. auto.
Qed.

(** ** The whole input *)

Lemma yyloop_mono f : forall F st g, yyloop f st = Ok g -> yyloop F st <> Err NoFuel -> yyloop F st = Ok g.
Proof.
  induction f as [|f IH]; intros F st g H HF; [done|]. destruct F as [|F]; [done|].
  cbn [yyloop] in *. destruct (yystep st) as [[st'|g']|e]; cbn in *; [by apply IH|done|done].
Qed.

Lemma reaches_loop st st' g : reaches st st' -> yystep st' = Ok (Accept g) -> exists f, yyloop f st = Ok g.
Proof.
  induction 1 as [st'|st st1 st' Hs _ IH]; intros Ha.
  - exists 1%nat. cbn. by rewrite Ha.
  - destruct (IH Ha) as [f Hf]. exists (S f). cbn. by rewrite Hs.
Qed.

Lemma yyparse_accepts ts t g0 g :
  positive_tokens ts -> Z.of_nat (length ts) + 2 < YYMAXDEPTH -> derives ts t -> run_tree t g0 = Ok g ->
  yyparse ts g0 = Ok g.
Proof.
  intros Hpos Hlen (Hwf & Hroot & Hyield) Hrun. set (st0 := mkPstate [] YYINITDEPTH None ts g0).
  destruct annotation_ok_parts as (Hcov & _ & _ & _ & Hacc & Hgoto).
  assert (He : expects 0 s_poise 0).
  { exists 1, 0%nat, 0, s_accept, [s_poise; s_end]. split; [by eapply covers_has|]. done. }
  assert (Hl0 : look_ok st0) by (by split).
  destruct (parses_tree t Hwf st0 [] 0 g) as (st' & s & Hs & Hre & Hstk & Hp & Hl & Hg);
    [done|by rewrite app_nil_r, Hyield|done|by rewrite Hroot|by rewrite Hroot|done|by rewrite Hyield|].
  rewrite Hroot in Hs. change (next_state 0 s_poise) with (yygoto 0 s_poise) in Hs.
  cbn [stk st0 top] in Hs. change (next_state 0 s_poise) with (yygoto 0 s_poise) in Hs.
  assert (s = 4) as -> by congruence.
  pose proof (yystep_action st' 0 (Shift YYFINAL) Hl ltac:(by rewrite Hp) ltac:(by rewrite Hstk))
    as (tok & ts' & Hstep & _).
  assert (Hfin : yystep st' = Ok (Accept g)).
  { rewrite Hstep. unfold yynewstate. rewrite Hstk. cbn [stk st0 length glob].
    destruct (Z.leb_spec (yystacksize (mkPstate [(4, tvalue t)] (yystacksize st') None ts' (glob st')))
      (Z.of_nat 2 + 1)); cbn [yystacksize] in *.
    - destruct (Z.leb_spec YYMAXDEPTH (yystacksize st')); [unfold YYMAXDEPTH in *; lia|]. cbn. by rewrite Hg.
    - cbn. by rewrite Hg. }
  destruct (reaches_loop st0 st' g Hre Hfin) as [f Hf].
  eapply yyloop_mono; [exact Hf|]. by apply yyparse_fuel_enough.
Qed.

(** C5: on the tokens of the scanner [yyparse] returns the global variables
    [g] exactly when the tokens are a sentence of the grammar of poise.y and
    running the semantic actions of a parse tree of it, children before
    parents and left to right, succeeds with [g].  The bound on the number of
    tokens keeps the parser's stack below its maximal depth. *)
Theorem yyparse_correct (ts : list token) (g0 g : genv) :
  positive_tokens ts -> Z.of_nat (length ts) + 2 < YYMAXDEPTH ->
  yyparse ts g0 = Ok g <-> exists t, derives ts t /\ run_tree t g0 = Ok g.
Proof.
  intros Hp Hl. split; [by apply yyparse_sound|]. intros (t & Hd & Hr). by eapply yyparse_accepts.
Qed.

Lemma yyparse_correct_witness :
  exists g t, yyparse example_tokens genv_new = Ok g /\
    derives example_tokens t /\ run_tree t genv_new = Ok g.
Proof.
  destruct (yyparse example_tokens genv_new) as [g|e] eqn:E; [|vm_compute in E; discriminate E].
  destruct (proj1 (yyparse_correct example_tokens genv_new g example_tokens_positive eq_refl) E)
    as (t & H1 & H2).
  exists g, t. split; [reflexivity|]. split; [exact H1|exact H2].
Defined.
