(* ===== verification/Source.v ===== *)
(** The policy language as a user writes it: an abstract syntax of policies,
    their words, their text with any layout and comments between the words,
    and the program object they stand for.  The grammar is that of
    src/compiler/poise.y without the forms the compiler cannot process (the
    [count] statement, which fails an assertion, and the rules under
    [binaryop] that mix comparisons). *)

From stdpp Require Import base list strings gmap.
From Stdlib Require Import ZArith Lia Ascii.
From S2P Require Import Prelude Cxx Ast Parser.

(** ** Abstract syntax *)

Inductive binop : Type := Bgt | Blt | Ble | Bge | Beq.
Inductive arithop : Type := Aplus | Aminus | Amulti | Amod.

(** A number as it is written: leading zeros and the value. *)
Definition numeral : Type := nat * Z.

Inductive operand : Type := OVar (h : string) | OConst (n : numeral).

Inductive cmp : Type :=
| PConst (h : string) (o : binop) (n : numeral)
| PVars (h : string) (o : binop) (h' : string)
| PArith (h : string) (a : arithop) (h' : string) (rest : list (arithop * operand)) (o : binop) (n : numeral).

Inductive cond : Type :=
| CPred (p : cmp)
| CList (h : string) (neg : bool) (l : string)
| CMon (m : string)
| CMonAnd (m : string) (p : cmp).

(** Actions are numbered: 0 is [drop], [k] is [fwdk]. *)
Inductive stmt : Type :=
| SIf (c : cond) (a : nat)
| SIfElse (c : cond) (a b : nat)
| SNest (c : cond) (s : stmt)
| SMonitor (m h : string) (neg : bool) (l : string)
| SDef (l : string) (n : numeral) (ns : list numeral).

(** ** Words *)

(** The text of a word, its token and the value the scanner gives it. *)
Definition word : Type := string * (Z * option yystype).

Definition kw (text : string) (t : Z) : word := (text, (t, None)).
Definition var (h : string) : word := (h, (VAR, Some (Sval h))).
Definition lvar (l : string) : word := (l, (LISTVAR, Some (Sval l))).
Definition numeral_text (n : numeral) : string :=
  String.string_of_list_ascii (replicate n.1 "0"%char) +:+ to_string n.2.
Definition const (n : numeral) : word := (numeral_text n, (CONST, Some (Ival n.2))).

Definition binop_word (o : binop) : word :=
  match o with
  | Bgt => kw ">" GT | Blt => kw "<" LT | Ble => kw "<=" LE | Bge => kw ">=" GE | Beq => kw "==" EQ
  end.
Definition arithop_word (a : arithop) : word :=
  match a with
  | Aplus => kw "+" PLUS | Aminus => kw "-" MINUS | Amulti => kw "*" MULTI | Amod => kw "%" MOD
  end.
Definition operand_word (x : operand) : word :=
  match x with OVar h => var h | OConst n => const n end.

(** The word of an action and the name the parser stores for it. *)
Definition action_text (a : nat) : string :=
  match a with O => "drop" | _ => "fwd" +:+ to_string (Z.of_nat a) end.
Definition action_word (a : nat) : word := kw (action_text a) (DROP + Z.of_nat a).
Definition action_name (a : nat) : string :=
  match a with O => "DROP" | _ => "FWD" +:+ to_string (Z.of_nat a) end.

Definition list_words (h : string) (neg : bool) (l : string) : list word :=
  [var h; if neg then kw "notin" NOTIN else kw "in" IN; lvar l].

Definition rest_words (rest : list (arithop * operand)) : list word :=
  concat ((fun '(a, x) => [arithop_word a; operand_word x]) <$> rest).

Definition pred_words (p : cmp) : list word :=
  match p with
  | PConst h o n => [var h; binop_word o; const n]
  | PVars h o h' => [var h; binop_word o; var h']
  | PArith h a h' rest o n =>
      [var h; arithop_word a; var h'] ++ rest_words rest ++ [binop_word o; const n]
  end.

Definition cond_words (c : cond) : list word :=
  [kw "match" MATCH; kw "(" LP] ++
  match c with
  | CPred p => pred_words p
  | CList h neg l => list_words h neg l
  | CMon m => [var m]
  | CMonAnd m p => [var m; kw "and" AND] ++ pred_words p
  end ++ [kw ")" RP].

Fixpoint stmt_words (s : stmt) : list word :=
  match s with
  | SIf c a => [kw "if" IF] ++ cond_words c ++ [kw "then" THEN; action_word a]
  | SIfElse c a b =>
      [kw "if" IF] ++ cond_words c ++ [kw "then" THEN; action_word a; kw "else" ELSE; action_word b]
  | SNest c s => [kw "if" IF] ++ cond_words c ++ [kw "then" THEN] ++ stmt_words s
  | SMonitor m h neg l =>
      [var m; kw ":=" ASSIGN; kw "monitor" MONITOR; kw "(" LP] ++ list_words h neg l ++ [kw ")" RP]
  | SDef l n ns =>
      [kw "def" DEF; lvar l; kw ":=" ASSIGN; kw "[" LB] ++ (const <$> n :: ns) ++ [kw "]" RB]
  end.

Definition policy_words (ss : list stmt) : list word := concat (stmt_words <$> ss).

(** ** Text *)

(** What stands between two words: blanks and comment lines. *)
Inductive gap_piece : Type :=
| Blank (c : ascii)
| Comment (text : list ascii).

Definition gap : Type := list gap_piece.

Definition piece_text (g : gap_piece) : list ascii :=
  match g with
  | Blank c => [c]
  | Comment t => ["/"%char; "/"%char] ++ t ++ ["010"%char]
  end.

Definition gap_text (g : gap) : list ascii := concat (piece_text <$> g).

Fixpoint layout (ws : list (word * gap)) : list ascii :=
  match ws with
  | [] => []
  | (w, g) :: ws => String.list_ascii_of_string w.1 ++ gap_text g ++ layout ws
  end.

(** The text of a policy whose words are followed by the gaps [gs], after the
    gap [g0]. *)
Definition policy_text (g0 : gap) (ss : list stmt) (gs : list gap) : string :=
  String.string_of_list_ascii (gap_text g0 ++ layout (zip (policy_words ss) gs)).

(** ** Meaning *)

Definition binop_name (o : binop) : string := (binop_word o).1.
Definition arithop_name (a : arithop) : string := (arithop_word a).1.
Definition listop_name (neg : bool) : string := if neg then "notin" else "in".

Definition operand_name (x : operand) : string :=
  match x with OVar h => h | OConst n => to_string n.2 end.

Definition arith_of (h : string) (a : arithop) (h' : string) (rest : list (arithop * operand)) : ArithExpr :=
  foldl (fun e '(a, x) => ArithExpr_chain e (arithop_name a) (operand_name x))
    (ArithExpr_vars h (arithop_name a) h') rest.

Definition pred_of (p : cmp) : BinaryPred :=
  match p with
  | PConst h o n => BinaryPred_int h (binop_name o) n.2
  | PVars h o h' => mkBinaryPred h (binop_name o) h'
  | PArith h a h' rest o n => BinaryPred_int (ArithExpr_stringify (arith_of h a h' rest)) (binop_name o) n.2
  end.

Definition rest_headers (rest : list (arithop * operand)) : list string :=
  omap (fun '(_, x) => match x with OVar h => Some h | OConst _ => None end) rest.

(** The headers of a predicate, in the order they are recorded. *)
Definition pred_headers (p : cmp) : list string :=
  match p with
  | PConst h _ _ => [h]
  | PVars h _ h' => [h; h']
  | PArith h _ h' rest _ _ => [h; h'] ++ rest_headers rest
  end.

Definition add_headers (hs : list string) (p : Program) : Program := foldl (fun p h => add_header h p) p hs.

Definition cond_program (c : cond) (p : Program) : Program :=
  match c with
  | CPred q => add_matchexpr (MatchExpr_pred (pred_of q)) (add_headers (pred_headers q) p)
  | CList h neg l =>
      add_matchexpr (MatchExpr_list (mkListPred h (listop_name neg) l)) (add_header h p)
  | CMon m => add_matchexpr (MatchExpr_monitor m) p
  | CMonAnd m q =>
      add_matchexpr (set_binarypred (Some (pred_of q)) (MatchExpr_monitor m)) (add_headers (pred_headers q) p)
  end.

(** The latest match expression gets two actions. *)
Definition with_actions (a b : string) (p : Program) : Program :=
  match last (matchexpr_v p) with
  | Some me =>
      put_latestmatchexpr (mkMatchExpr (me_type me) (matchlist me) (matchpred me) (matchmvar me) a b 2) p
  | None => p
  end.

(** A statement on the program so far and the actions nobody has used yet. *)
Fixpoint stmt_program (s : stmt) (st : Program * list string) : Program * list string :=
  let '(p, acts) := st in
  match s with
  | SIf c a => (cond_program c p, acts ++ [action_name a])
  | SIfElse c a b =>
      let acts := acts ++ [action_name a; action_name b] in
      (with_actions (nth 0 acts EmptyString) (nth 1 acts EmptyString) (cond_program c p), [])
  | SNest c s => stmt_program s (cond_program c p, acts)
  | SMonitor m h neg l =>
      (add_monitor (mkMonitor m (mkListPred h (listop_name neg) l)) (add_header h p), acts)
  | SDef l n ns => (add_listexpr l (mkListExpr (snd <$> n :: ns)) p, acts)
  end.

Definition policy_program (ss : list stmt) : Program :=
  fst (foldl (fun st s => stmt_program s st) (Program_new, []) ss).

(** ** Well-formed policies *)

Definition is_list_name (l : string) : bool :=
  match l with
  | String "l" (String "i" (String "s" (String "t" (String c EmptyString)))) => is_digit c
  | _ => false
  end.

Definition const_ok (n : numeral) : bool := (0 <=? n.2)%Z && (n.2 <=? INT_MAX)%Z.

Definition operand_ok (x : operand) : bool :=
  match x with OVar h => is_header_name h | OConst n => const_ok n end.

Definition pred_ok (p : cmp) : bool :=
  match p with
  | PConst h _ n => is_header_name h && const_ok n
  | PVars h _ h' => is_header_name h && is_header_name h'
  | PArith h _ h' rest _ n =>
      is_header_name h && is_header_name h' && forallb (fun '(_, x) => operand_ok x) rest && const_ok n
  end.

Definition cond_ok (c : cond) : bool :=
  match c with
  | CPred p => pred_ok p
  | CList h _ l => is_header_name h && is_list_name l
  | CMon m => is_monitor_name m
  | CMonAnd m p => is_monitor_name m && pred_ok p
  end.

Fixpoint stmt_ok (s : stmt) : bool :=
  match s with
  | SIf c a => cond_ok c && (a <=? 14)%nat
  | SIfElse c a b => cond_ok c && (a <=? 14)%nat && (b <=? 14)%nat
  | SNest c s => cond_ok c && stmt_ok s
  | SMonitor m h _ l => is_monitor_name m && is_header_name h && is_list_name l
  | SDef l n ns => is_list_name l && forallb const_ok (n :: ns)
  end.

Definition piece_ok (g : gap_piece) : bool :=
  match g with
  | Blank c => bool_decide (c ∈ [" "; "009"; "010"]%char)
  | Comment t => forallb (fun c => negb (bool_decide (c = "010"%char))) t
  end.

(** Whether a word ends before a character: a name, keyword or number before
    one that is neither letter nor digit, [<] and [>] before one that is not
    [=], the other symbols before any. *)
Definition is_alnum (c : ascii) : bool :=
  let n := nat_of_ascii c in
  (48 <=? n)%nat && (n <=? 57)%nat || (65 <=? n)%nat && (n <=? 90)%nat || (97 <=? n)%nat && (n <=? 122)%nat.

Definition ends_before (w : string) (c : ascii) : bool :=
  match w with
  | EmptyString => false
  | String d r =>
      if is_alnum d then negb (is_alnum c)
      else if bool_decide (w = "<" \/ w = ">") then negb (bool_decide (c = "="%char))
      else true
  end.

(** A gap may be empty where the next word is not taken for a part of the one
    before it. *)
Definition first_ends (w : string) (ws : list (word * gap)) : bool :=
  match ws with
  | ((String c _, _), _) :: _ => ends_before w c
  | _ => false
  end.

Fixpoint layout_ok (ws : list (word * gap)) : bool :=
  match ws with
  | [] => true
  | (w, g) :: ws =>
      forallb piece_ok g && match g with [] => first_ends w.1 ws | _ => true end && layout_ok ws
  end.
