(* ===== verification/SourceLex.v ===== *)
(** The scanner on the text of a policy: whatever the layout, the tokens are
    those of the words. *)

From stdpp Require Import base list strings sets.
From Stdlib Require Import ZArith Lia Ascii.
From S2P Require Import Prelude Cxx Ast LexTables Parser Lexer LexSpec LexProps LexBuffer LexBufferProps Source.

#[local] Arguments yy_resolve : simpl never.
#[local] Arguments znth : simpl never.
#[local] Arguments yy_next : simpl never.
#[local] Arguments yy_find_action : simpl never.
#[local] Arguments is_alnum : simpl never.
#[local] Arguments ends_before : simpl never.

(** ** Single words *)

Definition all_chars : list ascii := ascii_of_nat <$> seq 0 256.

Lemma all_chars_in c : c ∈ all_chars.
Proof.
  rewrite <- (ascii_nat_embedding c). apply list_elem_of_fmap_2, elem_of_seq.
  pose proof (nat_ascii_bounded c). lia.
Qed.

(** The characters that satisfy a predicate. *)
Definition chars (p : ascii -> bool) : list ascii := List.filter p all_chars.

Lemma chars_in p c : p c = true -> c ∈ chars p.
Proof. intros H. apply list_elem_of_In, filter_In. split; [by apply list_elem_of_In, all_chars_in|done]. Qed.

(** The characters that end a name or a number. *)
Definition stop_chars : list ascii := chars (fun c => negb (is_alnum c)).

(** [w] is scanned by rule [a] when the character [c] follows. *)
Definition lexes (a : Z) (w : list ascii) (c : ascii) : Prop :=
  forall rest, yy_match yy_start 0 None (w ++ c :: rest) = Some (a, length w).

Lemma walk_match2 w : forall s n last s1 last1 r,
  walk s n last w = Some (s1, last1) -> match2 s n last (w ++ r) = match2 s1 (n + length w) last1 r.
Proof.
  induction w as [|c w IH]; intros s n last s1 last1 r H.
  - cbn in H. injection H as -> ->. cbn. by rewrite Nat.add_0_r.
  - cbn [walk match2 app] in *. destruct (znth yy_accept s) as [a|]; [|done]. cbn [mbind option_bind] in *.
    destruct (yy_next s c) as [s'|]; [|done]. cbn [mbind option_bind] in *. destruct (s' =? 95)%Z; [done|].
    rewrite (IH _ _ _ _ _ _ H). cbn [length]. by replace (n + S (length w))%nat with (S n + length w)%nat by lia.
Qed.

Lemma walk_app w : forall s n last s1 last1 u,
  walk s n last w = Some (s1, last1) -> walk s n last (w ++ u) = walk s1 (n + length w) last1 u.
Proof.
  induction w as [|c w IH]; intros s n last s1 last1 u H.
  - cbn in H. injection H as -> ->. cbn [app length]. by rewrite Nat.add_0_r.
  - cbn [walk app] in *. destruct (znth yy_accept s) as [a|]; [|done]. cbn [mbind option_bind] in *.
    destruct (yy_next s c) as [s'|]; [|done]. cbn [mbind option_bind] in *. destruct (s' =? 95)%Z; [done|].
    rewrite (IH _ _ _ _ _ _ H). cbn [length]. by replace (n + S (length w))%nat with (S n + length w)%nat by lia.
Qed.

(** A state that accepts [a] and has no way on with the characters [cs]. *)
Definition accepts (a : Z) (cs : list ascii) (s : Z) : bool :=
  bool_decide (znth yy_accept s = Some a) && negb (a =? 0)%Z &&
  forallb (fun c => bool_decide (yy_next s c = Some 95%Z)) cs.

Lemma walk_lexes a cs w s last c :
  walk yy_start 0 None w = Some (s, last) -> accepts a cs s = true -> c ∈ cs -> lexes a w c.
Proof.
  intros Hw Ha Hc rest. unfold accepts in Ha.
  apply andb_prop in Ha as [[H1%bool_decide_eq_true H2%negb_true_iff]%andb_prop H3].
  rewrite forallb_forall in H3. apply list_elem_of_In, H3, bool_decide_eq_true in Hc.
  rewrite <- match2_eq, (walk_match2 w _ _ _ _ _ _ Hw) by done. cbn [match2]. rewrite H1. cbn [mbind option_bind].
  rewrite Hc. cbn [mbind option_bind]. change (95 =? 95)%Z with true. rewrite H2. by rewrite (find_jam _ s a _ H1).
Qed.

(** A word given as it is. *)
Definition scanned_as (a : Z) (w : list ascii) : bool :=
  match walk yy_start 0 None w with
  | Some (s, _) => accepts a (chars (ends_before (String.string_of_list_ascii w))) s
  | None => false
  end.

Lemma scanned_as_lexes a w c :
  scanned_as a w = true -> ends_before (String.string_of_list_ascii w) c = true -> lexes a w c.
Proof.
  unfold scanned_as. destruct (walk yy_start 0 None w) as [[s last]|] eqn:E; [|done].
  intros H Hc. eapply walk_lexes; [exact E|exact H|]. by apply chars_in.
Qed.

(** Words of unbounded length: the states [S] are closed under the characters
    that satisfy [p]. *)
Definition closed (p : ascii -> bool) (a : Z) (cs : list ascii) (S : list Z) : bool :=
  forallb (fun s => accepts a cs s && negb (s =? 95)%Z &&
    forallb (fun c => negb (p c) ||
      match yy_next s c with Some s' => bool_decide (s' ∈ S) | None => false end) all_chars) S.

Lemma closed_facts p a cs S s : closed p a cs S = true -> s ∈ S ->
  accepts a cs s = true /\ s <> 95%Z /\
  forall c, p c = true -> exists s', yy_next s c = Some s' /\ s' ∈ S.
Proof.
  intros H Hs. unfold closed in H. rewrite forallb_forall in H.
  specialize (H s (proj1 (list_elem_of_In _ _) Hs)).
  apply andb_prop in H as [[H1 H2%negb_true_iff%Z.eqb_neq]%andb_prop H3].
  split; [done|]. split; [done|]. intros c Hp. rewrite forallb_forall in H3.
  specialize (H3 c (proj1 (list_elem_of_In _ _) (all_chars_in c))). rewrite Hp in H3. cbn [negb orb] in H3.
  destruct (yy_next s c) as [s'|]; [|done]. apply bool_decide_eq_true in H3. by exists s'.
Qed.

Lemma walk_closed p a cs S : closed p a cs S = true -> forall w s n last,
  s ∈ S -> Forall (fun c => p c = true) w ->
  exists s' last', walk s n last w = Some (s', last') /\ s' ∈ S.
Proof.
  intros H. induction w as [|c w IH]; intros s n last Hs Hw; [by exists s, last|].
  apply Forall_cons in Hw as [Hc Hw]. destruct (closed_facts p a cs S s H Hs) as (Ha & _ & Hn).
  destruct (Hn c Hc) as (s' & E & Hs'). destruct (closed_facts p a cs S s' H Hs') as (_ & Hj & _).
  unfold accepts in Ha. apply andb_prop in Ha as [[Ha%bool_decide_eq_true _]%andb_prop _].
  cbn [walk]. rewrite Ha. cbn [mbind option_bind]. rewrite E. cbn [mbind option_bind].
  destruct (Z.eqb_spec s' 95); [done|]. by apply IH.
Qed.

(** [w] leads into such states. *)
Lemma prefix_lexes p a cs S w ds c s last :
  closed p a cs S = true -> walk yy_start 0 None w = Some (s, last) -> s ∈ S ->
  Forall (fun c => p c = true) ds -> c ∈ cs -> lexes a (w ++ ds) c.
Proof.
  intros H Hw Hs Hd Hc. destruct (walk_closed p a cs S H ds s (length w) last Hs Hd) as (s' & last' & E & Hs').
  eapply walk_lexes; [|by eapply closed_facts|done]. rewrite (walk_app _ _ _ _ _ _ _ Hw). exact E.
Qed.

(** ** The words of a policy *)

Lemma closed_var : closed is_digit 46 stop_chars [19; 29; 35]%Z = true.
Proof. by vm_compute. Qed.
Lemma closed_const : closed is_digit 45 stop_chars [14; 34]%Z = true.
Proof. by vm_compute. Qed.
Lemma closed_comment : closed (fun c => negb (bool_decide (c = "010"%char))) 1 ["010"%char] [33; 54]%Z = true.
Proof. by vm_compute. Qed.

Lemma all_digits_Forall s :
  all_digits s = true -> Forall (fun c => is_digit c = true) (String.list_ascii_of_string s).
Proof. induction s as [|c s IH]; [by constructor|]. cbn. intros [H1 H2]%andb_prop. by constructor; auto. Qed.

(** What ends a word of letters and digits. *)
Lemma ends_stop d r c : is_alnum d = true -> ends_before (String d r) c = true -> c ∈ stop_chars.
Proof. intros Hd H. unfold ends_before in H. rewrite Hd in H. apply (chars_in (fun c => negb (is_alnum c))), H. Qed.

Lemma header_lexes h c : is_header_name h = true -> ends_before h c = true ->
  lexes 46 (String.list_ascii_of_string h) c.
Proof.
  destruct h as [|d h]; [done|]. cbn [is_header_name]. intros [->%bool_decide_eq_true H2]%andb_prop Hc%ends_stop; [|done].
  eapply (prefix_lexes is_digit 46 stop_chars _ ["h"%char]); [exact closed_var|reflexivity| |by apply all_digits_Forall|done].
  by constructor.
Qed.

Lemma monitor_lexes m c : is_monitor_name m = true -> ends_before m c = true ->
  lexes 46 (String.list_ascii_of_string m) c.
Proof.
  destruct m as [|d m]; [done|]. cbn [is_monitor_name]. intros [->%bool_decide_eq_true H2]%andb_prop Hc%ends_stop; [|done].
  eapply (prefix_lexes is_digit 46 stop_chars _ ["m"%char]); [exact closed_var|reflexivity| |by apply all_digits_Forall|done].
  by do 2 constructor.
Qed.

Lemma first_digit : forallb (fun c => negb (is_digit c) || bool_decide (walk yy_start 0 None [c] = Some (14%Z, None))) all_chars = true.
Proof. by vm_compute. Qed.

Lemma digit_alnum c : is_digit c = true -> is_alnum c = true.
Proof.
  intros Hc. assert (F : forallb (fun c => negb (is_digit c) || is_alnum c) all_chars = true) by by vm_compute.
  rewrite forallb_forall in F. specialize (F c (proj1 (list_elem_of_In _ _) (all_chars_in c))). by rewrite Hc in F.
Qed.

Lemma digits_lexes s c : all_digits s = true -> s <> EmptyString -> ends_before s c = true ->
  lexes 45 (String.list_ascii_of_string s) c.
Proof.
  intros H1 Hn Hc. destruct s as [|d s]; [done|]. cbn [all_digits] in H1. apply andb_prop in H1 as [Hd Hs].
  apply ends_stop in Hc; [|by apply digit_alnum].
  pose proof first_digit as F. rewrite forallb_forall in F. specialize (F d (proj1 (list_elem_of_In _ _) (all_chars_in d))).
  rewrite Hd in F. cbn [negb orb] in F. apply bool_decide_eq_true in F.
  eapply (prefix_lexes is_digit 45 stop_chars _ [d]); [exact closed_const|exact F| |by apply all_digits_Forall|done].
  by constructor.
Qed.

(** Leading zeros do not change the value. *)
Lemma numeral_digits n : const_ok n = true ->
  all_digits (numeral_text n) = true /\ numeral_text n <> EmptyString /\ scan_digits 0 (numeral_text n) = n.2.
Proof.
  destruct n as [k z]. unfold const_ok, numeral_text. cbn [fst snd]. intros [H1%Z.leb_le _]%andb_prop.
  destruct (to_string_nonneg_digits z H1) as [D1 D2]. induction k as [|k (IH1 & IH2 & IH3)].
  - split; [exact D1|]. split; [exact D2|]. pose proof (scan_int_to_string z) as E. cbn [replicate].
    change (String.string_of_list_ascii [] +:+ to_string z) with (to_string z).
    destruct (to_string z) as [|c r]; [done|]. cbn [all_digits] in D1. apply andb_prop in D1 as [Dc _].
    rewrite scan_int_digit in E by done. by injection E.
  - split; [exact IH1|]. split; [done|]. exact IH3.
Qed.

Lemma atoi_numeral n : const_ok n = true -> atoi (numeral_text n) = n.2.
Proof.
  intros H. destruct (numeral_digits n H) as (D1 & D2 & D3). destruct (numeral_text n) as [|c r]; [done|].
  cbn [all_digits] in D1. apply andb_prop in D1 as [Dc _]. unfold atoi. rewrite scan_int_digit, D3 by done.
  apply andb_prop in H as [H1%Z.leb_le H2%Z.leb_le]. unfold INT_MAX, LONG_MIN, LONG_MAX in *.
  rewrite Z.min_r, Z.max_r by lia. apply swrap_small; lia.
Qed.

Lemma list_digits : forallb (fun c => negb (is_digit c) ||
  scanned_as 22 ["l"; "i"; "s"; "t"; c]%char) all_chars = true.
Proof. by vm_compute. Qed.

Lemma list_lexes l c : is_list_name l = true -> ends_before l c = true -> lexes 22 (String.list_ascii_of_string l) c.
Proof.
  intros H Hc. assert (exists d, l = String "l" (String "i" (String "s" (String "t" (String d EmptyString)))) /\ is_digit d = true)
    as (d & -> & Hd).
  { unfold is_list_name in H. repeat case_match; try done. by eexists. }
  pose proof list_digits as F. rewrite forallb_forall in F. specialize (F d (proj1 (list_elem_of_In _ _) (all_chars_in d))).
  rewrite Hd in F. cbn [negb orb] in F. by apply scanned_as_lexes.
Qed.

(** What the scanner does with a word: its rule, and the token returned. *)
Definition word_good (w : word) : Prop :=
  exists a, (forall c, ends_before w.1 c = true -> lexes a (String.list_ascii_of_string w.1) c) /\ w.1 <> EmptyString /\
    forall v, exists v', yy_action a w.1 v = Ok (Return w.2.1 v') /\ forall x, w.2.2 = Some x -> v' = x.

Lemma kw_good a text t :
  scanned_as a (String.list_ascii_of_string text) = true -> text <> EmptyString ->
  (forall v, yy_action a text v = Ok (Return t v)) -> word_good (kw text t).
Proof.
  intros H Hn Ha. exists a. split.
  { intros c Hc. apply scanned_as_lexes; [done|]. cbn [fst kw] in Hc. by rewrite String.string_of_list_ascii_of_string. }
  split; [done|]. intros v. by exists v.
Qed.

(** The rule of a word given as it is. *)
Definition kw_rule (text : string) : Z :=
  match walk yy_start 0 None (String.list_ascii_of_string text) with
  | Some (s, _) => default 0%Z (znth yy_accept s)
  | None => 0%Z
  end.

Ltac kw_good :=
  match goal with
  | |- word_good (kw ?text _) =>
      let a := eval vm_compute in (kw_rule text) in
      apply (kw_good a); [vm_compute; reflexivity|done|intros; reflexivity]
  end.

Lemma var_good h : is_header_name h = true -> word_good (var h).
Proof.
  intros H. exists 46%Z. split; [by intros c; apply header_lexes|]. split; [cbn; by intros ->|].
  intros v. exists (Sval h). split; [done|]. by intros x [= <-].
Qed.

Lemma mvar_good m : is_monitor_name m = true -> word_good (var m).
Proof.
  intros H. exists 46%Z. split; [by intros c; apply monitor_lexes|]. split; [cbn; by intros ->|].
  intros v. exists (Sval m). split; [done|]. by intros x [= <-].
Qed.

Lemma lvar_good l : is_list_name l = true -> word_good (lvar l).
Proof.
  intros H. exists 22%Z. split; [by intros c; apply list_lexes|]. split; [cbn; by intros ->|].
  intros v. exists (Sval l). split; [done|]. by intros x [= <-].
Qed.

Lemma const_good n : const_ok n = true -> word_good (const n).
Proof.
  intros H. destruct (numeral_digits n H) as (D1 & D2 & _). exists 45%Z.
  split; [by intros c; apply digits_lexes|]. split; [done|].
  intros v. exists (Ival n.2). split; [|by intros x [= <-]]. cbn. by rewrite (atoi_numeral n H).
Qed.

Lemma binop_good o : word_good (binop_word o).
Proof. destruct o; unfold binop_word; kw_good. Qed.
Lemma arithop_good a : word_good (arithop_word a).
Proof. destruct a; unfold arithop_word; kw_good. Qed.

Lemma action_good a : (a <= 14)%nat -> word_good (action_word a).
Proof. intros H. do 15 (destruct a as [|a]; [unfold action_word; kw_good|]). lia. Qed.

Lemma operand_good x : operand_ok x = true -> word_good (operand_word x).
Proof. destruct x; cbn; [apply var_good|apply const_good]. Qed.

Create HintDb words.
#[local] Hint Resolve var_good mvar_good lvar_good const_good binop_good arithop_good action_good operand_good : words.
#[local] Hint Extern 1 (word_good (kw _ _)) => kw_good : words.
#[local] Hint Extern 2 (word_good (if _ then _ else _)) => case_match : words.

Ltac good_words :=
  rewrite ?Forall_app; split_and?;
  repeat match goal with
         | |- Forall _ [] => apply Forall_nil_2
         | |- Forall _ (_ :: _) => apply Forall_cons_2
         end; auto with words.

Lemma list_words_good h neg l :
  is_header_name h = true -> is_list_name l = true -> Forall word_good (list_words h neg l).
Proof. intros H1 H2. unfold list_words. good_words. Qed.

Lemma pred_words_good p : pred_ok p = true -> Forall word_good (pred_words p).
Proof.
  destruct p as [h o z|h o h'|h a h' rest o z]; cbn -[const_ok is_header_name].
  - intros [H1 H2]%andb_prop. repeat constructor; auto with words.
  - intros [H1 H2]%andb_prop. repeat constructor; auto with words.
  - intros [[[H1 H2]%andb_prop H3]%andb_prop H4]%andb_prop.
    do 3 (constructor; [by auto with words|]). apply Forall_app. split; [|repeat constructor; auto with words].
    unfold rest_words. induction rest as [|[b x] rest IH]; [constructor|]. cbn in *. apply andb_prop in H3 as [H3 H5].
    do 2 (constructor; [by auto with words|]). by apply IH.
Qed.
#[local] Hint Resolve list_words_good pred_words_good : words.

Lemma cond_words_good c : cond_ok c = true -> Forall word_good (cond_words c).
Proof.
  intros H. unfold cond_words. good_words.
  destruct c as [p|h neg l|m|m p]; cbn [cond_ok] in H.
  - by auto with words.
  - apply andb_prop in H as [H1 H2]. by auto with words.
  - good_words.
  - apply andb_prop in H as [H1 H2]. good_words.
Qed.
#[local] Hint Resolve cond_words_good : words.

Lemma stmt_words_good s : stmt_ok s = true -> Forall word_good (stmt_words s).
Proof.
  induction s as [c a|c a b|c s IH|m h neg l|l z zs]; cbn [stmt_ok stmt_words]; intros H.
  - apply andb_prop in H as [H1 H2%Nat.leb_le].
    good_words.
  - apply andb_prop in H as [[H1 H2%Nat.leb_le]%andb_prop H3%Nat.leb_le].
    good_words.
  - apply andb_prop in H as [H1 H2].
    good_words.
  - apply andb_prop in H as [[H1 H2]%andb_prop H3].
    good_words.
  - apply andb_prop in H as [H1 H2].
    good_words.
    apply Forall_fmap, Forall_forall. intros x Hx. rewrite forallb_forall in H2.
    apply const_good, H2. by apply list_elem_of_In.
Qed.

Lemma policy_words_good ss : forallb stmt_ok ss = true -> Forall word_good (policy_words ss).
Proof.
  intros H. unfold policy_words. induction ss as [|s ss IH]; [constructor|]. cbn in *.
  apply andb_prop in H as [H1 H2]. apply Forall_app. split; [by apply stmt_words_good|by apply IH].
Qed.

(** ** The text *)

(** The scanner turns [inp] into [ts], with any fuel that is enough. *)
Definition lexes_to (inp : list ascii) (v : yystype) (ts : list token) : Prop :=
  forall fuel, (length inp < fuel)%nat -> yylex_loop fuel inp v = Ok ts.

Lemma lexes_to_nil v : lexes_to [] v [].
Proof. intros [|fuel] H; [cbn in H; lia|done]. Qed.

(** One pass of the scanner over [w]. *)
Lemma pass_scan a w r v fuel act :
  yy_match yy_start 0 None (w ++ r) = Some (a, length w) -> w <> [] ->
  yy_action a (String.string_of_list_ascii w) v = Ok act ->
  yylex_loop (S fuel) (w ++ r) v =
  match act with
  | Skip => yylex_loop fuel r v
  | Return t v' => ts ← yylex_loop fuel r v'; mret ((t, v') :: ts)
  end.
Proof.
  intros Hm Hw Ha. cbn [yylex_loop]. unfold yy_scan. destruct (w ++ r) as [|d i] eqn:E; [by destruct w|].
  rewrite Hm. cbn [deref]. rewrite bind_ret_l, <- E, take_app_length, Ha, bind_ret_l, drop_app_length, bind_ret_l.
  by destruct act.
Qed.

Lemma lexes_to_skip a w r v ts :
  yy_match yy_start 0 None (w ++ r) = Some (a, length w) -> w <> [] ->
  yy_action a (String.string_of_list_ascii w) v = Ok Skip ->
  lexes_to r v ts -> lexes_to (w ++ r) v ts.
Proof.
  intros Hm Hw Ha Hr [|fuel] Hf; [lia|]. rewrite (pass_scan a w r v fuel _ Hm Hw Ha). apply Hr.
  rewrite length_app in Hf. destruct w; [done|]. cbn in Hf. lia.
Qed.

Lemma lexes_to_token a w r v t v' ts :
  yy_match yy_start 0 None (w ++ r) = Some (a, length w) -> w <> [] ->
  yy_action a (String.string_of_list_ascii w) v = Ok (Return t v') ->
  lexes_to r v' ts -> lexes_to (w ++ r) v ((t, v') :: ts).
Proof.
  intros Hm Hw Ha Hr [|fuel] Hf; [lia|]. rewrite (pass_scan a w r v fuel _ Hm Hw Ha), Hr; [done|].
  rewrite length_app in Hf. destruct w; [done|]. cbn in Hf. lia.
Qed.

Lemma blank_match c rest : c ∈ [" "; "009"; "010"]%char -> yy_match yy_start 0 None ([c] ++ rest) = Some (44%Z, 1%nat).
Proof.
  intros H. repeat (apply elem_of_cons in H as [->|H]; [reflexivity|]). by apply elem_of_nil in H.
Qed.

Lemma piece_lexes g r v ts : piece_ok g = true -> lexes_to r v ts -> lexes_to (piece_text g ++ r) v ts.
Proof.
  destruct g as [c|t]; cbn [piece_ok piece_text]; intros H Hr.
  - apply bool_decide_eq_true in H. eapply lexes_to_skip; [by apply blank_match|done|done|done].
  - assert (L : lexes 1 (["/"%char; "/"%char] ++ t) "010"%char).
    { eapply prefix_lexes; [exact closed_comment|reflexivity| | |by constructor]; [by constructor|].
      rewrite forallb_forall in H. apply Forall_forall. intros c Hc. apply H. by apply list_elem_of_In. }
    rewrite (assoc_L (++)), <- (assoc_L (++) _ _ r). eapply lexes_to_skip; [apply L|done|done|].
    eapply (lexes_to_skip _ ["010"%char]); [apply blank_match; by do 3 constructor|done|done|done].
Qed.

Lemma gap_lexes g r v ts : forallb piece_ok g = true -> lexes_to r v ts -> lexes_to (gap_text g ++ r) v ts.
Proof.
  unfold gap_text. intros H Hr. induction g as [|x g IH]; [done|]. cbn in H. apply andb_prop in H as [H1 H2].
  cbn [fmap list_fmap concat]. rewrite <- (assoc_L (++)). apply piece_lexes; [done|by apply IH].
Qed.

(** The character after a word is one that ends it. *)
Lemma gap_ends w g ws : w.1 <> EmptyString -> layout_ok ((w, g) :: ws) = true ->
  exists c rest, gap_text g ++ layout ws = c :: rest /\ ends_before w.1 c = true.
Proof.
  cbn [layout_ok]. intros Hw [[H1 H2]%andb_prop _]%andb_prop.
  assert (B : forall c, is_alnum c = false -> c <> "="%char -> ends_before w.1 c = true).
  { intros c Hc He. destruct (w.1) as [|d s]; [done|]. unfold ends_before. rewrite Hc. destruct (is_alnum d); [done|].
    destruct (bool_decide (_ \/ _)); [|done]. by rewrite bool_decide_eq_false_2. }
  destruct g as [|[c|t] g].
  - destruct ws as [|[[[|c s] tok] g] ws]; [done|done|]. exists c. eexists. split; [reflexivity|exact H2].
  - cbn in H1. apply andb_prop in H1 as [H1%bool_decide_eq_true _]. exists c. eexists. split; [reflexivity|].
    repeat (apply elem_of_cons in H1 as [->|H1]; [by apply B|]). by apply elem_of_nil in H1.
  - exists "/"%char. eexists. split; [reflexivity|]. by apply B.
Qed.

(** The tokens of words: the values of the plain ones are not fixed. *)
Definition tok_match (t : token) (w : word) : Prop := t.1 = w.2.1 /\ forall x, w.2.2 = Some x -> t.2 = x.

Lemma string_ascii_id s : String.string_of_list_ascii (String.list_ascii_of_string s) = s.
Proof. apply String.string_of_list_ascii_of_string. Qed.

Lemma layout_lexes ws : forall gs v, length gs = length ws ->
  Forall word_good ws -> layout_ok (zip ws gs) = true ->
  exists ts, lexes_to (layout (zip ws gs)) v ts /\ Forall2 tok_match ts ws.
Proof.
  induction ws as [|w ws IH]; intros [|g gs] v Hl Hw Hg; try done; [exists []; by split; [apply lexes_to_nil|]|].
  apply Forall_cons in Hw as [(a & La & Hn & Ha) Hw]. destruct (Ha v) as (v' & Ev & Hv).
  change (zip (w :: ws) (g :: gs)) with ((w, g) :: zip ws gs) in *.
  destruct (gap_ends w g _ Hn Hg) as (c & rest & E & Hc). cbn [layout_ok] in Hg. apply andb_prop in Hg as [[Hg1 _]%andb_prop Hg].
  destruct (IH gs v' ltac:(by injection Hl) Hw Hg) as (ts & Ht & Hm). exists ((w.2.1, v') :: ts).
  split; [|by constructor]. cbn [layout].
  eapply lexes_to_token; [rewrite E; by apply La| |by rewrite string_ascii_id|].
  - intros E0. apply Hn. by rewrite <- (string_ascii_id w.1), E0.
  - by apply gap_lexes.
Qed.

(** The tokens of a policy, whatever its layout. *)
Lemma policy_lexes g0 ss gs :
  forallb stmt_ok ss = true -> forallb piece_ok g0 = true ->
  length gs = length (policy_words ss) -> layout_ok (zip (policy_words ss) gs) = true ->
  exists ts, yylex (policy_text g0 ss gs) = Ok ts /\ Forall2 tok_match ts (policy_words ss).
Proof.
  intros Hs H0 Hl Hg. destruct (layout_lexes (policy_words ss) gs (Ival 0) Hl (policy_words_good ss Hs) Hg) as (ts & Ht & Hm).
  exists ts. split; [|done]. unfold yylex, policy_text. rewrite String.list_ascii_of_string_of_list_ascii.
  by apply (gap_lexes g0 _ _ _ H0 Ht); lia.
Qed.
