(* ===== verification/Samples.v ===== *)
(** The policies of src/policies with the P4 programs and switch commands the
    repository keeps for them in src/p4, and the monitor template. *)

From stdpp Require Import base strings.
From S2P Require Import Prelude.

Open Scope string_scope.

Definition monitor_template : string :=
"#define MONNAME_TIMEOUT TIMEOUTVAL

header_type MONNAME_meta_t {
   fields {
      active: 16;
   }
}

metadata MONNAME_meta_t MONNAME_meta;

register MONNAME_ts_high_32 {
    width: 32;
    instance_count: 1;
}

table monitor_MONNAME_tab {
    reads {
        poise_h.HNAME: exact;
    }
    actions {nop;}
    default_action: nop;
    size: 1;
}

blackbox stateful_alu read_MONNAME_t {
    reg: MONNAME_ts_high_32;

    condition_lo: meta.tstamp_high_32 - register_lo < MONNAME_TIMEOUT;

    update_lo_1_predicate: condition_lo;
    update_lo_1_value: register_lo;

    output_predicate: condition_lo;
    output_dst: MONNAME_meta.active;
    output_value: predicate;
}

action check_MONNAME_active(idx) {
    read_MONNAME_t.execute_stateful_alu(idx);
}

table check_MONNAME_active_tab {
    actions{check_MONNAME_active;}
    default_action: check_MONNAME_active;
    size: 1;
}

blackbox stateful_alu write_MONNAME_t {
    reg: MONNAME_ts_high_32;

    condition_lo: true;

    update_lo_1_predicate: condition_lo;
    update_lo_1_value: meta.tstamp_high_32;

    output_dst: MONNAME_meta.active;
    output_value: predicate;
}

action update_MONNAME(idx) {
    write_MONNAME_t.execute_stateful_alu(idx);
}

table update_MONNAME_tab {
    actions{update_MONNAME;}
    default_action: update_MONNAME;
    size: 1;
}

table eval_MONNAME_tab_recRECNUM_idIDNUM {
    reads {
        MONNAME_meta.active: exact;
EXTRA_CHECK
    }
    actions {set_ctx_dec; nop;}
    default_action: nop;
    size: 2;
}
".

Definition p1_poise : string :=
"//P1: Block traffic in work hours. Accept if time in [9, 17], deny otherwise.
//Headers: h1: timestamp in 24-hour format
//Default: Accept, and forward to port 0

if match (h1 < 9) then drop else fwd1

if match (h1 > 17) then drop else fwd1
".

Definition p1_p4 : string :=
"#ifndef POLICY_P4
#define POLICY_P4

#define RECIR_TIMES 0

header_type poise_h_t{
   fields {
      h1 : 16;
   }
}

table eval_h1_tab_rec0_id0 {
   reads {
      poise_h.h1 : range;
   }
   actions {set_ctx_dec; nop;}
   default_action: nop;
   size: 2;
}

table eval_h1_tab_rec0_id1 {
   reads {
      poise_h.h1 : range;
   }
   actions {set_ctx_dec; nop;}
   default_action: nop;
   size: 2;
}

control EvaluateContext
{
   if (log.recir_counter == 0) {
      apply(eval_h1_tab_rec0_id0);
      apply(eval_h1_tab_rec0_id1);
   }

   if (log.recir_counter < RECIR_TIMES) {
      apply(do_recirculate_tab);
   } else {
      apply(drop1_tab);
   }
}
#endif
".

Definition p1_cmd : string :=
"pd eval_h1_tab_rec0_id0 add_entry set_ctx_dec poise_h_h1_start 0 poise_h_h1_end 9 priority 0 action_x 15 entry_hdl 1
pd eval_h1_tab_rec0_id1 add_entry set_ctx_dec poise_h_h1_start 17 poise_h_h1_end 10000 priority 0 action_x 15 entry_hdl 1

".

Definition p2_poise : string :=
"//P2: Direct guest traffic through a special middlebox.
//Headers: h1: dev_id
//fwd (portid): forward to port ID.

//Define authorized users
def list0 := [ 0001 0002 0003 ]

if match (h1 in list0) then fwd2  else fwd1
".

Definition p2_p4 : string :=
"#ifndef POLICY_P4
#define POLICY_P4

#define RECIR_TIMES 0

header_type poise_h_t{
   fields {
      h1 : 16;
   }
}

table eval_h1_tab_rec0_id0 {
   reads {
      poise_h.h1 : exact;
   }
   actions {set_ctx_dec; nop;}
   default_action: nop;
   size: 3;
}

control EvaluateContext
{
   if (log.recir_counter == 0) {
      apply(eval_h1_tab_rec0_id0);
   }

   if (log.recir_counter < RECIR_TIMES) {
      apply(do_recirculate_tab);
   } else {
      apply(drop1_tab);
   }
}
#endif
".

Definition p2_cmd : string :=
"pd eval_h1_tab_rec0_id0 add_entry set_ctx_dec poise_h_h1 1 action_x 2
pd eval_h1_tab_rec0_id0 add_entry set_ctx_dec poise_h_h1 2 action_x 2
pd eval_h1_tab_rec0_id0 add_entry set_ctx_dec poise_h_h1 3 action_x 2

".

Definition p3_poise : string :=
"//P3: Distance-based access control. Accept if 100<lat<105 and 200<lon<210
//Headers: h1: lat, h2: lon
//Since Tofino doesn't support multiplication, we'll use > and < instead.
//Default: fwd1

if match (h1 < 100) then drop else fwd1

if match (h1 > 105) then drop else fwd1

if match (h2 < 200) then drop else fwd1

if match (h2 > 210) then drop else fwd1
".

Definition p3_p4 : string :=
"#ifndef POLICY_P4
#define POLICY_P4

#define RECIR_TIMES 0

header_type poise_h_t{
   fields {
      h1 : 16;
      h2 : 16;
   }
}

table eval_h1_tab_rec0_id0 {
   reads {
      poise_h.h1 : range;
   }
   actions {set_ctx_dec; nop;}
   default_action: nop;
   size: 2;
}

table eval_h1_tab_rec0_id1 {
   reads {
      poise_h.h1 : range;
   }
   actions {set_ctx_dec; nop;}
   default_action: nop;
   size: 2;
}

table eval_h2_tab_rec0_id2 {
   reads {
      poise_h.h2 : range;
   }
   actions {set_ctx_dec; nop;}
   default_action: nop;
   size: 2;
}

table eval_h2_tab_rec0_id3 {
   reads {
      poise_h.h2 : range;
   }
   actions {set_ctx_dec; nop;}
   default_action: nop;
   size: 2;
}

control EvaluateContext
{
   if (log.recir_counter == 0) {
      apply(eval_h1_tab_rec0_id0);
      apply(eval_h1_tab_rec0_id1);
      apply(eval_h2_tab_rec0_id2);
      apply(eval_h2_tab_rec0_id3);
   }

   if (log.recir_counter < RECIR_TIMES) {
      apply(do_recirculate_tab);
   } else {
      apply(drop1_tab);
   }
}
#endif
".

Definition p3_cmd : string :=
"pd eval_h1_tab_rec0_id0 add_entry set_ctx_dec poise_h_h1_start 0 poise_h_h1_end 100 priority 0 action_x 15 entry_hdl 1
pd eval_h1_tab_rec0_id1 add_entry set_ctx_dec poise_h_h1_start 105 poise_h_h1_end 10000 priority 0 action_x 15 entry_hdl 1
pd eval_h2_tab_rec0_id2 add_entry set_ctx_dec poise_h_h2_start 0 poise_h_h2_end 200 priority 0 action_x 15 entry_hdl 1
pd eval_h2_tab_rec0_id3 add_entry set_ctx_dec poise_h_h2_start 210 poise_h_h2_end 10000 priority 0 action_x 15 entry_hdl 1

".

Definition p4_poise : string :=
"//P4: Allow if admin is online
//Headers: h1: dev_id

//Define admin dev id list
def list1 := [ 0001 0002 0003 ]

//Implicit behavior: Counter gets refreshed.
m0 := monitor (h1 in list1)

if match (m0) then fwd1 else drop
".

Definition p4_p4 : string :=
"#ifndef POLICY_P4
#define POLICY_P4

#define RECIR_TIMES 0

header_type poise_h_t{
   fields {
      h1 : 16;
   }
}

#define m0_TIMEOUT 100000

header_type m0_meta_t {
   fields {
      active: 16;
   }
}

metadata m0_meta_t m0_meta;

register m0_ts_high_32 {
    width: 32;
    instance_count: 1;
}

table monitor_m0_tab {
    reads {
        poise_h.h1: exact;
    }
    actions {nop;}
    default_action: nop;
    size: 1;
}

blackbox stateful_alu read_m0_t {
    reg: m0_ts_high_32;

    condition_lo: meta.tstamp_high_32 - register_lo < m0_TIMEOUT;

    update_lo_1_predicate: condition_lo;
    update_lo_1_value: register_lo;

    output_predicate: condition_lo;
    output_dst: m0_meta.active;
    output_value: predicate;
}

action check_m0_active(idx) {
    read_m0_t.execute_stateful_alu(idx);
}

table check_m0_active_tab {
    actions{check_m0_active;}
    default_action: check_m0_active;
    size: 1;
}

blackbox stateful_alu write_m0_t {
    reg: m0_ts_high_32;

    condition_lo: true;

    update_lo_1_predicate: condition_lo;
    update_lo_1_value: meta.tstamp_high_32;

    output_dst: m0_meta.active;
    output_value: predicate;
}

action update_m0(idx) {
    write_m0_t.execute_stateful_alu(idx);
}

table update_m0_tab {
    actions{update_m0;}
    default_action: update_m0;
    size: 1;
}

table eval_m0_tab_rec0_id0 {
    reads {
        m0_meta.active: exact;

    }
    actions {set_ctx_dec; nop;}
    default_action: nop;
    size: 2;
}
control EvaluateContext
{
   if (log.recir_counter == 0) {
      apply(monitor_m0_tab) {
         hit {
            apply(update_m0_tab);
         }
         miss {
            apply(check_m0_active_tab);
         }
      }
      apply(eval_m0_tab_rec0_id0);
   }

   if (log.recir_counter < RECIR_TIMES) {
      apply(do_recirculate_tab);
   } else {
      apply(drop1_tab);
   }
}
#endif
".

Definition p4_cmd : string :=
"pd eval_m0_tab_rec0_id0 add_entry set_ctx_dec m0_meta_active 0 action_x 15

".

Definition p5_poise : string :=
"//P5: Block requests if user touchscreen is inactive
//Headers: h1: userscreen_status, 1: ON, 0: OFF

if match (h1 == 0) then drop else fwd1
".

Definition p5_p4 : string :=
"#ifndef POLICY_P4
#define POLICY_P4

#define RECIR_TIMES 0

header_type poise_h_t{
   fields {
      h1 : 16;
   }
}

table eval_h1_tab_rec0_id0 {
   reads {
      poise_h.h1 : exact;
   }
   actions {set_ctx_dec; nop;}
   default_action: nop;
   size: 2;
}

control EvaluateContext
{
   if (log.recir_counter == 0) {
      apply(eval_h1_tab_rec0_id0);
   }

   if (log.recir_counter < RECIR_TIMES) {
      apply(do_recirculate_tab);
   } else {
      apply(drop1_tab);
   }
}
#endif
".

Definition p5_cmd : string :=
"pd eval_h1_tab_rec0_id0 add_entry set_ctx_dec poise_h_h1 0 action_x 15

".

Definition p6_poise : string :=
"//P6: Scrub traffic if UI overlapping.
//Headers: h1 UI_Overlap_status. 1: OVERLAPPING, 0: GOOD
//Port 2 is the special port for DPI or traffic scrubbing.

if match (h1 == 1) then fwd2 else fwd1
".

Definition p6_p4 : string :=
"#ifndef POLICY_P4
#define POLICY_P4

#define RECIR_TIMES 0

header_type poise_h_t{
   fields {
      h1 : 16;
   }
}

table eval_h1_tab_rec0_id0 {
   reads {
      poise_h.h1 : exact;
   }
   actions {set_ctx_dec; nop;}
   default_action: nop;
   size: 2;
}

control EvaluateContext
{
   if (log.recir_counter == 0) {
      apply(eval_h1_tab_rec0_id0);
   }

   if (log.recir_counter < RECIR_TIMES) {
      apply(do_recirculate_tab);
   } else {
      apply(drop1_tab);
   }
}
#endif
".

Definition p6_cmd : string :=
"pd eval_h1_tab_rec0_id0 add_entry set_ctx_dec poise_h_h1 1 action_x 2

".

Definition p7_poise : string :=
"//P7: Conduct DPI if the camera is on.
//Headers: h1, camera_status. 1: ON, 0: OFF

if match (h1 == 1) then fwd2 else fwd1
".

Definition p7_p4 : string :=
"#ifndef POLICY_P4
#define POLICY_P4

#define RECIR_TIMES 0

header_type poise_h_t{
   fields {
      h1 : 16;
   }
}

table eval_h1_tab_rec0_id0 {
   reads {
      poise_h.h1 : exact;
   }
   actions {set_ctx_dec; nop;}
   default_action: nop;
   size: 2;
}

control EvaluateContext
{
   if (log.recir_counter == 0) {
      apply(eval_h1_tab_rec0_id0);
   }

   if (log.recir_counter < RECIR_TIMES) {
      apply(do_recirculate_tab);
   } else {
      apply(drop1_tab);
   }
}
#endif
".

Definition p7_cmd : string :=
"pd eval_h1_tab_rec0_id0 add_entry set_ctx_dec poise_h_h1 1 action_x 2

".
