(* ===== verification/Compiler.v ===== *)
(** The compiler as a whole: [main] of src/compiler/poise.tab.c on the text
    of a policy, with what is proved of the front end and the back end put
    together. *)

From stdpp Require Import base list strings gmap sorting.
From Stdlib Require Import ZArith Lia Ascii.
From S2P Require Import Prelude Cxx Ast Backend Codegen TextProps AllocProps Switch MergeProps.
From S2P Require Import Policy CompileProps ParseTables Parser LexTables Lexer LexSpec LexProps.
From S2P Require Import ParseSpec ParseProps Samples.

(** Parsing a policy file. *)
Definition parse_policy (text : string) : res Program :=
  ts ← yylex text;
  g ← yyparse ts genv_new;
  mret (prog g).

#[export] Instance check_sort : StdSort check_lt := insertion_StdSort check_lt.

(** [poise-tofino -f policy -o p4 -s cmd]: the two files written. *)
Definition poise_tofino (mon_template text : string) : res (string * string) :=
  p ← parse_policy text;
  '(_, p4, cmd) ← compile_tofino mon_template p;
  mret (p4, cmd).

(** ** Termination *)

Lemma token_ok_positive ts : Forall token_ok ts -> positive_tokens ts.
Proof.
  intros H. eapply Forall_impl; [exact H|]. intros t [[Ht _] _]. unfold IF in Ht. lia.
Qed.

Lemma fuelless_parse_policy text : fuelless (parse_policy text).
Proof.
  unfold parse_policy. destruct (yylex_loop_ok (S (length (String.list_ascii_of_string text)))
    (String.list_ascii_of_string text) (Ival 0) ltac:(lia)) as (ts & E & Hts).
  unfold yylex. rewrite E, bind_ret_l.
  apply fuelless_bind; [by apply yyparse_fuel_enough, token_ok_positive|]. intros g. done.
Qed.

Lemma fuelless_stoi s : fuelless (stoi s).
Proof. unfold stoi. fuelless. Qed.
#[local] Hint Resolve fuelless_stoi : fuel.

Lemma fuelless_process_matchexpr p i me : fuelless (process_matchexpr p i me).
Proof.
  unfold process_matchexpr, parse_match_mon, parse_match_pred, parse_match_list, get_mvar,
    get_listpred, get_if_action, get_else_action. fuelless.
Qed.
#[local] Hint Resolve fuelless_process_matchexpr : fuel.

Lemma fuelless_process_loop mes : forall i p, fuelless (process_loop i mes p).
Proof. induction mes; intros i p; cbn [process_loop]; fuelless. Qed.

Lemma fuelless_gather_checks ix : forall acc p, fuelless (gather_checks ix acc p).
Proof. induction ix; intros acc p; cbn [gather_checks]; fuelless. Qed.
#[local] Hint Resolve fuelless_process_loop fuelless_gather_checks : fuel.

Lemma fuelless_merge_headers hs : forall p, fuelless (merge_headers hs p).
Proof.
  induction hs; intros p; cbn [merge_headers]; [fuelless|].
  unfold merge_header, merge_checks_per_header. fuelless.
Qed.

Lemma fuelless_absorb_checks first ix : forall p, fuelless (absorb_checks first ix p).
Proof. induction ix; intros p; cbn [absorb_checks]; fuelless. Qed.
#[local] Hint Resolve fuelless_merge_headers fuelless_absorb_checks : fuel.

Lemma fuelless_merge_monitors_loop ms : forall p, fuelless (merge_monitors_loop ms p).
Proof.
  induction ms; intros p; cbn [merge_monitors_loop]; [fuelless|]. unfold merge_monitor. fuelless.
Qed.

Lemma fuelless_allocate_loop cs : forall cr st, fuelless (allocate_loop cs cr st).
Proof. induction cs; intros cr st; cbn [allocate_loop]; unfold stages_needed; fuelless. Qed.

Lemma fuelless_eval_ctx_loop cs : forall prev, fuelless (eval_ctx_loop cs prev).
Proof. induction cs; intros prev; cbn [eval_ctx_loop]; fuelless. Qed.
#[local] Hint Resolve fuelless_merge_monitors_loop fuelless_allocate_loop
  fuelless_eval_ctx_loop : fuel.

Lemma fuelless_monitor_text tmpl c : fuelless (monitor_text tmpl c).
Proof. destruct (monitor_text_ok tmpl c) as [t ->]. done. Qed.
#[local] Hint Resolve fuelless_monitor_text : fuel.

Lemma fuelless_generate_tables tmpl cs : fuelless (generate_tables tmpl cs).
Proof. induction cs; cbn [generate_tables]; unfold generate_table; fuelless. Qed.
#[local] Hint Resolve fuelless_generate_tables : fuel.

Lemma fuelless_compile_tofino tmpl p : fuelless (compile_tofino tmpl p).
Proof.
  unfold compile_tofino, optimise, generate_p4, process_matchexprs, merge_same_headers,
    merge_monitors, allocate_resources, generate_table_def, generate_eval_ctx. fuelless.
Qed.

Lemma fuelless_poise_tofino mon_template text : poise_tofino mon_template text <> Err NoFuel.
Proof.
  apply fuelless_bind; [apply fuelless_parse_policy|]. intros p.
  apply fuelless_bind; [apply fuelless_compile_tofino|]. by intros [[p' p4] cmd].
Qed.

(** C28: the compiler ends on every policy text: scanning, parsing, the back
    end's passes and the template substitution never run out of the fuel
    their loops are given in the model, so every run has one of the outcomes
    of the code: two files, a failed assertion, an exception or [exit]. *)
Theorem poise_tofino_terminates (mon_template text : string) :
  poise_tofino mon_template text <> Err NoFuel.
Proof. apply fuelless_poise_tofino. Qed.

(** ** The policies shipped with the compiler *)

(** On each of the seven sample policies of src/policies the compiler
    writes, character for character, the P4 and command files of src/p4. *)
Lemma samples_compile :
  poise_tofino monitor_template p1_poise = Ok (p1_p4, p1_cmd) /\
  poise_tofino monitor_template p2_poise = Ok (p2_p4, p2_cmd) /\
  poise_tofino monitor_template p3_poise = Ok (p3_p4, p3_cmd) /\
  poise_tofino monitor_template p4_poise = Ok (p4_p4, p4_cmd) /\
  poise_tofino monitor_template p5_poise = Ok (p5_p4, p5_cmd) /\
  poise_tofino monitor_template p6_poise = Ok (p6_p4, p6_cmd) /\
  poise_tofino monitor_template p7_poise = Ok (p7_p4, p7_cmd).
Proof. repeat split; vm_compute; reflexivity. Qed.

(** The seven sample policies parse to plain policies, so the
    correctness theorems of the back end apply to all of them. *)
Theorem sample_policies_plain :
  forallb (fun text =>
    match parse_policy text with
    | Ok p => plainb p && (length (matchexpr_v p) <=? 16)%nat
    | Err _ => false
    end) [p1_poise; p2_poise; p3_poise; p4_poise; p5_poise; p6_poise; p7_poise] = true.
Proof. by vm_compute. Qed.

(** ** From the text to the switch *)


(** The parsed form of policy P3, four range checks on two headers. *)
Definition p3_program : Program :=
  match parse_policy p3_poise with Ok p => p | Err _ => Program_new end.



(** A policy with every form of match. *)
Definition mixed_poise : string :=
  "def list0 := [ 1 2 ]" +:+ nl +:+ "m0 := monitor(h3 in list0)" +:+ nl +:+
  "if match (h1 < 9) then drop else fwd1" +:+ nl +:+ "if match (h1 >= 4) then fwd2 else fwd1" +:+ nl +:+
  "if match (h2 notin list0) then fwd3 else fwd1" +:+ nl +:+ "if match (m0 and h4 == 5) then fwd1 else drop" +:+ nl.
Definition mixed_program : Program :=
  match parse_policy mixed_poise with Ok p => p | Err _ => Program_new end.

