(* ===== verification/SourceProps.v ===== *)
(** The front end on the text of a policy: every well-formed policy, in any
    layout, is parsed to the program object it stands for. *)

From stdpp Require Import base list strings gmap.
From Stdlib Require Import ZArith Lia Ascii.
From S2P Require Import Prelude Cxx Ast ParseTables Parser LexTables Lexer LexSpec LexProps.
From S2P Require Import ParseSpec ParseProps ParseComplete Source SourceLex Compiler.

#[local] Arguments yyaction : simpl never.
#[local] Arguments rule : simpl never.

(** ** Parse trees of words *)

(** The value of a symbol, if the rule's action can use it. *)
Definition val_match (v : yystype) (o : option yystype) : Prop := forall x, o = Some x -> v = x.

(** However the plain tokens of [ws] are filled, there are trees with the
    roots [xs] over them, and their actions lead from [g] to [g']. *)
Definition forest (xs : list Z) (ws : list word) (vals : list (option yystype)) (g g' : genv) : Prop :=
  forall ts, Forall2 tok_match ts ws -> exists trees,
    Forall wf_tree trees /\ root <$> trees = xs /\ concat (yield_of <$> trees) = ts /\
    run_trees trees g = Ok g' /\ Forall2 val_match (tvalue <$> trees) vals.

Lemma forest_nil g : forest [] [] [] g g.
Proof. intros ts H. apply Forall2_nil_inv_r in H as ->. by exists []. Qed.

Lemma forest_app xs ws vs g g1 xs' ws' vs' g2 :
  forest xs ws vs g g1 -> forest xs' ws' vs' g1 g2 ->
  forest (xs ++ xs') (ws ++ ws') (vs ++ vs') g g2.
Proof.
  intros H1 H2 ts Hts. apply Forall2_app_inv_r in Hts as (ts1 & ts2 & Ht1 & Ht2 & ->).
  destruct (H1 ts1 Ht1) as (t1 & W1 & R1 & Y1 & A1 & V1), (H2 ts2 Ht2) as (t2 & W2 & R2 & Y2 & A2 & V2).
  exists (t1 ++ t2). rewrite !fmap_app, concat_app, Y1, Y2, R1, R2, run_trees_app, A1, bind_ret_l.
  split; [by apply Forall_app|]. split; [done|]. split; [done|]. split; [done|]. by apply Forall2_app.
Qed.

Lemma forest_tok x w xs ws vs g g' :
  YYTRANSLATE w.2.1 = Some x -> forest xs ws vs g g' -> forest (x :: xs) (w :: ws) (w.2.2 :: vs) g g'.
Proof.
  intros Hx H. apply (forest_app [x] [w] [w.2.2] g g); [|done]. intros ts Hts.
  apply Forall2_cons_inv_r in Hts as (t & ts' & [E1 E2] & H0 & ->). apply Forall2_nil_inv_r in H0 as ->.
  exists [Leaf x t]. split; [constructor; [|done]; constructor; by rewrite E1|]. do 3 (split; [done|]). by repeat constructor.
Qed.

Lemma forest_sub x ws xs ws' v vs g g1 g2 :
  forest [x] ws [v] g g1 -> forest xs ws' vs g1 g2 -> forest (x :: xs) (ws ++ ws') (v :: vs) g g2.
Proof. apply (forest_app [x] ws [v]). Qed.

Lemma forest_node r lhs xs ws vs g g1 g2 :
  rule r = Some (lhs, xs) -> forest xs ws vs g g1 ->
  (forall us, Forall2 val_match us vs -> yyaction r us g1 = Ok g2) ->
  forest [lhs] ws [None] g g2.
Proof.
  intros Hr H Ha ts Hts. destruct (H ts Hts) as (t & W & R & Y & A & V). exists [Node r t].
  split; [constructor; [|done]; econstructor; [by rewrite R|done]|].
  split; [cbn; by rewrite Hr|]. split; [cbn; by rewrite app_nil_r|].
  split; [|repeat constructor; by intros x]. cbn [run_trees]. rewrite run_tree_node, A, bind_ret_l, (Ha _ V). done.
Qed.

(** The values of a right-hand side. *)
Lemma val_cons us o vs : Forall2 val_match us (o :: vs) -> exists u us', us = u :: us' /\ val_match u o /\ Forall2 val_match us' vs.
Proof. intros H. apply Forall2_cons_inv_r in H as (u & us' & H1 & H2 & ->). by exists u, us'. Qed.

Ltac values :=
  intros us Hus; cbn in Hus;
  repeat match goal with
    | H : Forall2 val_match ?us (_ :: _) |- _ =>
        apply val_cons in H as (? & ? & -> & ? & H)
    | H : Forall2 val_match ?us [] |- _ => apply Forall2_nil_inv_r in H as ->
    end;
  repeat match goal with
    | H : val_match ?u (Some _) |- _ => specialize (H _ eq_refl); subst u
    | H : val_match ?u None |- _ => clear H
    end.

(** A rule whose right-hand side is made of words and of the forests given. *)
Ltac toks := repeat first [apply forest_nil | apply forest_tok; [reflexivity|]].

(** ** Operators and predicates *)

Definition binop_rule (o : binop) : Z :=
  match o with Bgt => 46 | Blt => 47 | Ble => 48 | Bge => 49 | Beq => 50 end.
Definition arithop_rule (a : arithop) : Z :=
  match a with Aplus => 42 | Aminus => 43 | Amulti => 44 | Amod => 45 end.

Lemma binop_forest o g : forest [s_binaryop] [binop_word o] [None] g (g_thebinaryop (binop_name o) g).
Proof.
  destruct o; match goal with |- forest _ [binop_word ?o] _ _ _ =>
    eapply (forest_node (binop_rule o)); [reflexivity|toks|values; reflexivity] end.
Qed.

Lemma arithop_forest a g : forest [s_arithop] [arithop_word a] [None] g (g_ao (arithop_name a) g).
Proof.
  destruct a; match goal with |- forest _ [arithop_word ?a] _ _ _ =>
    eapply (forest_node (arithop_rule a)); [reflexivity|toks|values; reflexivity] end.
Qed.

Lemma action_forest a g : (a <= 14)%nat ->
  forest [s_action] [action_word a] [None] g (g_action_v (action_v g ++ [action_name a]) g).
Proof.
  intros H. do 15 (destruct a as [|a];
    [match goal with |- forest _ [action_word ?n] _ _ _ =>
       eapply (forest_node (18 + Z.of_nat n)); [reflexivity|toks|values; reflexivity] end|]). lia.
Qed.

(** What the actions of expressions leave alone. *)
Definition kept (g g' : genv) : Prop := action_v g' = action_v g /\ list_items g' = list_items g.

Lemma add_headers_app hs hs' p : add_headers (hs ++ hs') p = add_headers hs' (add_headers hs p).
Proof. unfold add_headers. by rewrite foldl_app. Qed.

Lemma pop_push e g : pop_ae (push_ae e g) = Ok (e, g).
Proof.
  unfold pop_ae, push_ae. cbn. rewrite last_snoc, length_app. cbn.
  rewrite Nat.add_1_r. cbn. rewrite take_app_length. by destruct g.
Qed.

Lemma pop_last e st g : ae_stack g = st ++ [e] -> pop_ae g = Ok (e, g_ae_stack st g).
Proof.
  intros E. rewrite <- (pop_push e (g_ae_stack st g)). f_equal. destruct g. unfold push_ae, g_ae_stack. cbn in *. by rewrite E.
Qed.

Lemma rest_words_snoc rest b x : rest_words (rest ++ [(b, x)]) = rest_words rest ++ [arithop_word b; operand_word x].
Proof. unfold rest_words. by rewrite fmap_app, concat_app. Qed.

Lemma rest_headers_snoc rest b x : rest_headers (rest ++ [(b, x)]) = rest_headers rest ++ rest_headers [(b, x)].
Proof. apply omap_app. Qed.

Lemma arith_of_snoc h a h' rest b x :
  arith_of h a h' (rest ++ [(b, x)]) = ArithExpr_chain (arith_of h a h' rest) (arithop_name b) (operand_name x).
Proof. unfold arith_of. by rewrite foldl_app. Qed.

Lemma arith_forest h a h' rest g :
  is_header_name h = true -> is_header_name h' = true -> forallb (fun '(_, x) => operand_ok x) rest = true ->
  exists g', forest [s_arithexpr] ([var h; arithop_word a; var h'] ++ rest_words rest) [None] g g' /\
    ae_stack g' = ae_stack g ++ [arith_of h a h' rest] /\ kept g g' /\
    prog g' = add_headers ([h; h'] ++ rest_headers rest) (prog g).
Proof.
  intros H1 H2. induction rest as [|[b x] rest IH] using rev_ind; intros Hr.
  - eexists. split.
    + eapply (forest_node 38); [reflexivity| |].
      * apply forest_tok; [reflexivity|]. eapply (forest_sub _ [arithop_word a]); [apply arithop_forest|]. toks.
      * values. unfold yyaction, act_arith_vars. cbn. rewrite H1, H2. reflexivity.
    + cbn. by split; [|split].
  - rewrite forallb_app in Hr. apply andb_prop in Hr as [Hr Hx]. cbn [forallb] in Hx. rewrite andb_true_r in Hx.
    destruct (IH Hr) as (g1 & F & E & K & P).
    rewrite rest_words_snoc, rest_headers_snoc, arith_of_snoc, (assoc_L (++) _ (rest_words rest)).
    rewrite (assoc_L (++) _ (rest_headers rest)), add_headers_app, <- P.
    destruct x as [h2|z]; cbn [operand_word operand_name operand_ok] in *.
    + eexists. split.
      * eapply (forest_node 39); [reflexivity| |].
        -- eapply forest_sub; [exact F|]. eapply (forest_sub _ [arithop_word b]); [apply arithop_forest|]. toks.
        -- values. unfold yyaction, act_arith_var. rewrite (pop_last _ _ (g_ao _ g1) E), bind_ret_l. cbn. rewrite Hx. reflexivity.
      * cbn. by split; [|split].
    + eexists. split.
      * eapply (forest_node 40); [reflexivity| |].
        -- eapply forest_sub; [exact F|]. eapply (forest_sub _ [arithop_word b]); [apply arithop_forest|]. toks.
        -- values. unfold yyaction, act_arith_const. rewrite (pop_last _ _ (g_ao _ g1) E), bind_ret_l. reflexivity.
      * cbn. by split; [|split].
Qed.

Lemma pred_forest p g : pred_ok p = true ->
  exists g', forest [s_binaryexpr] (pred_words p) [None] g g' /\ bp g' = Some (pred_of p) /\
    prog g' = add_headers (pred_headers p) (prog g) /\ ae_stack g' = ae_stack g /\ kept g g'.
Proof.
  destruct p as [h o z|h o h'|h a h' rest o z]; cbn [pred_ok pred_words]; intros H.
  - apply andb_prop in H as [H1 H2]. eexists. split.
    + eapply (forest_node 35); [reflexivity| |].
      * apply forest_tok; [reflexivity|]. eapply (forest_sub _ [binop_word o]); [apply binop_forest|]. toks.
      * values. unfold yyaction, act_binary_const. cbn. rewrite H1. reflexivity.
    + done.
  - apply andb_prop in H as [H1 H2]. eexists. split.
    + eapply (forest_node 36); [reflexivity| |].
      * apply forest_tok; [reflexivity|]. eapply (forest_sub _ [binop_word o]); [apply binop_forest|]. toks.
      * values. unfold yyaction, act_binary_var. cbn. rewrite H1, H2. reflexivity.
    + done.
  - apply andb_prop in H as [[[H1 H2]%andb_prop H3]%andb_prop H4].
    destruct (arith_forest h a h' rest g H1 H2 H3) as (g1 & F & E & K & P). rewrite (assoc_L (++)). eexists. split.
    + eapply (forest_node 37); [reflexivity| |].
      * eapply forest_sub; [exact F|]. eapply (forest_sub _ [binop_word o]); [apply binop_forest|]. toks.
      * values. unfold yyaction, act_binary_arith. rewrite (pop_last _ _ (g_thebinaryop _ g1) E), bind_ret_l. reflexivity.
    + cbn. by split; [|split].
Qed.

Lemma list_forest h neg l g : is_header_name h = true ->
  exists g', forest [s_listexpr] (list_words h neg l) [None] g g' /\
    lp g' = Some (mkListPred h (listop_name neg) l) /\ prog g' = add_header h (prog g) /\
    ae_stack g' = ae_stack g /\ kept g g'.
Proof.
  intros H. destruct neg; eexists.
  - split; [eapply (forest_node 34); [reflexivity|toks|];
            values; unfold yyaction, act_listexpr; cbn; rewrite H; reflexivity|done].
  - split; [eapply (forest_node 33); [reflexivity|toks|];
            values; unfold yyaction, act_listexpr; cbn; rewrite H; reflexivity|done].
Qed.

(** ** Conditions *)

(** A match expression that has just been made: no actions yet, and it can be
    printed. *)
Definition fresh (me : MatchExpr) : Prop :=
  if_action me = EmptyString /\ else_action me = EmptyString /\ num_actions me = 0%Z /\
  exists s, MatchExpr_stringify me = Ok s.

Definition printable (p : Program) : Prop := Forall (fun me => exists s, MatchExpr_stringify me = Ok s) (matchexpr_v p).

Lemma add_headers_matchexprs hs p : matchexpr_v (add_headers hs p) = matchexpr_v p.
Proof. unfold add_headers. revert p. induction hs as [|h hs IH]; intros p; [done|]. cbn. by rewrite IH. Qed.

Lemma cond_matchexprs c p :
  exists me, matchexpr_v (cond_program c p) = matchexpr_v p ++ [me] /\ fresh me.
Proof.
  destruct c as [q|h neg l|m|m q]; cbn [cond_program].
  - eexists. cbn. rewrite add_headers_matchexprs. split; [done|]. do 3 (split; [done|]). by eexists.
  - eexists. cbn. split; [done|]. do 3 (split; [done|]). by eexists.
  - eexists. cbn. split; [done|]. do 3 (split; [done|]). by eexists.
  - eexists. cbn. rewrite add_headers_matchexprs. split; [done|]. do 3 (split; [done|]). by eexists.
Qed.

Lemma cond_forest c g : cond_ok c = true ->
  exists g', forest [s_matchexpr] (cond_words c) [None] g g' /\ prog g' = cond_program c (prog g) /\
    ae_stack g' = ae_stack g /\ kept g g'.
Proof.
  unfold cond_words. destruct c as [p|h neg l|m|m p]; cbn [cond_ok cond_program]; intros H.
  - destruct (pred_forest p g H) as (g1 & F & B & P & A & K). eexists. split.
    + eapply (forest_node 5); [reflexivity| |].
      * apply forest_tok; [reflexivity|]. apply forest_tok; [reflexivity|]. eapply forest_sub; [exact F|]. toks.
      * values. unfold yyaction, act_match_pred. rewrite B. reflexivity.
    + cbn. by rewrite P.
  - apply andb_prop in H as [H1 H2]. destruct (list_forest h neg l g H1) as (g1 & F & B & P & A & K). eexists. split.
    + eapply (forest_node 6); [reflexivity| |].
      * apply forest_tok; [reflexivity|]. apply forest_tok; [reflexivity|]. eapply forest_sub; [exact F|]. toks.
      * values. unfold yyaction, act_match_list. rewrite B. reflexivity.
    + cbn. by rewrite P.
  - eexists. split.
    + eapply (forest_node 7); [reflexivity|cbn [app]; toks|]. values. unfold yyaction, act_match_mon. cbn. rewrite H. reflexivity.
    + done.
  - apply andb_prop in H as [H1 H2]. destruct (pred_forest p g H2) as (g1 & F & B & P & A & K). eexists. split.
    + eapply (forest_node 8); [reflexivity| |].
      * cbn [app]. do 4 (apply forest_tok; [reflexivity|]). eapply forest_sub; [exact F|]. toks.
      * values. unfold yyaction, act_match_mon_and. rewrite B. cbn. rewrite H1. reflexivity.
    + cbn. by rewrite P.
Qed.

(** ** Statements *)

(** The global variables between statements. *)
Record settled (g : genv) (st : Program * list string) : Prop := {
  st_prog : prog g = st.1;
  st_acts : action_v g = st.2;
  st_items : list_items g = [];
  st_print : printable st.1
}.

Lemma monitor_not_header m : is_monitor_name m = true -> is_header_name m = false.
Proof. destruct m as [|c m]; [done|]. cbn. intros [->%bool_decide_eq_true _]%andb_prop. done. Qed.

Lemma items_forest (zs : list numeral) g : forall z : numeral, exists g',
  forest [s_listcontent] (const <$> z :: zs) [None] g g' /\ list_items g' = list_items g ++ (snd <$> z :: zs) /\
  prog g' = prog g /\ action_v g' = action_v g.
Proof.
  induction zs as [|y zs IH] using rev_ind; intros z.
  - eexists. split; [eapply (forest_node 16); [reflexivity|cbn [fmap list_fmap]; toks|]; values; reflexivity|done].
  - destruct (IH z) as (g1 & F & E & P & A). eexists. split.
    + rewrite app_comm_cons, fmap_app. eapply (forest_node 17); [reflexivity| |].
      * eapply forest_sub; [exact F|]. cbn [fmap list_fmap]. toks.
      * values. reflexivity.
    + cbn. rewrite E. cbn. by rewrite fmap_app, <- (assoc_L (++)).
Qed.

Lemma printable_cond c p : printable p -> printable (cond_program c p).
Proof.
  intros H. destruct (cond_matchexprs c p) as (me & E & _ & _ & _ & Hs). unfold printable. rewrite E.
  apply Forall_app. by repeat constructor.
Qed.

(** The two actions of an if-then-else. *)
Lemma if_then_else_action g me p0 a b acts :
  matchexpr_v (prog g) = p0 ++ [me] -> fresh me -> action_v g = acts -> (2 <= length acts)%nat ->
  a = nth 0 acts EmptyString -> b = nth 1 acts EmptyString ->
  act_if_then_else g = Ok (g_action_v [] (g_prog (with_actions a b (prog g)) g)).
Proof.
  intros E (F1 & F2 & F3 & s & Hs) Ha Hl -> ->. unfold act_if_then_else, get_latestmatchexpr, with_actions.
  rewrite E, last_snoc, bind_ret_l, Hs, bind_ret_l, Ha. destruct acts as [|x [|y acts]]; cbn in Hl; [lia..|]. cbn [lookup list_lookup deref nth].
  rewrite bind_ret_l. unfold set_if_action, set_else_action. rewrite F1. cbn. rewrite F2. cbn. rewrite F3. done.
Qed.

Lemma with_actions_printable a b p : printable p -> printable (with_actions a b p).
Proof.
  intros H. unfold with_actions. destruct (last (matchexpr_v p)) as [me|] eqn:E; [|done].
  unfold printable, put_latestmatchexpr. cbn. apply Forall_insert; [done|].
  assert (Hme : me ∈ matchexpr_v p) by by apply last_Some_elem_of.
  apply (proj1 (Forall_forall _ _) H) in Hme. exact Hme.
Qed.

Lemma stmt_forest s : forall g st, settled g st -> stmt_ok s = true ->
  exists g', forest [s_statement] (stmt_words s) [None] g g' /\ settled g' (stmt_program s st).
Proof.
  induction s as [c a|c a b|c s IH|m h neg l|l z zs]; intros g [p acts] [S1 S2 S3 S4] H; cbn [stmt_ok stmt_words stmt_program fst snd] in *.
  - apply andb_prop in H as [H1 H2%Nat.leb_le]. destruct (cond_forest c g H1) as (g1 & F & P & _ & K1 & K2).
    eexists. split.
    + eapply (forest_node 9); [reflexivity| |values; reflexivity].
      cbn [app]. apply forest_tok; [reflexivity|]. eapply forest_sub; [exact F|].
      apply forest_tok; [reflexivity|]. by apply action_forest.
    + split; cbn; [congruence|congruence|congruence|by apply printable_cond].
  - apply andb_prop in H as [[H1 H2%Nat.leb_le]%andb_prop H3%Nat.leb_le].
    destruct (cond_forest c g H1) as (g1 & F & P & _ & K1 & K2).
    destruct (cond_matchexprs c p) as (me & E & Fr). rewrite <- S1, <- P in E.
    eexists. split.
    + eapply (forest_node 10); [reflexivity| |].
      * cbn [app]. apply forest_tok; [reflexivity|]. eapply forest_sub; [exact F|].
        apply forest_tok; [reflexivity|]. eapply (forest_sub _ [action_word a]); [by apply action_forest|].
        apply forest_tok; [reflexivity|]. by apply action_forest.
      * intros us _. unfold yyaction. eapply if_then_else_action; [exact E|exact Fr|reflexivity| |reflexivity|reflexivity].
        cbn. rewrite !length_app. cbn. lia.
    + split; cbn; [|done|congruence|by apply with_actions_printable, printable_cond].
      rewrite P, S1, K1, S2, <- !(assoc_L (++)). done.
  - apply andb_prop in H as [H1 H2]. destruct (cond_forest c g H1) as (g1 & F & P & _ & K1 & K2).
    destruct (IH g1 (cond_program c p, acts)) as (g2 & F2 & St2); [|done|].
    + split; cbn; [congruence|congruence|congruence|by apply printable_cond].
    + exists g2. split; [|exact St2]. eapply (forest_node 11); [reflexivity| |values; reflexivity].
      cbn [app]. apply forest_tok; [reflexivity|]. eapply forest_sub; [exact F|].
      apply forest_tok; [reflexivity|]. exact F2.
  - apply andb_prop in H as [[H1 H2]%andb_prop H3]. destruct (list_forest h neg l g H2) as (g1 & F & L & P & _ & K1 & K2).
    eexists. split.
    + eapply (forest_node 13); [reflexivity| |].
      * cbn [app]. do 4 (apply forest_tok; [reflexivity|]). eapply forest_sub; [exact F|]. toks.
      * values. unfold yyaction, act_monitor. cbn. rewrite L. cbn. rewrite (monitor_not_header m H1). reflexivity.
    + split; cbn; [by rewrite P, S1|congruence|congruence|done].
  - apply andb_prop in H as [H1 H2]. destruct (items_forest zs g z) as (g1 & F & E & P & A).
    assert (FB : forest [s_listbody] ([kw "[" LB] ++ (const <$> z :: zs) ++ [kw "]" RB]) [None] g g1).
    { eapply (forest_node 15); [reflexivity| |values; reflexivity].
      cbn [app]. apply forest_tok; [reflexivity|]. eapply forest_sub; [exact F|]. toks. }
    eexists. split.
    + eapply (forest_node 14); [reflexivity| |].
      * do 3 (apply forest_tok; [reflexivity|]). exact FB.
      * values. unfold yyaction, act_def_list. cbn. reflexivity.
    + split; cbn; [|congruence|done|done]. by rewrite P, S1, E, S3.
Qed.

(** ** Policies *)

Lemma policy_forest ss : forall g st, settled g st -> ss <> [] -> forallb stmt_ok ss = true ->
  exists g', forest [s_statements] (policy_words ss) [None] g g' /\
    settled g' (foldl (fun st s => stmt_program s st) st ss).
Proof.
  unfold policy_words. induction ss as [|s ss IH] using rev_ind; intros g st Hg Hn H; [done|].
  rewrite forallb_app in H. apply andb_prop in H as [H1 H2]. cbn in H2. rewrite andb_true_r in H2.
  rewrite fmap_app, concat_app, foldl_app. cbn [fmap list_fmap concat foldl]. rewrite app_nil_r.
  destruct ss as [|s0 ss].
  - destruct (stmt_forest s g st Hg H2) as (g' & F & S). exists g'. split; [|exact S].
    eapply (forest_node 4); [reflexivity|exact F|values; reflexivity].
  - destruct (IH g st Hg ltac:(done) H1) as (g1 & F1 & S1).
    destruct (stmt_forest s g1 _ S1 H2) as (g2 & F2 & S2). exists g2. split; [|exact S2].
    eapply (forest_node 3); [reflexivity|eapply forest_sub; [exact F1|exact F2]|values; reflexivity].
Qed.

(** Printing a program whose match expressions can be printed. *)
Lemma print_section_ok {A} title (show : A -> res string) l :
  Forall (fun x => exists s, show x = Ok s) l -> forall i, exists s, print_section title show i l = Ok s.
Proof.
  induction 1 as [|x l [s Hs] _ IH]; intros i; [by eexists|]. destruct (IH (S i)) as [r Hr].
  eexists. cbn. by rewrite Hs, bind_ret_l, Hr, bind_ret_l.
Qed.

Lemma print_ok p : printable p -> exists s, Program_print p = Ok s.
Proof.
  intros H. unfold Program_print.
  destruct (print_section_ok "List" (fun le => Ok (print_items le)) (listexpr_v p)) with (i := 0%nat) as [s1 ->];
    [apply Forall_forall; by eexists|].
  destruct (print_section_ok "Match" MatchExpr_stringify (matchexpr_v p) H 0) as [s2 E2]. rewrite bind_ret_l, E2.
  destruct (print_section_ok "Monitor" (fun m => Ok (Monitor_stringify m)) (monitor_v p)) with (i := 0%nat) as [s3 E3];
    [apply Forall_forall; by eexists|].
  rewrite bind_ret_l, E3. by eexists.
Qed.

Lemma policy_parses ss ts :
  forallb stmt_ok ss = true -> ss <> [] -> Forall2 tok_match ts (policy_words ss) ->
  (Z.of_nat (length ts) + 2 < YYMAXDEPTH)%Z -> positive_tokens ts ->
  exists g, yyparse ts genv_new = Ok g /\ prog g = policy_program ss.
Proof.
  intros Hs Hn Ht Hl Hp.
  destruct (policy_forest ss genv_new (Program_new, [])) as (g & F & [S1 _ _ S4]); [split; [done..|constructor]|done|done|].
  destruct (print_ok _ S4) as [s Hpr].
  assert (FP : forest [s_poise] (policy_words ss) [None] genv_new g).
  { eapply (forest_node 2); [reflexivity|exact F|]. intros us _. unfold yyaction. rewrite S1, Hpr. done. }
  destruct (FP ts Ht) as (trees & W & R & Y & A & _). destruct trees as [|t [|? ?]]; try done.
  exists g. split; [|exact S1]. apply (yyparse_accepts ts t); [done|done| |].
  - split; [by apply Forall_inv in W|]. split; [by injection R|]. cbn in Y. by rewrite app_nil_r in Y.
  - cbn in A. by destruct (run_tree t genv_new).
Qed.

Lemma front_end_ok (g0 : gap) (ss : list stmt) (gs : list gap) :
  forallb stmt_ok ss = true -> ss <> [] ->
  forallb piece_ok g0 = true -> length gs = length (policy_words ss) ->
  layout_ok (zip (policy_words ss) gs) = true ->
  (Z.of_nat (length (policy_words ss)) + 2 < YYMAXDEPTH)%Z ->
  parse_policy (policy_text g0 ss gs) = Ok (policy_program ss).
Proof.
  intros Hs Hn H0 Hl Hg Hb. destruct (policy_lexes g0 ss gs Hs H0 Hl Hg) as (ts & E & Hm).
  unfold parse_policy. rewrite E, bind_ret_l.
  destruct (policy_parses ss ts Hs Hn Hm) as (g & -> & Hp).
  - rewrite (Forall2_length _ _ _ Hm). done.
  - destruct (yylex_loop_ok (S (length (String.list_ascii_of_string (policy_text g0 ss gs))))
      (String.list_ascii_of_string (policy_text g0 ss gs)) (Ival 0) ltac:(lia)) as (ts' & E' & Hts).
    assert (ts' = ts) as -> by (unfold yylex in E; congruence). by apply token_ok_positive.
  - rewrite bind_ret_l. by rewrite Hp.
Qed.

(** C6: the text of every well-formed policy, with any blanks and comment
    lines between its words, or nothing where they need no separation, and
    with any leading zeros in its numbers, is scanned and parsed to the program object the
    policy stands for: definitions of lists, monitors, conditions of every
    form and nested ifs, and the actions as the parser hands them out.  The
    bound on the number of words keeps the parser's stack below its maximal
    depth. *)
Theorem policy_text_parses (g0 : gap) (ss : list stmt) (gs : list gap) :
  forallb stmt_ok ss = true -> ss <> [] ->
  forallb piece_ok g0 = true -> length gs = length (policy_words ss) ->
  layout_ok (zip (policy_words ss) gs) = true ->
  (Z.of_nat (length (policy_words ss)) + 2 < YYMAXDEPTH)%Z ->
  parse_policy (policy_text g0 ss gs) = Ok (policy_program ss).
Proof. apply front_end_ok. Qed.

(** A policy with one statement of each kind, its words separated by a
    comment line and a tab. *)
Definition sample_source : list stmt :=
  [SDef "list3" (3, 1%Z) [(0, 22%Z); (0, 333%Z)]; SMonitor "m0" "h1" true "list3";
   SIf (CPred (PArith "h1" Aplus "h22" [(Amod, OConst (0, 7%Z)); (Aminus, OVar "h3")] Ble (0, 9%Z))) 0;
   SIfElse (CMonAnd "m0" (PVars "h1" Bge "h2")) 3 14;
   SNest (CList "h5" true "list3") (SIfElse (CMon "m7") 10 2)].
Definition sample_gap : gap := [Comment [" "; "/"; "x"]%char; Blank "009"%char].
Definition sample_gaps : list gap := replicate (length (policy_words sample_source)) sample_gap.

Lemma policy_text_parses_witness :
  parse_policy (policy_text sample_gap sample_source sample_gaps) = Ok (policy_program sample_source) /\
  length (matchexpr_v (policy_program sample_source)) = 4%nat.
Proof.
  split; [|reflexivity].
  apply (policy_text_parses sample_gap sample_source sample_gaps); [reflexivity|discriminate|reflexivity..].
Defined.

Lemma with_actions_last a b p l me : matchexpr_v p = l ++ [me] ->
  exists me', last (matchexpr_v (with_actions a b p)) = Some me' /\ if_action me' = a /\ else_action me' = b.
Proof.
  intros E. unfold with_actions. rewrite E, last_snoc. eexists.
  cbn [put_latestmatchexpr p_matchexpr_v matchexpr_v]. rewrite E, length_app, Nat.add_1_r. cbn [Nat.pred length].
  rewrite insert_app_r_alt by lia. rewrite Nat.sub_diag. cbn. by rewrite last_snoc.
Qed.

(** C38: an if without else leaves its action behind: the if-then-else after
    it, whatever the two conditions are, gets that action for its then branch
    and its own first action for the else branch, and its last action is
    lost. *)
Theorem dangling_action (c1 c2 : cond) (a b d : nat) (g0 : gap) (gs : list gap) :
  let ss := [SIf c1 a; SIfElse c2 b d] in
  forallb stmt_ok ss = true -> forallb piece_ok g0 = true ->
  length gs = length (policy_words ss) ->
  layout_ok (zip (policy_words ss) gs) = true ->
  (Z.of_nat (length (policy_words ss)) + 2 < YYMAXDEPTH)%Z ->
  exists p me, parse_policy (policy_text g0 ss gs) = Ok p /\ last (matchexpr_v p) = Some me /\
    if_action me = action_name a /\ else_action me = action_name b.
Proof.
  intros ss Hs H0 Hl Hg Hb. exists (policy_program ss).
  destruct (cond_matchexprs c2 (cond_program c1 Program_new)) as (me & Em & _).
  destruct (with_actions_last (action_name a) (action_name b) _ _ me Em) as (me' & H1 & H2 & H3).
  exists me'. split; [by apply front_end_ok|]. split; [exact H1|done].
Qed.

Lemma dangling_action_witness :
  exists p me, parse_policy "if match ( h1 == 1 ) then drop if match ( h2 == 2 ) then fwd2 else fwd1 " = Ok p /\
    last (matchexpr_v p) = Some me /\ if_action me = "DROP" /\ else_action me = "FWD2".
Proof.
  exact (dangling_action (CPred (PConst "h1" Beq (0%nat, 1%Z))) (CPred (PConst "h2" Beq (0%nat, 2%Z))) 0 2 1 []
    (replicate 20 [Blank " "%char]) eq_refl eq_refl eq_refl eq_refl eq_refl).
Defined.
