(* ===== verification/SourceSem.v ===== *)
(** What a policy means as it is written, and the compiler as a whole on the
    text of a policy: the surface syntax gets a meaning of its own (every
    statement takes its then or its else action, and the strongest action
    wins), and the switch program the compiler writes for the text implements
    it. *)

From stdpp Require Import base list strings gmap sorting.
From Stdlib Require Import ZArith Lia Ascii.
From S2P Require Import Prelude Cxx Ast Backend Codegen Switch MergeProps Policy CompileProps.
From S2P Require Import ParseTables Parser Source Samples Compiler SourceProps.

#[local] Open Scope list_scope.

(** ** Meaning of the surface syntax *)

Definition binop_holds (o : binop) (x y : Z) : bool :=
  match o with
  | Bgt => (y <? x)%Z | Blt => (x <? y)%Z | Ble => (x <=? y)%Z | Bge => (y <=? x)%Z | Beq => (x =? y)%Z
  end.

Definition arithop_value (a : arithop) (x y : Z) : Z :=
  match a with Aplus => x + y | Aminus => x - y | Amulti => x * y | Amod => x mod y end%Z.

Definition operand_value (e : env) (x : operand) : Z :=
  match x with OVar h => hdr e h | OConst n => n.2 end.

Definition cmp_holds (e : env) (p : cmp) : bool :=
  match p with
  | PConst h o n => binop_holds o (hdr e h) n.2
  | PVars h o h' => binop_holds o (hdr e h) (hdr e h')
  | PArith h a h' rest o n =>
      binop_holds o (foldl (fun v '(a, x) => arithop_value a v (operand_value e x))
                       (arithop_value a (hdr e h) (hdr e h')) rest) n.2
  end.

(** The values of a list: the last definition counts. *)
Definition source_list (ss : list stmt) (l : string) : option (list Z) :=
  foldl (fun acc s => match s with
                      | SDef l' n ns => if decide (l = l') then Some (snd <$> n :: ns) else acc
                      | _ => acc
                      end) None ss.

Definition cond_holds (ss : list stmt) (e : env) (c : cond) : bool :=
  match c with
  | CPred p => cmp_holds e p
  | CList h neg l => xorb neg (existsb (fun v => hdr e h =? v)%Z (default [] (source_list ss l)))
  | CMon m => negb (active e m =? 0)%Z
  | CMonAnd m p => negb (active e m =? 0)%Z && cmp_holds e p
  end.

(** The action a statement takes. *)
Fixpoint stmt_result (ss : list stmt) (e : env) (s : stmt) : option nat :=
  match s with
  | SIf c a => if cond_holds ss e c then Some a else None
  | SIfElse c a b => Some (if cond_holds ss e c then a else b)
  | SNest c s => if cond_holds ss e c then stmt_result ss e s else None
  | SMonitor _ _ _ _ | SDef _ _ _ => None
  end.

(** How strong an action is: [fwd1] is the normal one, which any other
    overrides, and [drop] overrides all. *)
Definition action_val (a : nat) : Z := match a with O => 15 | _ => Z.of_nat a end.

Definition strength (r : option nat) : option Z :=
  a ← r; if (a =? 1)%nat then None else Some (action_val a).

Definition source_decision (ss : list stmt) (e : env) : option Z :=
  foldr (fun s acc => omax (strength (stmt_result ss e s)) acc) None ss.

(** The statements the theorem is about: definitions, monitors, and
    if-then-else on a comparison with a constant, on membership of a list, or
    on a monitor with the actions [then fwd1 else drop]. *)
Definition stmt_simple (s : stmt) : bool :=
  match s with
  | SDef _ _ _ | SMonitor _ _ _ _ => true
  | SIfElse (CPred (PConst _ _ _)) _ _ => true
  | SIfElse (CList _ neg _) _ _ => negb neg
  | SIfElse (CMon _) a b => (a =? 1)%nat && (b =? 0)%nat
  | _ => false
  end.

(** Packets on which the inclusive ranges of the switch agree with the
    comparisons [<] and [>]. *)
Definition stmt_off_boundary (e : env) (s : stmt) : Prop :=
  match s with
  | SIfElse (CPred (PConst h Blt n)) _ _ => 0 <= hdr e h /\ hdr e h <> n.2
  | SIfElse (CPred (PConst h Bgt n)) _ _ => hdr e h <= 10000 /\ hdr e h <> n.2
  | _ => True
  end%Z.

(** ** The program object of a simple policy *)

Definition simple_me (s : stmt) : option MatchExpr :=
  match s with
  | SIfElse (CPred (PConst h o n)) a b =>
      Some (mkMatchExpr MATCH_PRED None (Some (BinaryPred_int h (binop_name o) n.2)) EmptyString (action_name a) (action_name b) 2)
  | SIfElse (CList h neg l) a b =>
      Some (mkMatchExpr MATCH_LIST (Some (mkListPred h (listop_name neg) l)) None EmptyString (action_name a) (action_name b) 2)
  | SIfElse (CMon m) a b =>
      Some (mkMatchExpr MATCH_MONITOR None None m (action_name a) (action_name b) 2)
  | _ => None
  end.

Lemma with_actions_add a b me p : matchexpr_v (with_actions a b (add_matchexpr me p)) =
  matchexpr_v p ++ [mkMatchExpr (me_type me) (matchlist me) (matchpred me) (matchmvar me) a b 2].
Proof.
  unfold with_actions, put_latestmatchexpr, add_matchexpr. cbn. rewrite last_snoc. cbn.
  rewrite length_app, Nat.add_1_r. cbn [Nat.pred length]. rewrite insert_app_r_alt, Nat.sub_diag by lia. done.
Qed.

Lemma with_actions_lists a b p : name2list (with_actions a b p) = name2list p.
Proof. unfold with_actions. by destruct (last (matchexpr_v p)). Qed.

Lemma simple_step s p : stmt_simple s = true ->
  exists p', stmt_program s (p, []) = (p', []) /\
    matchexpr_v p' = matchexpr_v p ++ option_list (simple_me s) /\
    forall l, name2list p' !! l = match s with
                                  | SDef l' n ns => if decide (l = l') then Some (mkListExpr (snd <$> n :: ns)) else name2list p !! l
                                  | _ => name2list p !! l
                                  end.
Proof.
  intros H. destruct s as [c a|c a b|c s|m h neg l|l z zs]; try done.
  - destruct c as [[h o z|h o h'|h x h' r o z]|h neg l|m|m q]; try done; cbn [stmt_program]; eexists; (split; [reflexivity|]);
      cbn [cond_program]; rewrite with_actions_add, with_actions_lists; done.
  - eexists. split; [reflexivity|]. cbn. by rewrite app_nil_r.
  - eexists. split; [reflexivity|]. cbn. rewrite app_nil_r. split; [done|]. intros l'.
    destruct (decide (l' = l)) as [->|N]; [by rewrite lookup_insert_eq|by rewrite lookup_insert_ne].
Qed.

Lemma source_list_snoc ss s l : source_list (ss ++ [s]) l =
  match s with SDef l' n ns => if decide (l = l') then Some (snd <$> n :: ns) else source_list ss l | _ => source_list ss l end.
Proof. unfold source_list. rewrite foldl_app. by destruct s. Qed.

Lemma simple_program ss : forallb stmt_simple ss = true ->
  matchexpr_v (policy_program ss) = omap simple_me ss /\
  forall l, name2list (policy_program ss) !! l = mkListExpr <$> source_list ss l.
Proof.
  intros H. unfold policy_program.
  assert (exists p, foldl (fun st s => stmt_program s st) (Program_new, []) ss = (p, []) /\
    matchexpr_v p = omap simple_me ss /\ forall l, name2list p !! l = mkListExpr <$> source_list ss l) as (p & -> & ? & ?); [|done].
  induction ss as [|s ss IH] using rev_ind; [by exists Program_new|].
  rewrite forallb_app in H. apply andb_prop in H as [H1 H2]. cbn in H2. rewrite andb_true_r in H2.
  destruct (IH H1) as (p & E & Hm & Hl). destruct (simple_step s p H2) as (p' & E' & Hm' & Hl').
  exists p'. rewrite foldl_app, E. cbn [foldl]. rewrite E', Hm', Hm, omap_app. split; [done|]. split.
  - cbn. by destruct (simple_me s).
  - intros l. rewrite Hl', source_list_snoc. destruct s; try apply Hl. by destruct (decide (l = l0)).
Qed.

(** ** The decision *)

Lemma action_to_val_name a : (a <= 14)%nat -> action_to_val (action_name a) = action_val a.
Proof. intros H. do 15 (destruct a as [|a]; [reflexivity|]). lia. Qed.

Lemma action_val_normal a : action_val a = NORMAL_ACTION_VAL -> a = 1%nat.
Proof. unfold NORMAL_ACTION_VAL, MIN_ACTION_VAL. destruct a as [|[|a]]; cbn [action_val]; lia. Qed.

Lemma action_strength_name a : (a <= 14)%nat -> action_strength (action_name a) = strength (Some a).
Proof.
  intros H. unfold action_strength, strength. rewrite action_to_val_name by done. cbn.
  destruct (Nat.eqb_spec a 1) as [->|N]; [done|].
  destruct (Z.eqb_spec (action_val a) NORMAL_ACTION_VAL) as [E|]; [by destruct N; apply action_val_normal|done].
Qed.

(** The condition of a match expression is that of its statement. *)
Lemma simple_holds ss s c a b me e :
  s = SIfElse c a b -> forallb stmt_simple ss = true -> stmt_simple s = true -> simple_me s = Some me ->
  me_holds (policy_program ss) e me = cond_holds ss e c.
Proof.
  intros -> Hs H E. destruct (simple_program ss Hs) as [_ Hl].
  destruct c as [[h o z|h o h'|h x h' r o z]|h neg l|m|m q]; try done; injection E as <-; unfold me_holds; cbn [me_type matchpred matchlist matchmvar].
  - cbn [Z.eqb MATCH_PRED MATCH_MONITOR]. unfold pred_holds, BinaryPred_int. cbn [rhs op lhs cond_holds cmp_holds]. rewrite scan_int_to_string.
    by destruct o.
  - cbn [Z.eqb MATCH_LIST MATCH_PRED MATCH_MONITOR]. unfold list_holds, in_list. cbn [listbodyvar listvar listop cond_holds].
    rewrite Hl. destruct neg; [done|]. by destruct (source_list ss l).
  - cbn [Z.eqb MATCH_MONITOR cond_holds]. by rewrite andb_true_r.
Qed.

(** A match expression of a simple statement decides what the statement says. *)
Lemma simple_contribution ss s me e :
  forallb stmt_simple ss = true -> stmt_simple s = true -> stmt_ok s = true ->
  simple_me s = Some me -> me_decision (policy_program ss) e me = strength (stmt_result ss e s).
Proof.
  intros Hs H Hok E. destruct s as [|c a b| | |]; try done. pose proof (simple_holds ss _ c a b me e eq_refl Hs H E) as Hh.
  cbn [stmt_ok] in Hok. apply andb_prop in Hok as [[Hc Ha%Nat.leb_le]%andb_prop Hb%Nat.leb_le].
  unfold me_decision. rewrite Hh. cbn [stmt_result].
  assert (if_action me = action_name a /\ else_action me = action_name b) as [-> ->].
  { destruct c as [[| |]| | |]; try done; by injection E as <-. }
  destruct (cond_holds ss e c); by apply action_strength_name.
Qed.

Lemma simple_decision_aux ss l e :
  forallb stmt_simple ss = true -> forallb stmt_simple l = true -> forallb stmt_ok l = true ->
  strongest (me_decision (policy_program ss) e) (omap simple_me l) =
  foldr (fun s acc => omax (strength (stmt_result ss e s)) acc) None l.
Proof.
  intros Hs. unfold strongest. induction l as [|s l IH]; [done|]. cbn [forallb omap list_omap foldr].
  intros [Hs1 Hs2]%andb_prop [Ho1 Ho2]%andb_prop. destruct (simple_me s) as [me|] eqn:E.
  - cbn [foldr]. rewrite (IH Hs2 Ho2). f_equal. by apply simple_contribution.
  - rewrite (IH Hs2 Ho2).
    assert (stmt_result ss e s = None) as ->; [|by destruct (foldr _ _ _)].
    destruct s as [| [[]| | |] ?| | |]; done.
Qed.

Lemma simple_decision ss e :
  forallb stmt_simple ss = true -> forallb stmt_ok ss = true ->
  policy_decision (policy_program ss) e = source_decision ss e.
Proof.
  intros Hs Ho. destruct (simple_program ss Hs) as [Hm _]. unfold policy_decision. rewrite Hm.
  by apply simple_decision_aux.
Qed.

Lemma simple_off_boundary ss e :
  forallb stmt_simple ss = true -> Forall (stmt_off_boundary e) ss -> off_boundary (policy_program ss) e.
Proof.
  intros Hs Hb me bp v Hin T Hbp Hv. destruct (simple_program ss Hs) as [Hm _]. rewrite Hm in Hin.
  apply list_elem_of_omap in Hin as (s & Hin & E). apply (proj1 (Forall_forall _ _) Hb) in Hin.
  destruct s as [|c a b| | |]; try done.
  destruct c as [[h o z| |]| | |]; try done; injection E as <-; try done.
  injection Hbp as <-. cbn in Hv. rewrite scan_int_to_string in Hv. injection Hv as <-. cbn in *.
  destruct o; split; intros ?; try done; destruct Hin; lia.
Qed.

(** The compiled policy, with what is known of its monitors. *)
Lemma source_switch (mon_template : string) (g0 : gap) (ss : list stmt) (gs : list gap) :
  forallb stmt_ok ss = true -> ss <> [] -> forallb stmt_simple ss = true ->
  forallb piece_ok g0 = true -> length gs = length (policy_words ss) ->
  layout_ok (zip (policy_words ss) gs) = true ->
  (Z.of_nat (length (policy_words ss)) + 2 < YYMAXDEPTH)%Z ->
  plainb (policy_program ss) = true -> (length (omap simple_me ss) <= 16)%nat ->
  exists p4 cmd cs R, poise_tofino mon_template (policy_text g0 ss gs) = Ok (p4, cmd) /\
    files_hold mon_template cs R p4 cmd /\
    NoDup (monitors_of cs) /\ Forall (monitor_of (policy_program ss)) cs /\ Forall (fun c => 0 <= rec c <= R)%Z cs /\
    (forall me, me ∈ omap simple_me ss -> me_monitor me = true -> matchmvar me ∈ monitors_of cs) /\
    forall fresh mes pk s, Forall monitor_entry mes ->
      let s' := run_switch fresh cs R mes pk s in
      let e := monitor_env fresh cs mes pk (regs s) in
      (Forall (stmt_off_boundary e) ss -> dec s' = default (dec s) (source_decision ss e)) /\
      regs s' = refresh cs mes pk cs (regs s).
Proof.
  intros Hok Hn Hs H0 Hl Hg Hw Hb Hlen. destruct (simple_program ss Hs) as [Hm _]. rewrite <- Hm in Hlen.
  destruct (compile_tofino_ok mon_template (policy_program ss) (plainb_sound _ Hb) Hlen)
    as (p' & p4 & cmd & E & H1 & _ & H3 & H4 & H5 & H7 & H6).
  exists p4, cmd, (check_v p'), (curr_rec p'). unfold poise_tofino.
  rewrite (front_end_ok g0 ss gs) by done. rewrite bind_ret_l, E, bind_ret_l. rewrite Hm in H7. do 6 (split; [done|]).
  intros fresh mes pk s Hmes. destruct (H6 fresh mes pk s Hmes) as [D G]. split; [|exact G].
  set (e := monitor_env _ _ _ _ _) in *. intros He. rewrite <- (simple_decision ss e Hs Hok). by apply D, simple_off_boundary.
Qed.

Lemma source_compiled (mon_template : string) (g0 : gap) (ss : list stmt) (gs : list gap) :
  forallb stmt_ok ss = true -> ss <> [] -> forallb stmt_simple ss = true ->
  forallb piece_ok g0 = true -> length gs = length (policy_words ss) ->
  layout_ok (zip (policy_words ss) gs) = true ->
  (Z.of_nat (length (policy_words ss)) + 2 < YYMAXDEPTH)%Z ->
  plainb (policy_program ss) = true -> (length (omap simple_me ss) <= 16)%nat ->
  exists p4 cmd cs R, poise_tofino mon_template (policy_text g0 ss gs) = Ok (p4, cmd) /\
    files_hold mon_template cs R p4 cmd /\
    forall fresh mes pk s, Forall monitor_entry mes ->
      let e := monitor_env fresh cs mes pk (regs s) in
      Forall (stmt_off_boundary e) ss ->
      dec (run_switch fresh cs R mes pk s) = default (dec s) (source_decision ss e).
Proof.
  intros Hok Hn Hs H0 Hl Hg Hw Hb Hlen.
  destruct (source_switch mon_template g0 ss gs) as (p4 & cmd & cs & R & E & H1 & _ & _ & _ & _ & H2); try done.
  exists p4, cmd, cs, R. split; [done|]. split; [done|]. intros fresh mes pk s Hmes. by apply H2.
Qed.

(** C1: the compiler as a whole on the text of a policy.  For every policy of
    definitions, monitors and if-then-else statements, in any layout, that is
    plain, has at most 16 conditions and fits the parser's stack, the compiler
    writes both files; they hold a switch program (its tables, control block
    and entries), and on every packet off the range boundaries it takes the
    decision the written policy has: the strongest of the actions its
    statements take, or the default when all take the normal one.  A monitor is
    active when the packet hits an entry of the monitor's own table ([mes],
    which the command file does not fill) or the time in the monitor's
    register is recent by the switch's test [fresh]. *)
Theorem source_policy_compiled (mon_template : string) (g0 : gap) (ss : list stmt) (gs : list gap) :
  forallb stmt_ok ss = true -> ss <> [] -> forallb stmt_simple ss = true ->
  forallb piece_ok g0 = true -> length gs = length (policy_words ss) ->
  layout_ok (zip (policy_words ss) gs) = true ->
  (Z.of_nat (length (policy_words ss)) + 2 < YYMAXDEPTH)%Z ->
  plainb (policy_program ss) = true -> (length (omap simple_me ss) <= 16)%nat ->
  exists p4 cmd cs R, poise_tofino mon_template (policy_text g0 ss gs) = Ok (p4, cmd) /\
    files_hold mon_template cs R p4 cmd /\
    forall fresh mes pk s, Forall monitor_entry mes ->
      let e := monitor_env fresh cs mes pk (regs s) in
      Forall (stmt_off_boundary e) ss ->
      dec (run_switch fresh cs R mes pk s) = default (dec s) (source_decision ss e).
Proof. apply source_compiled. Qed.

(** A policy with a list, a monitor and three conditions. *)
Definition office_policy : list stmt :=
  [SDef "list0" (3, 1%Z) [(3, 2%Z); (3, 3%Z)]; SDef "list1" (0, 7%Z) []; SMonitor "m0" "h3" false "list1";
   SIfElse (CPred (PConst "h1" Blt (0, 9%Z))) 0 1; SIfElse (CList "h2" false "list0") 2 1;
   SIfElse (CMon "m0") 1 0].
Definition office_gaps : list gap := replicate (length (policy_words office_policy)) [Blank " "%char].

Lemma source_policy_compiled_witness :
  source_decision office_policy (mkEnv (fun _ => 4%Z) (fun _ => 0%Z)) = Some 15%Z /\
  exists p4 cmd cs R, poise_tofino monitor_template (policy_text [] office_policy office_gaps) = Ok (p4, cmd) /\
    files_hold monitor_template cs R p4 cmd /\
    forall fresh mes pk s, Forall monitor_entry mes ->
      let e := monitor_env fresh cs mes pk (regs s) in
      Forall (stmt_off_boundary e) office_policy ->
      dec (run_switch fresh cs R mes pk s) = default (dec s) (source_decision office_policy e).
Proof.
  split; [by vm_compute|].
  apply (source_policy_compiled monitor_template [] office_policy office_gaps); try (by vm_compute).
  apply Nat.leb_le. by vm_compute.
Defined.
