(* ===== verification/Traffic.v ===== *)
(** Policies with monitors over a sequence of packets.  A monitor
    [m := monitor (h in l)] is active for a packet whose header [h] is in the
    list [l], and for some time after such a packet.  The switch keeps the time
    of the last such packet in a register; here the registers are carried from
    packet to packet, and compared with the history of the packets. *)

From stdpp Require Import base list strings gmap sorting.
From Stdlib Require Import ZArith Lia Ascii.
From S2P Require Import Prelude Cxx Ast Backend Codegen TextProps Switch MergeProps Policy CompileProps.
From S2P Require Import ParseTables Parser Source Samples Compiler SourceProps SourceSem.

#[local] Open Scope list_scope.

(** ** Packets in sequence *)

(** The decisions of the switch on packets that come in with the decisions
    [d], and the registers after them. *)
Fixpoint run_packets (fresh : Z -> Z -> Z -> bool) (cs : list Check) (R : Z) (mes : list entry)
    (r : gmap string Z) (l : list (packet * Z)) : list Z * gmap string Z :=
  match l with
  | [] => ([], r)
  | (pk, d) :: l =>
      let s := run_switch fresh cs R mes pk (mkSw d r ∅) in
      let '(ds, r) := run_packets fresh cs R mes (regs s) l in (dec s :: ds, r)
  end.

(** ** The policy on packets in sequence *)

(** The header the monitor watches has a value of its list (or none, with
    [notin]). *)
Definition on_list (ss : list stmt) (pk : packet) (m : string) : bool :=
  existsb (fun s => match s with
                    | SMonitor m' h neg l =>
                        bool_decide (m' = m) &&
                        xorb neg (existsb (fun v => p_hdr pk h =? v)%Z (default [] (source_list ss l)))
                    | _ => false
                    end) ss.

(** [seen m] is the time of the last packet on the list of [m]. *)
Definition source_env (fresh : Z -> Z -> Z -> bool) (rounds : string -> Z) (ss : list stmt) (pk : packet)
    (seen : string -> Z) : env :=
  mkEnv (p_hdr pk) (fun m => Z.b2z (on_list ss pk m || fresh 100000%Z (p_time pk (rounds m)) (seen m))).

(** [rounds m] is the pass of the packet in which its time is taken for [m]. *)
Fixpoint source_packets (fresh : Z -> Z -> Z -> bool) (rounds : string -> Z) (ss : list stmt)
    (seen : string -> Z) (l : list (packet * Z)) : list Z :=
  match l with
  | [] => []
  | (pk, d) :: l =>
      default d (source_decision ss (source_env fresh rounds ss pk seen)) ::
      source_packets fresh rounds ss
        (fun m => if on_list ss pk m then p_time pk (rounds m) else seen m) l
  end.

(** The entries that put the lists of the monitors into their tables. *)
Definition list_entries (ss : list stmt) (s : stmt) : list entry :=
  match s with
  | SMonitor m h _ l =>
      (fun v => mkEntry (monitor_tab m) [KExact h (to_string v)] Nop) <$> default [] (source_list ss l)
  | _ => []
  end.

Definition install (ss : list stmt) : list entry := ss ≫= list_entries ss.

(** No monitor watches for values outside a list. *)
Definition monitors_in (s : stmt) : bool :=
  match s with SMonitor _ _ neg _ => negb neg | _ => true end.

(** ** The monitors of the program object *)

Definition source_monitor (s : stmt) : option Monitor :=
  match s with SMonitor m h neg l => Some (mkMonitor m (mkListPred h (listop_name neg) l)) | _ => None end.

Lemma with_actions_monitors a b p :
  monitor_v (with_actions a b p) = monitor_v p /\ name2mon (with_actions a b p) = name2mon p.
Proof. unfold with_actions. by destruct (last (matchexpr_v p)). Qed.

Lemma simple_monitors ss : forallb stmt_simple ss = true ->
  monitor_v (policy_program ss) = omap source_monitor ss /\
  forall m mon, name2mon (policy_program ss) !! m = Some mon -> mon_mvar mon = m /\ mon ∈ omap source_monitor ss.
Proof.
  intros H. unfold policy_program.
  assert (exists p, foldl (fun st s => stmt_program s st) (Program_new, []) ss = (p, []) /\
    monitor_v p = omap source_monitor ss /\
    forall m mon, name2mon p !! m = Some mon -> mon_mvar mon = m /\ mon ∈ omap source_monitor ss) as (p & -> & ? & ?); [|done].
  induction ss as [|s ss IH] using rev_ind; [by exists Program_new|].
  rewrite forallb_app in H. apply andb_prop in H as [H1 H2]. cbn in H2. rewrite andb_true_r in H2.
  destruct (IH H1) as (p & E & Hm & Hn). destruct (simple_step s p H2) as (p' & E' & _).
  exists p'. rewrite foldl_app, E, omap_app. cbn [foldl]. rewrite E'. split; [done|].
  destruct s as [c a|c a b|c s|m h neg l|l z zs]; try done.
  - injection E' as <-. rewrite !(proj1 (with_actions_monitors _ _ _)), !(proj2 (with_actions_monitors _ _ _)).
    cbn. rewrite app_nil_r. by destruct c as [[| |]| | |].
  - injection E' as <-. cbn. rewrite Hm. split; [done|]. intros m' mon Hl. destruct (decide (m' = m)) as [->|N].
    + rewrite lookup_insert_eq in Hl. injection Hl as <-. split; [done|]. apply elem_of_app. right. by left.
    + rewrite lookup_insert_ne in Hl by done. apply Hn in Hl as [? ?]. split; [done|]. apply elem_of_app. by left.
  - injection E' as <-. cbn. rewrite app_nil_r. done.
Qed.

(** ** The simulation *)

Section Traffic.
Context (fresh : Z -> Z -> Z -> bool) (ss : list stmt) (cs : list Check) (R : Z).
Context (SIMPLE : forallb stmt_simple ss = true) (MEMBERS : forallb monitors_in ss = true).
Context (ACCEPTED : accepted (policy_program ss)).
Context (MONITORS : NoDup (monitors_of cs)) (DECLARED : Forall (monitor_of (policy_program ss)) cs).

Lemma monitor_tab_inj m m' : monitor_tab m = monitor_tab m' -> m = m'.
Proof using.
  unfold monitor_tab.
  assert (C : forall x a b : string, x +:+ a = x +:+ b -> a = b).
  { induction x as [|k x IH]; intros a b E; [done|]. rewrite !append_cons in E. injection E as E. by apply IH. }
  intros H%C. revert m' H. revert m.
  assert (Len : forall a b : string, a +:+ "_tab" = b +:+ "_tab" -> String.length a = String.length b).
  { intros a b E. apply (f_equal String.length) in E. rewrite !length_append in E. lia. }
  induction m as [|x a IH]; intros b E; pose proof (Len _ _ E) as Ln; destruct b as [|y b]; try done.
  rewrite !append_cons in E. injection E as -> E. f_equal. by apply IH.
Qed.

(** A packet hits the table of a monitor that is compiled exactly when it is
    on the list of the monitor. *)
Lemma listed_install pk m : m ∈ monitors_of cs -> listed cs (install ss) pk m = on_list ss pk m.
Proof using SIMPLE MEMBERS ACCEPTED DECLARED.
  intros Hm. apply list_elem_of_fmap in Hm as (c & -> & Hc). apply list_elem_of_In, filter_In in Hc as [Hc%list_elem_of_In Mc].
  rewrite Forall_forall in DECLARED. destruct (DECLARED c Hc Mc) as (_ & _ & mon & Hn & Hh).
  destruct (simple_monitors ss SIMPLE) as [Hv Hlk]. apply Hlk in Hn as [Hmv Hin].
  pose proof (acc_monitors _ ACCEPTED) as ND. rewrite Hv in ND.
  unfold listed, on_list, install.
  assert (B : forall f l, existsb f (l ≫= list_entries ss) = existsb (fun s => existsb f (list_entries ss s)) l).
  { intros f l. induction l as [|s l IH]; [done|]. rewrite bind_cons, existsb_app, IH. done. }
  rewrite B. apply existsb_ext_in. intros s Hs. destruct s as [| | |m h neg l|]; try done. cbn [list_entries].
  pose proof (forallb_elem _ _ _ MEMBERS Hs) as Hneg. cbn in Hneg. destruct neg; [done|]. cbn [xorb].
  destruct (decide (m = mon_name c)) as [E|N].
  - rewrite (bool_decide_eq_true_2 _ E), existsb_fmap. cbn [andb].
    assert (listvar (mon_lp mon) = h) as Eh.
    { assert (Hs' : mkMonitor m (mkListPred h (listop_name false) l) ∈ omap source_monitor ss)
        by (apply list_elem_of_omap; by eexists).
      assert (mon = mkMonitor m (mkListPred h (listop_name false) l)) as ->; [|done].
      apply list_elem_of_lookup in Hin as [i Hi], Hs' as [j Hj].
      assert (i = j) as ->; [|congruence]. eapply NoDup_lookup; [exact ND| |].
      - rewrite list_lookup_fmap, Hi. reflexivity.
      - rewrite list_lookup_fmap, Hj. cbn. congruence. }
    apply existsb_ext. intros v. cbn [e_table]. rewrite (bool_decide_eq_true_2 (monitor_tab m = _)) by by rewrite E.
    assert (installed (switch_tables cs) (mkEntry (monitor_tab m) [KExact h (to_string v)] Nop) = true) as ->.
    { unfold installed. apply existsb_exists. exists (monitor_table c). split.
      - apply list_elem_of_In, list_elem_of_bind. exists c. split; [|done]. unfold check_tables. rewrite Mc. by left.
      - cbn. rewrite !bool_decide_eq_true_2; [done|by rewrite Hh, Eh|by rewrite E]. }
    cbn [andb]. unfold entry_matches. cbn [e_keys forallb]. by rewrite key_matches_exact, andb_true_r.
  - rewrite (bool_decide_eq_false_2 _ N), existsb_fmap. cbn [andb]. cbn [e_table].
    rewrite (bool_decide_eq_false_2 (monitor_tab m = _)); [|by intros ?%monitor_tab_inj].
    by induction (default [] (source_list ss l)).
Qed.

Lemma switch_timeout_used m : m ∈ monitors_of cs -> switch_timeout cs m = 100000%Z.
Proof using MONITORS DECLARED.
  intros Hm. apply list_elem_of_fmap in Hm as (c & -> & Hc). apply list_elem_of_In, filter_In in Hc as [Hc%list_elem_of_In Mc].
  unfold switch_timeout. rewrite (find_NoDup_monitor cs c MONITORS Hc Mc).
  rewrite Forall_forall in DECLARED. by destruct (DECLARED c Hc Mc) as (_ & Ht & _).
Qed.

(** The registers after a packet. *)
Lemma refresh_lookup mes pk r m :
  m ∈ monitors_of cs ->
  get0 (refresh cs mes pk cs r) m = if listed cs mes pk m then p_time pk (round_of cs m) else get0 r m.
Proof using MONITORS.
  clear DECLARED. revert r.
  assert (G : forall l r, NoDup (monitors_of l) -> m ∈ monitors_of l ->
    get0 (refresh cs mes pk l r) m = if listed cs mes pk m then p_time pk (round_of cs m) else get0 r m); [|by auto].
  induction l as [|c l IH]; intros r Hn Hm; [by apply elem_of_nil in Hm|]. rewrite monitors_of_cons in Hn, Hm.
  change (refresh cs mes pk (c :: l) r) with (refresh cs mes pk l (refresh cs mes pk [c] r)).
  apply NoDup_app in Hn as (_ & Hd & Hn). destruct (is_monitor_check c) eqn:Mc.
  - apply elem_of_app in Hm as [->%list_elem_of_singleton|Hm].
    + rewrite refresh_other by (apply Hd; by left). cbn. rewrite Mc. cbn [andb].
      destruct (listed cs mes pk (mon_name c)); [|done]. unfold get0. by rewrite lookup_insert_eq.
    + rewrite IH by done. destruct (listed cs mes pk m); [done|]. cbn. rewrite Mc. cbn [andb].
      destruct (listed cs mes pk (mon_name c)); [|done]. unfold get0. rewrite lookup_insert_ne; [done|].
      intros <-. by apply (Hd (mon_name c)); [left|].
  - rewrite IH by done. cbn. by rewrite Mc.
Qed.

(** What a policy decides depends on the monitors it uses. *)
Definition uses (m : string) : Prop := exists a b, SIfElse (CMon m) a b ∈ ss.

Lemma source_decision_ext e e' :
  hdr e = hdr e' -> (forall m, uses m -> active e m = active e' m) -> source_decision ss e = source_decision ss e'.
Proof using SIMPLE.
  intros Hh Ha. unfold source_decision.
  assert (G : forall l, (forall s, s ∈ l -> s ∈ ss) ->
    foldr (fun s acc => omax (strength (stmt_result ss e s)) acc) None l =
    foldr (fun s acc => omax (strength (stmt_result ss e' s)) acc) None l); [|by apply G].
  induction l as [|s l IH]; intros Hl; [done|]. cbn [foldr]. rewrite IH by (intros; apply Hl; by right). f_equal. f_equal.
  assert (Hs : s ∈ ss) by (apply Hl; left).
  pose proof (forallb_elem _ _ _ SIMPLE Hs) as Sm. destruct s as [|c a b| | |]; try done. cbn [stmt_result].
  destruct c as [[h o n| |]|h neg l'|m|m q]; try done; cbn [cond_holds cmp_holds]; rewrite ?Hh; [done|done|].
  rewrite Ha; [done|]. by exists a, b.
Qed.

Context (USED : forall m, uses m -> m ∈ monitors_of cs).
Context (RUN : forall mes pk s, Forall monitor_entry mes ->
  let s' := run_switch fresh cs R mes pk s in
  let e := monitor_env fresh cs mes pk (regs s) in
  (Forall (stmt_off_boundary e) ss -> dec s' = default (dec s) (source_decision ss e)) /\
  regs s' = refresh cs mes pk cs (regs s)).

Lemma install_entries : Forall monitor_entry (install ss).
Proof using.
  apply Forall_forall. intros en Hen. apply list_elem_of_bind in Hen as (s & Hen & _).
  destruct s as [| | |m h neg l|]; try (by apply elem_of_nil in Hen).
  apply list_elem_of_fmap in Hen as (v & -> & _). by exists m.
Qed.

Lemma packets_simulated l : forall r seen,
  (forall m, m ∈ monitors_of cs -> get0 r m = seen m) ->
  Forall (fun '(pk, _) => Forall (stmt_off_boundary (mkEnv (p_hdr pk) (fun _ => 0%Z))) ss) l ->
  fst (run_packets fresh cs R (install ss) r l) = source_packets fresh (round_of cs) ss seen l.
Proof using SIMPLE MEMBERS ACCEPTED MONITORS DECLARED USED RUN.
  induction l as [|[pk d] l IH]; intros r seen Hr Hb; [done|]. apply Forall_cons in Hb as [Hb Hl].
  cbn [run_packets source_packets].
  destruct (RUN (install ss) pk (mkSw d r ∅) install_entries) as [D G]. cbn [dec regs] in D, G.
  set (s' := run_switch _ _ _ _ _ _) in *.
  specialize (IH (regs s') (fun m => if on_list ss pk m then p_time pk (round_of cs m) else seen m)).
  destruct (run_packets fresh cs R (install ss) (regs s') l) as [ds r'] eqn:Ep. cbn [fst] in *. f_equal.
  - rewrite D.
    + f_equal. apply source_decision_ext; [done|]. intros m Hu. apply USED in Hu. cbn. unfold live.
      by rewrite listed_install, switch_timeout_used, Hr.
    + eapply Forall_impl; [exact Hb|]. intros s. by destruct s as [|[[h []| |]| | |]| | |].
  - apply IH; [|done]. intros m Hm. rewrite G, refresh_lookup, listed_install by done. by rewrite Hr.
Qed.
End Traffic.




Definition p4_program : Program :=
  match parse_policy p4_poise with Ok p => p | Err _ => Program_new end.

