(* ===== verification/SourceErrors.v ===== *)
(** Policies the compiler accepts as text and refuses later: an if without
    else, and a nested if, on a comparison or on membership of a list. *)

From stdpp Require Import base list strings gmap sorting.
From Stdlib Require Import ZArith Lia Ascii.
From S2P Require Import Prelude Cxx Ast Backend Codegen Policy CompileProps ParseTables Parser Source Samples Compiler SourceProps SourceSem.

#[local] Open Scope list_scope.

(** A condition that becomes a table of its own. *)
Definition is_table (c : cond) : bool :=
  match c with CPred _ | CList _ _ _ => true | CMon _ | CMonAnd _ _ => false end.

(** A statement with a condition that gets no two actions. *)
Fixpoint partial (s : stmt) : bool :=
  match s with
  | SIf c _ => is_table c
  | SNest c s => is_table c || partial s
  | SIfElse _ _ _ | SMonitor _ _ _ _ | SDef _ _ _ => false
  end.

(** A match expression for which the back end returns an error. *)
Definition incomplete (me : MatchExpr) : Prop :=
  (me_type me = MATCH_PRED /\ is_Some (matchpred me) \/ me_type me = MATCH_LIST) /\ get_ifthenelse me = false.

Lemma incomplete_fails p i me : incomplete me -> process_matchexpr p i me = Err AssertFail.
Proof.
  intros [[[T [bp Hb]]|T] H]; unfold process_matchexpr; rewrite T.
  - cbn [Z.eqb MATCH_PRED MATCH_MONITOR]. unfold parse_match_pred, get_binarypred. rewrite Hb. cbn [deref]. by rewrite bind_ret_l, H.
  - cbn [Z.eqb MATCH_LIST MATCH_PRED MATCH_MONITOR]. unfold parse_match_list, get_listpred. rewrite T. cbn. by rewrite H.
Qed.

(** ** Where the back end can fail *)

(** The conditions of a statement. *)
Fixpoint stmt_conds (s : stmt) : list cond :=
  match s with
  | SIf c _ | SIfElse c _ _ => [c]
  | SNest c s => c :: stmt_conds s
  | SMonitor _ _ _ _ | SDef _ _ _ => []
  end.

Fixpoint defines_list (l : string) (s : stmt) : bool :=
  match s with SDef l' _ _ => bool_decide (l' = l) | SNest _ s => defines_list l s | _ => false end.

Fixpoint defines_mon (m : string) (s : stmt) : bool :=
  match s with SMonitor m' _ _ _ => bool_decide (m' = m) | SNest _ s => defines_mon m s | _ => false end.

(** The lists and monitors that the conditions of the policy name are defined
    in it. *)
Definition cond_defined (ss : list stmt) (c : cond) : bool :=
  match c with
  | CPred _ => true
  | CList _ _ l => existsb (defines_list l) ss
  | CMon m | CMonAnd m _ => existsb (defines_mon m) ss
  end.

Definition names_defined (ss : list stmt) : bool :=
  forallb (fun s => forallb (cond_defined ss) (stmt_conds s)) ss.

(** The match expression of a condition. *)
Definition cond_me (c : cond) : MatchExpr :=
  match c with
  | CPred q => MatchExpr_pred (pred_of q)
  | CList h neg l => MatchExpr_list (mkListPred h (listop_name neg) l)
  | CMon m => MatchExpr_monitor m
  | CMonAnd m q => set_binarypred (Some (pred_of q)) (MatchExpr_monitor m)
  end.

(** Equal but for the actions. *)
Definition same_match (me me' : MatchExpr) : Prop :=
  me_type me' = me_type me /\ matchlist me' = matchlist me /\ matchpred me' = matchpred me /\ matchmvar me' = matchmvar me.

(** Names that a match expression needs. *)
Definition me_defined (p : Program) (c : cond) : Prop :=
  match c with
  | CPred _ => True
  | CList _ _ l => is_Some (name2list p !! l)
  | CMon m | CMonAnd m _ => is_Some (name2mon p !! m)
  end.

(** A computation in which an assertion is the only thing that fails. *)
Definition only_asserts {A} (m : res A) : Prop := match m with Ok _ => True | Err e => e = AssertFail end.

Lemma only_asserts_bind {A B} (m : res A) (k : A -> res B) :
  only_asserts m -> (forall a, only_asserts (k a)) -> only_asserts (m ≫= k).
Proof. intros Hm Hk. destruct m as [a|e]; [apply Hk|exact Hm]. Qed.

Lemma only_asserts_cassert b : only_asserts (cassert b).
Proof. by destruct b. Qed.

Lemma process_assert p i c me : same_match (cond_me c) me -> me_defined p c ->
  only_asserts (process_matchexpr p i me).
Proof.
  intros (T & L & P & M) D. unfold process_matchexpr.
  assert (only_asserts (if (me_type me =? MATCH_MONITOR)%Z then parse_match_mon p me Check_new
    else if (me_type me =? MATCH_PRED)%Z then parse_match_pred me Check_new
    else if (me_type me =? MATCH_LIST)%Z then parse_match_list p me Check_new else Err AssertFail)) as H.
  { rewrite T. destruct c as [q|h neg l|m|m q].
    - change (only_asserts (parse_match_pred me Check_new)). unfold parse_match_pred, get_binarypred. rewrite P. cbn [deref cond_me matchpred MatchExpr_pred].
      rewrite bind_ret_l. destruct (negb _); [done|]. unfold get_if_action, get_else_action.
      do 2 (apply only_asserts_bind; [apply only_asserts_bind; [apply only_asserts_cassert|done]|intros ?]).
      cbv zeta. repeat case_match; done.
    - change (only_asserts (parse_match_list p me Check_new)). destruct D as [le D].
      unfold parse_match_list, get_listpred. rewrite T, L. cbn [cond_me me_type matchlist MatchExpr_list].
      change (cassert (MATCH_LIST =? MATCH_LIST)%Z) with (Ok tt). rewrite !bind_ret_l. destruct (negb _); [done|].
      cbn [deref]. rewrite bind_ret_l. unfold get_list_by_name. cbn [listbodyvar]. rewrite D. cbn [deref]. rewrite bind_ret_l.
      unfold get_if_action, get_else_action.
      do 2 (apply only_asserts_bind; [apply only_asserts_bind; [apply only_asserts_cassert|done]|intros ?]).
      cbv zeta. repeat case_match; done.
    - change (only_asserts (parse_match_mon p me Check_new)). destruct D as [mon D].
      unfold parse_match_mon, get_mvar, get_mon_by_name. rewrite T, M. cbn [cond_me me_type matchmvar MatchExpr_monitor].
      change (cassert (MATCH_MONITOR =? MATCH_MONITOR)%Z) with (Ok tt). rewrite !bind_ret_l, D. cbn [deref].
      rewrite bind_ret_l. cbv zeta. by case_match.
    - change (only_asserts (parse_match_mon p me Check_new)). destruct D as [mon D].
      unfold parse_match_mon, get_mvar, get_mon_by_name. rewrite T, M. cbn [cond_me me_type matchmvar MatchExpr_monitor set_binarypred].
      change (cassert (MATCH_MONITOR =? MATCH_MONITOR)%Z) with (Ok tt). rewrite !bind_ret_l, D. cbn [deref].
      rewrite bind_ret_l. cbv zeta. by case_match. }
  apply only_asserts_bind; [exact H|]. intros [ret ch]. apply only_asserts_bind; [apply only_asserts_cassert|done].
Qed.

Lemma incomplete_loop p mes : Exists incomplete mes ->
  Forall (fun me => exists c, same_match (cond_me c) me /\ me_defined p c) mes ->
  forall i q, same_names q p -> process_loop i mes q = Err AssertFail.
Proof.
  induction 1 as [me mes H|me mes _ IH]; intros F i q Hq; apply Forall_cons in F as [(c & Hc & Hd) F]; cbn [process_loop].
  - by rewrite (incomplete_fails _ _ _ H).
  - pose proof (process_assert p i c me Hc Hd) as Hp. rewrite (process_matchexpr_names q p) by done.
    destruct (process_matchexpr p i me) as [ch|e]; [by apply IH|]. cbn in Hp. by rewrite Hp.
Qed.

(** ** What a statement adds to the program *)

Lemma cond_adds c p : matchexpr_v (cond_program c p) = matchexpr_v p ++ [cond_me c] /\
  name2list (cond_program c p) = name2list p /\ name2mon (cond_program c p) = name2mon p.
Proof.
  assert (A : forall hs q, name2list (add_headers hs q) = name2list q /\ name2mon (add_headers hs q) = name2mon q).
  { induction hs as [|h hs IH]; intros q; [done|]. apply (IH (add_header h q)). }
  destruct c as [q|h neg l|m|m q]; cbn; rewrite ?add_headers_matchexprs; try done; by destruct (A (pred_headers q) p) as [-> ->].
Qed.

Lemma cond_me_incomplete c : is_table c = true -> incomplete (cond_me c).
Proof. destruct c as [q|h neg l|m|m q]; try done; intros _; (split; [|done]); [left|right]; [by split; [|eexists]|done]. Qed.

Lemma stmt_adds s : forall p acts, exists new,
  matchexpr_v (fst (stmt_program s (p, acts))) = matchexpr_v p ++ new /\
  (partial s = true -> Exists incomplete new) /\
  Forall (fun me => exists c, c ∈ stmt_conds s /\ same_match (cond_me c) me) new /\
  (forall l, is_Some (name2list p !! l) \/ defines_list l s = true ->
     is_Some (name2list (fst (stmt_program s (p, acts))) !! l)) /\
  (forall m, is_Some (name2mon p !! m) \/ defines_mon m s = true ->
     is_Some (name2mon (fst (stmt_program s (p, acts))) !! m)).
Proof.
  induction s as [c a|c a b|c s IH|m h neg l|l z zs]; intros p acts; cbn [stmt_program fst partial stmt_conds].
  - destruct (cond_adds c p) as (E & N1 & N2). exists [cond_me c]. rewrite E, N1, N2. split; [done|].
    split; [intros Hp; constructor; by apply cond_me_incomplete|]. split; [|by split; intros ? [?|?]].
    constructor; [|constructor]. exists c. split; [by left|done].
  - destruct (cond_adds c p) as (E & N1 & N2). unfold with_actions. rewrite E, last_snoc. eexists [_].
    cbn [put_latestmatchexpr p_matchexpr_v matchexpr_v name2list name2mon]. rewrite E, length_app, Nat.add_1_r. cbn [Nat.pred length].
    rewrite insert_app_r_alt, Nat.sub_diag by lia. split; [reflexivity|]. split; [done|].
    split; [|rewrite N1, N2; by split; intros ? [?|?]]. constructor; [|constructor]. exists c. split; [by left|done].
  - destruct (cond_adds c p) as (E & N1 & N2). destruct (IH (cond_program c p) acts) as (new & E' & H1 & H2 & H3 & H4).
    exists (cond_me c :: new). rewrite E', E, <- (assoc_L (++)). split; [done|]. split; [|split; [|split]].
    + intros [Hc|Hs]%orb_prop; [apply Exists_cons_hd; by apply cond_me_incomplete|apply Exists_cons_tl; auto].
    + constructor; [exists c; split; [by left|done]|]. eapply Forall_impl; [exact H2|]. intros me (c' & Hc' & Hm).
      exists c'. split; [by right|done].
    + intros l Hl. apply H3. by rewrite N1.
    + intros m Hm. apply H4. by rewrite N2.
  - exists []. rewrite app_nil_r. split; [done|]. split; [done|]. split; [done|]. cbn. split; [by intros l' [?|?]|].
    intros m' [Hm|Hm%bool_decide_eq_true]; [|subst; by rewrite lookup_insert_eq].
    destruct (decide (m' = m)) as [->|]; [by rewrite lookup_insert_eq|by rewrite lookup_insert_ne].
  - exists []. rewrite app_nil_r. split; [done|]. split; [done|]. split; [done|]. cbn. split; [|by intros m' [?|?]].
    intros l' [Hm|Hm%bool_decide_eq_true]; [|subst; by rewrite lookup_insert_eq].
    destruct (decide (l' = l)) as [->|]; [by rewrite lookup_insert_eq|by rewrite lookup_insert_ne].
Qed.

Lemma policy_adds ss : forall st, exists new,
  let st' := foldl (fun st s => stmt_program s st) st ss in
  matchexpr_v st'.1 = matchexpr_v st.1 ++ new /\
  (existsb partial ss = true -> Exists incomplete new) /\
  Forall (fun me => exists s c, s ∈ ss /\ c ∈ stmt_conds s /\ same_match (cond_me c) me) new /\
  (forall l, is_Some (name2list st.1 !! l) \/ existsb (defines_list l) ss = true -> is_Some (name2list st'.1 !! l)) /\
  (forall m, is_Some (name2mon st.1 !! m) \/ existsb (defines_mon m) ss = true -> is_Some (name2mon st'.1 !! m)).
Proof.
  induction ss as [|s ss IH]; intros [p acts].
  { exists []. cbn. rewrite app_nil_r. split; [done|]. split; [done|]. split; [done|]. by split; intros ? [?|?]. }
  destruct (stmt_adds s p acts) as (n1 & E1 & H1 & H2 & H3 & H4). cbn [foldl].
  destruct (IH (stmt_program s (p, acts))) as (n2 & E2 & I1 & I2 & I3 & I4). cbv zeta in *.
  exists (n1 ++ n2). rewrite E2, E1, <- (assoc_L (++)). split; [done|]. split; [|split; [|split]].
  - intros [H|H]%orb_prop; apply Exists_app; [left|right]; auto.
  - apply Forall_app. split.
    + eapply Forall_impl; [exact H2|]. intros me (c & Hc & Hm). exists s, c. split; [by left|done].
    + eapply Forall_impl; [exact I2|]. intros me (s' & c & Hs & Hc). exists s', c. split; [by right|done].
  - intros l Hl. apply I3. destruct Hl as [Hl|[Hl|Hl]%orb_prop]; [left; apply H3; by left|left; apply H3; by right|by right].
  - intros m Hl. apply I4. destruct Hl as [Hl|[Hl|Hl]%orb_prop]; [left; apply H4; by left|left; apply H4; by right|by right].
Qed.

(** C34: an if without else and a nested if are refused.  For every well-formed
    policy with such a statement on a comparison or a list, in any layout and
    with the names it uses defined, the text is scanned and parsed, and then
    the back end stops with a failed assertion and no files. *)
Theorem partial_if_refused (mon_template : string) (g0 : gap) (ss : list stmt) (gs : list gap) :
  forallb stmt_ok ss = true -> ss <> [] -> forallb piece_ok g0 = true ->
  length gs = length (policy_words ss) -> layout_ok (zip (policy_words ss) gs) = true ->
  (Z.of_nat (length (policy_words ss)) + 2 < YYMAXDEPTH)%Z ->
  existsb partial ss = true -> names_defined ss = true ->
  parse_policy (policy_text g0 ss gs) = Ok (policy_program ss) /\
  poise_tofino mon_template (policy_text g0 ss gs) = Err AssertFail.
Proof.
  intros H1 H2 H3 H4 H5 H6 H7 H8. split; [by apply front_end_ok|].
  unfold poise_tofino. rewrite (front_end_ok g0 ss gs), bind_ret_l by done. unfold compile_tofino, optimise, process_matchexprs.
  destruct (policy_adds ss (Program_new, [])) as (new & E & I1 & I2 & I3 & I4). cbv zeta in *.
  fold (policy_program ss) in E, I3, I4. cbn [count_headers matchexpr_v p_header_v]. rewrite E. cbn [app matchexpr_v Program_new fst].
  rewrite (incomplete_loop (policy_program ss) new); [done|by apply I1| |done].
  eapply Forall_impl; [exact I2|]. intros me (s & c & Hs & Hc & Hm). exists c. split; [done|].
  unfold names_defined in H8. pose proof (forallb_elem _ _ _ (forallb_elem _ _ _ H8 Hs) Hc) as D.
  destruct c; cbn in *; [done|apply I3; by right|apply I4; by right|apply I4; by right].
Qed.

Lemma partial_if_refused_witness :
  let ss := [SIfElse (CPred (PConst "h1" Beq (0%nat, 1%Z))) 1 2; SNest (CPred (PConst "h2" Beq (0%nat, 1%Z)))
      (SIfElse (CPred (PConst "h3" Bge (0%nat, 2%Z))) 0 1)] in
  poise_tofino monitor_template (policy_text [] ss (replicate 30 [Blank " "%char])) = Err AssertFail.
Proof.
  exact (proj2 (partial_if_refused monitor_template []
    [SIfElse (CPred (PConst "h1" Beq (0%nat, 1%Z))) 1 2; SNest (CPred (PConst "h2" Beq (0%nat, 1%Z)))
      (SIfElse (CPred (PConst "h3" Bge (0%nat, 2%Z))) 0 1)]
    (replicate 30 [Blank " "%char]) eq_refl ltac:(discriminate) eq_refl eq_refl eq_refl eq_refl eq_refl eq_refl)).
Defined.
