(* ===== verification/SourceSamples.v ===== *)
(** The policies shipped in src/policies, as written: each is the text of a
    policy of Source.v, and the switch programs shipped in src/p4 implement
    what it says. *)

From stdpp Require Import base list strings gmap sorting.
From Stdlib Require Import ZArith Lia Ascii.
From S2P Require Import Prelude Cxx Ast Backend Codegen Switch MergeProps Policy CompileProps.
From S2P Require Import ParseTables Parser Source Samples Compiler SourceProps SourceSem.

#[local] Open Scope list_scope.

(** ** Recognising the text of a policy *)

(** The gap at the start of a text and what follows it; a comment without an
    end is left. *)
Fixpoint read_comment (t : list ascii) : option (list ascii * list ascii) :=
  match t with
  | [] => None
  | c :: r =>
      if bool_decide (c = "010"%char) then Some ([], r)
      else '(u, r) ← read_comment r; Some (c :: u, r)
  end.

Fixpoint read_gap (fuel : nat) (t : list ascii) : gap * list ascii :=
  match fuel, t with
  | S fuel, c :: r =>
      if bool_decide (c ∈ [" "; "009"; "010"]%char) then
        let '(g, r) := read_gap fuel r in (Blank c :: g, r)
      else match c, r with
           | "/"%char, "/"%char :: r' =>
               match read_comment r' with
               | Some (u, r') => let '(g, r') := read_gap fuel r' in (Comment u :: g, r')
               | None => ([], t)
               end
           | _, _ => ([], t)
           end
  | _, _ => ([], t)
  end.

Fixpoint strip (w t : list ascii) : option (list ascii) :=
  match w, t with
  | [], _ => Some t
  | c :: w, d :: t => if bool_decide (c = d) then strip w t else None
  | _, [] => None
  end.

(** The gaps after the words of a text. *)
Fixpoint read_words (ws : list word) (t : list ascii) : option (list gap) :=
  match ws with
  | [] => Some []
  | w :: ws =>
      t ← strip (String.list_ascii_of_string w.1) t;
      let '(g, t) := read_gap (length t) t in
      gs ← read_words ws t; Some (g :: gs)
  end.

(** [text] is the policy [ss] in some layout. *)
Definition text_of (ss : list stmt) (text : string) : bool :=
  let t := String.list_ascii_of_string text in
  let '(g0, t) := read_gap (length t) t in
  match read_words (policy_words ss) t with
  | Some gs =>
      forallb piece_ok g0 && (length gs =? length (policy_words ss))%nat &&
      layout_ok (zip (policy_words ss) gs) && bool_decide (policy_text g0 ss gs = text)
  | None => false
  end.

Lemma text_of_sound ss text : text_of ss text = true ->
  exists g0 gs, forallb piece_ok g0 = true /\ length gs = length (policy_words ss) /\
    layout_ok (zip (policy_words ss) gs) = true /\ policy_text g0 ss gs = text.
Proof.
  unfold text_of. destruct (read_gap _ _) as [g0 t]. destruct (read_words (policy_words ss) t) as [gs|]; [|done].
  intros [[[H1 H2%Nat.eqb_eq]%andb_prop H3]%andb_prop H4%bool_decide_eq_true]%andb_prop. by exists g0, gs.
Qed.

(** ** The shipped policies *)

Definition p1_source : list stmt :=
  [SIfElse (CPred (PConst "h1" Blt (0, 9%Z))) 0 1; SIfElse (CPred (PConst "h1" Bgt (0, 17%Z))) 0 1].
Definition p2_source : list stmt :=
  [SDef "list0" (3, 1%Z) [(3, 2%Z); (3, 3%Z)]; SIfElse (CList "h1" false "list0") 2 1].
Definition p3_source : list stmt :=
  [SIfElse (CPred (PConst "h1" Blt (0, 100%Z))) 0 1; SIfElse (CPred (PConst "h1" Bgt (0, 105%Z))) 0 1;
   SIfElse (CPred (PConst "h2" Blt (0, 200%Z))) 0 1; SIfElse (CPred (PConst "h2" Bgt (0, 210%Z))) 0 1].
Definition p4_source : list stmt :=
  [SDef "list1" (3, 1%Z) [(3, 2%Z); (3, 3%Z)]; SMonitor "m0" "h1" false "list1"; SIfElse (CMon "m0") 1 0].
Definition p5_source : list stmt := [SIfElse (CPred (PConst "h1" Beq (0, 0%Z))) 0 1].
Definition p6_source : list stmt := [SIfElse (CPred (PConst "h1" Beq (0, 1%Z))) 2 1].
Definition p7_source : list stmt := [SIfElse (CPred (PConst "h1" Beq (0, 1%Z))) 2 1].

(** Each policy: its text, what it says, and the two files shipped for it. *)
Definition shipped : list (string * list stmt * string * string) :=
  [(p1_poise, p1_source, p1_p4, p1_cmd); (p2_poise, p2_source, p2_p4, p2_cmd); (p3_poise, p3_source, p3_p4, p3_cmd);
   (p4_poise, p4_source, p4_p4, p4_cmd); (p5_poise, p5_source, p5_p4, p5_cmd); (p6_poise, p6_source, p6_p4, p6_cmd);
   (p7_poise, p7_source, p7_p4, p7_cmd)].

(** What the theorem on the compiler asks of a policy. *)
Definition covered (text : string) (ss : list stmt) : bool :=
  text_of ss text && forallb stmt_ok ss && forallb stmt_simple ss &&
  (Z.of_nat (length (policy_words ss)) + 2 <? YYMAXDEPTH)%Z && plainb (policy_program ss) &&
  (length (omap simple_me ss) <=? 16)%nat && negb (bool_decide (ss = [])).

(** The switch program in two files takes the decision of a written policy,
    with the monitors as their tables leave them. *)
Definition implements (p4 cmd : string) (ss : list stmt) : Prop :=
  exists cs R, files_hold monitor_template cs R p4 cmd /\
    forall fresh mes pk s, Forall monitor_entry mes ->
      let e := monitor_env fresh cs mes pk (regs s) in
      Forall (stmt_off_boundary e) ss ->
      dec (run_switch fresh cs R mes pk s) = default (dec s) (source_decision ss e).

Lemma covered_implements text ss p4 cmd :
  covered text ss = true -> poise_tofino monitor_template text = Ok (p4, cmd) ->
  text_of ss text = true /\ poise_tofino monitor_template text = Ok (p4, cmd) /\ implements p4 cmd ss.
Proof.
  intros Hin E. apply andb_prop in Hin as [Hin N%negb_true_iff%bool_decide_eq_false].
  apply andb_prop in Hin as [Hin L%Nat.leb_le]. apply andb_prop in Hin as [Hin P]. apply andb_prop in Hin as [Hin W%Z.ltb_lt].
  apply andb_prop in Hin as [[Hin O]%andb_prop S]. split; [exact Hin|]. split; [exact E|]. apply text_of_sound in Hin as (g0 & gs & G1 & G2 & G3 & G4).
  destruct (source_compiled monitor_template g0 ss gs) as (p4' & cmd' & cs & R & E' & H1 & H2);
    [exact O|exact N|exact S|exact G1|exact G2|exact G3|exact W|exact P|exact L|].
  rewrite G4, E in E'. injection E' as -> ->. by exists cs, R.
Qed.

(** The shipped artefacts: each of the seven policies in src/policies is,
    comments and layout aside, the policy listed here; the compiler writes,
    character for character, the P4 and command files shipped for it in src/p4,
    and these hold a switch program with the decision the policy states.  (The
    command file of P4 fills only the table that reads the monitor, not the
    monitor's own table: see [unlisted_monitors_never_refreshed].) *)
Theorem shipped_files_implement_policies :
  Forall (fun '(text, ss, p4, cmd) =>
    text_of ss text = true /\ poise_tofino monitor_template text = Ok (p4, cmd) /\ implements p4 cmd ss) shipped.
Proof.
  destruct samples_compile as (E1 & E2 & E3 & E4 & E5 & E6 & E7).
  unfold shipped. repeat apply Forall_cons_2; [..|apply Forall_nil_2]; (apply covered_implements; [vm_compute; reflexivity|]).
  - exact E1.
  - exact E2.
  - exact E3.
  - exact E4.
  - exact E5.
  - exact E6.
  - exact E7.
Qed.
