(* ===== verification/Findings.v ===== *)
(** Where the compiler departs from what a policy says: the operator [notin] is
    compiled as [in] in every policy, and a policy on which merging changes the
    decision.  (What becomes of the other operators, of the range boundaries
    and of conditions on monitors is part of [poise_tofino_exact].) *)

From stdpp Require Import base list strings gmap sorting.
From Stdlib Require Import ZArith Lia Ascii.
From S2P Require Import Prelude Cxx Ast Backend Codegen TextProps AllocProps Switch MergeProps.
From S2P Require Import Policy CompileProps ParseTables Parser Source Samples.
From S2P Require Import LexSpec LexProps ParseSpec ParseProps Compiler SourceProps.

#[local] Open Scope list_scope.

(** ** Runs related result by result *)

Definition rrel {A B} (R : A -> B -> Prop) (m : res A) (n : res B) : Prop :=
  match m, n with
  | Ok a, Ok b => R a b
  | Err e, Err e' => e = e'
  | _, _ => False
  end.

Lemma rrel_bind {A B C D} (R : A -> B -> Prop) (S : C -> D -> Prop) m n k h :
  rrel R m n -> (forall a b, R a b -> rrel S (k a) (h b)) -> rrel S (m ≫= k) (n ≫= h).
Proof. destruct m as [a|e], n as [b|e']; cbn; intros Hm Hk; [by apply Hk|done|done|by subst]. Qed.

Lemma rrel_refl {A} (m : res A) : rrel eq m m.
Proof. by destruct m. Qed.

(** ** Programs that differ in [in] and [notin] *)

Definition same_pred (a b : ListPred) : Prop := listvar a = listvar b /\ listbodyvar a = listbodyvar b.

Definition same_mon (a b : Monitor) : Prop := mon_mvar a = mon_mvar b /\ same_pred (mon_lp a) (mon_lp b).

Definition same_me (a b : MatchExpr) : Prop :=
  me_type a = me_type b /\ option_Forall2 same_pred (matchlist a) (matchlist b) /\ matchpred a = matchpred b /\
  matchmvar a = matchmvar b /\ if_action a = if_action b /\ else_action a = else_action b /\
  num_actions a = num_actions b.

(** What the passes of the back end look at. *)
Record alike (p q : Program) : Prop := {
  al_checks : check_v p = check_v q;
  al_headers : header_v p = header_v q;
  al_monitors : Forall2 same_mon (monitor_v p) (monitor_v q);
  al_mes : Forall2 same_me (matchexpr_v p) (matchexpr_v q);
  al_lists : name2list p = name2list q;
  al_mons : forall m, option_Forall2 same_mon (name2mon p !! m) (name2mon q !! m);
  al_pos : curr_rec p = curr_rec q /\ curr_stage p = curr_stage q
}.

Lemma alike_checks cs p q : alike p q -> alike (p_check_v cs p) (p_check_v cs q).
Proof. by intros []. Qed.

Lemma alike_pos r s p q : alike p q -> alike (p_curr_stage s (p_curr_rec r p)) (p_curr_stage s (p_curr_rec r q)).
Proof. by intros []. Qed.

Lemma process_matchexpr_alike p q i a b : alike p q -> same_me a b ->
  rrel eq (process_matchexpr p i a) (process_matchexpr q i b).
Proof.
  intros A (T & L & P & M & I & E & N). unfold process_matchexpr. rewrite T.
  apply (rrel_bind eq); [|intros ? ? ->; apply rrel_refl].
  destruct (me_type b =? MATCH_MONITOR)%Z; [|destruct (me_type b =? MATCH_PRED)%Z; [|destruct (me_type b =? MATCH_LIST)%Z; [|done]]].
  - unfold parse_match_mon, get_mvar, get_binarypred, get_mon_by_name. rewrite T, M, P.
    apply (rrel_bind eq); [apply rrel_refl|]. intros ? m ->.
    destruct (al_mons _ _ A m) as [x y [_ [Hv _]]|]; [|done]. cbn [deref]. rewrite !bind_ret_l, Hv.
    destruct (matchpred b); apply rrel_refl.
  - unfold parse_match_pred, get_binarypred, get_ifthenelse, get_if_action, get_else_action.
    rewrite P, N, I, E. apply rrel_refl.
  - unfold parse_match_list, get_listpred, get_ifthenelse, get_if_action, get_else_action, get_list_by_name.
    rewrite T, N, I, E, (al_lists _ _ A).
    apply (rrel_bind (option_Forall2 same_pred)); [by apply (rrel_bind eq); [apply rrel_refl|]|].
    intros x y Hxy. destruct (negb _); [done|]. destruct Hxy as [u v [Hv Hb]|]; [|done].
    cbn [deref]. rewrite !bind_ret_l, Hv, Hb. apply rrel_refl.
Qed.

Lemma process_loop_alike mes mes' : Forall2 same_me mes mes' -> forall i p q, alike p q ->
  rrel alike (process_loop i mes p) (process_loop i mes' q).
Proof.
  induction 1 as [|a b l k Hab _ IH]; intros i p q A; [done|]. cbn [process_loop].
  apply (rrel_bind eq); [by apply process_matchexpr_alike|]. intros c ? <-. apply IH.
  unfold add_check. rewrite (al_checks _ _ A). by apply alike_checks.
Qed.

Lemma gather_checks_alike ix : forall acc p q, alike p q ->
  rrel (fun a b => a.1 = b.1 /\ alike a.2 b.2) (gather_checks ix acc p) (gather_checks ix acc q).
Proof.
  induction ix as [|i ix IH]; intros acc p q A; [done|]. cbn [gather_checks]. rewrite (al_checks _ _ A).
  apply (rrel_bind eq); [apply rrel_refl|]. intros c ? <-. apply (rrel_bind eq); [apply rrel_refl|].
  intros l ? <-. apply IH. unfold upd_check. rewrite (al_checks _ _ A). by apply alike_checks.
Qed.

Lemma merge_headers_alike hs : forall p q, alike p q -> rrel alike (merge_headers hs p) (merge_headers hs q).
Proof.
  induction hs as [|h hs IH]; intros p q A; [done|]. cbn [merge_headers]. apply (rrel_bind alike); [|done].
  unfold merge_header. rewrite (al_checks _ _ A). destruct (1 <? _)%nat; [|done].
  apply (rrel_bind (fun a b => a.1 = b.1 /\ alike a.2 b.2)); [|by intros [? ?] [? ?] [_ ?]].
  unfold merge_checks_per_header. rewrite (al_checks _ _ A). apply (rrel_bind eq); [apply rrel_refl|]. intros first ? <-.
  apply (rrel_bind eq); [apply rrel_refl|]. intros cs ? <-. destruct (existsb _ _); [done|].
  destruct (_ <=? 1)%nat; [done|]. apply (rrel_bind (fun a b => a.1 = b.1 /\ alike a.2 b.2)); [by apply gather_checks_alike|].
  intros [l p'] [l' q'] [E A']. cbn in E, A'. subst l'. split; [done|]. cbn.
  unfold add_check. rewrite (al_checks _ _ A'). by apply alike_checks.
Qed.

Lemma absorb_checks_alike first ix : forall p q, alike p q -> rrel alike (absorb_checks first ix p) (absorb_checks first ix q).
Proof.
  induction ix as [|i ix IH]; intros p q A; [done|]. cbn [absorb_checks]. rewrite (al_checks _ _ A).
  apply (rrel_bind eq); [apply rrel_refl|]. intros c ? <-. apply IH. unfold upd_check. cbn [check_v p_check_v].
  rewrite (al_checks _ _ A). by apply alike_checks, alike_checks.
Qed.

Lemma merge_monitors_loop_alike ms ms' : Forall2 same_mon ms ms' -> forall p q, alike p q ->
  rrel alike (merge_monitors_loop ms p) (merge_monitors_loop ms' q).
Proof.
  induction 1 as [|a b l k [Hm _] _ IH]; intros p q A; [done|]. cbn [merge_monitors_loop]. apply (rrel_bind alike); [|done].
  unfold merge_monitor. rewrite Hm, (al_checks _ _ A). destruct (find_checks _ _) as [|first [|r rest]]; try done.
  apply (rrel_bind alike); [by apply absorb_checks_alike|]. intros p' q' A'. unfold upd_check. rewrite (al_checks _ _ A').
  by apply alike_checks.
Qed.

Lemma remove_invalid_alike p q : alike p q -> alike (remove_invalid_checks p) (remove_invalid_checks q).
Proof. intros A. unfold remove_invalid_checks. rewrite (al_checks _ _ A). by apply alike_checks. Qed.

Lemma compile_tofino_alike tmpl p q : alike p q ->
  rrel (fun a b => a.1.2 = b.1.2 /\ a.2 = b.2) (compile_tofino tmpl p) (compile_tofino tmpl q).
Proof.
  intros A. unfold compile_tofino, optimise. cbn [count_headers].
  apply (rrel_bind alike).
  - assert (A0 : alike (p_header_v (unique (insertion_sort string_lt (header_v p))) p)
                       (p_header_v (unique (insertion_sort string_lt (header_v q))) q)).
    { rewrite (al_headers _ _ A). by destruct A. }
    unfold process_matchexprs. apply (rrel_bind alike); [apply process_loop_alike; [apply (al_mes _ _ A)|exact A0]|].
    intros p1 q1 A1. apply (rrel_bind alike).
    { unfold merge_same_headers. rewrite (al_headers _ _ A1). apply (rrel_bind alike); [by apply merge_headers_alike|].
      intros. by apply remove_invalid_alike. }
    intros p2 q2 A2. unfold merge_monitors. apply (rrel_bind alike); [|intros; by apply remove_invalid_alike].
    apply merge_monitors_loop_alike; [apply (al_monitors _ _ A2)|exact A2].
  - intros p1 q1 A1. apply (rrel_bind (fun a b => a.2 = b.2 /\ alike a.1 b.1)).
    + unfold generate_p4, allocate_resources. cbn [check_v p_check_v curr_rec curr_stage].
      rewrite (al_checks _ _ A1), (proj1 (al_pos _ _ A1)), (proj2 (al_pos _ _ A1)).
      apply (rrel_bind (fun a b => a.1 = b.1 /\ alike a.2 b.2)).
      { apply (rrel_bind eq); [apply rrel_refl|]. intros [[cs cr] st] ? <-. cbv zeta.
        assert (alike (p_curr_stage st (p_curr_rec cr (p_check_v cs (p_check_v (std_sort (check_v q1)) p1))))
                  (p_curr_stage st (p_curr_rec cr (p_check_v cs (p_check_v (std_sort (check_v q1)) q1)))))
          by by apply alike_pos, alike_checks, alike_checks.
        by destruct (cr >=? max_rec_times)%Z. }
      intros [r p2] [r' q2] [E A2]. cbn in E, A2. subst r'. apply (rrel_bind eq); [apply rrel_refl|]. intros _ _ _. cbv zeta.
      unfold generate_table_def, generate_header_def. rewrite (al_checks _ _ A2).
      apply (rrel_bind (fun a b => a.2 = b.2 /\ alike a.1 b.1)).
      { apply (rrel_bind eq); [apply rrel_refl|]. intros [cs t] ? <-. split; [done|]. by apply alike_checks. }
      intros [p3 t] [q3 t'] [E A3]. cbn in E, A3. subst t'. unfold generate_eval_ctx. rewrite (al_checks _ _ A3).
      apply (rrel_bind eq); [apply rrel_refl|]. intros ev ? <-. split; [|done]. cbn. unfold p4_header.
      by rewrite (proj1 (al_pos _ _ A3)).
    + intros [p2 p4] [q2 p4'] [E A2]. cbn in E, A2. subst p4'. cbn. unfold generate_cmd. by rewrite (al_checks _ _ A2).
Qed.

(** ** [notin] *)

Definition cond_in (c : cond) : cond := match c with CList h _ l => CList h false l | _ => c end.

(** The statement with [in] for every [notin]. *)
Fixpoint with_in (s : stmt) : stmt :=
  match s with
  | SIf c a => SIf (cond_in c) a
  | SIfElse c a b => SIfElse (cond_in c) a b
  | SNest c s => SNest (cond_in c) (with_in s)
  | SMonitor m h _ l => SMonitor m h false l
  | SDef l n ns => s
  end.

Lemma same_me_refl me : same_me me me.
Proof. split; [done|]. split; [by destruct (matchlist me); constructor|done]. Qed.

Lemma same_mon_refl (o : option Monitor) : option_Forall2 same_mon o o.
Proof. by destruct o; constructor. Qed.

Lemma alike_cond c p q : alike p q -> alike (cond_program c p) (cond_program (cond_in c) q).
Proof.
  assert (H : forall hs p q, alike p q -> alike (add_headers hs p) (add_headers hs q)).
  { induction hs as [|h hs IH]; intros p' q' A; [done|]. apply (IH (add_header h p') (add_header h q')).
    unfold add_header. rewrite (al_headers _ _ A). by destruct A. }
  assert (M : forall a b p q, same_me a b -> alike p q -> alike (add_matchexpr a p) (add_matchexpr b q)).
  { intros a b p' q' Hab []. split; try done. cbn. apply Forall2_app; [done|]. by constructor. }
  intros A. destruct c as [x|h neg l|m|m x]; cbn [cond_program cond_in]; apply M; try apply same_me_refl; try done; try by apply H.
  - split; [done|]. split; [by constructor|done].
  - unfold add_header. rewrite (al_headers _ _ A). by destruct A.
Qed.

Lemma alike_actions a b p q : alike p q -> alike (with_actions a b p) (with_actions a b q).
Proof.
  intros A. unfold with_actions. pose proof (al_mes _ _ A) as F. pose proof (Forall2_length _ _ _ F) as L.
  rewrite !last_lookup, L.
  destruct (matchexpr_v p !! pred (length (matchexpr_v q))) as [x|] eqn:Ep.
  - destruct (Forall2_lookup_l _ _ _ _ _ F Ep) as (y & -> & T & Hl & P & M & _). destruct A. split; try done.
    cbn. rewrite L. apply Forall2_insert; [done|]. by split.
  - apply lookup_ge_None in Ep. rewrite L in Ep. by rewrite lookup_ge_None_2.
Qed.

Lemma alike_stmt s : forall p q acts, alike p q ->
  alike (stmt_program s (p, acts)).1 (stmt_program (with_in s) (q, acts)).1 /\
  (stmt_program s (p, acts)).2 = (stmt_program (with_in s) (q, acts)).2.
Proof.
  induction s as [c a|c a b|c s IH|m h neg l|l z zs]; intros p q acts A; cbn [stmt_program with_in fst snd].
  - split; [|done]. by apply alike_cond.
  - split; [|done]. by apply alike_actions, alike_cond.
  - by apply IH, alike_cond.
  - split; [|done]. destruct A. split; try done; cbn.
    + by f_equal.
    + apply Forall2_app; [done|]. by constructor.
    + intros m'. destruct (decide (m' = m)) as [->|]; [rewrite !lookup_insert_eq; by constructor|by rewrite !lookup_insert_ne].
  - split; [|done]. destruct A. split; try done. cbn. by f_equal.
Qed.

Lemma alike_policy ss : alike (policy_program ss) (policy_program (with_in <$> ss)).
Proof.
  unfold policy_program.
  assert (G : forall p q acts, alike p q ->
    alike (foldl (fun st s => stmt_program s st) (p, acts) ss).1 (foldl (fun st s => stmt_program s st) (q, acts) (with_in <$> ss)).1).
  { induction ss as [|s ss IH]; intros p q acts A; [done|]. rewrite fmap_cons. cbn [foldl].
    destruct (alike_stmt s p q acts A) as [A' E]. destruct (stmt_program s (p, acts)), (stmt_program (with_in s) (q, acts)).
    cbn in A', E. subst. by apply IH. }
  apply G. split; try done. intros m. apply same_mon_refl.
Qed.

(** C37: [notin] is compiled as [in].  For every well-formed policy, in any
    layout, the compiler's outcome (the two files, or the error) is the one for
    the policy that has [in] wherever the first has [notin], in conditions and
    in monitors. *)
Theorem notin_compiled_as_in (mon_template : string) (ss : list stmt) (g0 g0' : gap) (gs gs' : list gap) :
  let ss' := with_in <$> ss in
  forallb stmt_ok ss = true -> ss <> [] ->
  forallb piece_ok g0 = true -> length gs = length (policy_words ss) ->
  layout_ok (zip (policy_words ss) gs) = true -> (Z.of_nat (length (policy_words ss)) + 2 < YYMAXDEPTH)%Z ->
  forallb piece_ok g0' = true -> length gs' = length (policy_words ss') ->
  layout_ok (zip (policy_words ss') gs') = true -> (Z.of_nat (length (policy_words ss')) + 2 < YYMAXDEPTH)%Z ->
  poise_tofino mon_template (policy_text g0 ss gs) = poise_tofino mon_template (policy_text g0' ss' gs').
Proof.
  intros ss' H1 H2 H3 H4 H5 H6 H3' H4' H5' H6'.
  assert (forallb stmt_ok ss' = true) as H1'.
  { unfold ss'. clear -H1. induction ss as [|s ss IH]; [done|]. cbn in H1. apply andb_prop in H1 as [Hs H]. rewrite fmap_cons. cbn.
    rewrite IH by done. rewrite andb_true_r. clear -Hs.
    induction s as [c a|c a b|c s IH|m h neg l|l z zs]; cbn in *; try done; try by destruct c.
    apply andb_prop in Hs as [Hc Hs]. rewrite IH by done. rewrite andb_true_r. by destruct c. }
  assert (ss' <> []) as H2' by (unfold ss'; by destruct ss).
  unfold poise_tofino. rewrite (front_end_ok g0 ss gs), (front_end_ok g0' ss' gs'), !bind_ret_l by done.
  pose proof (compile_tofino_alike mon_template _ _ (alike_policy ss)) as H. fold ss' in H.
  destruct (compile_tofino mon_template (policy_program ss)) as [[[p p4] cmd]|e],
    (compile_tofino mon_template (policy_program ss')) as [[[p' p4'] cmd']|e']; cbn in H; try done.
  - destruct H as [-> ->]. done.
  - by rewrite H.
Qed.

Lemma notin_compiled_as_in_witness :
  let text op := "def list0 := [ 1 2 ] if match ( h1 " +:+ op +:+ " list0 ) then drop else fwd1 " in
  poise_tofino monitor_template (text "notin") = poise_tofino monitor_template (text "in").
Proof.
  exact (notin_compiled_as_in monitor_template
    [SDef "list0" (0%nat, 1%Z) [(0%nat, 2%Z)]; SIfElse (CList "h1" true "list0") 0 1] [] []
    (replicate 18 [Blank " "%char]) (replicate 18 [Blank " "%char])
    eq_refl ltac:(discriminate) eq_refl eq_refl eq_refl eq_refl eq_refl eq_refl eq_refl eq_refl).
Defined.

(** ** Monitors first *)

Definition monitor_first_poise : string :=
  "def list0 := [ 1 2 ]" +:+ nl +:+
  "m0 := monitor(h1 in list0)" +:+ nl +:+
  "if match (m0) then fwd1 else drop" +:+ nl +:+
  "if match (h1 == 7) then drop else fwd1" +:+ nl +:+
  "if match (h1 == 8) then drop else fwd1" +:+ nl.

(** When the first check on a header is a monitor's, the list that replaces the
    exact checks on the header takes the monitor's action: this policy drops
    packets whose headers are 7, and the switch forwards them while the monitor
    is active. *)
Theorem monitor_first_forwards :
  match parse_policy monitor_first_poise with
  | Ok p =>
      policy_decision p (mkEnv (fun _ => 7%Z) (fun _ => 1%Z)) = Some DROP_ACTION_VAL /\
      match compile_tofino monitor_template p with
      | Ok (p', _, _) =>
          dec (run_switch (fun _ _ _ => true) (check_v p') (curr_rec p') []
                 (mkPacket (fun _ => 7%Z) (fun _ => 0%Z)) (mkSw 1 ∅ ∅)) = NORMAL_ACTION_VAL
      | Err _ => False
      end
  | Err _ => False
  end.
Proof. vm_compute. by split. Qed.
