(* ===== verification/Sha1.v ===== *)
(** SHA-1 and HMAC-SHA-1 of the kernel module
    (src/client-module/kernel-module/sha1.c and sha1.h).  The file's static
    variables are a record.  The two unions are kept by one of their views:
    [sha1_buffer] as its 64 bytes [b], [sha1_state] as its 5 words [w]; the
    other view is the little-endian reading of the machine. *)

From stdpp Require Import base list.
From Stdlib Require Import ZArith Lia.
From S2P Require Import Prelude.

Local Open Scope Z_scope.

Definition HASH_LENGTH : Z := 20.
Definition BLOCK_LENGTH : Z := 64.
Definition SHA1_K0 : Z := 0x5a827999.
Definition SHA1_K20 : Z := 0x6ed9eba1.
Definition SHA1_K40 : Z := 0x8f1bbcdc.
Definition SHA1_K60 : Z := 0xca62c1d6.

(** ** The little-endian views of a union *)

(** [u.w] of the bytes [u.b]. *)
Fixpoint le_words (b : list Z) : list Z :=
  match b with
  | b0 :: b1 :: b2 :: b3 :: r =>
      (b0 + b1 * 2 ^ 8 + b2 * 2 ^ 16 + b3 * 2 ^ 24) :: le_words r
  | _ => []
  end.

(** [u.b] of the words [u.w]. *)
Fixpoint le_bytes (w : list Z) : list Z :=
  match w with
  | [] => []
  | x :: r =>
      Z.land x 255 :: Z.land (Z.shiftr x 8) 255 :: Z.land (Z.shiftr x 16) 255
      :: Z.land (Z.shiftr x 24) 255 :: le_bytes r
  end.

(** ** The module's state *)

Record sha : Type := mkSha {
  bufferOffset : Z;
  byteCount : Z;
  keyBuffer : list Z;
  innerHash : list Z;
  sha1_buffer : list Z;
  sha1_state : list Z
}.

(** Static storage starts at zero. *)
Definition sha_zero : sha :=
  mkSha 0 0 (replicate 64 0) (replicate 20 0) (replicate 64 0) (replicate 5 0).

Definition sha1InitState : list Z :=
  [0x01; 0x23; 0x45; 0x67; 0x89; 0xab; 0xcd; 0xef; 0xfe; 0xdc; 0xba; 0x98;
   0x76; 0x54; 0x32; 0x10; 0xf0; 0xe1; 0xd2; 0xc3].

(** [uint32_t] arithmetic. *)
Definition u32 (z : Z) : Z := uwrap 32 z.
Definition u8 (z : Z) : Z := uwrap 8 z.

Definition rol32 (number bits : Z) : Z :=
  Z.lor (u32 (Z.shiftl number bits)) (Z.shiftr number (32 - bits)).

(** ** [hashBlock] *)

(** The five working variables. *)
Record regs : Type := mkRegs { ra : Z; rb : Z; rc : Z; rd : Z; re : Z }.

(** [w[i]] for an index in range. *)
Definition word (w : list Z) (i : nat) : Z := nth i w 0.

(** One iteration of the loop. *)
Definition hash_round (st : regs * list Z) (i : nat) : regs * list Z :=
  let '(mkRegs a b c d e, w) := st in
  let w := if (16 <=? i)%nat then
             let t := Z.lxor (Z.lxor (Z.lxor (word w ((i + 13) mod 16)) (word w ((i + 8) mod 16)))
                                     (word w ((i + 2) mod 16))) (word w (i mod 16)) in
             <[(i mod 16)%nat := rol32 t 1]> w
           else w in
  let t := if (i <? 20)%nat then u32 (Z.lxor d (Z.land b (Z.lxor c d)) + SHA1_K0)
           else if (i <? 40)%nat then u32 (Z.lxor (Z.lxor b c) d + SHA1_K20)
           else if (i <? 60)%nat then u32 (Z.lor (Z.land b c) (Z.land d (Z.lor b c)) + SHA1_K40)
           else u32 (Z.lxor (Z.lxor b c) d + SHA1_K60) in
  let t := u32 (t + u32 (u32 (rol32 a 5 + e) + word w (i mod 16))) in
  (mkRegs t a (rol32 b 30) c d, w).

(** The loop of 80 iterations, from the state words and the buffer words. *)
Definition hash_loop (st w : list Z) : regs * list Z :=
  foldl hash_round (mkRegs (word st 0) (word st 1) (word st 2) (word st 3) (word st 4), w)
    (seq 0 80).

Definition hashBlock (s : sha) : sha :=
  let st := sha1_state s in
  let p := hash_loop st (le_words (sha1_buffer s)) in
  let r := fst p in
  mkSha (bufferOffset s) (byteCount s) (keyBuffer s) (innerHash s) (le_bytes (snd p))
    [u32 (word st 0 + ra r); u32 (word st 1 + rb r); u32 (word st 2 + rc r);
     u32 (word st 3 + rd r); u32 (word st 4 + re r)].

(** ** Writing *)

Definition addUncounted (data : Z) (s : sha) : sha :=
  let s := mkSha (u8 (bufferOffset s + 1)) (byteCount s) (keyBuffer s) (innerHash s)
             (<[Z.to_nat (Z.lxor (bufferOffset s) 3) := data]> (sha1_buffer s)) (sha1_state s) in
  if bufferOffset s =? BLOCK_LENGTH then
    let s := hashBlock s in
    mkSha 0 (byteCount s) (keyBuffer s) (innerHash s) (sha1_buffer s) (sha1_state s)
  else s.

(** [while (bufferOffset != 56) addUncounted(0x00)]; at most 63 iterations. *)
Fixpoint pad_zeros (fuel : nat) (s : sha) : res sha :=
  match fuel with
  | O => Err NoFuel
  | S f => if bufferOffset s =? 56 then Ok s else pad_zeros f (addUncounted 0 s)
  end.

Definition pad (s : sha) : res sha :=
  let s := addUncounted 0x80 s in
  s ← pad_zeros 64 s;
  let s := addUncounted 0 (addUncounted 0 (addUncounted 0 s)) in
  let s := addUncounted (u8 (Z.shiftr (byteCount s) 29)) s in
  let s := addUncounted (u8 (Z.shiftr (byteCount s) 21)) s in
  let s := addUncounted (u8 (Z.shiftr (byteCount s) 13)) s in
  let s := addUncounted (u8 (Z.shiftr (byteCount s) 5)) s in
  mret (addUncounted (u8 (Z.shiftl (byteCount s) 3)) s).

Definition sha1_init (s : sha) : sha :=
  mkSha 0 0 (keyBuffer s) (innerHash s) (sha1_buffer s) (le_words sha1InitState).

Definition sha1_write (data : Z) (s : sha) : sha :=
  addUncounted data
    (mkSha (bufferOffset s) (u32 (byteCount s + 1)) (keyBuffer s) (innerHash s)
       (sha1_buffer s) (sha1_state s)).

(** [sha1_writeArray(buffer, size)], the array given by its [size] bytes. *)
Definition sha1_writeArray (buffer : list Z) (s : sha) : sha :=
  foldl (fun s b => sha1_write b s) s buffer.

(** The byte swap of a word. *)
Definition swap32 (a : Z) : Z :=
  Z.lor (Z.lor (Z.lor (u32 (Z.shiftl a 24)) (Z.land (u32 (Z.shiftl a 8)) 0x00ff0000))
               (Z.land (Z.shiftr a 8) 0x0000ff00)) (Z.shiftr a 24).

(** The 20 bytes the returned pointer points to, and the state left. *)
Definition sha1_result (s : sha) : res (list Z * sha) :=
  s ← pad s;
  let w := swap32 <$> sha1_state s in
  mret (le_bytes w, mkSha (bufferOffset s) (byteCount s) (keyBuffer s) (innerHash s)
                      (sha1_buffer s) w).

(** ** HMAC *)

Definition HMAC_IPAD : Z := 0x36.
Definition HMAC_OPAD : Z := 0x5c.

(** [memcpy(dst, src, n)] into the front of an array. *)
Definition copy_front (src dst : list Z) : list Z := src ++ drop (length src) dst.

Definition set_keyBuffer (k : list Z) (s : sha) : sha :=
  mkSha (bufferOffset s) (byteCount s) k (innerHash s) (sha1_buffer s) (sha1_state s).
Definition set_innerHash (h : list Z) (s : sha) : sha :=
  mkSha (bufferOffset s) (byteCount s) (keyBuffer s) h (sha1_buffer s) (sha1_state s).

(** [sha1_initHmac(key, keyLength)], the key given by its [keyLength] bytes. *)
Definition sha1_initHmac (key : list Z) (s : sha) : res sha :=
  let s := set_keyBuffer (replicate 64 0) s in
  s ← (if BLOCK_LENGTH <? Z.of_nat (length key) then
         '(h, s) ← sha1_result (sha1_writeArray key (sha1_init s));
         mret (set_keyBuffer (copy_front h (keyBuffer s)) s)
       else mret (set_keyBuffer (copy_front key (keyBuffer s)) s));
  let s := sha1_init s in
  mret (foldl (fun s i => sha1_write (Z.lxor (nth i (keyBuffer s) 0) HMAC_IPAD) s) s (seq 0 64)).

Definition sha1_resultHmac (s : sha) : res (list Z * sha) :=
  '(h, s) ← sha1_result s;
  let s := set_innerHash (copy_front h (innerHash s)) s in
  let s := sha1_init s in
  let s := foldl (fun s i => sha1_write (Z.lxor (nth i (keyBuffer s) 0) HMAC_OPAD) s) s (seq 0 64) in
  let s := foldl (fun s i => sha1_write (nth i (innerHash s) 0) s) s (seq 0 20) in
  sha1_result s.
