(* ===== verification/Sha1Props.v ===== *)
(** Sha1.v computes SHA-1 as FIPS 180 defines it and HMAC-SHA-1 as RFC 2104
    defines it, for every message and key: the circular 16-word schedule,
    the byte-wise filling of a little-endian buffer, the padding loop and the
    byte swap of the result are all invisible outside. *)

From stdpp Require Import base list.
From Stdlib Require Import ZArith Lia.
From S2P Require Import Prelude Sha1.

Local Open Scope Z_scope.

(** ** The standard *)

Definition K (t : nat) : Z :=
  if (t <? 20)%nat then 0x5a827999 else if (t <? 40)%nat then 0x6ed9eba1
  else if (t <? 60)%nat then 0x8f1bbcdc else 0xca62c1d6.

Definition Ch (x y z : Z) : Z := Z.lxor (Z.land x y) (Z.land (Z.lnot x) z).
Definition Parity (x y z : Z) : Z := Z.lxor (Z.lxor x y) z.
Definition Maj (x y z : Z) : Z := Z.lxor (Z.lxor (Z.land x y) (Z.land x z)) (Z.land y z).

Definition F (t : nat) (x y z : Z) : Z :=
  if (t <? 20)%nat then Ch x y z else if (t <? 40)%nat then Parity x y z
  else if (t <? 60)%nat then Maj x y z else Parity x y z.

(** The words of a block, most significant byte first. *)
Fixpoint be_words (b : list Z) : list Z :=
  match b with
  | b0 :: b1 :: b2 :: b3 :: r =>
      (b0 * 2 ^ 24 + b1 * 2 ^ 16 + b2 * 2 ^ 8 + b3) :: be_words r
  | _ => []
  end.

Fixpoint be_bytes (w : list Z) : list Z :=
  match w with
  | [] => []
  | x :: r => [x / 2 ^ 24 mod 256; x / 2 ^ 16 mod 256; x / 2 ^ 8 mod 256; x mod 256] ++ be_bytes r
  end.

(** The message schedule: [n] more words, each from those 3, 8, 14 and 16
    before it. *)
Fixpoint schedule (n : nat) (W : list Z) : list Z :=
  match n with
  | O => W
  | S n =>
      let t := length W in
      schedule n (W ++ [rol32 (Z.lxor (Z.lxor (Z.lxor (word W (t - 3)) (word W (t - 8)))
                                              (word W (t - 14))) (word W (t - 16))) 1])
  end.

Definition fips_round (W : list Z) (r : regs) (t : nat) : regs :=
  let '(mkRegs a b c d e) := r in
  mkRegs ((rol32 a 5 + F t b c d + e + K t + word W t) mod 2 ^ 32) a (rol32 b 30) c d.

Definition compress (H : list Z) (block : list Z) : list Z :=
  let W := schedule 64 (be_words block) in
  let r := foldl (fips_round W)
             (mkRegs (word H 0) (word H 1) (word H 2) (word H 3) (word H 4)) (seq 0 80) in
  [(word H 0 + ra r) mod 2 ^ 32; (word H 1 + rb r) mod 2 ^ 32; (word H 2 + rc r) mod 2 ^ 32;
   (word H 3 + rd r) mod 2 ^ 32; (word H 4 + re r) mod 2 ^ 32].

Definition H0 : list Z := [0x67452301; 0xefcdab89; 0x98badcfe; 0x10325476; 0xc3d2e1f0].

(** The [i]-th block of 64 bytes, and the chaining value after [n] blocks. *)
Definition block (m : list Z) (i : nat) : list Z := take 64 (drop (64 * i) m).
Definition chain (m : list Z) (n : nat) : list Z :=
  foldl (fun H i => compress H (block m i)) H0 (seq 0 n).

(** The padding: a 1 bit, zeros up to 8 bytes before the end of a block, and
    the length of the message in bits as 64 bits. *)
Definition len64 (n : Z) : list Z :=
  (fun k => n / 2 ^ (8 * k) mod 256) <$> [7; 6; 5; 4; 3; 2; 1; 0].
Definition padding (n : nat) : list Z :=
  0x80 :: replicate (Z.to_nat ((55 - Z.of_nat n) mod 64)) 0 ++ len64 (8 * Z.of_nat n).

Definition sha1_spec (m : list Z) : list Z :=
  let p := m ++ padding (length m) in be_bytes (chain p (length p / 64)).

(** HMAC (RFC 2104) with 64-byte blocks. *)
Definition hmac_key (key : list Z) : list Z :=
  let k := if (64 <? length key)%nat then sha1_spec key else key in
  k ++ replicate (64 - length k) 0.
Definition hmac_spec (key text : list Z) : list Z :=
  let k := hmac_key key in
  sha1_spec ((Z.lxor 0x5c <$> k) ++ sha1_spec ((Z.lxor 0x36 <$> k) ++ text)).

(** ** The rounds *)

Lemma Ch_code b c d : Z.lxor d (Z.land b (Z.lxor c d)) = Ch b c d.
Proof.
  unfold Ch. apply Z.bits_inj'. intros n Hn.
  rewrite !Z.lxor_spec, !Z.land_spec, !Z.lxor_spec, Z.lnot_spec by done.
  by destruct (Z.testbit b n), (Z.testbit c n), (Z.testbit d n).
Qed.

Lemma Maj_code b c d : Z.lor (Z.land b c) (Z.land d (Z.lor b c)) = Maj b c d.
Proof.
  unfold Maj. apply Z.bits_inj'. intros n Hn.
  rewrite !Z.lxor_spec, !Z.lor_spec, !Z.land_spec, !Z.lor_spec.
  by destruct (Z.testbit b n), (Z.testbit c n), (Z.testbit d n).
Qed.

(** The sums of the code wrap at every step, those of the standard once. *)
Lemma wrap_sum f k a5 e w :
  u32 (u32 (f + k) + u32 (u32 (a5 + e) + w)) = (a5 + f + e + k + w) mod 2 ^ 32.
Proof.
  unfold u32, uwrap. rewrite <- Zplus_mod.
  replace (f + k + ((a5 + e) mod 2 ^ 32 + w)) with ((a5 + e) mod 2 ^ 32 + (f + k + w)) by lia.
  rewrite Z.add_mod_idemp_l by done. f_equal. lia.
Qed.

Lemma hash_round_regs W w r i :
  word (snd (hash_round (r, w) i)) (i mod 16) = word W i ->
  fst (hash_round (r, w) i) = fips_round W r i.
Proof.
  destruct r as [a b c d e]. unfold hash_round, fips_round, F, K. cbn [fst snd].
  intros ->. destruct (i <? 20)%nat; [|destruct (i <? 40)%nat; [|destruct (i <? 60)%nat]];
    rewrite wrap_sum, ?Ch_code, ?Maj_code; done.
Qed.

(** ** The schedule *)

Lemma schedule_prefix n : forall W t, (t < length W)%nat -> word (schedule n W) t = word W t.
Proof.
  induction n as [|n IH]; intros W t Ht; [done|]. cbn [schedule].
  rewrite IH by (rewrite length_app; lia). unfold word. by rewrite app_nth1 by done.
Qed.

Lemma schedule_step n : forall W t,
  (16 <= length W <= t)%nat -> (t < length W + n)%nat ->
  word (schedule n W) t =
  rol32 (Z.lxor (Z.lxor (Z.lxor (word (schedule n W) (t - 3)) (word (schedule n W) (t - 8)))
                        (word (schedule n W) (t - 14))) (word (schedule n W) (t - 16))) 1.
Proof.
  induction n as [|n IH]; intros W t Ht Hn; [lia|]. cbn [schedule].
  destruct (decide (t = length W)) as [->|N].
  - rewrite !schedule_prefix by (rewrite length_app; simpl; lia).
    unfold word at 1. rewrite app_nth2, Nat.sub_diag by lia. cbn [nth].
    unfold word. rewrite !app_nth1 by lia. done.
  - apply IH; rewrite length_app; simpl; lia.
Qed.

(** The circular buffer holds the last 16 words of the schedule. *)
Definition window (W w : list Z) (i : nat) : Prop :=
  length w = 16%nat /\
  forall t, (i - 16 <= t)%nat -> (t < Nat.max i 16)%nat -> word w (t mod 16) = word W t.

Lemma word_insert_eq w i x : (i < length w)%nat -> word (<[i := x]> w) i = x.
Proof. intros H. unfold word. apply nth_lookup_Some. by apply list_lookup_insert_eq. Qed.

Lemma word_insert_ne w i j x : i <> j -> word (<[i := x]> w) j = word w j.
Proof. intros H. unfold word. by rewrite !nth_lookup, list_lookup_insert_ne. Qed.

Lemma mod16_ne i t : (t < i < t + 16)%nat -> (i mod 16 <> t mod 16)%nat.
Proof.
  intros H E. pose proof (Nat.div_mod i 16). pose proof (Nat.div_mod t 16).
  assert (i - t = 16 * (i / 16 - t / 16))%nat by lia. lia.
Qed.

(** The recurrence of the schedule. *)
Definition recurrence (W : list Z) : Prop :=
  forall t, (16 <= t < 80)%nat ->
  word W t = rol32 (Z.lxor (Z.lxor (Z.lxor (word W (t - 3)) (word W (t - 8)))
                                   (word W (t - 14))) (word W (t - 16))) 1.

Lemma schedule_recurrence ws : length ws = 16%nat -> recurrence (schedule 64 ws).
Proof. intros Hl t Ht. apply schedule_step; lia. Qed.

Lemma hash_round_window W w r i :
  recurrence W -> (i < 80)%nat -> window W w i ->
  let w' := snd (hash_round (r, w) i) in
  window W w' (S i) /\ word w' (i mod 16) = word W i.
Proof.
  intros HW Hi [Hl Hw]. destruct r as [a b c d e]. unfold hash_round. cbn [snd].
  destruct (Nat.leb_spec 16 i) as [G|G].
  - assert (Hm : (i mod 16 < 16)%nat) by (apply Nat.mod_upper_bound; lia).
    assert (E13 : ((i + 13) mod 16 = (i - 3) mod 16)%nat)
      by (replace (i + 13)%nat with (i - 3 + 1 * 16)%nat by lia; apply Nat.Div0.mod_add).
    assert (E8 : ((i + 8) mod 16 = (i - 8) mod 16)%nat)
      by (replace (i + 8)%nat with (i - 8 + 1 * 16)%nat by lia; apply Nat.Div0.mod_add).
    assert (E2 : ((i + 2) mod 16 = (i - 14) mod 16)%nat)
      by (replace (i + 2)%nat with (i - 14 + 1 * 16)%nat by lia; apply Nat.Div0.mod_add).
    assert (E0 : (i mod 16 = (i - 16) mod 16)%nat)
      by (replace i with (i - 16 + 1 * 16)%nat at 1 by lia; apply Nat.Div0.mod_add).
    assert (E0' : word w (i mod 16) = word W (i - 16)) by (rewrite E0; apply Hw; lia).
    rewrite E13, E8, E2, E0', !Hw by lia.
    rewrite <- HW by lia.
    assert (Hnew : word (<[(i mod 16)%nat := word W i]> w) (i mod 16) = word W i)
      by (apply word_insert_eq; lia).
    split; [|exact Hnew]. split; [by rewrite length_insert|].
    intros t H1 H2. destruct (decide (t = i)) as [->|N]; [exact Hnew|].
    rewrite word_insert_ne by (apply mod16_ne; lia). apply Hw; lia.
  - split; [|apply Hw; lia]. split; [exact Hl|]. intros t H1 H2. apply Hw; lia.
Qed.

Lemma hash_rounds ws r n :
  length ws = 16%nat -> (n <= 80)%nat ->
  fst (foldl hash_round (r, ws) (seq 0 n)) = foldl (fips_round (schedule 64 ws)) r (seq 0 n) /\
  window (schedule 64 ws) (snd (foldl hash_round (r, ws) (seq 0 n))) n.
Proof.
  intros Hws. pose proof (schedule_recurrence ws Hws) as HW.
  assert (Hp : forall t, (t < 16)%nat -> word (schedule 64 ws) t = word ws t)
    by (intros t Ht; apply schedule_prefix; lia).
  revert HW Hp. generalize (schedule 64 ws). intros W HW Hp. induction n as [|n IH]; intros Hn.
  - split; [done|]. split; [exact Hws|]. intros t _ Ht. cbn [seq foldl snd].
    rewrite Nat.mod_small by lia. symmetry. apply Hp. lia.
  - destruct (IH ltac:(lia)) as [H1 H2]. rewrite seq_S, !foldl_app. cbn [foldl Nat.add].
    destruct (foldl hash_round (r, ws) (seq 0 n)) as [r' w']. cbn [fst snd] in H1, H2.
    destruct (hash_round_window W w' r' n HW ltac:(lia) H2) as [H3 H4].
    rewrite <- H1. split; [by apply hash_round_regs|exact H3].
Qed.

(** [hashBlock] compresses the block in the buffer into the state. *)
Lemma hashBlock_state s b :
  le_words (sha1_buffer s) = be_words b -> length (be_words b) = 16%nat ->
  sha1_state (hashBlock s) = compress (sha1_state s) b.
Proof.
  intros Hb Hl. unfold hashBlock, compress, hash_loop. cbn [sha1_state]. rewrite Hb.
  destruct (hash_rounds (be_words b) (mkRegs (word (sha1_state s) 0) (word (sha1_state s) 1)
    (word (sha1_state s) 2) (word (sha1_state s) 3) (word (sha1_state s) 4)) 80 Hl ltac:(lia))
    as [H1 _].
  rewrite H1. reflexivity.
Qed.

(** ** Filling the buffer *)

(** The byte of the little-endian buffer where the [k]-th byte of a
    big-endian block goes: [k ^ 3]. *)
Definition slot (k : nat) : nat := (4 * (k / 4) + (3 - k mod 4))%nat.

Lemma slot_lxor k : (k < 64)%nat -> Z.to_nat (Z.lxor (Z.of_nat k) 3) = slot k.
Proof.
  intros Hk. assert (H : forallb (fun k => Z.to_nat (Z.lxor (Z.of_nat k) 3) =? slot k)%nat (seq 0 64) = true)
    by (by vm_compute).
  rewrite forallb_forall in H. apply Nat.eqb_eq, H, in_seq. lia.
Qed.

Lemma slot_slot k : (k < 64)%nat -> slot (slot k) = k /\ (slot k < 64)%nat.
Proof.
  intros Hk. assert (H : forallb (fun k => (slot (slot k) =? k) && (slot k <? 64))%nat (seq 0 64) = true)
    by (by vm_compute).
  rewrite forallb_forall in H. specialize (H k ltac:(apply in_seq; lia)).
  apply andb_true_iff in H as [H1%Nat.eqb_eq H2%Nat.ltb_lt]. done.
Qed.

(** The buffer that holds the block [l]. *)
Fixpoint swap4 (l : list Z) : list Z :=
  match l with
  | a :: b :: c :: d :: r => d :: c :: b :: a :: swap4 r
  | _ => []
  end.

(** Induction over groups of four bytes. *)
Lemma groups_ind (P : list Z -> Prop) :
  P [] -> (forall a b c d r, P r -> P (a :: b :: c :: d :: r)) ->
  forall n l, length l = (4 * n)%nat -> P l.
Proof.
  intros H0 HS. induction n as [|n IH]; intros l Hl.
  - destruct l; [done|simpl in Hl; lia].
  - destruct l as [|a [|b [|c [|d r]]]]; simpl in Hl; try lia. apply HS, IH. lia.
Qed.

Lemma swap4_words n l : length l = (4 * n)%nat ->
  le_words (swap4 l) = be_words l /\ length (be_words l) = n /\ length (swap4 l) = length l.
Proof.
  revert l. induction n as [|n IH]; intros l Hl.
  - destruct l; [done|simpl in Hl; lia].
  - destruct l as [|a [|b [|c [|d r]]]]; simpl in Hl; try lia.
    destruct (IH r ltac:(lia)) as (H1 & H2 & H3).
    cbn [swap4 le_words be_words length]. rewrite H1, H2, H3. repeat split. f_equal. lia.
Qed.

Lemma swap4_lookup n : forall l k, length l = (4 * n)%nat -> (k < length l)%nat ->
  swap4 l !! slot k = l !! k.
Proof.
  induction n as [|n IH]; intros l k Hl Hk; [lia|].
  destruct l as [|a [|b [|c [|d r]]]]; simpl in Hl; try lia.
  destruct (decide (k < 4)%nat).
  - do 4 (destruct k as [|k]; [done|]). lia.
  - replace k with (4 + (k - 4))%nat by lia. set (k' := (k - 4)%nat).
    assert (E : slot (4 + k') = (4 + slot k')%nat).
    { unfold slot. replace (4 + k')%nat with (k' + 1 * 4)%nat by lia.
      rewrite Nat.div_add, Nat.Div0.mod_add by lia. lia. }
    rewrite E. cbn [swap4 Nat.add lookup list_lookup].
    apply (IH r k'); [lia|]. simpl in Hk. unfold k'. lia.
Qed.

Lemma buffer_of_block buf blk :
  length buf = 64%nat -> length blk = 64%nat ->
  (forall k, (k < 64)%nat -> buf !! slot k = blk !! k) -> buf = swap4 blk.
Proof.
  intros Hb Hk H. apply list_eq. intros j.
  destruct (decide (j < 64)%nat) as [L|L].
  - destruct (slot_slot j L) as [E1 E2]. rewrite <- E1.
    rewrite H by done. symmetry. apply (swap4_lookup 16); lia.
  - rewrite !lookup_ge_None_2; [done| |lia].
    destruct (swap4_words 16 blk ltac:(lia)) as (_ & _ & ->). lia.
Qed.

Lemma le_bytes_length w : length (le_bytes w) = (4 * length w)%nat.
Proof. induction w as [|x w IH]; [done|]. cbn [le_bytes length]. rewrite IH. lia. Qed.

Lemma hashBlock_buffer s b :
  le_words (sha1_buffer s) = be_words b -> length (be_words b) = 16%nat ->
  length (sha1_buffer (hashBlock s)) = 64%nat.
Proof.
  intros Hb Hl. unfold hashBlock, hash_loop. cbn [sha1_buffer]. rewrite Hb.
  destruct (hash_rounds (be_words b) (mkRegs (word (sha1_state s) 0) (word (sha1_state s) 1)
    (word (sha1_state s) 2) (word (sha1_state s) 3) (word (sha1_state s) 4)) 80 Hl ltac:(lia))
    as [_ [H _]].
  rewrite le_bytes_length, H. reflexivity.
Qed.

(** ** Chaining *)

Lemma block_app m x i : (64 * (i + 1) <= length m)%nat -> block (m ++ x) i = block m i.
Proof.
  intros H. unfold block. rewrite drop_app_le by lia. by rewrite take_app_le by (rewrite length_drop; lia).
Qed.

Lemma chain_app m x n : (64 * n <= length m)%nat -> chain (m ++ x) n = chain m n.
Proof.
  unfold chain. induction n as [|n IH]; intros H; [cbn [seq foldl]; reflexivity|].
  rewrite seq_S, !foldl_app. cbn [foldl Nat.add]. rewrite IH, block_app by lia. reflexivity.
Qed.

Lemma chain_S m n : chain m (S n) = compress (chain m n) (block m n).
Proof. unfold chain. rewrite seq_S, foldl_app. reflexivity. Qed.

Lemma hashBlock_keeps s :
  byteCount (hashBlock s) = byteCount s /\ keyBuffer (hashBlock s) = keyBuffer s /\
  innerHash (hashBlock s) = innerHash s.
Proof. repeat split. Qed.

#[local] Opaque compress chain hashBlock.

(** The state after the bytes [m], since [sha1_init]. *)
Record filled (m : list Z) (s : sha) : Prop := {
  fl_offset : bufferOffset s = Z.of_nat (length m mod 64);
  fl_state : sha1_state s = chain m (length m / 64);
  fl_length : length (sha1_buffer s) = 64%nat;
  fl_bytes : forall k, (k < length m mod 64)%nat ->
    sha1_buffer s !! slot k = m !! (64 * (length m / 64) + k)%nat
}.

Lemma div_mod_S n :
  ((n mod 64 < 63 /\ (n + 1) / 64 = n / 64 /\ (n + 1) mod 64 = n mod 64 + 1) \/
   (n mod 64 = 63 /\ (n + 1) / 64 = n / 64 + 1 /\ (n + 1) mod 64 = 0))%nat.
Proof.
  pose proof (Nat.div_mod n 64 ltac:(lia)) as E. pose proof (Nat.mod_upper_bound n 64 ltac:(lia)).
  destruct (decide (n mod 64 = 63)%nat) as [D|D]; [right|left].
  - split; [done|]. replace (n + 1)%nat with (0 + (n / 64 + 1) * 64)%nat by lia.
    rewrite Nat.div_add, Nat.Div0.mod_add by lia. done.
  - split; [lia|]. replace (n + 1)%nat with (n mod 64 + 1 + (n / 64) * 64)%nat by lia.
    rewrite Nat.div_add, Nat.Div0.mod_add by lia.
    rewrite Nat.div_small, Nat.mod_small by lia. lia.
Qed.

Lemma slot_inj j k : (j < 64)%nat -> (k < 64)%nat -> slot j = slot k -> j = k.
Proof.
  intros Hj Hk E. apply (f_equal slot) in E.
  rewrite (proj1 (slot_slot j Hj)), (proj1 (slot_slot k Hk)) in E. done.
Qed.

(** The buffer with one more byte. *)
Lemma fill_bytes m v s (b := <[slot (length m mod 64) := v]> (sha1_buffer s)) :
  filled m s -> length b = 64%nat /\
  forall k, (k < length m mod 64 + 1)%nat -> b !! slot k = (m ++ [v]) !! (64 * (length m / 64) + k)%nat.
Proof.
  intros [Ho Hst Hl Hb]. unfold b. split; [by rewrite length_insert|].
  assert (Hm : (length m mod 64 < 64)%nat) by (apply Nat.mod_upper_bound; lia).
  pose proof (Nat.div_mod (length m) 64 ltac:(lia)) as E.
  intros k Hk. destruct (decide (k = length m mod 64)%nat) as [->|N].
  - rewrite list_lookup_insert_eq by (rewrite Hl; by apply slot_slot).
    rewrite lookup_app_r by lia. rewrite <- E, Nat.sub_diag. done.
  - rewrite list_lookup_insert_ne by (intros Es; apply slot_inj in Es; lia).
    rewrite Hb by lia. rewrite lookup_app_l by lia. done.
Qed.

Lemma addUncounted_filled m v s : filled m s -> filled (m ++ [v]) (addUncounted v s).
Proof.
  intros Hf. pose proof (fill_bytes m v s Hf) as [Hbl Hbb]. destruct Hf as [Ho Hst Hl Hb].
  assert (Hm : (length m mod 64 < 64)%nat) by (apply Nat.mod_upper_bound; lia).
  pose proof (Nat.div_mod (length m) 64 ltac:(lia)) as E.
  unfold addUncounted. rewrite Ho, slot_lxor by done.
  set (b := <[slot (length m mod 64) := v]> (sha1_buffer s)) in *.
  assert (Hu : u8 (Z.of_nat (length m mod 64) + 1) = Z.of_nat (length m mod 64) + 1)
    by (apply uwrap_small; lia).
  cbn [bufferOffset]. rewrite Hu. unfold BLOCK_LENGTH.
  destruct (div_mod_S (length m)) as [(D1 & D2 & D3)|(D1 & D2 & D3)].
  - destruct (Z.eqb_spec (Z.of_nat (length m mod 64) + 1) 64); [lia|].
    split; cbn [bufferOffset sha1_state sha1_buffer]; rewrite ?length_app; cbn [length];
      rewrite ?D2, ?D3; [lia| |done|done].
    rewrite chain_app by lia. done.
  - destruct (Z.eqb_spec (Z.of_nat (length m mod 64) + 1) 64); [|lia].
    set (blk := block (m ++ [v]) (length m / 64)).
    assert (Hblk : length blk = 64%nat).
    { unfold blk, block. rewrite length_take, length_drop, length_app. cbn [length]. lia. }
    assert (Eb : b = swap4 blk).
    { apply buffer_of_block; [done|done|]. intros k Hk. rewrite Hbb by lia.
      unfold blk, block. rewrite lookup_take_lt by lia. by rewrite lookup_drop. }
    destruct (swap4_words 16 blk ltac:(lia)) as (W1 & W2 & _).
    set (s1 := mkSha (Z.of_nat (length m mod 64) + 1) (byteCount s) (keyBuffer s) (innerHash s) b
                 (sha1_state s)).
    assert (Hs1 : le_words (sha1_buffer s1) = be_words blk)
      by (unfold s1; cbn [sha1_buffer]; rewrite Eb; exact W1).
    pose proof (hashBlock_state s1 blk Hs1 W2) as Hh1.
    pose proof (hashBlock_buffer s1 blk Hs1 W2) as Hh2.
    change (sha1_state s1) with (sha1_state s) in Hh1.
    revert Hh1 Hh2. generalize (hashBlock s1). intros h Hh1 Hh2.
    split; cbn [bufferOffset sha1_state sha1_buffer]; rewrite ?length_app; cbn [length];
      rewrite ?D2, ?D3.
    + reflexivity.
    + rewrite Hh1, Hst, Nat.add_1_r, chain_S, chain_app by lia. reflexivity.
    + exact Hh2.
    + lia.
Qed.

(** ** What the other variables keep *)

Lemma addUncounted_keeps v s :
  byteCount (addUncounted v s) = byteCount s /\ keyBuffer (addUncounted v s) = keyBuffer s /\
  innerHash (addUncounted v s) = innerHash s.
Proof.
  unfold addUncounted. set (s1 := mkSha _ _ _ _ _ _).
  destruct (bufferOffset s1 =? BLOCK_LENGTH); [|done].
  destruct (hashBlock_keeps s1) as (H1 & H2 & H3).
  revert H1 H2 H3. generalize (hashBlock s1). intros h H1 H2 H3. done.
Qed.

(** ** Padding *)

(** The state after [m], with the variables the padding does not touch. *)
Definition fed (m : list Z) (c : Z) (key inner : list Z) (s : sha) : Prop :=
  filled m s /\ byteCount s = c /\ keyBuffer s = key /\ innerHash s = inner.

Lemma fed_add m c key inner v s :
  fed m c key inner s -> fed (m ++ [v]) c key inner (addUncounted v s).
Proof.
  intros (H1 & H2 & H3 & H4). destruct (addUncounted_keeps v s) as (K1 & K2 & K3).
  split; [by apply addUncounted_filled|]. rewrite K1, K2, K3. done.
Qed.

Lemma pad_zeros_fed key inner c fuel : forall m s z,
  fed m c key inner s -> (z < fuel)%nat -> ((length m + z) mod 64 = 56)%nat -> (z < 64)%nat ->
  exists s', pad_zeros fuel s = Ok s' /\ fed (m ++ replicate z 0) c key inner s'.
Proof.
  induction fuel as [|f IH]; intros m s z Hf Hz Hm H64; [lia|]. cbn [pad_zeros].
  pose proof Hf as ([Ho _ _ _] & _). rewrite Ho.
  destruct (Z.eqb_spec (Z.of_nat (length m mod 64)) 56) as [E|E].
  - assert (z = 0%nat) as ->.
    { assert (E' : (length m mod 64 = 56)%nat) by lia.
      rewrite Nat.Div0.add_mod, E' in Hm. rewrite (Nat.mod_small z) in Hm by lia.
      destruct (decide (z < 8)%nat).
      - rewrite Nat.mod_small in Hm by lia. lia.
      - replace (56 + z)%nat with (z - 8 + 1 * 64)%nat in Hm by lia.
        rewrite Nat.Div0.mod_add, Nat.mod_small in Hm by lia. lia. }
    exists s. split; [done|]. cbn. by rewrite app_nil_r.
  - destruct z as [|z].
    { rewrite Nat.add_0_r in Hm. lia. }
    destruct (IH (m ++ [0]) (addUncounted 0 s) z) as (s' & H1 & H2).
    + by apply fed_add.
    + lia.
    + rewrite length_app. cbn [length]. by replace (length m + 1 + z)%nat with (length m + S z)%nat by lia.
    + lia.
    + exists s'. split; [done|]. cbn [replicate]. by rewrite <- app_assoc in H2.
Qed.

Lemma len64_count c : 0 <= c < 2 ^ 32 ->
  len64 (8 * c) = [0; 0; 0; u8 (Z.shiftr c 29); u8 (Z.shiftr c 21); u8 (Z.shiftr c 13);
                   u8 (Z.shiftr c 5); u8 (Z.shiftl c 3)].
Proof.
  intros Hc. unfold len64, u8, uwrap. rewrite !Z.shiftr_div_pow2, Z.shiftl_mul_pow2 by lia.
  cbn [fmap list_fmap].
  repeat match goal with |- _ :: _ = _ :: _ => apply (f_equal2 cons) end; [..|done].
  - rewrite Z.div_small; [done|]. lia.
  - rewrite Z.div_small; [done|]. lia.
  - rewrite Z.div_small; [done|]. lia.
  - replace (2 ^ (8 * 4)) with (8 * 2 ^ 29) by done. by rewrite Z.div_mul_cancel_l by done.
  - replace (2 ^ (8 * 3)) with (8 * 2 ^ 21) by done. by rewrite Z.div_mul_cancel_l by done.
  - replace (2 ^ (8 * 2)) with (8 * 2 ^ 13) by done. by rewrite Z.div_mul_cancel_l by done.
  - replace (2 ^ (8 * 1)) with (8 * 2 ^ 5) by done. by rewrite Z.div_mul_cancel_l by done.
  - change (2 ^ (8 * 0)) with 1. rewrite Z.div_1_r. f_equal. lia.
Qed.

Lemma pad_fed m key inner s :
  Z.of_nat (length m) < 2 ^ 32 -> fed m (Z.of_nat (length m)) key inner s ->
  exists s', pad s = Ok s' /\
    fed (m ++ padding (length m)) (Z.of_nat (length m)) key inner s'.
Proof.
  intros Hlen Hf. unfold pad.
  set (z := Z.to_nat ((55 - Z.of_nat (length m)) mod 64)).
  assert (Hz : 0 <= (55 - Z.of_nat (length m)) mod 64 < 64) by (apply Z.mod_pos_bound; lia).
  destruct (pad_zeros_fed key inner (Z.of_nat (length m)) 64 (m ++ [0x80]) (addUncounted 0x80 s) z)
    as (s1 & E1 & F1); [by apply fed_add|lia| |lia|].
  { apply Nat2Z.inj. rewrite length_app, Nat2Z.inj_mod, !Nat2Z.inj_add. cbn [length].
    unfold z. rewrite Z2Nat.id by lia.
    rewrite Z.add_mod_idemp_r by lia.
    replace (Z.of_nat (length m) + Z.of_nat 1 + (55 - Z.of_nat (length m))) with 56 by lia. done. }
  rewrite E1, bind_ret_l. eexists. split; [reflexivity|].
  assert (Ep : m ++ padding (length m) =
    ((((((((((m ++ [0x80]) ++ replicate z 0) ++ [0]) ++ [0]) ++ [0])
      ++ [u8 (Z.shiftr (Z.of_nat (length m)) 29)]) ++ [u8 (Z.shiftr (Z.of_nat (length m)) 21)])
      ++ [u8 (Z.shiftr (Z.of_nat (length m)) 13)]) ++ [u8 (Z.shiftr (Z.of_nat (length m)) 5)])
      ++ [u8 (Z.shiftl (Z.of_nat (length m)) 3)])).
  { unfold padding. fold z. rewrite len64_count by lia. by rewrite <- !app_assoc. }
  rewrite Ep. cbv zeta.
  assert (Kc : forall v s, byteCount (addUncounted v s) = byteCount s)
    by (intros; apply addUncounted_keeps).
  rewrite !Kc. pose proof F1 as (_ & -> & _). do 8 apply fed_add. exact F1.
Qed.

(** ** The result *)

Lemma testbit_byte_mask k n : 0 <= k -> 0 <= n ->
  Z.testbit (Z.shiftl 255 k) n = (k <=? n) && (n <? k + 8).
Proof.
  intros Hk Hn. change 255 with (Z.ones 8). rewrite Z.shiftl_spec by done.
  destruct (Z.leb_spec k n); cbn [andb].
  - rewrite Z.testbit_ones by lia. destruct (Z.leb_spec 0 (n - k)); [|lia].
    destruct (Z.ltb_spec (n - k) 8), (Z.ltb_spec n (k + 8)); try lia; done.
  - apply Z.testbit_neg_r. lia.
Qed.

(** Bit [n] of the swapped word. *)
Lemma swap32_bit x n :
  0 <= x < 2 ^ 32 -> 0 <= n < 32 ->
  Z.testbit (swap32 x) n = Z.testbit x (8 * (3 - n / 8) + n mod 8).
Proof.
  intros Hx Hn. unfold swap32, u32, uwrap.
  change 0x00ff0000 with (Z.shiftl 255 16). change 0x0000ff00 with (Z.shiftl 255 8).
  rewrite !Z.lor_spec, !Z.land_spec, !testbit_byte_mask, !Z.mod_pow2_bits_low, !Z.shiftl_spec,
    !Z.shiftr_spec by lia.
  assert (Hhigh : forall k, 32 <= k -> Z.testbit x k = false).
  { intros k Hk. destruct (Z.eq_dec x 0) as [->|Nx]; [apply Z.testbit_0_l|].
    apply Z.bits_above_log2; [lia|]. apply Z.lt_le_trans with 32; [|lia].
    apply Z.log2_lt_pow2; lia. }
  assert (Hd : n = 8 * (n / 8) + n mod 8) by (apply Z.div_mod; lia).
  assert (Hm : 0 <= n mod 8 < 8) by (apply Z.mod_pos_bound; lia).
  assert (Hq : n / 8 = 0 \/ n / 8 = 1 \/ n / 8 = 2 \/ n / 8 = 3) by lia.
  destruct Hq as [Q|[Q|[Q|Q]]]; rewrite Q in *;
    destruct (Z.leb_spec 16 n), (Z.ltb_spec n (16 + 8)), (Z.leb_spec 8 n), (Z.ltb_spec n (8 + 8));
    try lia; cbn [andb]; rewrite ?andb_true_r, ?andb_false_r, ?orb_false_r, ?orb_false_l.
  - rewrite Z.testbit_neg_r by lia. cbn. f_equal. lia.
  - rewrite Z.testbit_neg_r, (Hhigh (n + 24)), orb_false_r by lia. cbn. f_equal. lia.
  - rewrite Z.testbit_neg_r, (Hhigh (n + 24)), orb_false_r by lia. cbn. f_equal. lia.
  - rewrite (Hhigh (n + 24)), orb_false_r by lia. f_equal. lia.
Qed.

(** Byte [k] of the swapped word is byte [3 - k] of the word. *)
Lemma swap32_byte x k :
  0 <= x < 2 ^ 32 -> 0 <= k < 4 ->
  Z.land (Z.shiftr (swap32 x) (8 * k)) 255 = x / 2 ^ (8 * (3 - k)) mod 256.
Proof.
  intros Hx Hk. change 255 with (Z.ones 8). change 256 with (2 ^ 8).
  rewrite Z.land_ones, <- Z.shiftr_div_pow2 by lia.
  apply Z.bits_inj'. intros n Hn.
  destruct (Z.lt_ge_cases n 8) as [L|L]; [|by rewrite !Z.mod_pow2_bits_high by lia].
  rewrite !Z.mod_pow2_bits_low, !Z.shiftr_spec, swap32_bit by lia. f_equal.
  replace (n + 8 * k) with (n + k * 8) by lia.
  rewrite Z.div_add, Z.mod_add, Z.div_small, Z.mod_small by lia. lia.
Qed.

Lemma swapped_bytes st :
  Forall (fun x => 0 <= x < 2 ^ 32) st -> le_bytes (swap32 <$> st) = be_bytes st.
Proof.
  induction 1 as [|x st Hx _ IH]; [done|].
  pose proof (swap32_byte x 0 Hx ltac:(lia)) as B0. pose proof (swap32_byte x 1 Hx ltac:(lia)) as B1.
  pose proof (swap32_byte x 2 Hx ltac:(lia)) as B2. pose proof (swap32_byte x 3 Hx ltac:(lia)) as B3.
  cbn [fmap list_fmap le_bytes be_bytes app]. change (list_fmap _ _ swap32 st) with (swap32 <$> st).
  rewrite IH. change (8 * 0) with 0 in B0. rewrite Z.shiftr_0_r in B0. rewrite B0.
  change (8 * 1) with 8 in B1. rewrite B1. change (8 * 2) with 16 in B2. rewrite B2.
  change (8 * 3) with 24 in B3. rewrite B3. change (2 ^ (8 * (3 - 3))) with 1. by rewrite Z.div_1_r.
Qed.

Lemma chain_range m n : Forall (fun x => 0 <= x < 2 ^ 32) (chain m n).
Proof.
  destruct n as [|n].
  - with_strategy transparent [chain] unfold chain. cbn [seq foldl]. repeat constructor; done.
  - rewrite chain_S. with_strategy transparent [compress] unfold compress.
    repeat constructor; apply Z.mod_pos_bound; done.
Qed.

Lemma be_bytes_length w : length (be_bytes w) = (4 * length w)%nat.
Proof. induction w as [|x w IH]; [done|]. cbn [be_bytes length app]. rewrite IH. lia. Qed.

Lemma sha1_spec_length m : length (sha1_spec m) = 20%nat.
Proof.
  unfold sha1_spec. rewrite be_bytes_length.
  assert (H : forall p n, length (chain p n) = 5%nat).
  { intros p [|n]; [by with_strategy transparent [chain] unfold chain|].
    rewrite chain_S. by with_strategy transparent [compress] unfold compress. }
  rewrite H. done.
Qed.

Lemma sha1_result_fed m key inner s :
  Z.of_nat (length m) < 2 ^ 32 -> fed m (Z.of_nat (length m)) key inner s ->
  exists s', sha1_result s = Ok (sha1_spec m, s') /\ keyBuffer s' = key /\ innerHash s' = inner /\
    length (sha1_buffer s') = 64%nat.
Proof.
  intros Hlen Hf. destruct (pad_fed m key inner s Hlen Hf) as (s1 & E & [_ Hst Hl _] & _ & Hk & Hi).
  unfold sha1_result. rewrite E, bind_ret_l. cbv zeta.
  assert (Eb : le_bytes (swap32 <$> sha1_state s1) = sha1_spec m)
    by (rewrite Hst, swapped_bytes by apply chain_range; reflexivity).
  rewrite Eb. eexists. split; [reflexivity|]. done.
Qed.

(** ** Initialising and writing *)

Lemma sha1_init_fed s : length (sha1_buffer s) = 64%nat ->
  fed [] 0 (keyBuffer s) (innerHash s) (sha1_init s).
Proof.
  intros H. split; [|done]. split; [done| |done|cbn; lia].
  with_strategy transparent [chain] unfold chain. done.
Qed.

Lemma sha1_write_fed m key inner v s :
  Z.of_nat (length m) + 1 < 2 ^ 32 -> fed m (Z.of_nat (length m)) key inner s ->
  fed (m ++ [v]) (Z.of_nat (length (m ++ [v]))) key inner (sha1_write v s).
Proof.
  intros Hlen ([Ho Hst Hl Hb] & Hc & Hk & Hi). unfold sha1_write. apply fed_add.
  split; [by split|]. cbn. rewrite length_app. cbn [length]. split; [|done].
  rewrite Hc. unfold u32. rewrite uwrap_small by lia. lia.
Qed.

Lemma sha1_writeArray_fed key inner b : forall m s,
  Z.of_nat (length m + length b) < 2 ^ 32 -> fed m (Z.of_nat (length m)) key inner s ->
  fed (m ++ b) (Z.of_nat (length (m ++ b))) key inner (sha1_writeArray b s).
Proof.
  induction b as [|v b IH]; intros m s Hlen Hf; [by rewrite app_nil_r|].
  cbn [length] in Hlen. change (sha1_writeArray (v :: b) s) with (sha1_writeArray b (sha1_write v s)).
  replace (m ++ v :: b) with ((m ++ [v]) ++ b) by by rewrite <- app_assoc.
  apply IH; [rewrite length_app; cbn [length]; lia|]. apply sha1_write_fed; [lia|done].
Qed.

Lemma sha1_of_message m s :
  length (sha1_buffer s) = 64%nat -> Z.of_nat (length m) < 2 ^ 32 ->
  exists s', sha1_result (sha1_writeArray m (sha1_init s)) = Ok (sha1_spec m, s') /\
    keyBuffer s' = keyBuffer s /\ innerHash s' = innerHash s /\ length (sha1_buffer s') = 64%nat.
Proof.
  intros Hl Hm. apply (sha1_result_fed m); [done|].
  apply (sha1_writeArray_fed _ _ m [] _ Hm). by apply sha1_init_fed.
Qed.

(** C10: the module's SHA-1 is SHA-1: after [sha1_init], the bytes of any
    message of less than 2^32 bytes written one after another, and
    [sha1_result], the 20 bytes returned are the digest FIPS 180 defines. *)
Theorem sha1_correct (m : list Z) (s : sha) :
  length (sha1_buffer s) = 64%nat -> Z.of_nat (length m) < 2 ^ 32 ->
  exists s', sha1_result (sha1_writeArray m (sha1_init s)) = Ok (sha1_spec m, s').
Proof. intros Hl Hm. destruct (sha1_of_message m s Hl Hm) as (s' & E & _). by exists s'. Qed.

Lemma sha1_correct_witness :
  exists s', sha1_result (sha1_writeArray [97; 98; 99] (sha1_init sha_zero)) =
             Ok (sha1_spec [97; 98; 99], s').
Proof. apply (sha1_correct [97; 98; 99] sha_zero); done. Defined.

(** ** HMAC *)

Lemma sha1_write_keeps v s :
  keyBuffer (sha1_write v s) = keyBuffer s /\ innerHash (sha1_write v s) = innerHash s.
Proof. unfold sha1_write. split; etrans; try apply addUncounted_keeps; done. Qed.

(** Writing an array read back from the state while it is written. *)
Lemma write_loop (get : sha -> list Z) (f : Z -> Z) n s :
  (forall v s, get (sha1_write v s) = get s) -> (n <= length (get s))%nat ->
  foldl (fun s i => sha1_write (f (nth i (get s) 0)) s) s (seq 0 n) =
  sha1_writeArray (f <$> take n (get s)) s.
Proof.
  intros Hk Hn.
  assert (G : foldl (fun s i => sha1_write (f (nth i (get s) 0)) s) s (seq 0 n) =
              sha1_writeArray (f <$> take n (get s)) s /\
              get (foldl (fun s i => sha1_write (f (nth i (get s) 0)) s) s (seq 0 n)) = get s).
  { induction n as [|n IH]; [done|]. destruct (IH ltac:(lia)) as [H1 H2].
    rewrite seq_S, !foldl_app. cbn [foldl Nat.add]. rewrite Hk, H2. split; [|done].
    rewrite H1.
    assert (E : take (S n) (get s) = take n (get s) ++ [nth n (get s) 0]).
    { apply take_S_r. rewrite nth_lookup. destruct (lookup_lt_is_Some_2 (get s) n ltac:(lia)) as [x ->].
      done. }
    rewrite E, fmap_app. unfold sha1_writeArray. by rewrite foldl_app. }
  apply G.
Qed.

Lemma lxor_pad (k : list Z) p : (fun v => Z.lxor v p) <$> k = Z.lxor p <$> k.
Proof. apply list_fmap_ext. intros i x _. apply Z.lxor_comm. Qed.

Lemma hmac_key_length key : length (hmac_key key) = 64%nat.
Proof.
  unfold hmac_key. rewrite length_app, length_replicate.
  destruct (Nat.ltb_spec 64 (length key)); rewrite ?sha1_spec_length; lia.
Qed.

Lemma copy_key k : (length k <= 64)%nat ->
  copy_front k (replicate 64 0) = k ++ replicate (64 - length k) 0.
Proof. intros H. unfold copy_front. by rewrite drop_replicate. Qed.

(** The key block is ready and the inner hash has the padded key. *)
Lemma sha1_initHmac_fed key s :
  length (sha1_buffer s) = 64%nat -> Z.of_nat (length key) < 2 ^ 32 ->
  exists s' inner, sha1_initHmac key s = Ok s' /\
    fed (Z.lxor HMAC_IPAD <$> hmac_key key) 64 (hmac_key key) inner s'.
Proof.
  intros Hl Hk. unfold sha1_initHmac. set (s0 := set_keyBuffer (replicate 64 0) s).
  assert (H : exists s1, (if BLOCK_LENGTH <? Z.of_nat (length key) then
         '(h, s) ← sha1_result (sha1_writeArray key (sha1_init s0));
         mret (set_keyBuffer (copy_front h (keyBuffer s)) s)
       else mret (set_keyBuffer (copy_front key (keyBuffer s0)) s0)) = Ok s1 /\
    keyBuffer s1 = hmac_key key /\ length (sha1_buffer s1) = 64%nat).
  { unfold hmac_key, BLOCK_LENGTH.
    destruct (Z.ltb_spec 64 (Z.of_nat (length key))), (Nat.ltb_spec 64 (length key)); try lia.
    - destruct (sha1_of_message key s0 Hl Hk) as (s1 & E & K1 & _ & L1).
      rewrite E, bind_ret_l. eexists. split; [reflexivity|]. split; [|done].
      cbn [keyBuffer set_keyBuffer]. rewrite K1. apply copy_key. rewrite sha1_spec_length. lia.
    - eexists. split; [reflexivity|]. split; [|done].
      cbn [keyBuffer set_keyBuffer s0]. apply copy_key. lia. }
  destruct H as (s1 & E & K1 & L1). rewrite E, bind_ret_l.
  exists (foldl (fun s i => sha1_write (Z.lxor (nth i (keyBuffer s) 0) HMAC_IPAD) s)
            (sha1_init s1) (seq 0 64)), (innerHash s1).
  split; [reflexivity|].
  rewrite (write_loop keyBuffer (fun v => Z.lxor v HMAC_IPAD)).
  - change (keyBuffer (sha1_init s1)) with (keyBuffer s1). rewrite K1, lxor_pad.
    rewrite take_ge by (rewrite hmac_key_length; lia).
    pose proof (sha1_writeArray_fed (keyBuffer s1) (innerHash s1) (Z.lxor HMAC_IPAD <$> hmac_key key)
                  [] (sha1_init s1)) as Hw.
    cbn [app length] in Hw. rewrite !length_fmap, hmac_key_length, K1 in Hw.
    apply Hw; [lia|]. rewrite <- K1. by apply sha1_init_fed.
  - intros v s2. apply sha1_write_keeps.
  - change (keyBuffer (sha1_init s1)) with (keyBuffer s1). rewrite K1, hmac_key_length. lia.
Qed.

Lemma hmac_of_text key text s :
  length (sha1_buffer s) = 64%nat -> Z.of_nat (length key) < 2 ^ 32 ->
  Z.of_nat (64 + length text) < 2 ^ 32 ->
  exists s1 s2, sha1_initHmac key s = Ok s1 /\
    sha1_resultHmac (sha1_writeArray text s1) = Ok (hmac_spec key text, s2) /\
    length (sha1_buffer s2) = 64%nat.
Proof.
  intros Hl Hk Ht. destruct (sha1_initHmac_fed key s Hl Hk) as (s1 & inner & E & Hf).
  exists s1. set (ik := Z.lxor HMAC_IPAD <$> hmac_key key) in *.
  assert (Hik : length ik = 64%nat) by (unfold ik; by rewrite length_fmap, hmac_key_length).
  assert (Hf' : fed ik (Z.of_nat (length ik)) (hmac_key key) inner s1) by by rewrite Hik.
  pose proof (sha1_writeArray_fed _ _ text ik s1 ltac:(rewrite Hik; lia) Hf') as Hw.
  destruct (sha1_result_fed (ik ++ text) _ _ _ ltac:(rewrite length_app, Hik; lia) Hw) as (s2 & E2 & K2 & I2 & L2).
  unfold sha1_resultHmac. rewrite E2, bind_ret_l. cbv zeta.
  set (h := sha1_spec (ik ++ text)) in *.
  assert (Lh : length h = 20%nat) by apply sha1_spec_length.
  set (s3 := set_innerHash (copy_front h (innerHash s2)) s2).
  set (ok := Z.lxor HMAC_OPAD <$> hmac_key key).
  rewrite (write_loop keyBuffer (fun v => Z.lxor v HMAC_OPAD));
    [|intros; apply sha1_write_keeps|
     change (keyBuffer (sha1_init s3)) with (keyBuffer s2); rewrite K2, hmac_key_length; lia].
  change (keyBuffer (sha1_init s3)) with (keyBuffer s2).
  rewrite K2, lxor_pad, (take_ge (hmac_key key)) by (rewrite hmac_key_length; lia). fold ok.
  assert (Ki : forall b s, innerHash (sha1_writeArray b s) = innerHash s).
  { intros b. induction b as [|v b IH]; intros s'; [done|].
    change (innerHash (sha1_writeArray b (sha1_write v s')) = innerHash s').
    rewrite IH. apply sha1_write_keeps. }
  rewrite (write_loop innerHash id); [|intros; apply sha1_write_keeps|].
  2: { rewrite Ki. change (innerHash (sha1_init s3)) with (h ++ drop (length h) (innerHash s2)).
       rewrite length_app. lia. }
  rewrite Ki, list_fmap_id. change (innerHash (sha1_init s3)) with (copy_front h (innerHash s2)).
  unfold copy_front. rewrite take_app_length' by done.
  assert (Lok : length ok = 64%nat) by (unfold ok; by rewrite length_fmap, hmac_key_length).
  assert (Ea : sha1_writeArray h (sha1_writeArray ok (sha1_init s3)) =
               sha1_writeArray (ok ++ h) (sha1_init s3))
    by (unfold sha1_writeArray; by rewrite foldl_app).
  rewrite Ea.
  destruct (sha1_of_message (ok ++ h) s3 L2) as (s4 & E4 & _ & _ & L4);
    [rewrite length_app; lia|].
  exists s4. split; [done|]. split; [exact E4|done].
Qed.

(** C11: the module's HMAC is HMAC-SHA-1: for a key of any 8-bit length,
    [sha1_initHmac], the bytes of the text and [sha1_resultHmac] give the code
    RFC 2104 defines, long keys being hashed first. *)
Theorem hmac_correct (key text : list Z) (s : sha) :
  length (sha1_buffer s) = 64%nat -> Z.of_nat (length key) < 256 ->
  Z.of_nat (length text) < 2 ^ 31 ->
  exists s1 s2, sha1_initHmac key s = Ok s1 /\
    sha1_resultHmac (sha1_writeArray text s1) = Ok (hmac_spec key text, s2).
Proof.
  intros Hl Hk Ht. destruct (hmac_of_text key text s Hl ltac:(lia) ltac:(lia)) as (s1 & s2 & H & H' & _).
  by exists s1, s2.
Qed.

Lemma hmac_correct_witness :
  exists s1 s2, sha1_initHmac (replicate 80 0xaa) sha_zero = Ok s1 /\
    sha1_resultHmac (sha1_writeArray [1; 2; 3] s1) = Ok (hmac_spec (replicate 80 0xaa) [1; 2; 3], s2).
Proof. apply (hmac_correct (replicate 80 0xaa) [1; 2; 3] sha_zero); done. Defined.
