(* ===== verification/Totp.v ===== *)
(** Time-based one-time passwords of the kernel module
    (src/client-module/kernel-module/totp.c): the code of a counter is the
    HOTP value of RFC 4226 with six digits. *)

From stdpp Require Import base list.
From Stdlib Require Import ZArith Lia.
From S2P Require Import Prelude Sha1 Sha1Props.

Local Open Scope Z_scope.

(** The static variables of totp.c, and those of sha1.c it uses. *)
Record totp : Type := mkTotp {
  _hmacKey : list Z;
  _timezone : Z;
  _timeStep : Z;
  hash : sha
}.

Definition totp_zero : totp := mkTotp [] 0 0 sha_zero.

(** [totp_init(hmacKey, keyLength, timeStep)]: the key is given by its
    [keyLength] bytes, so [_keyLength] is the length of [_hmacKey]. *)
Definition totp_init (hmacKey : list Z) (timeStep : Z) (t : totp) : totp :=
  mkTotp hmacKey (_timezone t) timeStep (hash t).

Definition totp_setTimezone (timezone : Z) (t : totp) : totp :=
  mkTotp (_hmacKey t) timezone (_timeStep t) (hash t).

(** [_byteArray]. *)
Definition counter_bytes (steps : Z) : list Z :=
  [0; 0; 0; 0; u8 (Z.land (Z.shiftr steps 24) 0xff); u8 (Z.land (Z.shiftr steps 16) 0xff);
   u8 (Z.land (Z.shiftr steps 8) 0xff); u8 (Z.land steps 0xff)].

(** The loop of STEP 2; an index outside the 20 bytes of the hash is
    undefined. *)
Fixpoint truncate (n : nat) (h : list Z) (i acc : Z) : res Z :=
  match n with
  | O => Ok acc
  | S n =>
      b ← deref (znth h i);
      truncate n h (i + 1) (Z.lor (u32 (Z.shiftl acc 8)) b)
  end.

Definition totp_getCodeFromSteps (steps : Z) (t : totp) : res (Z * totp) :=
  s ← sha1_initHmac (_hmacKey t) (hash t);
  let s := sha1_writeArray (counter_bytes steps) s in
  '(_hash, s) ← sha1_resultHmac s;
  last ← deref (znth _hash 19);
  let _offset := Z.land last 0xf in
  _truncatedHash ← truncate 4 _hash _offset 0;
  let _truncatedHash := Z.land _truncatedHash 0x7fffffff in
  mret (_truncatedHash mod 1000000, mkTotp (_hmacKey t) (_timezone t) (_timeStep t) s).

(** Division by a zero [_timeStep] is undefined. *)
Definition totp_getCodeFromTimestamp (timeStamp : Z) (t : totp) : res (Z * totp) :=
  _ ← (if _timeStep t =? 0 then Err Undefined else Ok tt);
  totp_getCodeFromSteps (u32 (timeStamp - 3600 * (_timezone t mod 2)) / _timeStep t) t.

(** The broken-down time. *)
Record tm : Type := mkTm {
  tm_year : Z; tm_mon : Z; tm_mday : Z; tm_hour : Z; tm_min : Z; tm_sec : Z
}.

Section Clock.
(** The kernel's [mktime(year, mon, day, hour, min, sec)]. *)
Context (mktime : Z -> Z -> Z -> Z -> Z -> Z -> Z).

(** The result is an [int32_t]. *)
Definition TimeStruct2Timestamp (time : tm) (t : totp) : Z :=
  swrap 32 (mktime (tm_year time + 1900) (tm_mon time + 1) (tm_mday time)
              (tm_hour time) (tm_min time) (tm_sec time)
            - _timezone t * 3600 - 2208988800).

Definition totp_getCodeFromTimeStruct (time : tm) (t : totp) : res (Z * totp) :=
  totp_getCodeFromTimestamp (u32 (TimeStruct2Timestamp time t)) t.
End Clock.

(** ** The standard *)

(** Dynamic truncation (RFC 4226, section 5.3). *)
Definition dynamic_truncation (h : list Z) : Z :=
  let o := Z.to_nat (nth 19 h 0 mod 16) in
  nth o h 0 mod 128 * 2 ^ 24 + nth (o + 1) h 0 * 2 ^ 16 + nth (o + 2) h 0 * 2 ^ 8
  + nth (o + 3) h 0.

(** The counter as 8 bytes, most significant first. *)
Definition counter64 (c : Z) : list Z :=
  (fun k => c / 2 ^ (8 * k) mod 256) <$> [7; 6; 5; 4; 3; 2; 1; 0].

Definition hotp (key : list Z) (c : Z) : Z :=
  dynamic_truncation (hmac_spec key (counter64 c)) mod 10 ^ 6.

(** ** Proofs *)

Lemma counter_bytes_64 c : 0 <= c < 2 ^ 32 -> counter_bytes c = counter64 c.
Proof.
  intros Hc. unfold counter_bytes, counter64, u8, uwrap.
  change 0xff with (Z.ones 8). rewrite !Z.land_ones by lia. rewrite !Z.shiftr_div_pow2 by lia.
  rewrite !Z.mod_mod by done. cbn [fmap list_fmap].
  repeat match goal with |- _ :: _ = _ :: _ => apply (f_equal2 cons) end; try done;
    try (rewrite Z.div_small; [done|lia]).
  change (2 ^ (8 * 0)) with 1. by rewrite Z.div_1_r.
Qed.

Definition is_byte (b : Z) : Prop := 0 <= b < 256.

Lemma be_bytes_range w : Forall is_byte (be_bytes w).
Proof.
  induction w as [|x w IH]; [constructor|]. cbn [be_bytes app].
  repeat (constructor; [apply Z.mod_pos_bound; done|]). done.
Qed.

Lemma hmac_spec_hash key text :
  length (hmac_spec key text) = 20%nat /\ Forall is_byte (hmac_spec key text).
Proof. split; [apply sha1_spec_length|apply be_bytes_range]. Qed.

(** Shifting a byte in. *)
Lemma lor_byte a b : is_byte b -> Z.lor (Z.shiftl a 8) b = a * 256 + b.
Proof.
  intros Hb. rewrite <- Z.lxor_lor, <- Z.add_nocarry_lxor.
  - by rewrite Z.shiftl_mul_pow2.
  - apply Z.bits_inj'. intros n Hn. rewrite Z.land_spec, Z.bits_0.
    destruct (Z.lt_ge_cases n 8) as [L|L].
    + by rewrite Z.shiftl_spec_low.
    + rewrite <- (Z.mod_small b (2 ^ 8)) by (unfold is_byte in Hb; lia).
      rewrite Z.mod_pow2_bits_high by lia. apply andb_false_r.
  - apply Z.bits_inj'. intros n Hn. rewrite Z.land_spec, Z.bits_0.
    destruct (Z.lt_ge_cases n 8) as [L|L].
    + by rewrite Z.shiftl_spec_low.
    + rewrite <- (Z.mod_small b (2 ^ 8)) by (unfold is_byte in Hb; lia).
      rewrite Z.mod_pow2_bits_high by lia. apply andb_false_r.
Qed.

Lemma truncate_step n h i acc b :
  znth h i = Some b -> is_byte b -> 0 <= acc < 2 ^ 24 ->
  truncate (S n) h i acc = truncate n h (i + 1) (acc * 256 + b).
Proof.
  intros Hi Hb Ha. cbn [truncate]. rewrite Hi. cbn [deref]. rewrite bind_ret_l.
  unfold u32. rewrite uwrap_small by (rewrite Z.shiftl_mul_pow2; lia). by rewrite lor_byte.
Qed.

Lemma znth_byte h i :
  Forall is_byte h -> 0 <= i < Z.of_nat (length h) ->
  znth h i = Some (nth (Z.to_nat i) h 0) /\ is_byte (nth (Z.to_nat i) h 0).
Proof.
  intros Hf Hi. unfold znth. destruct (Z.ltb_spec i 0); [lia|].
  destruct (lookup_lt_is_Some_2 h (Z.to_nat i) ltac:(lia)) as [x Hx].
  rewrite (nth_lookup_Some h (Z.to_nat i) 0 x Hx). split; [done|].
  exact (Forall_lookup_1 _ _ _ _ Hf Hx).
Qed.

(** The code's truncation is the standard's, and stays within the hash. *)
Lemma truncate_spec h o :
  length h = 20%nat -> Forall is_byte h -> nth 19 h 0 mod 16 = o ->
  exists v, truncate 4 h o 0 = Ok v /\ Z.land v 0x7fffffff = dynamic_truncation h.
Proof.
  intros Hl Hf Ho. pose proof (Z.mod_pos_bound (nth 19 h 0) 16 ltac:(lia)) as Hb.
  destruct (znth_byte h o Hf ltac:(lia)) as [Z0 B0].
  destruct (znth_byte h (o + 1) Hf ltac:(lia)) as [Z1 B1].
  destruct (znth_byte h (o + 1 + 1) Hf ltac:(lia)) as [Z2 B2].
  destruct (znth_byte h (o + 1 + 1 + 1) Hf ltac:(lia)) as [Z3 B3].
  unfold is_byte in *.
  rewrite (truncate_step _ _ _ _ _ Z0 B0) by lia.
  rewrite (truncate_step _ _ _ _ _ Z1 B1) by lia.
  rewrite (truncate_step _ _ _ _ _ Z2 B2) by lia.
  rewrite (truncate_step _ _ _ _ _ Z3 B3) by lia.
  eexists. split; [reflexivity|]. change 0x7fffffff with (Z.ones 31). rewrite Z.land_ones by lia.
  unfold dynamic_truncation. rewrite Ho.
  replace (Z.to_nat (o + 1 + 1 + 1)) with (Z.to_nat o + 3)%nat in * by lia.
  replace (Z.to_nat (o + 1 + 1)) with (Z.to_nat o + 2)%nat in * by lia.
  replace (Z.to_nat (o + 1)) with (Z.to_nat o + 1)%nat in * by lia.
  set (b0 := nth (Z.to_nat o) h 0) in *.
  pose proof (Z.div_mod b0 128 ltac:(lia)). pose proof (Z.mod_pos_bound b0 128 ltac:(lia)).
  symmetry. apply Z.mod_unique with (b0 / 128); lia.
Qed.

Lemma getCodeFromSteps_ok steps t :
  0 <= steps < 2 ^ 32 -> Z.of_nat (length (_hmacKey t)) < 2 ^ 32 ->
  length (sha1_buffer (hash t)) = 64%nat ->
  exists s, totp_getCodeFromSteps steps t =
            Ok (hotp (_hmacKey t) steps, mkTotp (_hmacKey t) (_timezone t) (_timeStep t) s) /\
            length (sha1_buffer s) = 64%nat.
Proof.
  intros Hs Hk Hb. unfold totp_getCodeFromSteps.
  destruct (hmac_of_text (_hmacKey t) (counter_bytes steps) (hash t) Hb Hk) as (s1 & s2 & E1 & E2 & L2);
    [cbn; lia|].
  rewrite E1, bind_ret_l. cbv zeta. rewrite E2, bind_ret_l. cbv beta iota.
  rewrite counter_bytes_64 by done.
  destruct (hmac_spec_hash (_hmacKey t) (counter64 steps)) as [Hl Hf].
  unfold hotp. set (h := hmac_spec (_hmacKey t) (counter64 steps)) in *.
  destruct (znth_byte h 19 Hf ltac:(lia)) as [-> _]. cbn [deref]. rewrite bind_ret_l.
  change 0xf with (Z.ones 4). rewrite Z.land_ones by lia.
  destruct (truncate_spec h (nth (Z.to_nat 19) h 0 mod 2 ^ 4) Hl Hf eq_refl) as (v & -> & Ev).
  rewrite bind_ret_l, Ev. by exists s2.
Qed.

(** C12: for every key of 8-bit length and every 32-bit number of steps,
    [totp_getCodeFromSteps] returns the six-digit HOTP value of RFC 4226; it
    never reads outside the hash, and the code is below one million. *)
Theorem totp_code_correct (steps : Z) (t : totp) :
  0 <= steps < 2 ^ 32 -> Z.of_nat (length (_hmacKey t)) < 256 ->
  length (sha1_buffer (hash t)) = 64%nat ->
  exists t', totp_getCodeFromSteps steps t = Ok (hotp (_hmacKey t) steps, t') /\
    0 <= hotp (_hmacKey t) steps < 1000000.
Proof.
  intros Hs Hk Hb. destruct (getCodeFromSteps_ok steps t Hs ltac:(lia) Hb) as (s & E & _).
  eexists. split; [exact E|]. apply Z.mod_pos_bound. done.
Qed.

(** The test key of RFC 4226, "12345678901234567890". *)
Definition rfc_key : list Z :=
  [49; 50; 51; 52; 53; 54; 55; 56; 57; 48; 49; 50; 51; 52; 53; 54; 55; 56; 57; 48].

Lemma totp_code_correct_witness :
  exists t', totp_getCodeFromSteps 9 (totp_init rfc_key 30 totp_zero) = Ok (520489, t').
Proof.
  destruct (totp_code_correct 9 (totp_init rfc_key 30 totp_zero)) as (t' & E & _); [lia|done|done|].
  exists t'. assert (Eh : hotp rfc_key 9 = 520489) by (vm_compute; reflexivity).
  cbn [_hmacKey totp_init] in E. rewrite Eh in E. exact E.
Defined.

(** C30: the code of a time stamp is the TOTP value of RFC 6238 for the time
    shifted by the time-zone correction, for every nonzero time step; with a
    zero step the division is undefined. *)
Theorem totp_timestamp_correct (timeStamp : Z) (t : totp) :
  0 <= _timeStep t < 2 ^ 32 -> Z.of_nat (length (_hmacKey t)) < 256 ->
  length (sha1_buffer (hash t)) = 64%nat ->
  (_timeStep t = 0 -> totp_getCodeFromTimestamp timeStamp t = Err Undefined) /\
  (_timeStep t <> 0 ->
   exists t', totp_getCodeFromTimestamp timeStamp t =
     Ok (hotp (_hmacKey t) ((timeStamp - 3600 * (_timezone t mod 2)) mod 2 ^ 32 / _timeStep t), t')).
Proof.
  intros Hst Hk Hb. unfold totp_getCodeFromTimestamp.
  destruct (Z.eqb_spec (_timeStep t) 0) as [E|E]; split; intros H; try done.
  rewrite bind_ret_l. unfold u32, uwrap.
  set (x := timeStamp - 3600 * (_timezone t mod 2)).
  pose proof (Z.mod_pos_bound x (2 ^ 32) ltac:(lia)) as Hx.
  destruct (getCodeFromSteps_ok (x mod 2 ^ 32 / _timeStep t) t) as (s & Es & _); [|lia|done|by eexists].
  split; [apply Z.div_pos; lia|]. apply Z.le_lt_trans with (x mod 2 ^ 32); [|lia].
  apply Z.div_le_upper_bound; [lia|]. nia.
Qed.

Lemma totp_timestamp_correct_witness :
  exists t', totp_getCodeFromTimestamp 59 (totp_init rfc_key 30 totp_zero) = Ok (287082, t').
Proof.
  destruct (totp_timestamp_correct 59 (totp_init rfc_key 30 totp_zero)) as [_ H];
    [cbn; lia|done|done|].
  destruct (H ltac:(done)) as (t' & E). exists t'.
  assert (Eh : hotp rfc_key ((59 - 3600 * (0 mod 2)) mod 2 ^ 32 / 30) = 287082)
    by (vm_compute; reflexivity).
  cbn [_hmacKey _timezone _timeStep totp_init totp_zero] in E. rewrite Eh in E. exact E.
Defined.
