(* ===== verification/Device.v ===== *)
(** The virtual device and the thread that collects context
    (src/client-module/kernel-module/mon_fs.c, mon_rs.c, mon_rs.h).  The
    kernel thread asks user space for one kind of context after another and
    waits on the shared variable [syn_msg]; user space answers by writing to
    the device.  The shared variables are one record; a call into the kernel
    that reads the clock takes the time as an argument. *)

From stdpp Require Import base list relations.
From Stdlib Require Import ZArith Lia.
From S2P Require Import Prelude.

Local Open Scope Z_scope.

Definition MAX_CXT_SIZE : Z := 4088.
Definition CXT_LOCATION : Z := 1.
Definition CXT_DISPLAYSTATE : Z := 2.
Definition CXT_PACKAGE : Z := 3.
Definition CXT_ACTIVITY : Z := 4.
Definition CXT_PROCESS : Z := 5.

(** [struct timeval]. *)
Record timeval : Type := mkTimeval { tv_sec : Z; tv_usec : Z }.

Record cxt_info : Type := mkCxt { cxt_ts : timeval; cxt_len : Z; cxt_buf : list Z }.

(** All bytes zero, as static storage and [memset] leave it. *)
Definition cxt_zero : cxt_info := mkCxt (mkTimeval 0 0) 0 (replicate 4088 0).

(** Where [thread_fn] is: at the test of its loop, in the loop of a [read...]
    function waiting for an answer, in the long sleep, or returned. *)
Inductive pc : Type :=
| AtTop
| Waiting (what : Z)
| Sleeping
| Exited.

(** The variables the file operations, the thread and [poise_rs_exit] share. *)
Record dev : Type := mkDev {
  syn_msg : Z;
  isRun : Z;
  cxt_location_info : cxt_info;
  cxt_package_info : cxt_info;
  cxt_display_info : cxt_info;
  thread : pc
}.

Definition set_syn_msg v d := mkDev v (isRun d) (cxt_location_info d) (cxt_package_info d) (cxt_display_info d) (thread d).
Definition set_isRun v d := mkDev (syn_msg d) v (cxt_location_info d) (cxt_package_info d) (cxt_display_info d) (thread d).
Definition set_location v d := mkDev (syn_msg d) (isRun d) v (cxt_package_info d) (cxt_display_info d) (thread d).
Definition set_package v d := mkDev (syn_msg d) (isRun d) (cxt_location_info d) v (cxt_display_info d) (thread d).
Definition set_display v d := mkDev (syn_msg d) (isRun d) (cxt_location_info d) (cxt_package_info d) v (thread d).
Definition set_thread v d := mkDev (syn_msg d) (isRun d) (cxt_location_info d) (cxt_package_info d) (cxt_display_info d) v.

(** ** The file operations *)

(** The record after [memset], the assignments and [memcpy]: [buffer] holds
    the bytes user space passed. *)
Definition store (now : timeval) (buffer : list Z) : cxt_info :=
  let len := if Z.of_nat (length buffer) >? MAX_CXT_SIZE then MAX_CXT_SIZE
             else Z.of_nat (length buffer) in
  mkCxt now len (take (Z.to_nat len) buffer ++ drop (Z.to_nat len) (cxt_buf cxt_zero)).

Definition poise_open (d : dev) : Z * dev := (0, d).

(** The result of [copy_to_user] is the number of bytes it could not copy. *)
Definition EFAULT : Z := 14.
Definition poise_read (error_count : Z) (d : dev) : Z * dev :=
  if error_count =? 0 then (0, d) else (- EFAULT, d).

Definition poise_write (now : timeval) (buffer : list Z) (d : dev) : Z * dev :=
  if syn_msg d =? CXT_LOCATION then (0, set_location (store now buffer) (set_syn_msg 0 d))
  else if syn_msg d =? CXT_DISPLAYSTATE then (0, set_display (store now buffer) (set_syn_msg 0 d))
  else if syn_msg d =? CXT_PACKAGE then (0, set_package (store now buffer) (set_syn_msg 0 d))
  else (0, d).

(** The string that [%s] of [dbg_log] takes from an array: none when it runs
    past the end. *)
Fixpoint log_string (bs : list Z) : option (list Z) :=
  match bs with
  | [] => None
  | b :: bs => if b =? 0 then Some [] else (fun s => b :: s) <$> log_string bs
  end.

(** What [poise_write] logs with [%s]: the bytes of the record, or those of the
    caller when nothing was asked for. *)
Definition poise_write_log (now : timeval) (buffer : list Z) (d : dev) : option (list Z) :=
  if (syn_msg d =? CXT_LOCATION) || (syn_msg d =? CXT_DISPLAYSTATE) || (syn_msg d =? CXT_PACKAGE)
  then log_string (cxt_buf (store now buffer)) else log_string buffer.

Definition poise_mmap (d : dev) : Z * dev := (0, d).
Definition poise_flush (d : dev) : Z * dev := (0, d).
Definition poise_fsync (d : dev) : Z * dev := (0, d).

Definition poise_release (d : dev) : Z * dev :=
  (0, if negb (syn_msg d =? 0) then set_syn_msg 0 d else d).

(** ** The collecting thread *)

(** The start of a [read...] function: ask and start the helper process. *)
Definition ask (what : Z) (d : dev) : dev := set_thread (Waiting what) (set_syn_msg what d).

Definition readLocation : dev -> dev := ask CXT_LOCATION.
Definition readDisplayState : dev -> dev := ask CXT_DISPLAYSTATE.
Definition readPackageList : dev -> dev := ask CXT_PACKAGE.

(** What [thread_fn] calls after a [read...] function returns. *)
Definition after_read (what : Z) (d : dev) : dev :=
  if what =? CXT_LOCATION then readDisplayState d
  else if what =? CXT_DISPLAYSTATE then readPackageList d
  else set_thread Sleeping d.

(** One scheduling of the thread: from one test of a loop condition to the
    next. *)
Definition thread_fn (d : dev) : dev :=
  match thread d with
  | AtTop => if isRun d =? 0 then set_thread Exited d else readLocation d
  | Waiting what =>
      if syn_msg d =? 0 then after_read what d
      else if isRun d =? 0 then after_read what d
      else d
  | Sleeping => set_thread AtTop d
  | Exited => d
  end.

(** What [kthread_create] returned: a thread, null, or a pointer that encodes
    an error, which is how the kernel reports a failure. *)
Inductive kthread : Type :=
| Task
| NullThread
| ErrThread.

Definition thread_started (d : dev) : dev := set_thread AtTop (set_isRun 1 d).

(** [poise_context_thread]: waking up an error pointer is undefined. *)
Definition poise_context_thread (p_thread : kthread) (d : dev) : res dev :=
  match p_thread with
  | NullThread => mret d
  | Task => mret (thread_started d)
  | ErrThread => Err Undefined
  end.

(** The part of [poise_rs_exit] that stops the thread. *)
Definition rs_stop (d : dev) : dev := set_isRun 0 d.

(** Static storage, before the thread exists. *)
Definition dev_zero : dev := mkDev 0 0 cxt_zero cxt_zero cxt_zero Exited.

(** ** The system: interleavings of its actors *)

(** What can happen: the thread is scheduled, user space writes to the device
    or closes it, the module is removed. *)
Inductive event : Type :=
| EThread
| EWrite (now : timeval) (buffer : list Z)
| ERelease
| EExit.

Definition exec (d : dev) (e : event) : dev :=
  match e with
  | EThread => thread_fn d
  | EWrite now buffer => snd (poise_write now buffer d)
  | ERelease => snd (poise_release d)
  | EExit => rs_stop d
  end.

Inductive step : dev -> dev -> Prop :=
| do_step d e : step d (exec d e).

(** The states of a run that starts when the thread is created. *)
Definition reachable (d : dev) : Prop := rtc step (thread_started dev_zero) d.

(** ** Creating and removing the device *)

(** What the module holds in the kernel. *)
Record registered : Type := mkReg { chrdev : bool; class : bool; device : bool }.

Definition nothing : registered := mkReg false false false.

(** [poise_fs_init]: the three registrations succeed or give a negative
    error code. *)
Definition poise_fs_init (major cls dv : Z) (r : registered) : Z * registered :=
  if major <? 0 then (major, r) else
  let r := mkReg true (class r) (device r) in
  if cls <? 0 then (cls, mkReg false (class r) (device r)) else
  let r := mkReg (chrdev r) true (device r) in
  if dv <? 0 then (dv, mkReg false false (device r)) else
  (0, mkReg (chrdev r) (class r) true).

Definition poise_rs_init (major cls dv : Z) (p_thread : kthread) (r : registered) (d : dev)
  : res (Z * registered * dev) :=
  let '(ret, r) := poise_fs_init major cls dv r in
  if ret =? 0 then d ← poise_context_thread p_thread d; mret (0, r, d) else mret (-1, r, d).

(** [class_unregister], which [class_destroy] calls too: a class that is not
    registered any more was freed. *)
Definition class_unregister (r : registered) : res registered :=
  if class r then Ok (mkReg (chrdev r) false (device r)) else Err Undefined.

Definition poise_fs_fini (r : registered) : res registered :=
  let r := mkReg (chrdev r) (class r) false in
  r ← class_unregister r;
  r ← class_unregister r;
  mret (mkReg false (class r) (device r)).

Definition poise_rs_exit (r : registered) (d : dev) : res (registered * dev) :=
  let d := rs_stop d in
  r ← poise_fs_fini r; mret (r, d).

(** ** Proofs *)

Definition cxt_ok (c : cxt_info) : Prop :=
  0 <= cxt_len c <= MAX_CXT_SIZE /\ length (cxt_buf c) = 4088%nat.

Definition is_request (w : Z) : Prop := w = CXT_LOCATION \/ w = CXT_DISPLAYSTATE \/ w = CXT_PACKAGE.

(** The invariant of the protocol. *)
Record dev_inv (d : dev) : Prop := {
  inv_location : cxt_ok (cxt_location_info d);
  inv_package : cxt_ok (cxt_package_info d);
  inv_display : cxt_ok (cxt_display_info d);
  inv_waiting : forall w, thread d = Waiting w -> is_request w /\ (syn_msg d = 0 \/ syn_msg d = w);
  inv_idle : thread d = AtTop \/ thread d = Sleeping -> isRun d <> 0 -> syn_msg d = 0;
  inv_exited : thread d = Exited -> isRun d = 0
}.

Lemma store_ok now buffer : cxt_ok (store now buffer).
Proof.
  unfold store, cxt_ok, MAX_CXT_SIZE. cbn [cxt_len cxt_buf cxt_zero].
  destruct (Z.gtb_spec (Z.of_nat (length buffer)) 4088); (split; [lia|]);
    rewrite length_app, length_take, length_drop, length_replicate; lia.
Qed.

Lemma poise_write_cases now buffer d :
  snd (poise_write now buffer d) = d \/
  (syn_msg d = CXT_LOCATION /\
   snd (poise_write now buffer d) = set_location (store now buffer) (set_syn_msg 0 d)) \/
  (syn_msg d = CXT_DISPLAYSTATE /\
   snd (poise_write now buffer d) = set_display (store now buffer) (set_syn_msg 0 d)) \/
  (syn_msg d = CXT_PACKAGE /\
   snd (poise_write now buffer d) = set_package (store now buffer) (set_syn_msg 0 d)).
Proof.
  unfold poise_write. destruct (Z.eqb_spec (syn_msg d) CXT_LOCATION); [by right; left|].
  destruct (Z.eqb_spec (syn_msg d) CXT_DISPLAYSTATE); [by right; right; left|].
  destruct (Z.eqb_spec (syn_msg d) CXT_PACKAGE); [by right; right; right|by left].
Qed.

Lemma ask_inv w d : is_request w -> dev_inv d -> dev_inv (ask w d).
Proof.
  intros Hw [H1 H2 H3 _ _ _]. split; try done.
  - intros w' E. injection E as <-. split; [done|by right].
  - by intros [E|E].
Qed.

Lemma thread_inv d : dev_inv d -> dev_inv (thread_fn d).
Proof.
  intros I. pose proof I as [H1 H2 H3 Hw Hi He]. unfold thread_fn.
  assert (HA : forall w, thread d = Waiting w -> (syn_msg d = 0 \/ isRun d = 0) ->
    dev_inv (after_read w d)).
  { intros w Ew Hd. unfold after_read.
    case_match; [apply ask_inv; [by right; left|done]|].
    case_match; [apply ask_inv; [by right; right|done]|].
    split; try done. cbn. intros _ Hr. by destruct Hd. }
  destruct (thread d) as [|w| |] eqn:E.
  - destruct (Z.eqb_spec (isRun d) 0) as [R|R].
    + by split; try done; intros [?|?].
    + apply ask_inv; [by left|done].
  - destruct (Z.eqb_spec (syn_msg d) 0) as [S|S]; [apply HA; by auto|].
    destruct (Z.eqb_spec (isRun d) 0) as [R|R]; [apply HA; by auto|done].
  - split; try done. cbn. intros _. apply Hi. by right.
  - done.
Qed.

Lemma dev_inv_step d e : dev_inv d -> dev_inv (exec d e).
Proof.
  intros I. pose proof I as [H1 H2 H3 Hw Hi He]. destruct e as [|now buffer| |]; cbn [exec].
  - by apply thread_inv.
  - pose proof (store_ok now buffer) as Hs.
    destruct (poise_write_cases now buffer d) as [->|[[E ->]|[[E ->]|[E ->]]]]; [done|..];
      (split; try done; cbn; intros w Hwt; destruct (Hw w Hwt); by auto).
  - unfold poise_release. cbn [snd]. case_match; [|done].
    split; try done. cbn. intros w Hwt. destruct (Hw w Hwt). by auto.
  - split; try done.
Qed.

Lemma reachable_events es : reachable (foldl exec (thread_started dev_zero) es).
Proof.
  unfold reachable. induction es as [|e es IH] using rev_ind; [apply rtc_refl|].
  rewrite foldl_app. eapply rtc_r; [exact IH|]. apply do_step.
Qed.

Lemma reachable_inv d : reachable d -> dev_inv d.
Proof.
  intros H. assert (I0 : dev_inv (thread_started dev_zero)).
  { assert (cxt_ok cxt_zero) by (split; [done|by vm_compute]). by split. }
  unfold reachable in H. revert I0. induction H as [d|d1 d2 d3 [d e] _ IH]; [done|].
  intros I. apply IH. by apply dev_inv_step.
Qed.

(** C19: in every state the device and the thread can reach, whatever user
    space writes and whenever it does, each of the three context records
    holds at most [MAX_CXT_SIZE] bytes, and while the thread waits, the
    shared variable names its own request or none. *)
Theorem device_invariant (d : dev) : reachable d -> dev_inv d.
Proof. apply reachable_inv. Qed.

Lemma device_invariant_witness :
  dev_inv (exec (exec (thread_started dev_zero) EThread)
                (EWrite (mkTimeval 7 8) (replicate 5000 65))).
Proof.
  apply (device_invariant (exec (exec (thread_started dev_zero) EThread)
           (EWrite (mkTimeval 7 8) (replicate 5000 65)))).
  exact (reachable_events [EThread; EWrite (mkTimeval 7 8) (replicate 5000 65)]).
Defined.

(** The record of a kind of context. *)
Definition record_of (w : Z) (d : dev) : cxt_info :=
  if w =? CXT_LOCATION then cxt_location_info d
  else if w =? CXT_DISPLAYSTATE then cxt_display_info d else cxt_package_info d.

(** While the module runs, a write to the device either answers the
    request the thread is waiting for (the record of that kind gets the
    bytes, cut at [MAX_CXT_SIZE], and the request is cleared) or is ignored;
    the records of the other kinds never change. *)
Theorem write_answers_request (d : dev) (now : timeval) (buffer : list Z) :
  reachable d -> isRun d <> 0 ->
  let d' := snd (poise_write now buffer d) in
  (exists w, thread d = Waiting w /\ syn_msg d = w /\ syn_msg d' = 0 /\
     record_of w d' = store now buffer /\
     forall w', is_request w' -> w' <> w -> record_of w' d' = record_of w' d) \/
  d' = d.
Proof.
  intros Hr Hrun. pose proof (reachable_inv d Hr) as [_ _ _ Hw Hi He]. cbv zeta.
  assert (T : forall w, syn_msg d = w -> w <> 0 -> thread d = Waiting w).
  { intros w Es N. destruct (thread d) as [|w'| |] eqn:E.
    - rewrite Hi in Es by auto. by destruct N.
    - destruct (Hw w' eq_refl) as [_ [E0|E0]]; congruence.
    - rewrite Hi in Es by auto. by destruct N.
    - by destruct Hrun; apply He. }
  destruct (poise_write_cases now buffer d) as [->|[[E ->]|[[E ->]|[E ->]]]]; [by right|..]; left.
  - exists CXT_LOCATION. repeat split; [by apply T|done|]. by intros w' [->|[->| ->]].
  - exists CXT_DISPLAYSTATE. repeat split; [by apply T|done|]. by intros w' [->|[->| ->]].
  - exists CXT_PACKAGE. repeat split; [by apply T|done|]. by intros w' [->|[->| ->]].
Qed.

(** The thread has just asked for the location. *)
Definition asking : dev := exec (thread_started dev_zero) EThread.

Lemma write_answers_request_witness :
  exists w, thread asking = Waiting w /\ syn_msg asking = w /\
    record_of w (snd (poise_write (mkTimeval 7 8) [65; 66] asking)) =
    store (mkTimeval 7 8) [65; 66].
Proof.
  destruct (write_answers_request asking
              (mkTimeval 7 8) [65; 66]) as [(w & H1 & H2 & _ & H3 & _)|H].
  - exact (reachable_events [EThread]).
  - done.
  - exists w. done.
  - discriminate H.
Defined.

(** ** The thread stops *)

(** How many schedulings the thread is from its return, once [isRun] is 0. *)
Definition rank (p : pc) : nat :=
  match p with
  | Exited => 0
  | AtTop => 1
  | Sleeping => 2
  | Waiting w => if w =? CXT_LOCATION then 5 else if w =? CXT_DISPLAYSTATE then 4 else 3
  end.

Lemma thread_rank d :
  isRun d = 0 ->
  isRun (thread_fn d) = 0 /\ (rank (thread (thread_fn d)) <= rank (thread d) - 1)%nat.
Proof.
  intros R. unfold thread_fn. rewrite R, Z.eqb_refl.
  destruct (thread d) as [|w| |] eqn:E; cbn; [lia| |lia|rewrite E; by auto].
  assert (Ha : isRun (after_read w d) = 0 /\
               (rank (thread (after_read w d)) <= rank (Waiting w) - 1)%nat).
  { unfold after_read. cbn [rank]. repeat case_match; cbn; by auto with lia. }
  by destruct (syn_msg d =? 0).
Qed.

Lemma other_rank d e :
  e <> EThread -> isRun d = 0 -> isRun (exec d e) = 0 /\ thread (exec d e) = thread d.
Proof.
  intros N R. destruct e as [|now buffer| |]; [done|..]; cbn [exec].
  - by destruct (poise_write_cases now buffer d) as [->|[[E ->]|[[E ->]|[E ->]]]].
  - unfold poise_release. cbn [snd]. by case_match.
  - done.
Qed.

Definition is_thread (e : event) : bool := match e with EThread => true | _ => false end.

Lemma stops_from d es :
  isRun d = 0 -> (rank (thread d) <= length (List.filter is_thread es))%nat ->
  thread (foldl exec d es) = Exited.
Proof.
  revert d. induction es as [|e es IH]; intros d R L.
  - cbn in *. destruct (thread d) as [|w| |]; cbn in L; try lia; [|done].
    repeat case_match; lia.
  - cbn [foldl]. destruct (is_thread e) eqn:Et.
    + destruct e; try done. destruct (thread_rank d R) as [R' L'].
      apply IH; [done|]. cbn [List.filter is_thread length] in L. cbn [exec]. lia.
    + destruct (other_rank d e) as [R' T']; [by intros ->|done|].
      apply IH; [done|]. rewrite T'. cbn [List.filter] in L. by rewrite Et in L.
Qed.

(** C24: once the module is being removed, the collecting thread returns after
    at most five schedulings, whatever user space writes or closes in between
    and even if it never answers: nothing can leave it waiting. *)
Theorem thread_stops (d : dev) (es : list event) :
  reachable d -> (5 <= length (List.filter is_thread es))%nat ->
  thread (foldl exec (rs_stop d) es) = Exited.
Proof.
  intros Hr L. apply stops_from; [done|]. etrans; [|exact L].
  destruct (thread (rs_stop d)) as [|w| |]; cbn; try lia. repeat case_match; lia.
Qed.

Lemma thread_stops_witness :
  thread (foldl exec (rs_stop asking)
    [EThread; EWrite (mkTimeval 1 2) [65]; EThread; EThread; ERelease; EThread; EThread]) = Exited.
Proof.
  apply (thread_stops asking [EThread; EWrite (mkTimeval 1 2) [65]; EThread; EThread; ERelease;
                              EThread; EThread]).
  - exact (reachable_events [EThread]).
  - cbn. lia.
Defined.

(** ** A round of answers *)

(** When each request is answered by one write before the thread is
    scheduled again, a round starting at the top of the loop ends in the long
    sleep with the three answers in the records of their kinds and no request
    pending. *)
Lemma round_ok (d : dev) (n1 n2 n3 : timeval) (loc disp pack : list Z) :
  thread d = AtTop -> isRun d <> 0 ->
  let d' := foldl exec d [EThread; EWrite n1 loc; EThread; EWrite n2 disp; EThread;
                          EWrite n3 pack; EThread] in
  thread d' = Sleeping /\ syn_msg d' = 0 /\ cxt_location_info d' = store n1 loc /\
  cxt_display_info d' = store n2 disp /\ cxt_package_info d' = store n3 pack.
Proof.
  intros T R. destruct d as [sm run l p di th]. cbn in T, R. subst th.
  cbn -[store Z.eqb]. unfold thread_fn. cbn -[store Z.eqb].
  destruct (Z.eqb_spec run 0); [done|]. done.
Qed.

(** An answer that user space writes in two parts: the second part, written
    after the thread has moved on, is stored as the display state. *)
Theorem split_answer_misfiled :
  exists d, reachable d /\ cxt_len (cxt_location_info d) = 2 /\
    cxt_display_info d = store (mkTimeval 2 0) [71; 80; 83].
Proof.
  exists (foldl exec (thread_started dev_zero)
            [EThread; EWrite (mkTimeval 1 0) [65; 66]; EThread; EWrite (mkTimeval 2 0) [71; 80; 83]]).
  split; [apply reachable_events|done].
Qed.

(** ** Registration *)

(** [poise_fs_init] holds all three registrations when it returns 0 and
    none of them when it returns an error, whichever of the three calls fails. *)
Theorem fs_init_all_or_nothing (major cls dv : Z) :
  let '(ret, r) := poise_fs_init major cls dv nothing in
  (ret = 0 /\ r = mkReg true true true) \/ (ret < 0 /\ r = nothing).
Proof.
  unfold poise_fs_init. destruct (Z.ltb_spec major 0); [by right|].
  destruct (Z.ltb_spec cls 0); [by right|]. destruct (Z.ltb_spec dv 0); [by right|by left].
Qed.

(** [poise_fs_fini] unregisters the device class twice, directly and
    through [class_destroy]: taking down what [poise_fs_init] set up touches
    a class that is already gone. *)
Theorem fs_fini_unregisters_twice (major cls dv : Z) (r : registered) :
  poise_fs_init major cls dv nothing = (0, r) -> poise_fs_fini r = Err Undefined.
Proof.
  unfold poise_fs_init. destruct (Z.ltb_spec major 0); [intros E; injection E; lia|].
  destruct (Z.ltb_spec cls 0); [intros E; injection E; lia|].
  destruct (Z.ltb_spec dv 0); [intros E; injection E; lia|]. intros E. by injection E as <-.
Qed.

Lemma fs_fini_unregisters_twice_witness :
  poise_fs_init 240 0 0 nothing = (0, mkReg true true true) /\
  poise_fs_fini (mkReg true true true) = Err Undefined.
Proof. split; [done|]. by apply (fs_fini_unregisters_twice 240 0 0). Defined.
