(* ===== verification/Reply.v ===== *)
(** The reply thread
    (src/client-module/kernel-module/mon_poise.c).  [reply_msg] is the array
    of 65535 bytes the thread encodes into, the pointer [p] an index of it;
    a store outside the array is undefined.  A machine with 64-bit [long] is
    assumed for [struct timeval]. *)

From stdpp Require Import base list.
From Stdlib Require Import ZArith Lia.
From S2P Require Import Prelude Wire Sha1 Sha1Props Totp Device.

Local Open Scope Z_scope.

(** ** Encoding *)

Definition encode_cxt (mem : list Z) (p : Z) (cxt : cxt_info) (type : Z) : res (list Z * Z) :=
  if cxt_len cxt =? 0 then mret (mem, p) else
  mem ← put mem p (le 4 type);
  let p := p + 4 in
  mem ← put mem p (le 8 (tv_sec (cxt_ts cxt)) ++ le 8 (tv_usec (cxt_ts cxt)));
  let p := p + 16 in
  mem ← put mem p (le 4 (cxt_len cxt));
  let p := p + 4 in
  mem ← put mem p (take (Z.to_nat (cxt_len cxt)) (cxt_buf cxt));
  let p := p + cxt_len cxt in
  mret (mem, p).

(** The key and the index are not encoded: the pointer comes back as it is. *)
Definition encode_auth_heartbeat (p key index : Z) : Z := p.

Definition hmacKey : list Z := [0x4d; 0x79; 0x4c; 0x65; 0x67; 0x6f; 0x44; 0x6f; 0x6f; 0x72].

(** The variables of [thread_reply_context] and the statics it uses. *)
Record reply : Type := mkReply { reply_msg : list Z; index : Z; otp : totp }.

Definition reply_zero : reply := mkReply (replicate (Z.to_nat 65535) 0) 0 totp_zero.

(** The statements before the loop. *)
Definition reply_start (r : reply) : reply :=
  mkReply (reply_msg r) 0 (totp_setTimezone 8 (totp_init hmacKey 7200 (otp r))).

(** One iteration of the loop: the bytes handed to [poise_reply_server], and
    the variables left. *)
Definition reply_once (d : dev) (r : reply) : res (list Z * reply) :=
  '(newCode, t) ← totp_getCodeFromSteps (index r) (otp r);
  let p := encode_auth_heartbeat 0 newCode (index r) in
  '(mem, p) ← encode_cxt (reply_msg r) p (cxt_location_info d) CXT_LOCATION;
  '(mem, p) ← encode_cxt mem p (cxt_package_info d) CXT_PACKAGE;
  '(mem, p) ← encode_cxt mem p (cxt_display_info d) CXT_DISPLAYSTATE;
  mret (take (Z.to_nat p) mem, mkReply mem (u32 (index r + 1)) t).

(** The loop, seeing the context records [ds] in its iterations while
    [read_context_auto] is set: the messages sent. *)
Fixpoint thread_reply_context (ds : list dev) (r : reply) : res (list (list Z) * reply) :=
  match ds with
  | [] => Ok ([], r)
  | d :: ds =>
      '(m, r) ← reply_once d r;
      '(ms, r) ← thread_reply_context ds r;
      mret (m :: ms, r)
  end.

(** ** The format *)

(** One encoded record. *)
Definition frame (c : cxt_info) (type : Z) : list Z :=
  le 4 type ++ (le 8 (tv_sec (cxt_ts c)) ++ le 8 (tv_usec (cxt_ts c))) ++ le 4 (cxt_len c)
  ++ take (Z.to_nat (cxt_len c)) (cxt_buf c).

(** A decoded record: its type, its time and its bytes. *)
Definition item : Type := Z * timeval * list Z.

(** A reader of the message; the length bounds the number of records. *)
Fixpoint decode (fuel : nat) (bs : list Z) : option (list item) :=
  match bs with
  | [] => Some []
  | _ =>
      match fuel with
      | O => None
      | S f =>
          if (length bs <? 24)%nat then None else
          let n := unle (take 4 (drop 20 bs)) in
          if (Z.of_nat (length bs) <? 24 + n) then None else
          let it := (unle (take 4 bs),
                     mkTimeval (swrap 64 (unle (take 8 (drop 4 bs))))
                               (swrap 64 (unle (take 8 (drop 12 bs)))),
                     take (Z.to_nat n) (drop 24 bs)) in
          r ← decode f (drop (24 + Z.to_nat n) bs); Some (it :: r)
      end
  end.

(** What a record contributes to the message. *)
Definition cxt_item (c : cxt_info) (type : Z) : list item :=
  if cxt_len c =? 0 then []
  else [(type, cxt_ts c, take (Z.to_nat (cxt_len c)) (cxt_buf c))].

Definition cxt_frame (c : cxt_info) (type : Z) : list Z :=
  if cxt_len c =? 0 then [] else frame c type.

(** ** Proofs *)

Definition time_ok (t : timeval) : Prop :=
  - 2 ^ 63 <= tv_sec t < 2 ^ 63 /\ - 2 ^ 63 <= tv_usec t < 2 ^ 63.

Lemma swrap_unle z : - 2 ^ 63 <= z < 2 ^ 63 -> swrap 64 (unle (le 8 z)) = z.
Proof.
  intros H. rewrite unle_le. change (256 ^ Z.of_nat 8) with (2 ^ 64).
  etrans; [|apply (swrap_small 64 z); lia]. unfold swrap. by rewrite Z.mod_mod.
Qed.

Lemma frame_length c type :
  cxt_ok c -> length (frame c type) = (24 + Z.to_nat (cxt_len c))%nat.
Proof.
  unfold cxt_ok, MAX_CXT_SIZE. intros [H1 H2]. unfold frame.
  rewrite !length_app, !le_length, length_take. lia.
Qed.

Lemma frame_take c type :
  cxt_ok c ->
  take 4 (frame c type) = le 4 type /\
  take 8 (drop 4 (frame c type)) = le 8 (tv_sec (cxt_ts c)) /\
  take 8 (drop 12 (frame c type)) = le 8 (tv_usec (cxt_ts c)) /\
  take 4 (drop 20 (frame c type)) = le 4 (cxt_len c) /\
  drop 24 (frame c type) = take (Z.to_nat (cxt_len c)) (cxt_buf c).
Proof. intros _. done. Qed.

Lemma decode_frame f c type rest :
  cxt_ok c -> time_ok (cxt_ts c) -> 0 <= type < 2 ^ 32 ->
  decode (S f) (frame c type ++ rest) =
  r ← decode f rest; Some ((type, cxt_ts c, take (Z.to_nat (cxt_len c)) (cxt_buf c)) :: r).
Proof.
  intros Hc [Ht1 Ht2] Hty. pose proof (frame_length c type Hc) as L.
  destruct (frame_take c type Hc) as (E1 & E2 & E3 & E4 & E5).
  pose proof Hc as [Hl Hb]. unfold MAX_CXT_SIZE in Hl.
  assert (En : unle (take 4 (drop 20 (frame c type ++ rest))) = cxt_len c).
  { rewrite take_drop_app by lia. rewrite E4, unle_le. apply Z.mod_small. cbn. lia. }
  assert (Hcons : exists b bs, frame c type ++ rest = b :: bs)
    by (destruct (frame c type ++ rest) eqn:E; [apply (f_equal length) in E;
        rewrite length_app in E; cbn in E; lia|eauto]).
  destruct Hcons as (b & bs & Eb). cbn [decode]. rewrite Eb. rewrite <- Eb.
  rewrite En.
  destruct (Nat.ltb_spec (length (frame c type ++ rest)) 24) as [G|G];
    [rewrite length_app in G; lia|].
  destruct (Z.ltb_spec (Z.of_nat (length (frame c type ++ rest))) (24 + cxt_len c)) as [G'|G'];
    [rewrite length_app in G'; lia|].
  rewrite !take_drop_app by lia. rewrite take_app_le by lia.
  rewrite E1, E2, E3, unle_le, !swrap_unle by done.
  rewrite Z.mod_small by (cbn; lia). rewrite E5, take_take, Nat.min_id.
  rewrite drop_app_ge by lia. replace (24 + Z.to_nat (cxt_len c) - length (frame c type))%nat with 0%nat by lia.
  rewrite drop_0. by destruct (cxt_ts c).
Qed.

Lemma encode_cxt_front mem p msg c type :
  cxt_ok c -> take (Z.to_nat p) mem = msg -> Z.of_nat (length msg) = p ->
  Z.of_nat (length mem) = 65535 -> p + 24 + MAX_CXT_SIZE <= 65535 ->
  exists mem' p', encode_cxt mem p c type = Ok (mem', p') /\ Z.of_nat (length mem') = 65535 /\
    take (Z.to_nat p') mem' = msg ++ cxt_frame c type /\
    p' = p + Z.of_nat (length (cxt_frame c type)) /\ p' <= p + 24 + MAX_CXT_SIZE.
Proof.
  unfold MAX_CXT_SIZE. intros Hc Hm Hl Hlen Hp. pose proof Hc as [Hc1 Hc2]. unfold MAX_CXT_SIZE in Hc1.
  unfold encode_cxt, cxt_frame.
  destruct (cxt_len c =? 0).
  { exists mem, p. rewrite app_nil_r. cbn. split; [reflexivity|]. split; [exact Hlen|]. split; [exact Hm|]. cbn. lia. }
  destruct (put_front mem p msg (le 4 type)) as (m1 & E1 & L1 & T1); [done|lia|done|rewrite le_length; lia|].
  rewrite E1, bind_ret_l. rewrite le_length in T1. cbv zeta.
  set (tv := le 8 (tv_sec (cxt_ts c)) ++ le 8 (tv_usec (cxt_ts c))).
  assert (Ltv : length tv = 16%nat) by (unfold tv; by rewrite length_app, !le_length).
  destruct (put_front m1 (p + 4) (msg ++ le 4 type) tv) as (m2 & E2 & L2 & T2);
    [done|lia|rewrite length_app, le_length; lia|lia|].
  rewrite E2, bind_ret_l. rewrite Ltv in T2.
  destruct (put_front m2 (p + 4 + 16) ((msg ++ le 4 type) ++ tv) (le 4 (cxt_len c)))
    as (m3 & E3 & L3 & T3);
    [done|lia|rewrite !length_app, le_length; lia|rewrite le_length; lia|].
  rewrite E3, bind_ret_l. rewrite le_length in T3.
  set (data := take (Z.to_nat (cxt_len c)) (cxt_buf c)).
  assert (Ld : Z.of_nat (length data) = cxt_len c) by (unfold data; rewrite length_take; lia).
  destruct (put_front m3 (p + 4 + 16 + 4) (((msg ++ le 4 type) ++ tv) ++ le 4 (cxt_len c)) data)
    as (m4 & E4 & L4 & T4); [done|lia|rewrite !length_app, !le_length; lia|lia|].
  rewrite E4, bind_ret_l. rewrite Ld in T4.
  eexists m4, _. split; [reflexivity|]. split; [lia|]. split.
  - rewrite T4. unfold frame. fold tv data. by rewrite <- !(assoc_L (++)).
  - rewrite frame_length by done. lia.
Qed.

Lemma decode_cxt f c type rest :
  cxt_ok c -> time_ok (cxt_ts c) -> 0 <= type < 2 ^ 32 ->
  decode (S f) (cxt_frame c type ++ rest) =
  r ← decode (if cxt_len c =? 0 then S f else f) rest; Some (cxt_item c type ++ r).
Proof.
  intros Hc Ht Hty. unfold cxt_frame, cxt_item. destruct (cxt_len c =? 0).
  - cbn [app]. by destruct (decode (S f) rest).
  - by apply decode_frame.
Qed.

(** More fuel does not change what is decoded. *)
Lemma decode_mono f : forall bs r, decode f bs = Some r -> decode (S f) bs = Some r.
Proof.
  induction f as [|f IH]; intros bs r H; [by destruct bs|].
  destruct bs as [|b bs]; [done|].
  cbn [decode] in H. change (decode (S (S f)) (b :: bs)) with
    (if (length (b :: bs) <? 24)%nat then None else
     let n := unle (take 4 (drop 20 (b :: bs))) in
     if (Z.of_nat (length (b :: bs)) <? 24 + n) then None else
     let it := (unle (take 4 (b :: bs)),
                mkTimeval (swrap 64 (unle (take 8 (drop 4 (b :: bs)))))
                          (swrap 64 (unle (take 8 (drop 12 (b :: bs))))),
                take (Z.to_nat n) (drop 24 (b :: bs))) in
     r ← decode (S f) (drop (24 + Z.to_nat n) (b :: bs)); Some (it :: r)).
  destruct (length (b :: bs) <? 24)%nat; [done|]. cbv zeta in *.
  destruct (_ <? _); [done|].
  destruct (decode f (drop (24 + Z.to_nat (unle (take 4 (drop 20 (b :: bs))))) (b :: bs)))
    as [r'|] eqn:E; [|done].
  by rewrite (IH _ _ E).
Qed.

Lemma decode_cxt_some f c type rest r :
  cxt_ok c -> time_ok (cxt_ts c) -> 0 <= type < 2 ^ 32 ->
  decode f rest = Some r -> decode (S f) (cxt_frame c type ++ rest) = Some (cxt_item c type ++ r).
Proof.
  intros Hc Ht Hty H. rewrite decode_cxt by done.
  destruct (cxt_len c =? 0); [by rewrite (decode_mono _ _ _ H)|by rewrite H].
Qed.

(** The times of the records come from the clock. *)
Definition times_ok (d : dev) : Prop :=
  time_ok (cxt_ts (cxt_location_info d)) /\ time_ok (cxt_ts (cxt_package_info d)) /\
  time_ok (cxt_ts (cxt_display_info d)).

Definition reply_ok (r : reply) : Prop :=
  Z.of_nat (length (reply_msg r)) = 65535 /\ 0 <= index r < 2 ^ 32 /\
  Z.of_nat (length (_hmacKey (otp r))) < 256 /\ length (sha1_buffer (hash (otp r))) = 64%nat.

(** The records in the order they are encoded. *)
Definition context_items (d : dev) : list item :=
  cxt_item (cxt_location_info d) CXT_LOCATION ++ cxt_item (cxt_package_info d) CXT_PACKAGE
  ++ cxt_item (cxt_display_info d) CXT_DISPLAYSTATE.

(** The message of an iteration. *)
Definition context_frames (d : dev) : list Z :=
  cxt_frame (cxt_location_info d) CXT_LOCATION ++ cxt_frame (cxt_package_info d) CXT_PACKAGE
  ++ cxt_frame (cxt_display_info d) CXT_DISPLAYSTATE.

Lemma reply_once_frames d r :
  dev_inv d -> reply_ok r ->
  exists r', reply_once d r = Ok (context_frames d, r') /\ reply_ok r'.
Proof.
  intros [H1 H2 H3 _ _ _] (Lm & Hi & Hk & Hb). unfold reply_once.
  destruct (getCodeFromSteps_ok (index r) (otp r) Hi ltac:(lia) Hb) as (s & Et & Hs).
  rewrite Et, bind_ret_l. cbv beta iota zeta. unfold encode_auth_heartbeat.
  destruct (encode_cxt_front (reply_msg r) 0 [] (cxt_location_info d) CXT_LOCATION)
    as (m1 & p1 & E1 & L1 & F1 & P1 & B1);
    [exact H1|reflexivity|reflexivity|exact Lm|unfold MAX_CXT_SIZE; lia|].
  rewrite E1, bind_ret_l. cbv beta iota. cbn [app] in F1.
  unfold MAX_CXT_SIZE in *.
  destruct (encode_cxt_front m1 p1 _ (cxt_package_info d) CXT_PACKAGE H2 F1)
    as (m2 & p2 & E2 & L2 & F2 & P2 & B2); [lia|exact L1|unfold MAX_CXT_SIZE; lia|].
  rewrite E2, bind_ret_l. cbv beta iota.
  unfold MAX_CXT_SIZE in *.
  destruct (encode_cxt_front m2 p2 _ (cxt_display_info d) CXT_DISPLAYSTATE H3 F2)
    as (m3 & p3 & E3 & L3 & F3 & P3 & B3); [rewrite length_app; lia|exact L2|unfold MAX_CXT_SIZE; lia|].
  rewrite E3, bind_ret_l. cbv beta iota. unfold MAX_CXT_SIZE in *.
  rewrite F3, <- (assoc_L (++)). eexists. split; [reflexivity|].
  split; [exact L3|]. split; [apply uwrap_range; lia|]. split; [exact Hk|exact Hs].
Qed.

Lemma cxt_frame_length c type : cxt_ok c -> (length (cxt_frame c type) <= 24 + Z.to_nat (cxt_len c))%nat.
Proof. intros H. unfold cxt_frame. destruct (cxt_len c =? 0); [cbn; lia|]. by rewrite frame_length. Qed.

Lemma context_frames_decode d : dev_inv d -> times_ok d ->
  Z.of_nat (length (context_frames d)) <= 12336 /\ decode 3 (context_frames d) = Some (context_items d).
Proof.
  intros [H1 H2 H3 _ _ _] (T1 & T2 & T3). split.
  - unfold context_frames. rewrite !length_app.
    pose proof (cxt_frame_length _ CXT_LOCATION H1). pose proof (cxt_frame_length _ CXT_PACKAGE H2).
    pose proof (cxt_frame_length _ CXT_DISPLAYSTATE H3). unfold cxt_ok, MAX_CXT_SIZE in *. lia.
  - unfold context_frames, context_items, CXT_LOCATION, CXT_PACKAGE, CXT_DISPLAYSTATE in *.
    apply decode_cxt_some; [done|done|lia|]. apply decode_cxt_some; [done|done|lia|].
    rewrite <- (app_nil_r (cxt_frame (cxt_display_info d) 2)), <- (app_nil_r (cxt_item (cxt_display_info d) 2)).
    apply decode_cxt_some; [done|done|lia|done].
Qed.

Lemma reply_once_ok d r :
  dev_inv d -> times_ok d -> reply_ok r ->
  exists m r', reply_once d r = Ok (m, r') /\ reply_ok r' /\
    Z.of_nat (length m) <= 12336 /\ decode 3 m = Some (context_items d).
Proof.
  intros Hd Ht Hr. destruct (reply_once_frames d r Hd Hr) as (r' & E & Hr').
  exists (context_frames d), r'. split; [exact E|]. split; [exact Hr'|]. by apply context_frames_decode.
Qed.

(** C14: in every state of the device an iteration of the reply thread
    encodes the context records without leaving the reply buffer, in at most
    12336 of its 65535 bytes, and the message sent can be decoded: it holds
    the nonempty records, location, packages and display state in that order,
    each with its time stamp and exactly its bytes. *)
Theorem reply_roundtrip (d : dev) (r : reply) :
  reachable d -> times_ok d -> reply_ok r ->
  exists m r', reply_once d r = Ok (m, r') /\ reply_ok r' /\
    Z.of_nat (length m) <= 12336 /\ decode 3 m = Some (context_items d).
Proof. intros Hd. apply reply_once_ok. by apply reachable_inv. Qed.

Lemma reply_start_ok : reply_ok (reply_start reply_zero).
Proof.
  split; [|split; [cbn; lia|split; [cbn; lia|reflexivity]]].
  cbn [reply_msg reply_start reply_zero]. rewrite length_replicate. lia.
Qed.

Lemma reply_roundtrip_witness :
  exists m r', reply_once (exec asking (EWrite (mkTimeval 7 8) [65; 66])) (reply_start reply_zero) = Ok (m, r') /\
    decode 3 m = Some [(1, mkTimeval 7 8, [65; 66])].
Proof.
  destruct (reply_roundtrip (exec asking (EWrite (mkTimeval 7 8) [65; 66])) (reply_start reply_zero))
    as (m & r' & H & _ & _ & D).
  - exact (reachable_events [EThread; EWrite (mkTimeval 7 8) [65; 66]]).
  - repeat split; done.
  - exact reply_start_ok.
  - exists m, r'. split; [exact H|exact D].
Defined.

(** The reply thread never fails, however many iterations it makes and
    whatever the device holds in each of them: every message sent is a
    decodable encoding of the records at that moment. *)
Theorem reply_thread_total (ds : list dev) (r : reply) :
  Forall reachable ds -> Forall times_ok ds -> reply_ok r ->
  exists ms r', thread_reply_context ds r = Ok (ms, r') /\
    Forall2 (fun d m => decode 3 m = Some (context_items d)) ds ms.
Proof.
  revert r. induction ds as [|d ds IH]; intros r Hr Ht Hok; [by exists [], r|].
  apply Forall_cons in Hr as [Hr1 Hr], Ht as [Ht1 Ht].
  destruct (reply_once_ok d r (reachable_inv d Hr1) Ht1 Hok) as (m & r1 & E & Hok1 & _ & D).
  destruct (IH r1 Hr Ht Hok1) as (ms & r2 & E2 & F2).
  exists (m :: ms), r2. cbn [thread_reply_context]. rewrite E, bind_ret_l, E2, bind_ret_l.
  split; [done|by constructor].
Qed.

Lemma reply_thread_total_witness :
  exists ms r', thread_reply_context [asking; exec asking ERelease] (reply_start reply_zero) = Ok (ms, r') /\
    Forall2 (fun d m => decode 3 m = Some (context_items d)) [asking; exec asking ERelease] ms.
Proof.
  apply (reply_thread_total [asking; exec asking ERelease] (reply_start reply_zero)).
  - repeat constructor; [exact (reachable_events [EThread])|exact (reachable_events [EThread; ERelease])].
  - repeat constructor; done.
  - exact reply_start_ok.
Defined.
