(* ===== verification/Interleave.v ===== *)
(** The device and the reply thread at the grain of single accesses to the
    shared records (src/client-module/kernel-module/mon_fs.c, mon_poise.c).
    Device.v treats [poise_write] as one step and Reply.v an iteration of the
    reply thread; here any number of writing processes, the collecting thread
    and the reply thread interleave between their accesses, with [memset] and
    [memcpy] stopped anywhere.  The memory is sequentially consistent.

    The other file operations and the scheduling of the collecting thread stay
    single steps: [poise_release] stores 0 only, so a delay between its test
    and its store is a later release, and between the collecting thread's test
    of [syn_msg] and its next store it touches nothing. *)

From stdpp Require Import base list relations.
From Stdlib Require Import ZArith Lia.
From S2P Require Import Prelude Wire Sha1 Sha1Props Totp Device Reply.

Local Open Scope Z_scope.

(** ** The actors *)

Definition set_record (w : Z) (c : cxt_info) (d : dev) : dev :=
  if w =? CXT_LOCATION then set_location c d
  else if w =? CXT_DISPLAYSTATE then set_display c d else set_package c d.

(** The bytes of the array of a record, and the cells of a record that
    [memset] clears: [tv_sec], [tv_usec], [len], then the bytes. *)
Definition buf_size : nat := Z.to_nat MAX_CXT_SIZE.
Definition cells : nat := 3 + buf_size.

(** The cells from [k] up to [k'] are cleared. *)
Definition clear_cells (k k' : nat) (c : cxt_info) : cxt_info :=
  let within i := (k <=? i)%nat && (i <? k')%nat in
  mkCxt (mkTimeval (if within 0%nat then 0 else tv_sec (cxt_ts c))
                   (if within 1%nat then 0 else tv_usec (cxt_ts c)))
        (if within 2%nat then 0 else cxt_len c)
        (take (k - 3)%nat (cxt_buf c) ++ replicate ((k' - 3) - (k - 3))%nat 0 ++ drop (k' - 3)%nat (cxt_buf c)).

(** Where a call of [poise_write] is: before the [switch], before [syn_msg = 0],
    inside [memset], before each assignment, before [memcpy] evaluates
    [cxt->len], inside [memcpy] of [n] bytes, before the record is logged,
    returned. *)
Inductive wpc : Type :=
| WSwitch
| WClear (w : Z)
| WMemset (w : Z) (k : nat)
| WLen (w : Z)
| WSec (w : Z)
| WUsec (w usec : Z)
| WCount (w : Z)
| WCopy (w : Z) (n k : nat)
| WLog (w : Z)
| WDone.

Record writer : Type := mkWriter { w_buffer : list Z; w_pc : wpc }.

(** The length stored, as in [store]. *)
Definition write_len (buffer : list Z) : Z :=
  if Z.of_nat (length buffer) >? MAX_CXT_SIZE then MAX_CXT_SIZE else Z.of_nat (length buffer).

(** One access of a writer.  Inside [memset] and [memcpy] it handles [n + 1]
    cells.  Copying from behind the bytes user space passed is undefined, and so
    is storing past the record.  The list has the string logged with [%s], none
    when [printk] reads past the array, which changes nothing here. *)
Definition poise_write_step (n : nat) (now : timeval) (wr : writer) (d : dev)
  : res (writer * dev * list (option (list Z))) :=
  let go pc d := Ok (mkWriter (w_buffer wr) pc, d, []) in
  match w_pc wr with
  | WSwitch =>
      if (syn_msg d =? CXT_LOCATION) || (syn_msg d =? CXT_DISPLAYSTATE) || (syn_msg d =? CXT_PACKAGE)
      then go (WClear (syn_msg d)) d
      else Ok (mkWriter (w_buffer wr) WDone, d, [log_string (w_buffer wr)])
  | WClear w => go (WMemset w 0) (set_syn_msg 0 d)
  | WMemset w k =>
      let k' := ((k + S n) `min` cells)%nat in
      go (if (k' <? cells)%nat then WMemset w k' else WLen w)
         (set_record w (clear_cells k k' (record_of w d)) d)
  | WLen w =>
      let c := record_of w d in
      go (WSec w) (set_record w (mkCxt (cxt_ts c) (write_len (w_buffer wr)) (cxt_buf c)) d)
  | WSec w =>
      let c := record_of w d in
      go (WUsec w (tv_usec now))
         (set_record w (mkCxt (mkTimeval (tv_sec now) (tv_usec (cxt_ts c))) (cxt_len c) (cxt_buf c)) d)
  | WUsec w usec =>
      let c := record_of w d in
      go (WCount w)
         (set_record w (mkCxt (mkTimeval (tv_sec (cxt_ts c)) usec) (cxt_len c) (cxt_buf c)) d)
  | WCount w => go (WCopy w (Z.to_nat (cxt_len (record_of w d))) 0) d
  | WCopy w m k =>
      let c := record_of w d in
      let k' := ((k + S n) `min` m)%nat in
      if (length (w_buffer wr) <? k')%nat || (length (cxt_buf c) <? k')%nat then Err Undefined else
      go (if (k' <? m)%nat then WCopy w m k' else WLog w)
         (set_record w (mkCxt (cxt_ts c) (cxt_len c)
            (take k (cxt_buf c) ++ take (k' - k)%nat (drop k (w_buffer wr)) ++ drop k' (cxt_buf c))) d)
  | WLog w => Ok (mkWriter (w_buffer wr) WDone, d, [log_string (cxt_buf (record_of w d))])
  | WDone => go WDone d
  end.

(** Where the reply thread is: at the test of its loop, or in [encode_cxt] for
    the kind at the head of [todo] with the pointer [p], before the accesses
    it makes one after the other: [cxt->len == 0], the two members of
    [cxt->ts], and [cxt->len] three more times, for the length field, for
    [memcpy] and for the pointer; then before the send. *)
Inductive rpc : Type :=
| RTop
| RTest (todo : list Z) (p : Z)
| RSec (w : Z) (todo : list Z) (p : Z)
| RUsec (w : Z) (todo : list Z) (p : Z)
| RLen (w : Z) (todo : list Z) (p : Z)
| RCount (w : Z) (todo : list Z) (p : Z)
| RCopy (w : Z) (todo : list Z) (p : Z) (n k : nat)
| RAdvance (w : Z) (todo : list Z) (p : Z)
| RExited.

(** All of the shared state, with the messages sent and the strings logged by
    the writers. *)
Record sys : Type := mkSys {
  s_dev : dev;
  s_writers : list writer;
  s_pc : rpc;
  s_reply : reply;
  read_context_auto : Z;
  s_sent : list (list Z);
  s_log : list (option (list Z))
}.

Definition kinds : list Z := [CXT_LOCATION; CXT_PACKAGE; CXT_DISPLAYSTATE].

(** The array [response] of [poise_reply_server]. *)
Definition response_size : Z := 4096.

(** One access of the reply thread; inside [memcpy] it copies [n + 1] bytes.
    The send is one step; when the server answers it, [poise_reply_server]
    clears as many bytes of its own array as the message has, and one more.
    What else that function does is in Stream.v. *)
Definition thread_reply_step (n : nat) (answered : bool) (d : dev) (auto : Z) (pc : rpc) (r : reply)
  : res (rpc * reply * list (list Z)) :=
  let store_at p bs pc :=
    mem ← put (reply_msg r) p bs; mret (pc, mkReply mem (index r) (otp r), []) in
  match pc with
  | RTop =>
      if auto =? 0 then mret (RExited, r, []) else
      '(newCode, t) ← totp_getCodeFromSteps (index r) (otp r);
      mret (RTest kinds (encode_auth_heartbeat 0 newCode (index r)), mkReply (reply_msg r) (index r) t, [])
  | RTest [] p =>
      _ ← (if answered && (p + 1 >? response_size) then Err Undefined else mret tt);
      mret (RTop, mkReply (reply_msg r) (u32 (index r + 1)) (otp r), [take (Z.to_nat p) (reply_msg r)])
  | RTest (w :: todo) p =>
      if cxt_len (record_of w d) =? 0 then mret (RTest todo p, r, [])
      else store_at p (le 4 w) (RSec w todo (p + 4))
  | RSec w todo p => store_at p (le 8 (tv_sec (cxt_ts (record_of w d)))) (RUsec w todo p)
  | RUsec w todo p => store_at (p + 8) (le 8 (tv_usec (cxt_ts (record_of w d)))) (RLen w todo (p + 16))
  | RLen w todo p => store_at p (le 4 (cxt_len (record_of w d))) (RCount w todo (p + 4))
  | RCount w todo p => mret (RCopy w todo p (Z.to_nat (cxt_len (record_of w d))) 0, r, [])
  | RCopy w todo p m k =>
      let c := record_of w d in
      let k' := ((k + S n) `min` m)%nat in
      if (length (cxt_buf c) <? k')%nat then Err Undefined else
      store_at (p + Z.of_nat k) (take (k' - k)%nat (drop k (cxt_buf c)))
        (if (k' <? m)%nat then RCopy w todo p m k' else RAdvance w todo p)
  | RAdvance w todo p => mret (RTest todo (p + cxt_len (record_of w d)), r, [])
  | RExited => mret (RExited, r, [])
  end.

(** What can happen: the collecting thread runs, a process calls [write], the
    call of a process makes an access, the reply thread makes one (the message,
    if it sends one, being answered by the server or not), a process
    closes the device, the module is removed. *)
Inductive sevent : Type :=
| SThread
| SCall (buffer : list Z)
| SWriter (i n : nat) (now : timeval)
| SReply (n : nat) (answered : bool)
| SRelease
| SStopReply
| SExit.

Definition set_dev (d : dev) (s : sys) : sys :=
  mkSys d (s_writers s) (s_pc s) (s_reply s) (read_context_auto s) (s_sent s) (s_log s).

Definition sys_exec (s : sys) (e : sevent) : res sys :=
  match e with
  | SThread => mret (set_dev (thread_fn (s_dev s)) s)
  | SCall buffer =>
      mret (mkSys (s_dev s) (s_writers s ++ [mkWriter buffer WSwitch]) (s_pc s) (s_reply s)
              (read_context_auto s) (s_sent s) (s_log s))
  | SWriter i n now =>
      match s_writers s !! i with
      | None => mret s
      | Some wr =>
          '(wr, d, l) ← poise_write_step n now wr (s_dev s);
          mret (mkSys d (<[i := wr]> (s_writers s)) (s_pc s) (s_reply s) (read_context_auto s) (s_sent s)
                  (s_log s ++ l))
      end
  | SReply n answered =>
      '(pc, r, m) ← thread_reply_step n answered (s_dev s) (read_context_auto s) (s_pc s) (s_reply s);
      mret (mkSys (s_dev s) (s_writers s) pc r (read_context_auto s) (s_sent s ++ m) (s_log s))
  | SRelease => mret (set_dev (snd (poise_release (s_dev s))) s)
  | SStopReply => mret (mkSys (s_dev s) (s_writers s) (s_pc s) (s_reply s) 0 (s_sent s) (s_log s))
  | SExit => mret (set_dev (rs_stop (s_dev s)) s)
  end.

Fixpoint sys_run (s : sys) (es : list sevent) : res sys :=
  match es with [] => Ok s | e :: es => s ← sys_exec s e; sys_run s es end.

(** Both threads have just been started. *)
Definition sys_start : sys :=
  mkSys (thread_started dev_zero) [] RTop (reply_start reply_zero) 1 [] [].
