(* ===== verification/InterleaveProps.v ===== *)
(** What holds of every interleaving of Interleave.v: the stores of the reply
    thread stay in its buffer and the records keep their bounds, an iteration
    that no writer disturbs sends what Reply.v says, and a call of
    [poise_write] that runs alone does what Device.v says.  Two schedules show
    what does go wrong. *)

From stdpp Require Import base list relations.
From Stdlib Require Import ZArith Lia.
From S2P Require Import Prelude Wire Sha1 Sha1Props Totp Device Reply Interleave.

Local Open Scope Z_scope.

#[local] Arguments clear_cells : simpl never.
#[local] Arguments cells : simpl never.
#[local] Arguments buf_size : simpl never.
#[local] Arguments put : simpl never.
#[local] Arguments le : simpl never.

(** ** Records *)

Lemma buf_size_Z : Z.of_nat buf_size = 4088.
Proof. done. Qed.

Lemma cxt_ok_Z c : cxt_ok c <-> 0 <= cxt_len c <= 4088 /\ Z.of_nat (length (cxt_buf c)) = 4088.
Proof. unfold cxt_ok, MAX_CXT_SIZE. lia. Qed.

Lemma record_set_cases w w' c d :
  record_of w' (set_record w c d) = c \/ record_of w' (set_record w c d) = record_of w' d.
Proof. unfold record_of, set_record. repeat case_match; by auto. Qed.

Lemma record_set_same w c d : record_of w (set_record w c d) = c.
Proof. unfold record_of, set_record. by repeat case_match. Qed.

Lemma record_set_other w w' c d :
  is_request w -> is_request w' -> w' <> w -> record_of w' (set_record w c d) = record_of w' d.
Proof. intros [->|[->| ->]] [->|[->| ->]] N; done. Qed.

Lemma set_record_vars w c d :
  syn_msg (set_record w c d) = syn_msg d /\ isRun (set_record w c d) = isRun d /\
  thread (set_record w c d) = thread d.
Proof. unfold set_record. by repeat case_match. Qed.

Definition records_ok (d : dev) : Prop := forall w, cxt_ok (record_of w d).

(** The steps that do not touch the records. *)
Lemma record_thread w d : record_of w (thread_fn d) = record_of w d.
Proof.
  unfold thread_fn, after_read, readLocation, readDisplayState, readPackageList, ask.
  repeat case_match; done.
Qed.

Lemma record_release w d : record_of w (snd (poise_release d)) = record_of w d.
Proof. unfold poise_release. cbn [snd]. by case_match. Qed.

(** A middle part of a list is replaced by one of its length. *)
Lemma splice_length {A} (a b : list A) (k k' : nat) :
  (k <= k' <= length a)%nat -> length b = (k' - k)%nat ->
  length (take k a ++ b ++ drop k' a) = length a.
Proof. intros H Hb. rewrite !length_app, length_take, length_drop. lia. Qed.

Lemma splice_lookup {A} (a b : list A) (k k' i : nat) (x : A) :
  (k <= k' <= length a)%nat -> length b = (k' - k)%nat ->
  (take k a ++ b ++ drop k' a) !! i = Some x -> x ∈ b /\ (i < k')%nat \/ a !! i = Some x.
Proof.
  intros H Hb. assert (L : length (take k a) = k) by (rewrite length_take; lia).
  intros [E|[H1 E]]%lookup_app_Some; [right; by apply lookup_take_Some in E as [? _]|]. rewrite L in H1, E.
  apply lookup_app_Some in E as [E|[H2 E]].
  - left. split; [by eapply list_elem_of_lookup_2|]. apply lookup_lt_Some in E. lia.
  - right. rewrite lookup_drop in E. rewrite Hb in *. rewrite <- E. f_equal. lia.
Qed.

Lemma write_len_range b : 0 <= write_len b <= MAX_CXT_SIZE /\ write_len b <= Z.of_nat (length b).
Proof. unfold write_len, MAX_CXT_SIZE. destruct (Z.gtb_spec (Z.of_nat (length b)) 4088); lia. Qed.

Lemma log_string_some bs : 0 ∈ bs -> is_Some (log_string bs).
Proof.
  induction bs as [|b bs IH]; intros H; [by apply elem_of_nil in H|]. cbn.
  destruct (Z.eqb_spec b 0) as [|Hb]; [by eexists|]. apply elem_of_cons in H as [H|H]; [congruence|].
  destruct (IH H) as [s ->]. by eexists.
Qed.

(** The [memcpy] of this writer goes past the bytes it was given. *)
Definition over_read (wr : writer) : Prop :=
  exists w m k, w_pc wr = WCopy w m k /\ (length (w_buffer wr) < m)%nat.

(** ** Bounds *)

Section Bounds.
(** No write has more than [L] bytes; [L] may be the size of the record, which
    bounds the length stored by every write. *)
Context (L : nat) (HL : (L <= buf_size)%nat).

(** What a record holds: at most [L] bytes, and zeros behind them. *)
Definition bounded (c : cxt_info) : Prop :=
  0 <= cxt_len c <= Z.of_nat L /\ Z.of_nat (length (cxt_buf c)) = 4088 /\
  forall i x, (L <= i)%nat -> cxt_buf c !! i = Some x -> x = 0.

Definition records_bounded (d : dev) : Prop := forall w, bounded (record_of w d).

Lemma bounded_ok d : records_bounded d -> records_ok d.
Proof using HL. intros H w. destruct (H w) as (H1 & H2 & _). pose proof buf_size_Z. apply cxt_ok_Z. lia. Qed.

Lemma records_bounded_set w c d : records_bounded d -> bounded c -> records_bounded (set_record w c d).
Proof using Type. clear HL. intros H Hc w'. destruct (record_set_cases w w' c d) as [-> | ->]; [done|apply H]. Qed.

Lemma clear_cells_bounded k k' c : (k <= k' <= cells)%nat -> bounded c -> bounded (clear_cells k k' c).
Proof using Type.
  clear HL.
  pose proof buf_size_Z as B. unfold cells. intros Hk (H1 & H2 & H3).
  unfold clear_cells, bounded. cbn [cxt_len cxt_buf]. split; [case_match; lia|].
  assert (Hr : length (replicate (k' - 3 - (k - 3)) 0) = (k' - 3 - (k - 3))%nat) by apply length_replicate.
  split; [rewrite splice_length; [done|lia|done]|]. intros i x Hi Hx.
  apply splice_lookup in Hx as [[Hx _]|Hx]; [|by eapply H3|lia|done]. by apply elem_of_replicate in Hx as [-> _].
Qed.

(** Behind [L] bytes a record that has room ends every string. *)
Lemma bounded_log c : bounded c -> (L < buf_size)%nat -> is_Some (log_string (cxt_buf c)).
Proof using Type.
  clear HL.
  intros (_ & H2 & H3) Hlt. pose proof buf_size_Z as B. apply log_string_some.
  destruct (cxt_buf c !! L) as [x|] eqn:E; [|apply lookup_ge_None in E; lia].
  rewrite <- (H3 L x (Nat.le_refl L) E). by eapply list_elem_of_lookup_2.
Qed.

(** A call of [write] within the bound: it stores at most [L] bytes, and when
    [L] is less than a record its bytes are a string. *)
Definition fits (buffer : list Z) : Prop :=
  write_len buffer <= Z.of_nat L /\ ((L < buf_size)%nat -> 0 ∈ buffer).

Definition writer_ok (wr : writer) : Prop :=
  fits (w_buffer wr) /\
  match w_pc wr with
  | WMemset w k => (k < cells)%nat
  | WCopy w m k => (k <= m <= L)%nat
  | _ => True
  end.

(** The strings logged end, when the writes leave room. *)
Definition logs_ok (ls : list (option (list Z))) : Prop := (L < buf_size)%nat -> Forall is_Some ls.

Lemma writer_step_ok n now wr d :
  records_bounded d -> writer_ok wr ->
  (exists wr' d' ls, poise_write_step n now wr d = Ok (wr', d', ls) /\ records_bounded d' /\ writer_ok wr' /\ logs_ok ls) \/
  (poise_write_step n now wr d = Err Undefined /\ over_read wr).
Proof using HL.
  intros Hd [Hf Hw]. destruct wr as [b pc]. cbn [w_pc w_buffer] in Hw, Hf.
  pose proof buf_size_Z as B. assert (Hr : forall w, bounded (record_of w d)) by exact Hd.
  assert (Hnil : logs_ok []) by (intros _; constructor).
  unfold poise_write_step. cbn [w_pc w_buffer].
  destruct pc as [|w|w k|w|w|w u|w|w m k|w|].
  - left. case_match; (eexists _, _, _; split; [reflexivity|]; split; [done|]; split; [done|]); [done|].
    intros Hlt. constructor; [|constructor]. by apply log_string_some, Hf.
  - left. eexists _, _, _. split; [reflexivity|]. split; [done|]. split; [|done]. split; [done|]. cbn. unfold cells. lia.
  - left. eexists _, _, _. split; [reflexivity|]. split.
    + apply records_bounded_set; [done|]. apply clear_cells_bounded; [lia|apply Hr].
    + split; [|done]. split; [done|]. cbn [w_pc]. destruct (Nat.ltb_spec ((k + S n) `min` cells) cells); [done|exact I].
  - left. eexists _, _, _. split; [reflexivity|]. split; [|done].
    apply records_bounded_set; [done|]. destruct (Hr w) as (_ & ? & ?). split; [|done]. cbn.
    pose proof (write_len_range b). destruct Hf. lia.
  - left. eexists _, _, _. split; [reflexivity|]. split; [|done]. apply records_bounded_set; [done|]. by destruct (Hr w).
  - left. eexists _, _, _. split; [reflexivity|]. split; [|done]. apply records_bounded_set; [done|]. by destruct (Hr w).
  - left. eexists _, _, _. split; [reflexivity|]. split; [done|]. split; [|done]. split; [done|].
    cbn. destruct (Hr w) as [Hl _]. lia.
  - destruct (Hr w) as (Hl & Hb & Hz).
    destruct (Nat.ltb_spec (length b) ((k + S n) `min` m)) as [G|G]; cbn [orb].
    { right. split; [done|]. exists w, m, k. split; [done|]. cbn. lia. }
    destruct (Nat.ltb_spec (length (cxt_buf (record_of w d))) ((k + S n) `min` m)); [lia|].
    left. eexists _, _, _. split; [reflexivity|].
    assert (Ls : length (take ((k + S n) `min` m - k) (drop k b)) = ((k + S n) `min` m - k)%nat)
      by (rewrite length_take, length_drop; lia).
    split.
    + apply records_bounded_set; [done|]. split; [done|]. cbn [cxt_buf]. split; [rewrite splice_length; [done|lia|done]|].
      intros i x Hi Hx. apply splice_lookup in Hx as [[_ Hx]|Hx]; [lia|by eapply Hz|lia|done].
    + split; [|done]. split; [done|]. cbn [w_pc]. destruct (Nat.ltb_spec ((k + S n) `min` m) m); [lia|exact I].
  - left. eexists _, _, _. split; [reflexivity|]. split; [done|]. split; [done|].
    intros Hlt. constructor; [|constructor]. apply bounded_log; [apply Hr|done].
  - left. by eexists _, _, _.
Qed.

(** ** The reply thread *)

(** The bytes the records of [todo] can take in the message. *)
Definition frame_max : Z := 24 + Z.of_nat L.
Fixpoint room (todo : list Z) : Z := match todo with [] => 0 | _ :: todo => frame_max + room todo end.

Lemma room_nonneg todo : 0 <= room todo.
Proof using Type. clear HL. induction todo as [|w todo IH]; [done|]. cbn [room]. unfold frame_max in *. lia. Qed.

(** How far the pointer can be, with [todo] records left. *)
Definition pc_ok (pc : rpc) : Prop :=
  let inside todo off p := 0 <= p /\ p - off + frame_max + room todo <= 3 * frame_max in
  match pc with
  | RTest todo p => 0 <= p /\ p + room todo <= 3 * frame_max
  | RSec w todo p | RUsec w todo p => inside todo 4 p
  | RLen w todo p => inside todo 20 p
  | RCount w todo p | RAdvance w todo p => inside todo 24 p
  | RCopy w todo p m k => inside todo 24 p /\ (k <= m <= L)%nat
  | RTop | RExited => True
  end.

Lemma put_ok mem p bs :
  0 <= p -> p + Z.of_nat (length bs) <= Z.of_nat (length mem) ->
  exists mem', put mem p bs = Ok mem' /\ length mem' = length mem.
Proof using Type.
  clear HL.
  intros Hp Hb. destruct (put_front mem p (take (Z.to_nat p) mem) bs) as (mem' & E & L1 & _);
    [done|done|rewrite length_take; lia|done|by exists mem'].
Qed.

(** A store of the reply thread. *)
Lemma store_ok' r p bs (pc : rpc) :
  reply_ok r -> 0 <= p -> p + Z.of_nat (length bs) <= 65535 ->
  exists r', (mem ← put (reply_msg r) p bs; mret (pc, mkReply mem (index r) (otp r), @nil (list Z))) =
             Ok (pc, r', []) /\ reply_ok r'.
Proof using Type.
  clear HL.
  intros (L1 & Hi & Hk & Hb) Hp Hs. destruct (put_ok (reply_msg r) p bs Hp ltac:(lia)) as (mem' & -> & L').
  eexists. split; [reflexivity|]. split; [cbn; lia|done].
Qed.

(** The send of a message the server answers and that is longer than the
    array cleared for the answer. *)
Definition over_clear (answered : bool) (pc : rpc) : Prop :=
  answered = true /\ exists p, pc = RTest [] p /\ response_size <= p.

Definition messages_ok (ms : list (list Z)) : Prop := Forall (fun m => Z.of_nat (length m) <= 3 * frame_max) ms.

Lemma reply_step_ok n answered d auto pc r :
  records_bounded d -> pc_ok pc -> reply_ok r ->
  (exists pc' r' ms, thread_reply_step n answered d auto pc r = Ok (pc', r', ms) /\ pc_ok pc' /\ reply_ok r' /\
    messages_ok ms) \/
  (thread_reply_step n answered d auto pc r = Err Undefined /\ over_clear answered pc).
Proof using HL.
  intros Hd Hp Hr. pose proof buf_size_Z as B. assert (Hc := Hd). unfold records_bounded, bounded in Hc.
  unfold pc_ok in *. assert (HF : frame_max = 24 + Z.of_nat L) by done.
  unfold thread_reply_step.
  destruct pc as [|[|w todo] p|w todo p|w todo p|w todo p|w todo p|w todo p m k|w todo p|].
  2:{ cbn [room] in Hp. destruct (answered && (p + 1 >? response_size)) eqn:Ea.
      - right. split; [done|]. apply andb_prop in Ea as [-> Ea]. split; [done|]. exists p. split; [done|].
        unfold response_size in *. destruct (Z.gtb_spec (p + 1) 4096); [lia|done].
      - left. rewrite bind_ret_l. destruct Hr as (Lm & Hi & Hk & Hb). eexists _, _, _. split; [reflexivity|]. split; [done|]. split.
        + split; [exact Lm|]. split; [apply uwrap_range; lia|done].
        + constructor; [|constructor]. rewrite length_take. lia. }
  all: left.
  - destruct (auto =? 0); [by eexists _, _, _; split; [|split; [|split; [|constructor]]]|]. destruct Hr as (Lm & Hi & Hk & Hb).
    destruct (getCodeFromSteps_ok (index r) (otp r) Hi ltac:(lia) Hb) as (s & -> & Hs). rewrite bind_ret_l.
    eexists _, _, _. split; [reflexivity|]. split; [cbn [room kinds]; unfold encode_auth_heartbeat; lia|].
    split; [|constructor]. split; [exact Lm|]. split; [exact Hi|]. split; [exact Hk|exact Hs].
  - cbn [room] in Hp. pose proof (room_nonneg todo). destruct (cxt_len _ =? 0).
    { eexists _, _, _. split; [reflexivity|]. split; [lia|]. split; [done|constructor]. }
    destruct (store_ok' r p (le 4 w) (RSec w todo (p + 4)) Hr) as (r' & -> & Hr'); [lia|rewrite le_length; lia|].
    eexists _, _, _. split; [reflexivity|]. split; [lia|]. split; [done|constructor].
  - pose proof (room_nonneg todo).
    destruct (store_ok' r p (le 8 (tv_sec (cxt_ts (record_of w d)))) (RUsec w todo p) Hr) as (r' & -> & Hr');
      [lia|rewrite le_length; lia|]. eexists _, _, _. split; [reflexivity|]. split; [done|]. split; [done|constructor].
  - pose proof (room_nonneg todo).
    destruct (store_ok' r (p + 8) (le 8 (tv_usec (cxt_ts (record_of w d)))) (RLen w todo (p + 16)) Hr) as (r' & -> & Hr');
      [lia|rewrite le_length; lia|]. eexists _, _, _. split; [reflexivity|]. split; [lia|]. split; [done|constructor].
  - pose proof (room_nonneg todo).
    destruct (store_ok' r p (le 4 (cxt_len (record_of w d))) (RCount w todo (p + 4)) Hr) as (r' & -> & Hr');
      [lia|rewrite le_length; lia|]. eexists _, _, _. split; [reflexivity|]. split; [lia|]. split; [done|constructor].
  - destruct (Hc w) as (Hl & _ & _). eexists _, _, _. split; [reflexivity|]. split; [lia|]. split; [done|constructor].
  - pose proof (room_nonneg todo). destruct (Hc w) as (H1 & H2 & _).
    destruct (Nat.ltb_spec (length (cxt_buf (record_of w d))) ((k + S n) `min` m)); [lia|].
    set (pc' := if (_ <? m)%nat then _ else _).
    destruct (store_ok' r (p + Z.of_nat k) (take ((k + S n) `min` m - k) (drop k (cxt_buf (record_of w d)))) pc' Hr)
      as (r' & -> & Hr'); [lia|rewrite length_take, length_drop; lia|].
    eexists _, _, _. split; [reflexivity|]. split; [|split; [done|constructor]]. subst pc'.
    destruct (Nat.ltb_spec ((k + S n) `min` m) m); lia.
  - destruct (Hc w) as (Hl & _ & _). eexists _, _, _. split; [reflexivity|]. split; [lia|]. split; [done|constructor].
  - eexists _, _, _. split; [reflexivity|]. split; [done|]. split; [done|constructor].
Qed.

(** ** Safety of every interleaving *)

(** The invariant of the system. *)
Record sys_inv (s : sys) : Prop := {
  si_bounded : records_bounded (s_dev s);
  si_writers : Forall writer_ok (s_writers s);
  si_pc : pc_ok (s_pc s);
  si_reply : reply_ok (s_reply s);
  si_sent : messages_ok (s_sent s);
  si_log : logs_ok (s_log s)
}.

Definition event_fits (e : sevent) : Prop := match e with SCall b => fits b | _ => True end.

Lemma sys_exec_inv s e : sys_inv s -> event_fits e ->
  (exists s', sys_exec s e = Ok s' /\ sys_inv s') \/
  (sys_exec s e = Err Undefined /\
   ((exists i n now wr, e = SWriter i n now /\ s_writers s !! i = Some wr /\ over_read wr) \/
    (exists n answered, e = SReply n answered /\ over_clear answered (s_pc s)))).
Proof using HL.
  intros I He. pose proof I as [H1 H2 H3 H4 H5 H6]. destruct e as [|b|i n now|n answered| | |]; cbn [sys_exec].
  - left. eexists. split; [reflexivity|]. split; try done. intros w. cbn. rewrite record_thread. apply H1.
  - left. eexists. split; [reflexivity|]. split; try done. cbn. apply Forall_app. split; [done|].
    constructor; [|constructor]. by split.
  - destruct (s_writers s !! i) as [wr|] eqn:E; [|left; by exists s].
    pose proof (Forall_lookup_1 _ _ _ _ H2 E) as Hw.
    destruct (writer_step_ok n now wr (s_dev s) H1 Hw) as [(wr' & d' & ls & -> & Hd' & Hw' & Hl')|[-> Ho]].
    + left. rewrite bind_ret_l. eexists. split; [reflexivity|]. split; try done; cbn; [by apply Forall_insert|].
      intros Hlt. apply Forall_app. split; [by apply H6|by apply Hl'].
    + right. split; [done|]. left. by exists i, n, now, wr.
  - destruct (reply_step_ok n answered (s_dev s) (read_context_auto s) (s_pc s) (s_reply s) H1 H3 H4)
      as [(pc' & r' & ms & -> & Hpc & Hr & Hms)|[-> Ho]].
    + left. rewrite bind_ret_l. eexists. split; [reflexivity|]. split; try done. cbn. by apply Forall_app.
    + right. split; [done|]. right. by exists n, answered.
  - left. eexists. split; [reflexivity|]. split; try done. intros w. cbn [s_dev set_dev]. rewrite record_release. apply H1.
  - left. eexists. by split; [reflexivity|].
  - left. eexists. split; [reflexivity|]. by split.
Qed.

Lemma sys_start_inv : sys_inv sys_start.
Proof using Type.
  clear HL.
  split; [|apply Forall_nil_2|exact I|exact reply_start_ok|apply Forall_nil_2|intros _; apply Forall_nil_2].
  intros w. cbn [s_dev sys_start].
  assert (bounded cxt_zero).
  { split; [cbn; lia|]. split; [by vm_compute|]. intros i x _ Hx. cbn [cxt_buf cxt_zero] in Hx.
    by apply lookup_replicate in Hx as [-> _]. }
  unfold record_of. by repeat case_match.
Qed.

Lemma sys_run_inv es : forall s, sys_inv s -> Forall event_fits es ->
  match sys_run s es with
  | Ok s' => sys_inv s'
  | Err x => x = Undefined /\ exists es1 e es2 s', es = es1 ++ e :: es2 /\ sys_run s es1 = Ok s' /\
      ((exists i n now wr, e = SWriter i n now /\ s_writers s' !! i = Some wr /\ over_read wr) \/
       (exists n answered, e = SReply n answered /\ over_clear answered (s_pc s')))
  end.
Proof using HL.
  induction es as [|e es IH]; intros s I F; [done|]. apply Forall_cons in F as [F1 F]. cbn [sys_run].
  destruct (sys_exec_inv s e I F1) as [(s' & E & I')|[-> Ho]]; [|split; [done|by exists [], e, es, s]].
  rewrite E, bind_ret_l. specialize (IH s' I' F). destruct (sys_run s' es) as [s2|x]; [done|].
  destruct IH as [-> (es1 & e' & es2 & s3 & -> & E3 & Ho)]. split; [done|].
  exists (e :: es1), e', es2, s3. cbn [app sys_run]. by rewrite E, bind_ret_l.
Qed.
End Bounds.

(** Every write stores at most the size of a record. *)
Lemma fits_size b : fits buf_size b.
Proof. pose proof (write_len_range b). pose proof buf_size_Z. unfold MAX_CXT_SIZE in *. split; [lia|lia]. Qed.

Lemma events_fit es : Forall (event_fits buf_size) es.
Proof. apply Forall_true. intros [| | | | | |]; try done. apply fits_size. Qed.

(** Calls of [write] that do not overlap: one starts only when the others
    have returned. *)
Definition returned (wr : writer) : bool := match w_pc wr with WDone => true | _ => false end.

Definition allowed (s : sys) (e : sevent) : bool :=
  match e with SCall _ => forallb returned (s_writers s) | _ => true end.

Fixpoint serial (s : sys) (es : list sevent) : bool :=
  match es with
  | [] => true
  | e :: es => allowed s e && match sys_exec s e with Ok s => serial s es | Err _ => true end
  end.

(** What a call that runs by itself can rely on. *)
Definition own_len (d : dev) (wr : writer) : Prop :=
  match w_pc wr with
  | WSec w | WUsec w _ | WCount w => cxt_len (record_of w d) = write_len (w_buffer wr)
  | WCopy _ m _ => (m <= length (w_buffer wr))%nat
  | _ => True
  end.

Definition one_writer (s : sys) : Prop :=
  (forall i wr, s_writers s !! i = Some wr -> own_len (s_dev s) wr) /\
  (forall i j wi wj, s_writers s !! i = Some wi -> s_writers s !! j = Some wj ->
     returned wi = false -> returned wj = false -> i = j).

Lemma own_len_returned d wr : returned wr = true -> own_len d wr.
Proof. unfold returned, own_len. by destruct (w_pc wr). Qed.

Lemma own_len_records d d' wr :
  (forall w, record_of w d' = record_of w d) -> own_len d wr -> own_len d' wr.
Proof. intros H. unfold own_len. destruct (w_pc wr); rewrite ?H; done. Qed.

Lemma own_len_not_over d wr : own_len d wr -> ~ over_read wr.
Proof. intros H (w & m & k & E & Hm). unfold own_len in H. rewrite E in H. lia. Qed.

Lemma own_len_step n now wr d wr' d' ls :
  own_len d wr -> poise_write_step n now wr d = Ok (wr', d', ls) ->
  own_len d' wr' /\ (returned wr' = false -> returned wr = false).
Proof.
  destruct wr as [b pc]. unfold own_len at 1, poise_write_step. cbn [w_pc w_buffer]. intros H E.
  destruct pc as [|w|w k|w|w|w u|w|w m k|w|].
  - by case_match; injection E as <- <- <-.
  - by injection E as <- <- <-.
  - injection E as <- <- <-. split; [|done]. unfold own_len. cbn [w_pc]. by destruct (_ <? cells)%nat.
  - injection E as <- <- <-. split; [|done]. unfold own_len. cbn. by rewrite record_set_same.
  - injection E as <- <- <-. split; [|done]. unfold own_len. cbn. by rewrite record_set_same.
  - injection E as <- <- <-. split; [|done]. unfold own_len. cbn. by rewrite record_set_same.
  - injection E as <- <- <-. split; [|done]. unfold own_len. cbn. rewrite H.
    pose proof (write_len_range b). lia.
  - case_match; [done|]. injection E as <- <- <-. split; [|done]. unfold own_len. cbn [w_pc]. by destruct (_ <? m)%nat.
  - by injection E as <- <- <-.
  - by injection E as <- <- <-.
Qed.

Lemma forallb_returned s : forallb returned (s_writers s) = true ->
  forall i wr, s_writers s !! i = Some wr -> returned wr = true.
Proof.
  intros H i wr E. rewrite forallb_forall in H. apply H, list_elem_of_In. by eapply list_elem_of_lookup_2.
Qed.

Lemma one_writer_step s e s' :
  one_writer s -> allowed s e = true -> sys_exec s e = Ok s' -> one_writer s'.
Proof.
  intros [H1 H2] Ha E. destruct e as [|b|i n now|n ans| | |]; cbn [sys_exec] in E.
  - injection E as <-. split; [|done]. intros i wr Hi. cbn in *.
    eapply own_len_records, H1, Hi. intros w. apply record_thread.
  - injection E as <-. pose proof (forallb_returned s Ha) as Hr. split.
    + intros i wr Hi. cbn in *. apply lookup_snoc_Some in Hi as [[_ Hi]|[_ <-]]; [by eapply H1|done].
    + intros i j wi wj Hi Hj Ri Rj. cbn in *.
      apply lookup_snoc_Some in Hi as [[_ Hi]|[-> <-]]; [by rewrite (Hr _ _ Hi) in Ri|].
      apply lookup_snoc_Some in Hj as [[_ Hj]|[-> <-]]; [by rewrite (Hr _ _ Hj) in Rj|done].
  - destruct (s_writers s !! i) as [wr|] eqn:Ei; [|by injection E as <-].
    destruct (poise_write_step n now wr (s_dev s)) as [[[wr' d'] ls]|] eqn:Ew; [|done].
    injection E as <-. cbn in *. destruct (own_len_step n now wr (s_dev s) wr' d' ls (H1 _ _ Ei) Ew) as [Ho Hr].
    assert (Hlt : (i < length (s_writers s))%nat) by by eapply lookup_lt_Some.
    assert (Hret : returned wr = false \/ returned wr = true /\ d' = s_dev s).
    { destruct wr as [b pc]. destruct pc; try by left. right. cbn in Ew. by injection Ew as <- <- _. }
    split.
    + intros j wj Hj. cbn [s_writers s_dev] in *. destruct (decide (j = i)) as [->|Hne].
      { rewrite list_lookup_insert_eq in Hj by done. by injection Hj as <-. }
      rewrite list_lookup_insert_ne in Hj by done.
      destruct Hret as [Hret|[_ ->]]; [|by eapply H1].
      apply own_len_returned. destruct (returned wj) eqn:Rj; [done|]. destruct Hne. by eapply H2.
    + cbn [s_writers]. intros j k wj wk Hj Hk Rj Rk.
      assert (forall j wj, <[i:=wr']> (s_writers s) !! j = Some wj -> returned wj = false ->
        exists wj', s_writers s !! j = Some wj' /\ returned wj' = false) as Hold.
      { intros j0 w0 Hj0 R0. destruct (decide (j0 = i)) as [->|Hne].
        - rewrite list_lookup_insert_eq in Hj0 by done. injection Hj0 as <-. exists wr. by auto.
        - rewrite list_lookup_insert_ne in Hj0 by done. by exists w0. }
      destruct (Hold _ _ Hj Rj) as (? & ? & ?), (Hold _ _ Hk Rk) as (? & ? & ?). by eapply H2.
  - destruct (thread_reply_step _ _ _ _ _ _) as [[[pc r] m]|]; [|done]. by injection E as <-.
  - injection E as <-. split; [|done]. intros i wr Hi. cbn [s_writers set_dev s_dev] in *.
    eapply own_len_records, H1, Hi. intros w. apply record_release.
  - by injection E as <-.
  - by injection E as <-.
Qed.

(** A run without overlapping writes, every answered message of which fits the
    array cleared for the answer. *)
Lemma serial_run L es : (L <= buf_size)%nat ->
  (3 * frame_max L < response_size \/ Forall (fun e => match e with SReply _ a => a = false | _ => True end) es) ->
  forall s, sys_inv L s -> Forall (event_fits L) es -> one_writer s -> serial s es = true ->
  exists s', sys_run s es = Ok s' /\ sys_inv L s'.
Proof.
  intros HL. induction es as [|e es IH]; intros Hc s I F O Hs; [by exists s|]. cbn [sys_run serial] in *.
  apply Forall_cons in F as [F1 F]. apply andb_prop in Hs as [Ha Hs].
  assert (Hc' : 3 * frame_max L < response_size \/ Forall (fun e => match e with SReply _ a => a = false | _ => True end) es)
    by (destruct Hc as [?|Hc]; [by left|right; by apply Forall_cons in Hc as [_ ?]]).
  destruct (sys_exec_inv L HL s e I F1) as [(s' & E & I')|[E Ho]].
  - rewrite E in Hs |- *. rewrite bind_ret_l. apply IH; [done|done|done| |done]. by eapply one_writer_step.
  - exfalso. destruct Ho as [(i & n & now & wr & _ & Hi & Hov)|(n & a & -> & -> & p & Ep & Hp)].
    + destruct O as [O _]. destruct (own_len_not_over _ _ (O i wr Hi) Hov).
    + destruct Hc as [Hc|Hc]; [|by apply Forall_cons in Hc as [? _]].
      pose proof (si_pc L s I) as Hpc. rewrite Ep in Hpc. cbn in Hpc. lia.
Qed.

(** The longest writes whose records fit, three of them, the array for the
    answer of the server. *)
Definition short : nat := Z.to_nat 1341.


(** A location is written and sent to a server that answers. *)
Definition one_report : list sevent :=
  [SThread; SCall [65; 66; 0]] ++ replicate 9 (SWriter 0 (Z.to_nat 5000) (mkTimeval 7 8)) ++
  replicate 11 (SReply (Z.to_nat 5000) true).


(** ** Two schedules that go wrong *)

(** Two processes answer the request for the location at the same time; the
    second copies as many bytes as the first one announced. *)
Definition overlapping : list sevent :=
  let t := mkTimeval 1 0 in let w i := SWriter i (Z.to_nat 5000) t in
  [SThread; SCall [65; 66; 67; 68]; SCall [97]; w 0%nat; w 1%nat;
   w 1%nat; w 1%nat; w 1%nat; w 0%nat; w 0%nat; w 0%nat; w 1%nat; w 1%nat; w 1%nat; w 1%nat].

(** Two overlapping calls of [write] can make one of them read past
    the bytes it was given. *)
Theorem overlapping_writes_overread : sys_run sys_start overlapping = Err Undefined.
Proof. by vm_compute. Qed.

(** A record is rewritten while the reply thread encodes it, between its
    reads of [cxt->len]. *)
Definition torn : list sevent :=
  let t := mkTimeval 1 0 in let w i := SWriter i (Z.to_nat 5000) t in let r := SReply (Z.to_nat 5000) false in
  [SThread; SCall [65; 66]] ++ replicate 9 (w 0%nat) ++
  [SThread; SRelease; SThread; SRelease; SThread; SThread; SThread; SCall [67]; w 1%nat; w 1%nat] ++
  replicate 5 r ++ [w 1%nat] ++ replicate 6 r.

Definition undecodable (o : res sys) : bool :=
  match o with
  | Ok s => match s_sent s with [m] => match decode 3 m with None => true | Some _ => false end | _ => false end
  | Err _ => false
  end.

(** Even when calls of [write] do not overlap, a message of the reply
    thread can be one that no reader of the format can decode: its length
    field comes from before a write and its bytes from after it. *)
Theorem torn_message :
  serial sys_start torn = true /\
  exists s m, sys_run sys_start torn = Ok s /\ s_sent s = [m] /\ decode 3 m = None.
Proof.
  split; [by vm_compute|].
  assert (H : undecodable (sys_run sys_start torn) = true) by by vm_compute.
  revert H. generalize (sys_run sys_start torn). intros [s|x]; unfold undecodable; [|done].
  destruct (s_sent s) as [|m [|]] eqn:E; try done. intros H.
  exists s, m. split; [done|]. split; [done|]. revert H. by destruct (decode 3 m).
Qed.

(** ** An undisturbed iteration *)

(** What the reply thread has encoded when only the records of [todo] are
    left, and the frame of one record in its parts. *)
Definition frames (d : dev) (ks : list Z) : list Z :=
  concat ((fun w => cxt_frame (record_of w d) w) <$> ks).

Definition header (d : dev) (w : Z) : list Z :=
  le 4 w ++ (le 8 (tv_sec (cxt_ts (record_of w d))) ++ le 8 (tv_usec (cxt_ts (record_of w d)))) ++
  le 4 (cxt_len (record_of w d)).

(** The front of the reply buffer at each point of an iteration. *)
Definition encoded (d : dev) (pc : rpc) (r : reply) : Prop :=
  let front p bs := p = Z.of_nat (length bs) /\ take (Z.to_nat p) (reply_msg r) = bs in
  let inside w todo (p : Z) (part : list Z) :=
    exists ks, kinds = ks ++ w :: todo /\ cxt_len (record_of w d) <> 0 /\ front p (frames d ks ++ part) in
  match pc with
  | RTop | RExited => True
  | RTest todo p => exists ks, kinds = ks ++ todo /\ front p (frames d ks)
  | RSec w todo p => inside w todo p (le 4 w)
  | RUsec w todo p => inside w todo (p + 8) (take 12 (header d w))
  | RLen w todo p => inside w todo p (take 20 (header d w))
  | RCount w todo p => inside w todo p (header d w)
  | RCopy w todo p m k => m = Z.to_nat (cxt_len (record_of w d)) /\
      inside w todo (p + Z.of_nat k) (header d w ++ take k (cxt_buf (record_of w d)))
  | RAdvance w todo p => inside w todo (p + cxt_len (record_of w d)) (frame (record_of w d) w)
  end.

Lemma frames_snoc d ks w :
  frames d (ks ++ [w]) = frames d ks ++ cxt_frame (record_of w d) w.
Proof. unfold frames. rewrite fmap_app, concat_app. cbn. by rewrite app_nil_r. Qed.

(** A store at the end of the front. *)
Lemma put_encoded r p bs new :
  reply_ok r -> p = Z.of_nat (length bs) -> take (Z.to_nat p) (reply_msg r) = bs ->
  p + Z.of_nat (length new) <= 65535 ->
  exists mem, put (reply_msg r) p new = Ok mem /\ length mem = length (reply_msg r) /\
    take (Z.to_nat (p + Z.of_nat (length new))) mem = bs ++ new.
Proof. intros (L & _) Hp Ht Hs. apply put_front; [done|lia|done|lia]. Qed.

(** A store that goes on with the frame of [w]. *)
Lemma store_encoded d r p q w todo part new (pc pc' : rpc) r' ms :
  reply_ok r -> p + Z.of_nat (length new) <= 65535 -> q = p + Z.of_nat (length new) ->
  (exists ks, kinds = ks ++ w :: todo /\ cxt_len (record_of w d) <> 0 /\
     p = Z.of_nat (length (frames d ks ++ part)) /\
     take (Z.to_nat p) (reply_msg r) = frames d ks ++ part) ->
  (mem ← put (reply_msg r) p new; mret (pc, mkReply mem (index r) (otp r), @nil (list Z))) = Ok (pc', r', ms) ->
  pc' = pc /\ ms = [] /\
  exists ks, kinds = ks ++ w :: todo /\ cxt_len (record_of w d) <> 0 /\
    q = Z.of_nat (length (frames d ks ++ part ++ new)) /\
    take (Z.to_nat q) (reply_msg r') = frames d ks ++ part ++ new.
Proof.
  intros Hr Hs -> (ks & Hk & Hl & Hp & Ht) E.
  destruct (put_encoded r p _ new Hr Hp Ht Hs) as (mem & Em & _ & Hm). rewrite Em, bind_ret_l in E.
  injection E as <- <- <-. split; [done|]. split; [done|]. exists ks. split; [done|]. split; [done|].
  rewrite (assoc_L (++)). split; [rewrite length_app; lia|exact Hm].
Qed.

Lemma encoded_step n ans d auto pc r pc' r' ms :
  records_ok d -> pc_ok buf_size pc -> reply_ok r -> encoded d pc r ->
  thread_reply_step n ans d auto pc r = Ok (pc', r', ms) ->
  encoded d pc' r' /\ Forall (fun m => m = frames d kinds) ms.
Proof.
  intros Hd Hp Hr He E. assert (Hc := fun w => proj1 (cxt_ok_Z _) (Hd w)). pose proof buf_size_Z as B.
  unfold pc_ok in Hp. unfold thread_reply_step in E.
  assert (HF : frame_max buf_size = 4112) by done. assert (HR := room_nonneg buf_size).
  destruct pc as [|[|w todo] p|w todo p|w todo p|w todo p|w todo p|w todo p m k|w todo p|]; cbn [encoded] in He.
  - destruct (auto =? 0); [by injection E as <- <- <-|].
    destruct (totp_getCodeFromSteps (index r) (otp r)) as [[c t]|]; [|done]. injection E as <- <- <-.
    split; [|done]. by exists [].
  - destruct (ans && _); [done|]. rewrite bind_ret_l in E.
    injection E as <- <- <-. split; [done|]. destruct He as (ks & Hk & Hf & Ht). rewrite app_nil_r in Hk.
    subst ks. by constructor.
  - destruct He as (ks & Hk & Hf & Ht). destruct (Z.eqb_spec (cxt_len (record_of w d)) 0) as [El|El].
    + injection E as <- <- <-. split; [|done]. exists (ks ++ [w]). split; [by rewrite <- (assoc_L (++))|].
      rewrite frames_snoc. unfold cxt_frame. rewrite El. cbn [Z.eqb]. by rewrite app_nil_r.
    + cbn [room] in Hp. specialize (HR todo). eapply (store_encoded d r p (p + 4) w todo []) in E as (-> & -> & H);
        [|done|rewrite le_length; lia|by rewrite le_length|exists ks; by rewrite app_nil_r].
      split; [exact H|done].
  - specialize (HR todo). eapply (store_encoded d r p (p + 8) w todo (le 4 w)) in E as (-> & -> & H);
      [|done|rewrite le_length; lia|by rewrite le_length|exact He]. split; [exact H|done].
  - specialize (HR todo). eapply (store_encoded d r (p + 8) (p + 16) w todo (take 12 (header d w))) in E as (-> & -> & H);
      [|done|rewrite le_length; lia|rewrite le_length; lia|exact He]. split; [exact H|done].
  - specialize (HR todo). eapply (store_encoded d r p (p + 4) w todo (take 20 (header d w))) in E as (-> & -> & H);
      [|done|rewrite le_length; lia|by rewrite le_length|exact He]. split; [exact H|done].
  - injection E as <- <- <-. split; [|done]. split; [done|]. cbn [take]. by rewrite Z.add_0_r, app_nil_r.
  - specialize (HR todo). destruct (Hc w) as [H1 H2]. destruct He as [Hm He].
    destruct (Nat.ltb_spec (length (cxt_buf (record_of w d))) ((k + S n) `min` m)) as [|Hk]; [done|].
    set (k' := ((k + S n) `min` m)%nat) in *.
    assert (Ek : take k (cxt_buf (record_of w d)) ++ take (k' - k) (drop k (cxt_buf (record_of w d))) =
                 take k' (cxt_buf (record_of w d))).
    { rewrite take_take_drop. f_equal. lia. }
    eapply (store_encoded d r (p + Z.of_nat k) (p + Z.of_nat k') w todo (header d w ++ take k (cxt_buf (record_of w d)))) in E as (-> & -> & H);
      [|done|rewrite length_take, length_drop; lia|rewrite length_take, length_drop; lia|exact He].
    rewrite <- (assoc_L (++)), Ek in H. split; [|done].
    destruct (Nat.ltb_spec k' m); [split; [done|exact H]|]. cbn [encoded]. unfold frame.
    replace k' with (Z.to_nat (cxt_len (record_of w d))) in H by lia. rewrite Z2Nat.id in H by lia.
    unfold header in H. rewrite <- !(assoc_L (++)) in H. rewrite <- !(assoc_L (++)). exact H.
  - injection E as <- <- <-. split; [|done]. destruct He as (ks & Hk & Hl & Hf & Ht).
    exists (ks ++ [w]). split; [by rewrite <- (assoc_L (++))|]. rewrite frames_snoc. unfold cxt_frame.
    destruct (Z.eqb_spec (cxt_len (record_of w d)) 0); [done|]. done.
  - by injection E as <- <- <-.
Qed.

Lemma decode_frames d :
  records_ok d -> times_ok d -> decode 3 (frames d kinds) = Some (context_items d).
Proof.
  intros Hd (T1 & T2 & T3). unfold frames, kinds, context_items. cbn [fmap list_fmap concat].
  change (record_of CXT_LOCATION d) with (cxt_location_info d).
  change (record_of CXT_PACKAGE d) with (cxt_package_info d).
  change (record_of CXT_DISPLAYSTATE d) with (cxt_display_info d).
  rewrite <- (app_nil_r (cxt_item (cxt_display_info d) CXT_DISPLAYSTATE)).
  apply decode_cxt_some; [exact (Hd CXT_LOCATION)|done|done|].
  apply decode_cxt_some; [exact (Hd CXT_PACKAGE)|done|done|].
  apply decode_cxt_some; [exact (Hd CXT_DISPLAYSTATE)|done|done|done].
Qed.

Definition same_records (d d' : dev) : Prop := forall w, record_of w d' = record_of w d.

Lemma frames_same d d' ks : same_records d d' -> frames d' ks = frames d ks.
Proof.
  intros H. unfold frames. f_equal. apply list_fmap_ext. intros i w _. by rewrite H.
Qed.

Lemma context_items_same d d' : same_records d d' -> context_items d' = context_items d.
Proof.
  intros H. pose proof (H CXT_LOCATION) as H1. pose proof (H CXT_PACKAGE) as H2. pose proof (H CXT_DISPLAYSTATE) as H3.
  unfold record_of in H1, H2, H3. cbn in H1, H2, H3. unfold context_items. by rewrite H1, H2, H3.
Qed.

Lemma encoded_same d d' pc r : same_records d d' -> encoded d pc r -> encoded d' pc r.
Proof.
  intros H. assert (Hf := fun ks => frames_same d d' ks H).
  destruct pc; cbn [encoded]; unfold header; rewrite ?H; try setoid_rewrite Hf; done.
Qed.

(** A step of the system that stores nothing into the records. *)
Inductive quiet : sys -> sys -> Prop :=
| quiet_step s e s' : sys_exec s e = Ok s' -> same_records (s_dev s) (s_dev s') -> quiet s s'.

Lemma quiet_encoded s s' :
  sys_inv buf_size s -> times_ok (s_dev s) -> encoded (s_dev s) (s_pc s) (s_reply s) -> quiet s s' ->
  sys_inv buf_size s' /\ times_ok (s_dev s') /\ encoded (s_dev s') (s_pc s') (s_reply s') /\
  exists ms, s_sent s' = s_sent s ++ ms /\
    Forall (fun m => decode 3 m = Some (context_items (s_dev s))) ms.
Proof.
  intros I T He Hq. destruct Hq as [s0 e s1 E Hs]. destruct (sys_exec_inv buf_size (Nat.le_refl _) s0 e I (Forall_inv (events_fit [e]))) as [(s2 & E2 & I2)|[E2 _]]; [|by rewrite E in E2].
  rewrite E in E2. injection E2 as <-. split; [done|]. split.
  { pose proof (Hs CXT_LOCATION) as H1. pose proof (Hs CXT_PACKAGE) as H2. pose proof (Hs CXT_DISPLAYSTATE) as H3.
    unfold record_of in H1, H2, H3. cbn in H1, H2, H3. unfold times_ok in *. by rewrite H1, H2, H3. }
  assert (Hkeep : s_pc s1 = s_pc s0 -> s_reply s1 = s_reply s0 -> s_sent s1 = s_sent s0 ->
    encoded (s_dev s1) (s_pc s1) (s_reply s1) /\ exists ms, s_sent s1 = s_sent s0 ++ ms /\
      Forall (fun m => decode 3 m = Some (context_items (s_dev s0))) ms).
  { intros -> -> ->. split; [by eapply encoded_same|]. exists []. by rewrite app_nil_r. }
  destruct e as [|b|i n now|n ans| | |]; cbn [sys_exec] in E.
  - apply Hkeep; by injection E as <-.
  - apply Hkeep; by injection E as <-.
  - destruct (s_writers s0 !! i) as [wr|]; [|apply Hkeep; by injection E as <-].
    destruct (poise_write_step n now wr (s_dev s0)) as [[[wr' d'] ls]|]; [|done]. apply Hkeep; by injection E as <-.
  - destruct (thread_reply_step n _ _ _ _ _) as [[[pc r] ms]|] eqn:Er; [|done]. injection E as <-.
    destruct I as [I1 _ I3 I4 _ _]. apply bounded_ok in I1; [|done]. destruct (encoded_step n _ _ _ _ _ pc r ms I1 I3 I4 He Er) as [He' Hms].
    split; [exact He'|]. exists ms. split; [done|]. eapply Forall_impl; [exact Hms|].
    intros m ->. by apply decode_frames.
  - apply Hkeep; by injection E as <-.
  - apply Hkeep; by injection E as <-.
  - apply Hkeep; by injection E as <-.
Qed.

(** C21: from the top of the loop of the reply thread on, as long as no writer
    stores into the records, every message sent decodes to the records as
    they are, whatever else the processes, the collecting thread and the
    module do in between. *)
Theorem undisturbed_messages (es : list sevent) (s s' : sys) :
  sys_run sys_start es = Ok s -> s_pc s = RTop -> times_ok (s_dev s) -> rtc quiet s s' ->
  exists ms, s_sent s' = s_sent s ++ ms /\
    Forall (fun m => decode 3 m = Some (context_items (s_dev s))) ms.
Proof.
  intros Hr Hp T Hq. pose proof (sys_run_inv buf_size (Nat.le_refl _) es sys_start (sys_start_inv _) (events_fit es)) as I. rewrite Hr in I.
  assert (He : encoded (s_dev s) (s_pc s) (s_reply s)) by by rewrite Hp. clear Hr Hp.
  induction Hq as [s|s s1 s' H1 _ IH]; [exists []; by rewrite app_nil_r|].
  destruct (quiet_encoded s s1 I T He H1) as (I1 & T1 & He1 & ms & E & Hms).
  destruct (IH T1 I1 He1) as (ms' & E' & Hms'). exists (ms ++ ms').
  split; [by rewrite E', E, <- (assoc_L (++))|]. apply Forall_app. split; [done|].
  destruct H1 as [s0 e s1 _ Hs]. by rewrite (context_items_same _ _ Hs) in Hms'.
Qed.

(** The accesses of the reply thread store nothing into the records. *)
Lemma quiet_replies k n ans : forall s s', sys_run s (replicate k (SReply n ans)) = Ok s' -> rtc quiet s s'.
Proof.
  induction k as [|k IH]; intros s s' H; cbn [replicate sys_run] in H; [injection H as <-; apply rtc_refl|].
  destruct (sys_exec s (SReply n ans)) as [s1|x] eqn:E; [|discriminate H]. rewrite bind_ret_l in H.
  eapply rtc_l; [|by apply IH]. apply (quiet_step s (SReply n ans) s1 E). intros w. cbn [sys_exec] in E.
  destruct (thread_reply_step _ _ _ _ _ _) as [[[pc r] ms]|]; [|discriminate E]. by injection E as <-.
Qed.

(** The location has been answered and the thread waits for the display
    state; then the reply thread makes an iteration. *)
Definition answered : list sevent :=
  [SThread; SCall [65; 66]] ++ replicate 9 (SWriter 0 (Z.to_nat 5000) (mkTimeval 7 8)) ++ [SThread].

Definition answered_ok (o : res sys) : bool :=
  match o with
  | Ok s =>
      match s_pc s with RTop => true | _ => false end &&
      (cxt_len (cxt_location_info (s_dev s)) =? 2) &&
      bool_decide (s_sent s = []) &&
      match sys_run s (replicate 11 (SReply (Z.to_nat 5000) true)) with
      | Ok s' => (length (s_sent s') =? 1)%nat
      | Err _ => false
      end
  | Err _ => false
  end.

Definition same_times (o : res sys) : bool :=
  match o with
  | Ok s =>
      let t c := (tv_sec (cxt_ts c), tv_usec (cxt_ts c)) in
      bool_decide (t (cxt_location_info (s_dev s)) = (7, 8)) &&
      bool_decide (t (cxt_package_info (s_dev s)) = (0, 0)) &&
      bool_decide (t (cxt_display_info (s_dev s)) = (0, 0))
  | Err _ => false
  end.

Lemma undisturbed_messages_witness :
  exists s s' m, sys_run sys_start answered = Ok s /\ s_sent s' = [m] /\
    cxt_len (cxt_location_info (s_dev s)) = 2 /\ decode 3 m = Some (context_items (s_dev s)).
Proof.
  assert (H : answered_ok (sys_run sys_start answered) = true) by (vm_compute; reflexivity).
  assert (HT : same_times (sys_run sys_start answered) = true) by (vm_compute; reflexivity).
  destruct (sys_run sys_start answered) as [s|x] eqn:E; [|discriminate H].
  unfold answered_ok in H. apply andb_prop in H as [[[H1 H2]%andb_prop H3]%andb_prop H4].
  destruct (sys_run s (replicate 11 (SReply (Z.to_nat 5000) true))) as [s'|x] eqn:E'; [|discriminate H4].
  apply bool_decide_eq_true in H3. apply Z.eqb_eq in H2. apply Nat.eqb_eq in H4.
  destruct (undisturbed_messages answered s s' E) as (ms & Hs & Hms).
  - destruct (s_pc s); [reflexivity|discriminate H1..].
  - unfold same_times in HT. apply andb_prop in HT as [[T1 T2]%andb_prop T3].
    apply bool_decide_eq_true in T1, T2, T3. injection T1 as A1 A2. injection T2 as B1 B2. injection T3 as C1 C2.
    unfold times_ok, time_ok. rewrite A1, A2, B1, B2, C1, C2. repeat split; lia.
  - exact (quiet_replies _ _ _ _ _ E').
  - rewrite H3 in Hs. cbn [app] in Hs. rewrite Hs in H4. destruct ms as [|m [|]]; [discriminate H4| |discriminate H4].
    exists s, s', m. split; [reflexivity|]. split; [exact Hs|]. split; [exact H2|].
    apply Forall_inv in Hms. exact Hms.
Defined.
