(* ===== verification/InterleaveWrite.v ===== *)
(** A call of [poise_write] that runs by itself, access by access and with
    [memset] and [memcpy] cut anywhere, returns and does what the single step
    of Device.v does: the coarse model is a refinement of the fine one as far
    as writes do not overlap. *)

From stdpp Require Import base list.
From Stdlib Require Import ZArith Lia.
From S2P Require Import Prelude Wire Device Reply Interleave InterleaveProps.

Local Open Scope Z_scope.

#[local] Arguments clear_cells : simpl never.
#[local] Arguments cells : simpl never.
#[local] Arguments buf_size : simpl never.
#[local] Arguments cxt_zero : simpl never.

(** ** Clearing in parts *)

Lemma set_record_twice w c c' d : set_record w c (set_record w c' d) = set_record w c d.
Proof. unfold set_record. by repeat case_match. Qed.

Lemma set_record_id w d : set_record w (record_of w d) d = d.
Proof. unfold set_record, record_of. destruct d. by repeat case_match. Qed.

Lemma clear_cells_0 c : clear_cells 0 0 c = c.
Proof. by destruct c as [[] ? ?]. Qed.

Lemma clear_buf_app (l : list Z) (a b : nat) : (a <= b)%nat ->
  take a (replicate a 0 ++ drop a l) ++ replicate (b - a) 0 ++ drop b (replicate a 0 ++ drop a l) =
  replicate b 0 ++ drop b l.
Proof.
  intros H. rewrite take_app_length' by (by rewrite length_replicate).
  rewrite (drop_app_ge (replicate a 0)) by (rewrite length_replicate; lia).
  rewrite length_replicate, drop_drop, (assoc_L (++)), <- replicate_add. do 2 f_equal; lia.
Qed.

Lemma clear_cells_app k k' c : (k <= k')%nat -> clear_cells k k' (clear_cells 0 k c) = clear_cells 0 k' c.
Proof.
  intros H. unfold clear_cells. cbn [cxt_ts cxt_len cxt_buf tv_sec tv_usec].
  rewrite !Nat.sub_0_l, !Nat.sub_0_r, !take_0. cbn [app]. rewrite clear_buf_app by lia.
  f_equal; [f_equal|].
  - destruct (Nat.leb_spec k 0), (Nat.ltb_spec 0 k'), (Nat.ltb_spec 0 k); cbn; try done; lia.
  - destruct (Nat.leb_spec k 1), (Nat.ltb_spec 1 k'), (Nat.ltb_spec 1 k); cbn; try done; lia.
  - destruct (Nat.leb_spec k 2), (Nat.ltb_spec 2 k'), (Nat.ltb_spec 2 k); cbn; try done; lia.
Qed.

Lemma cxt_zero_buf : cxt_buf cxt_zero = replicate buf_size 0.
Proof. done. Qed.

Lemma clear_cells_all c : cxt_ok c -> clear_cells 0 cells c = cxt_zero.
Proof.
  intros [_ H]%cxt_ok_Z. pose proof buf_size_Z as B. unfold clear_cells, cells.
  replace (3 + buf_size - 3 - (0 - 3))%nat with buf_size by lia.
  replace (3 + buf_size - 3)%nat with buf_size by lia.
  rewrite (drop_ge (cxt_buf c)) by lia. cbn [take Nat.sub app]. rewrite app_nil_r, <- cxt_zero_buf. done.
Qed.

(** ** A call by itself *)

(** The state of the device at each point of a call of [poise_write] for
    [buffer] that began in [d0]. *)
Definition alone (now : timeval) (buffer : list Z) (d0 : dev) (pc : wpc) (d : dev) : Prop :=
  let w0 := syn_msg d0 in
  let with_record c := d = set_record w0 c (set_syn_msg 0 d0) in
  let z := cxt_buf cxt_zero in
  match pc with
  | WSwitch => d = d0
  | WClear w => w = w0 /\ is_request w0 /\ d = d0
  | WMemset w k => w = w0 /\ is_request w0 /\ with_record (clear_cells 0 k (record_of w0 d0))
  | WLen w => w = w0 /\ is_request w0 /\ with_record cxt_zero
  | WSec w => w = w0 /\ is_request w0 /\ with_record (mkCxt (mkTimeval 0 0) (write_len buffer) z)
  | WUsec w u => w = w0 /\ is_request w0 /\ u = tv_usec now /\
      with_record (mkCxt (mkTimeval (tv_sec now) 0) (write_len buffer) z)
  | WCount w => w = w0 /\ is_request w0 /\ with_record (mkCxt now (write_len buffer) z)
  | WCopy w m k => w = w0 /\ is_request w0 /\ m = Z.to_nat (write_len buffer) /\
      with_record (mkCxt now (write_len buffer) (take k buffer ++ drop k z))
  | WLog w => w = w0 /\ is_request w0 /\ with_record (store now buffer)
  | WDone => d = snd (poise_write now buffer d0)
  end.

(** What a call has logged at each point, given what it had logged before. *)
Definition alone_log (now : timeval) (buffer : list Z) (d0 : dev) (pc : wpc) (l0 l : list (option (list Z))) : Prop :=
  l = match pc with WDone => l0 ++ [poise_write_log now buffer d0] | _ => l0 end.

(** How many accesses a call is from its return. *)
Definition write_rank (pc : wpc) : nat :=
  match pc with
  | WSwitch => cells + buf_size + 7
  | WClear _ => cells + buf_size + 6
  | WMemset _ k => cells - k + buf_size + 5
  | WLen _ => buf_size + 5
  | WSec _ => buf_size + 4
  | WUsec _ _ => buf_size + 3
  | WCount _ => buf_size + 2
  | WCopy _ m k => (m - k) `max` 1 + 1
  | WLog _ => 1
  | WDone => 0
  end%nat.

(** The coarse write, when there is a request. *)
Lemma poise_write_request now buffer d : is_request (syn_msg d) ->
  snd (poise_write now buffer d) = set_record (syn_msg d) (store now buffer) (set_syn_msg 0 d).
Proof. unfold poise_write, set_record. by intros [E|[E|E]]; rewrite E. Qed.

Lemma poise_write_other now buffer d : ~ is_request (syn_msg d) -> snd (poise_write now buffer d) = d.
Proof.
  intros N. destruct (poise_write_cases now buffer d) as [H|[[E _]|[[E _]|[E _]]]];
    [done|destruct N; unfold is_request; by auto..].
Qed.

Lemma switch_request d :
  ((syn_msg d =? CXT_LOCATION) || (syn_msg d =? CXT_DISPLAYSTATE) || (syn_msg d =? CXT_PACKAGE)) = true <->
  is_request (syn_msg d).
Proof. unfold is_request. rewrite !orb_true_iff, !Z.eqb_eq. tauto. Qed.

Lemma record_syn w v d : record_of w (set_syn_msg v d) = record_of w d.
Proof. done. Qed.

(** Copying in parts. *)
Lemma copy_app (b z : list Z) (k k' : nat) : (k <= k' <= length b)%nat -> (k' <= length z)%nat ->
  take k (take k b ++ drop k z) ++ take (k' - k) (drop k b) ++ drop k' (take k b ++ drop k z) =
  take k' b ++ drop k' z.
Proof.
  intros H Hz. assert (L : length (take k b) = k) by (rewrite length_take; lia).
  rewrite take_app_length' by done. rewrite (drop_app_ge (take k b)) by lia.
  rewrite L, drop_drop, (assoc_L (++)), take_take_drop. do 2 f_equal; lia.
Qed.

Lemma alone_step n now wr d0 d :
  records_ok d0 -> writer_ok buf_size wr -> alone now (w_buffer wr) d0 (w_pc wr) d ->
  exists pc' d' ls, poise_write_step n now wr d = Ok (mkWriter (w_buffer wr) pc', d', ls) /\
    alone now (w_buffer wr) d0 pc' d' /\ writer_ok buf_size (mkWriter (w_buffer wr) pc') /\
    (write_rank pc' <= write_rank (w_pc wr) - 1)%nat /\
    forall l0 l, alone_log now (w_buffer wr) d0 (w_pc wr) l0 l -> alone_log now (w_buffer wr) d0 pc' l0 (l ++ ls).
Proof.
  destruct wr as [b pc]. unfold writer_ok. cbn [w_pc w_buffer]. intros Hd [_ Hok] Ha. pose proof buf_size_Z as B.
  pose proof (fits_size b) as Hfit. unfold alone_log.
  assert (Hl : forall l0 l : list (option (list Z)), l = l0 -> l ++ [] = l0) by (intros l0 l ->; apply app_nil_r).
  pose proof (write_len_range b) as [WL1 WL2]. unfold MAX_CXT_SIZE in WL1.
  unfold poise_write_step. cbn [w_pc w_buffer]. destruct pc as [|w|w k|w|w|w u|w|w m k|w|]; cbn [alone] in Ha.
  - subst d. destruct (_ || _ || _) eqn:E.
    + pose proof E as E'. apply switch_request in E'. eexists _, _, _. split; [reflexivity|]. cbn.
      split; [done|]. split; [done|]. split; [unfold cells; lia|done].
    + eexists _, _, _. split; [reflexivity|]. cbn. split; [|split; [done|split; [lia|]]].
      * rewrite poise_write_other; [done|]. intros Hq%switch_request. congruence.
      * intros l0 l ->. unfold poise_write_log. by rewrite E.
  - destruct Ha as (-> & Hq & ->). eexists _, _, _. split; [reflexivity|]. cbn [alone w_pc write_rank].
    split; [|split; [split; [done|unfold cells; lia]|split; [lia|done]]]. split; [done|]. split; [done|].
    rewrite clear_cells_0. rewrite <- (record_syn _ 0). by rewrite set_record_id.
  - destruct Ha as (-> & Hq & ->). eexists _, _, _. split; [reflexivity|].
    rewrite record_set_same, set_record_twice. set (k' := ((k + S n) `min` cells)%nat).
    rewrite clear_cells_app by lia. destruct (Nat.ltb_spec k' cells) as [G|G]; cbn [alone w_pc write_rank].
    + split; [done|]. split; [done|]. split; [lia|done].
    + replace k' with cells by lia. rewrite clear_cells_all by apply Hd. split; [done|]. split; [done|]. split; [lia|done].
  - destruct Ha as (-> & Hq & ->). eexists _, _, _. split; [reflexivity|].
    rewrite record_set_same, set_record_twice. cbn [alone w_pc write_rank]. split; [done|]. split; [done|]. split; [lia|done].
  - destruct Ha as (-> & Hq & ->). eexists _, _, _. split; [reflexivity|].
    rewrite record_set_same, set_record_twice. cbn [alone w_pc write_rank]. split; [done|]. split; [done|]. split; [lia|done].
  - destruct Ha as (-> & Hq & -> & ->). eexists _, _, _. split; [reflexivity|].
    rewrite record_set_same, set_record_twice. cbn [alone w_pc write_rank]. split; [by destruct now|]. split; [done|]. split; [lia|done].
  - destruct Ha as (-> & Hq & ->). eexists _, _, _. split; [reflexivity|].
    rewrite record_set_same. cbn [alone w_pc write_rank cxt_len]. split; [done|]. split; [split; [done|lia]|]. split; [lia|done].
  - destruct Ha as (-> & Hq & -> & ->). rewrite record_set_same, set_record_twice. cbn [cxt_buf cxt_ts cxt_len].
    set (m := Z.to_nat (write_len b)) in *. set (k' := ((k + S n) `min` m)%nat).
    assert (Lz : length (cxt_buf cxt_zero) = buf_size) by (rewrite cxt_zero_buf; apply length_replicate).
    rewrite length_app, length_take, length_drop, Lz.
    destruct (Nat.ltb_spec (length b) k'); [lia|]. destruct (Nat.ltb_spec (k `min` length b + (buf_size - k)) k'); [lia|].
    cbn [orb]. eexists _, _, _. split; [reflexivity|]. rewrite copy_app by lia.
    destruct (Nat.ltb_spec k' m) as [G|G]; cbn [alone w_pc write_rank].
    + split; [done|]. split; [split; [done|lia]|]. split; [lia|done].
    + replace k' with m by lia. split; [done|]. split; [done|]. split; [lia|done].
  - destruct Ha as (-> & Hq & ->). eexists _, _, _. split; [reflexivity|]. rewrite record_set_same.
    cbn [alone w_pc write_rank]. split; [by rewrite poise_write_request|]. split; [done|]. split; [lia|].
    intros l0 l ->. unfold poise_write_log. by apply switch_request in Hq as ->.
  - subst d. eexists _, _, _. split; [reflexivity|]. cbn. split; [done|]. split; [done|]. split; [lia|].
    intros l0 l ->. apply app_nil_r.
Qed.

(** C22: a call of [poise_write] whose accesses are not interleaved with those
    of others returns after at most 8186 of them, however [memset] and
    [memcpy] are cut, and leaves the device as the single step of the coarse
    model does; what it logs with [%s] is what that step reads, none when it
    runs past the array. *)
Theorem poise_write_alone (es0 : list sevent) (s : sys) (i : nat) (buffer : list Z) (now : timeval)
    (ns : list nat) :
  sys_run sys_start es0 = Ok s -> s_writers s !! i = Some (mkWriter buffer WSwitch) ->
  8186 <= Z.of_nat (length ns) ->
  exists s', sys_run s ((fun n => SWriter i n now) <$> ns) = Ok s' /\
    s_writers s' !! i = Some (mkWriter buffer WDone) /\
    s_dev s' = snd (poise_write now buffer (s_dev s)) /\ s_sent s' = s_sent s /\
    s_log s' = s_log s ++ [poise_write_log now buffer (s_dev s)].
Proof.
  intros Hr Hi Hn. pose proof (sys_run_inv buf_size (Nat.le_refl _) es0 sys_start (sys_start_inv _) (events_fit es0)) as I.
  rewrite Hr in I. clear Hr.
  pose proof (bounded_ok buf_size (Nat.le_refl _) _ (si_bounded _ _ I)) as Hd.
  assert (G : forall ns s1 pc, s_writers s1 !! i = Some (mkWriter buffer pc) -> writer_ok buf_size (mkWriter buffer pc) ->
    alone now buffer (s_dev s) pc (s_dev s1) -> alone_log now buffer (s_dev s) pc (s_log s) (s_log s1) ->
    (write_rank pc <= length ns)%nat ->
    exists s', sys_run s1 ((fun n => SWriter i n now) <$> ns) = Ok s' /\
      s_writers s' !! i = Some (mkWriter buffer WDone) /\
      s_dev s' = snd (poise_write now buffer (s_dev s)) /\ s_sent s' = s_sent s1 /\
      s_log s' = s_log s ++ [poise_write_log now buffer (s_dev s)]).
  { clear Hn Hi ns. induction ns as [|n ns IH]; intros s1 pc Hi Hok Ha Hlog Hl.
    - destruct pc; cbn in Hl; try (unfold cells in *; lia). by exists s1.
    - destruct (alone_step n now (mkWriter buffer pc) (s_dev s) (s_dev s1) Hd Hok Ha)
        as (pc' & d' & ls & E & Ha' & Hok' & Hl' & Hlog').
      cbn [fmap list_fmap sys_run sys_exec]. rewrite Hi, E, !bind_ret_l.
      destruct (IH (mkSys d' (<[i:=mkWriter buffer pc']> (s_writers s1)) (s_pc s1) (s_reply s1)
                     (read_context_auto s1) (s_sent s1) (s_log s1 ++ ls)) pc') as (s' & H1 & H2 & H3 & H4 & H5); try done.
      + cbn. apply list_lookup_insert_eq. by eapply lookup_lt_Some.
      + by apply Hlog'.
      + cbn [w_pc length] in *. lia.
      + by exists s'. }
  apply (G ns s WSwitch); try done.
  - split; [apply fits_size|done].
  - cbn. pose proof buf_size_Z as B. unfold cells. lia.
Qed.

Lemma poise_write_alone_witness :
  exists s s', sys_run sys_start [SThread; SCall [65; 66]] = Ok s /\
    sys_run s (replicate (Z.to_nat 8186) (SWriter 0 0 (mkTimeval 7 8))) = Ok s' /\
    cxt_location_info (s_dev s') = store (mkTimeval 7 8) [65; 66].
Proof.
  destruct (sys_run sys_start [SThread; SCall [65; 66]]) as [s|x] eqn:E; [|discriminate E].
  assert (Hs : s = mkSys asking [mkWriter [65; 66] WSwitch] RTop (reply_start reply_zero) 1 [] []).
  { cbn [sys_run sys_exec] in E. rewrite !bind_ret_l in E. injection E as <-. reflexivity. }
  destruct (poise_write_alone [SThread; SCall [65; 66]] s 0 [65; 66] (mkTimeval 7 8) (replicate (Z.to_nat 8186) 0%nat) E)
    as (s' & H1 & _ & H2 & _).
  - rewrite Hs. reflexivity.
  - rewrite length_replicate. lia.
  - exists s, s'. split; [reflexivity|]. rewrite fmap_replicate in H1. split; [exact H1|].
    rewrite H2, Hs. reflexivity.
Defined.
