(* ===== verification/Netfilter.v ===== *)
(** The outgoing packet hook of the kernel module
    (src/client-module/kernel-module/mon_nf.c): packets of one application get
    a 16-byte context option in their TCP header, and are split in two when
    they would not fit.  A socket buffer is the fields of its IP and TCP headers
    and the bytes behind the fixed TCP header: the TCP options, then the
    payload.  Left out is the IP checksum, which the kernel's [ip_fast_csum]
    fills in, and the IP options; the TCP checksum is a field like any other,
    since the module never computes it. *)

From stdpp Require Import base list.
From Stdlib Require Import ZArith Lia.
From S2P Require Import Prelude Sha1.

Local Open Scope Z_scope.

Definition cxt_head_len : Z := 16.
Definition NF_DROP : Z := 0.
Definition NF_ACCEPT : Z := 1.
Definition NF_STOLEN : Z := 2.
Definition IPPROTO_TCP : Z := 6.
Definition t_uid : Z := 10059.

(** [h_source] is [None] when there is no Ethernet header; [ihl] and [doff]
    count 32-bit words; numbers are in host byte order.  [tflags] are the flag
    bits next to [doff] (FIN, SYN, RST, PSH, ACK, URG, ...). *)
Record sk_buff : Type := mkSkb {
  h_source : option (list Z);
  ihl : Z;
  tos : Z;
  tot_len : Z;
  id : Z;
  frag_off : Z;
  ttl : Z;
  protocol : Z;
  saddr : Z;
  daddr : Z;
  sport : Z;
  dport : Z;
  seqno : Z;
  ack_seq : Z;
  doff : Z;
  tflags : Z;
  window : Z;
  tcp_check : Z;
  urg_ptr : Z;
  l4rest : list Z
}.

(** [skb->len]. *)
Definition skb_len (s : sk_buff) : Z := 4 * ihl s + 20 + Z.of_nat (length (l4rest s)).

(** The offset of the payload in [l4rest]. *)
Definition data_off (s : sk_buff) : Z := 4 * doff s - 20.

Definition psize (s : sk_buff) : Z := tot_len s - 4 * ihl s - 4 * doff s.

(** ** Memory *)

(** [memmove(l + dst, l + src, n)]; outside the array it is undefined. *)
Definition memmove (l : list Z) (dst src n : Z) : res (list Z) :=
  if (0 <=? dst) && (0 <=? src) && (0 <=? n) &&
     (dst + n <=? Z.of_nat (length l)) && (src + n <=? Z.of_nat (length l))
  then Ok (take (Z.to_nat dst) l ++ take (Z.to_nat n) (drop (Z.to_nat src) l)
           ++ drop (Z.to_nat (dst + n)) l)
  else Err Undefined.

(** A store of [bs] at index [i]. *)
Definition store_at (l : list Z) (i : Z) (bs : list Z) : res (list Z) :=
  if (0 <=? i) && (i + Z.of_nat (length bs) <=? Z.of_nat (length l))
  then Ok (take (Z.to_nat i) l ++ bs ++ drop (Z.to_nat i + length bs) l)
  else Err Undefined.

(** The pointer a function returns: null, a buffer, or the integer
    [NF_ACCEPT] taken for one. *)
Inductive skb_ptr : Type :=
| Null
| Ptr (s : sk_buff)
| BadPtr.

(** The context option. *)
Definition cxt_option : list Z := [0x20; cxt_head_len] ++ replicate 14 0x0f.

(** [skb_put(n_skb, n)]: [n] bytes of the tail room become part of the data;
    the kernel panics when there are fewer. *)
Definition skb_put (rest room : list Z) (n : Z) : res (list Z) :=
  if n <=? Z.of_nat (length room) then Ok (rest ++ take (Z.to_nat n) room) else Err AssertFail.

(** [create_cxt_skb(skb, offset, len)].  [copy] is the outcome of
    [skb_copy_expand]: the bytes of the tail room behind the copy, or [None]
    when there is no memory.  The headers of a copy are never null. *)
Definition create_cxt_skb (copy : option (list Z)) (skb : sk_buff) (offset len : Z)
  : res skb_ptr :=
  match copy with
  | None => mret BadPtr
  | Some room =>
      rest ← skb_put (l4rest skb) room cxt_head_len;
      let data := data_off skb in
      let psize := psize skb in
      let dlen := if psize - offset >=? len then len else psize - offset in
      let trim := psize - len in
      rest ← (if dlen >? 0 then memmove rest (data + cxt_head_len) (data + offset) dlen
              else mret rest);
      let seq := if (dlen >? 0) && (offset >? 0) then u32 (seqno skb + offset) else seqno skb in
      rest ← store_at rest data cxt_option;
      let doff' := uwrap 4 (Z.shiftr (4 * doff skb + cxt_head_len) 2) in
      let '(rest, tot) :=
        if trim >? 0
        then (take (length rest - Z.to_nat trim) rest, uwrap 16 (tot_len skb - trim + cxt_head_len))
        else (rest, uwrap 16 (tot_len skb + cxt_head_len)) in
      mret (Ptr (mkSkb (h_source skb) (ihl skb) (tos skb) tot (id skb) (frag_off skb) (ttl skb) (protocol skb)
                   (saddr skb) (daddr skb) (sport skb) (dport skb) seq (ack_seq skb) doff' (tflags skb)
                   (window skb) (tcp_check skb) (urg_ptr skb) rest))
  end.

(** [ip_local_out]: what is sent; a pointer that is not a buffer is
    undefined. *)
Definition ip_local_out (p : skb_ptr) : res sk_buff :=
  match p with Ptr s => Ok s | _ => Err Undefined end.

(** [kfree_skb]. *)
Definition kfree_skb (p : skb_ptr) : res unit :=
  match p with Ptr _ => Ok tt | _ => Err Undefined end.

Definition is_null (p : skb_ptr) : bool := match p with Null => true | _ => false end.

(** [parse_tx_skb]: the verdict, the packets sent and [tx_pkt_num].  The
    outcomes of the two copies are [c1] and [c2]. *)
Definition parse_tx_skb (c1 c2 : option (list Z)) (skb : sk_buff) (tx_pkt_num : Z)
  : res (Z * list sk_buff * Z) :=
  match h_source skb with
  | None => mret (NF_ACCEPT, [], tx_pkt_num)
  | Some src =>
      if (nth 0 src 0 =? 0xff) && (nth 1 src 0 =? 0) then mret (NF_ACCEPT, [], tx_pkt_num) else
      if negb (protocol skb =? IPPROTO_TCP) || (id skb =? 0x8888) then mret (NF_ACCEPT, [], tx_pkt_num) else
      let psize := u32 (psize skb) in
      let loptsize := u32 (60 - 4 * doff skb) in
      if loptsize <? cxt_head_len then mret (NF_ACCEPT, [], tx_pkt_num) else
      let tx_pkt_num := uwrap 64 (tx_pkt_num + 1) in
      if tot_len skb + cxt_head_len >? 1500 then
        n_skb1 ← create_cxt_skb c1 skb 0 (psize / 2);
        n_skb2 ← create_cxt_skb c2 skb (psize / 2) (psize - psize / 2);
        if is_null n_skb1 || is_null n_skb2 then
          _ ← (if is_null n_skb1 then mret tt else kfree_skb n_skb1);
          _ ← (if is_null n_skb2 then mret tt else kfree_skb n_skb2);
          mret (NF_ACCEPT, [], tx_pkt_num)
        else
          s1 ← ip_local_out n_skb1;
          s2 ← ip_local_out n_skb2;
          mret (NF_STOLEN, [s1; s2], tx_pkt_num)
      else
        n_skb1 ← create_cxt_skb c1 skb 0 psize;
        if is_null n_skb1 then mret (NF_ACCEPT, [], tx_pkt_num) else
        s1 ← ip_local_out n_skb1;
        mret (NF_STOLEN, [s1], tx_pkt_num)
  end.

(** [nf_local_in_hook] accepts everything; the outgoing hook looks at the
    packets of one user: [uid] is that of the file behind the socket, if
    there is one. *)
Definition nf_local_in_hook : Z := NF_ACCEPT.

Definition nf_local_out_hook (c1 c2 : option (list Z)) (skb : option sk_buff) (uid : option Z)
    (tx_pkt_num : Z) : res (Z * list sk_buff * Z) :=
  match skb with
  | None => mret (NF_ACCEPT, [], tx_pkt_num)
  | Some skb =>
      if default 0 uid =? t_uid then parse_tx_skb c1 c2 skb tx_pkt_num
      else mret (NF_ACCEPT, [], tx_pkt_num)
  end.

(** ** What a packet carries *)

Definition options_of (s : sk_buff) : list Z := take (Z.to_nat (data_off s)) (l4rest s).
Definition payload (s : sk_buff) : list Z := drop (Z.to_nat (data_off s)) (l4rest s).

(** Header lengths in range, lengths that agree, at most 1500 bytes. *)
Record wf_skb (s : sk_buff) : Prop := {
  wf_ihl : 5 <= ihl s <= 15;
  wf_doff : 5 <= doff s <= 15;
  wf_len : tot_len s = skb_len s;
  wf_off : 4 * doff s <= 20 + Z.of_nat (length (l4rest s));
  wf_max : tot_len s <= 1500;
  wf_seq : 0 <= seqno s < 2 ^ 32
}.

(** [s'] carries the bytes [data] of [s], at the sequence number [seq], with
    the context option added; its lengths agree, and every other field is that
    of [s], the flags and the TCP checksum included. *)
Definition carries (s s' : sk_buff) (seq : Z) (data : list Z) : Prop :=
  wf_skb s' /\ payload s' = data /\ seqno s' = seq /\
  options_of s' = options_of s ++ cxt_option /\
  h_source s' = h_source s /\ ihl s' = ihl s /\ tos s' = tos s /\ id s' = id s /\
  frag_off s' = frag_off s /\ ttl s' = ttl s /\ protocol s' = protocol s /\
  saddr s' = saddr s /\ daddr s' = daddr s /\ sport s' = sport s /\ dport s' = dport s /\
  ack_seq s' = ack_seq s /\ tflags s' = tflags s /\ window s' = window s /\
  tcp_check s' = tcp_check s /\ urg_ptr s' = urg_ptr s.

(** ** Proofs *)

Lemma wf_payload s : wf_skb s -> Z.of_nat (length (payload s)) = psize s /\ 0 <= data_off s /\
  Z.of_nat (length (l4rest s)) = data_off s + psize s /\ 0 <= psize s.
Proof.
  intros [Hi Hd Hl Ho _ _]. unfold payload, psize, data_off, skb_len in *.
  rewrite length_drop. lia.
Qed.

(** Moving [n] bytes up inside an array. *)
Lemma memmove_ok l dst src n :
  0 <= dst -> 0 <= src -> 0 <= n -> dst + n <= Z.of_nat (length l) -> src + n <= Z.of_nat (length l) ->
  exists l', memmove l dst src n = Ok l' /\ length l' = length l /\
    take (Z.to_nat dst) l' = take (Z.to_nat dst) l /\
    take (Z.to_nat n) (drop (Z.to_nat dst) l') = take (Z.to_nat n) (drop (Z.to_nat src) l).
Proof.
  intros H1 H2 H3 H4 H5. unfold memmove.
  destruct (Z.leb_spec 0 dst), (Z.leb_spec 0 src), (Z.leb_spec 0 n),
    (Z.leb_spec (dst + n) (Z.of_nat (length l))), (Z.leb_spec (src + n) (Z.of_nat (length l)));
    try lia. cbn [andb]. eexists. split; [reflexivity|].
  assert (L1 : length (take (Z.to_nat dst) l) = Z.to_nat dst) by (rewrite length_take; lia).
  assert (L2 : length (take (Z.to_nat n) (drop (Z.to_nat src) l)) = Z.to_nat n)
    by (rewrite length_take, length_drop; lia).
  split; [|split].
  - rewrite !length_app, L1, L2, length_drop. lia.
  - by rewrite take_app_length'.
  - rewrite drop_app_length' by done. by rewrite take_app_length'.
Qed.

(** The moved payload, the option written in front of it, and the rest cut. *)
Lemma build_rest l tail o offset len ps :
  0 <= o -> 0 <= offset -> 0 <= len -> offset + len <= ps ->
  Z.of_nat (length l) = o + ps -> length tail = 16%nat ->
  exists l2 l3, (if len >? 0 then memmove (l ++ tail) (o + 16) (o + offset) len else mret (l ++ tail)) = Ok l2 /\
    store_at l2 o cxt_option = Ok l3 /\ Z.of_nat (length l3) = o + ps + 16 /\
    take (Z.to_nat (o + 16 + len)) l3 =
    (take (Z.to_nat o) l ++ cxt_option) ++ take (Z.to_nat len) (drop (Z.to_nat offset) (drop (Z.to_nat o) l)).
Proof.
  intros Ho Hoff Hlen Hps Hl Ht.
  assert (Lt : Z.of_nat (length (l ++ tail)) = o + ps + 16) by (rewrite length_app; lia).
  assert (H2 : exists l2, (if len >? 0 then memmove (l ++ tail) (o + 16) (o + offset) len
                           else mret (l ++ tail)) = Ok l2 /\ length l2 = length (l ++ tail) /\
    take (Z.to_nat (o + 16)) l2 = take (Z.to_nat (o + 16)) (l ++ tail) /\
    take (Z.to_nat len) (drop (Z.to_nat (o + 16)) l2) =
    take (Z.to_nat len) (drop (Z.to_nat (o + offset)) (l ++ tail))).
  { destruct (Z.gtb_spec len 0).
    - apply memmove_ok; lia.
    - assert (len = 0) as -> by lia. eexists. split; [reflexivity|]. done. }
  destruct H2 as (l2 & E2 & L2 & T2 & D2).
  assert (Hopt : length cxt_option = 16%nat) by done.
  exists l2. unfold store_at. rewrite Hopt.
  destruct (Z.leb_spec 0 o), (Z.leb_spec (o + Z.of_nat 16) (Z.of_nat (length l2))); try lia.
  cbn [andb]. eexists. split; [done|]. split; [reflexivity|].
  assert (L1 : length (take (Z.to_nat o) l2) = Z.to_nat o) by (rewrite length_take; lia).
  split.
  - rewrite !length_app, L1, length_drop, Hopt. lia.
  - rewrite (assoc_L (++)).
    assert (Lf : length (take (Z.to_nat o) l2 ++ cxt_option) = Z.to_nat (o + 16))
      by (rewrite length_app, L1, Hopt; lia).
    rewrite take_app_ge by lia. rewrite Lf.
    replace (Z.to_nat (o + 16 + len) - Z.to_nat (o + 16))%nat with (Z.to_nat len) by lia.
    replace (Z.to_nat o + 16)%nat with (Z.to_nat (o + 16)) by lia. rewrite D2.
    f_equal.
    + f_equal. assert (E : take (Z.to_nat o) (take (Z.to_nat (o + 16)) l2) =
                            take (Z.to_nat o) (take (Z.to_nat (o + 16)) (l ++ tail))) by by rewrite T2.
      rewrite !take_take, !Nat.min_l in E by lia. rewrite E.
      by rewrite take_app_le by lia.
    + rewrite drop_drop. replace (Z.to_nat o + Z.to_nat offset)%nat with (Z.to_nat (o + offset)) by lia.
      rewrite drop_app_le by lia. by rewrite take_app_le by (rewrite length_drop; lia).
Qed.

Lemma create_ok s room offset len :
  wf_skb s -> doff s <= 11 -> 16 <= Z.of_nat (length room) -> 0 <= offset -> 0 <= len ->
  offset + len <= psize s -> tot_len s - psize s + len + 16 <= 1500 ->
  exists s', create_cxt_skb (Some room) s offset len = Ok (Ptr s') /\
    carries s s' (if (len >? 0) && (offset >? 0) then u32 (seqno s + offset) else seqno s)
      (take (Z.to_nat len) (drop (Z.to_nat offset) (payload s))).
Proof.
  intros W Hd Ht Ho Hl Hps Hmax. pose proof (wf_payload s W) as (Lp & Hdo & Lr & Hp0).
  destruct W as [Wi Wd Wl Wo Wm Ws]. unfold create_cxt_skb.
  unfold skb_put. change cxt_head_len with 16.
  destruct (Z.leb_spec 16 (Z.of_nat (length room))); [|lia]. rewrite bind_ret_l.
  destruct (Z.geb_spec (psize s - offset) len); [|lia].
  destruct (build_rest (l4rest s) (take (Z.to_nat 16) room) (data_off s) offset len (psize s)) as (l2 & l3 & E2 & E3 & L3 & T3);
    try done; [rewrite length_take; lia|].
  rewrite E2, bind_ret_l, E3, bind_ret_l.
  set (opts := take (Z.to_nat (data_off s)) (l4rest s) ++ cxt_option) in *.
  set (seg := take (Z.to_nat len) (drop (Z.to_nat offset) (drop (Z.to_nat (data_off s)) (l4rest s)))) in *.
  assert (Hcut : (if psize s - len >? 0
    then (take (length l3 - Z.to_nat (psize s - len)) l3, uwrap 16 (tot_len s - (psize s - len) + 16))
    else (l3, uwrap 16 (tot_len s + 16))) =
    (opts ++ seg, tot_len s - psize s + len + 16)).
  { rewrite <- T3. destruct (Z.gtb_spec (psize s - len) 0).
    - f_equal; [f_equal; lia|]. rewrite uwrap_small; unfold skb_len in *; lia.
    - f_equal; [by rewrite take_ge by lia|]. rewrite uwrap_small; unfold skb_len in *; lia. }
  rewrite Hcut.
  assert (Hdoff : uwrap 4 (Z.shiftr (4 * doff s + 16) 2) = doff s + 4).
  { rewrite Z.shiftr_div_pow2 by lia. change (2 ^ 2) with 4.
    replace (4 * doff s + 16) with ((doff s + 4) * 4) by lia. rewrite Z.div_mul by lia.
    apply uwrap_small. lia. }
  rewrite Hdoff. eexists. split; [reflexivity|].
  assert (Lopts : Z.of_nat (length opts) = data_off s + 16)
    by (unfold opts; rewrite length_app, length_take; cbn [length cxt_option]; cbn; lia).
  assert (Lseg : Z.of_nat (length seg) = len)
    by (unfold seg; rewrite length_take, !length_drop; unfold payload in Lp; rewrite length_drop in Lp; lia).
  assert (Hoff : Z.to_nat (4 * (doff s + 4) - 20) = length opts) by (unfold data_off in *; lia).
  unfold carries, payload, options_of, data_off.
  cbn [l4rest doff seqno h_source ihl tos id frag_off ttl protocol saddr daddr sport dport ack_seq tflags window tcp_check urg_ptr].
  rewrite Hoff, drop_app_length, take_app_length. fold (data_off s).
  split; [|done]. split; cbn [l4rest doff seqno h_source ihl id tot_len]; try done; try lia.
  - unfold skb_len. cbn [ihl l4rest]. rewrite length_app. unfold psize, data_off in *. lia.
  - rewrite length_app. unfold data_off in *. lia.
  - destruct ((len >? 0) && (offset >? 0)); [apply uwrap_range; lia|done].
Qed.

(** ** The verdict of the hook *)

(** The packets the hook rewrites: TCP packets of the watched user that were
    not built by the module itself and have room for the option. *)
Definition eligible (s : sk_buff) (uid : option Z) : bool :=
  (default 0 uid =? t_uid) &&
  match h_source s with
  | Some src => negb ((nth 0 src 0 =? 0xff) && (nth 1 src 0 =? 0))
  | None => false
  end &&
  (protocol s =? IPPROTO_TCP) && negb (id s =? 0x8888) && (doff s <=? 11).

(** [sent] are copies of [s] that carry consecutive pieces of [data], the
    first of them at sequence number [seq]. *)
Inductive segments (s : sk_buff) : Z -> list Z -> list sk_buff -> Prop :=
| seg_last seq data s' : carries s s' seq data -> segments s seq data [s']
| seg_more seq d1 d2 s' sent :
    carries s s' seq d1 -> segments s (u32 (seq + Z.of_nat (length d1))) d2 sent ->
    segments s seq (d1 ++ d2) (s' :: sent).

Lemma ineligible_accept c1 c2 s uid n :
  wf_skb s -> eligible s uid = false -> nf_local_out_hook c1 c2 (Some s) uid n = Ok (NF_ACCEPT, [], n).
Proof.
  intros W. unfold eligible, nf_local_out_hook, parse_tx_skb.
  destruct (default 0 uid =? t_uid); [|done]. destruct (h_source s) as [src|]; [|done].
  destruct ((nth 0 src 0 =? 0xff) && (nth 1 src 0 =? 0)); [done|].
  destruct (protocol s =? IPPROTO_TCP); [|done]. destruct (id s =? 0x8888); [done|].
  cbn [andb orb negb]. intros Hd. apply Z.leb_gt in Hd. destruct W as [_ Wd _ _ _ _].
  unfold u32. rewrite (uwrap_small 32 (60 - 4 * doff s)) by lia. unfold cxt_head_len.
  destruct (Z.ltb_spec (60 - 4 * doff s) 16); [done|lia].
Qed.

(** What an eligible packet goes through. *)
Lemma eligible_parse c1 c2 s uid n :
  wf_skb s -> eligible s uid = true ->
  doff s <= 11 /\
  nf_local_out_hook c1 c2 (Some s) uid n =
  if tot_len s + 16 >? 1500 then
    n_skb1 ← create_cxt_skb c1 s 0 (psize s / 2);
    n_skb2 ← create_cxt_skb c2 s (psize s / 2) (psize s - psize s / 2);
    if is_null n_skb1 || is_null n_skb2 then
      _ ← (if is_null n_skb1 then mret tt else kfree_skb n_skb1);
      _ ← (if is_null n_skb2 then mret tt else kfree_skb n_skb2);
      mret (NF_ACCEPT, [], uwrap 64 (n + 1))
    else
      s1 ← ip_local_out n_skb1;
      s2 ← ip_local_out n_skb2;
      mret (NF_STOLEN, [s1; s2], uwrap 64 (n + 1))
  else
    n_skb1 ← create_cxt_skb c1 s 0 (psize s);
    if is_null n_skb1 then mret (NF_ACCEPT, [], uwrap 64 (n + 1)) else
    s1 ← ip_local_out n_skb1;
    mret (NF_STOLEN, [s1], uwrap 64 (n + 1)).
Proof.
  intros W. pose proof (wf_payload s W) as (_ & _ & _ & Hp). destruct W as [Wi Wd Wl Wo Wm Ws].
  unfold eligible, nf_local_out_hook, parse_tx_skb.
  destruct (default 0 uid =? t_uid); [|done]. destruct (h_source s) as [src|]; [|done].
  destruct ((nth 0 src 0 =? 0xff) && (nth 1 src 0 =? 0)); [done|].
  destruct (protocol s =? IPPROTO_TCP); [|done]. destruct (id s =? 0x8888); [done|].
  cbn [andb orb negb]. intros Hd. apply Z.leb_le in Hd. split; [done|].
  unfold u32. rewrite (uwrap_small 32 (60 - 4 * doff s)) by lia.
  rewrite (uwrap_small 32 (psize s)) by (unfold psize in *; lia). unfold cxt_head_len.
  destruct (Z.ltb_spec (60 - 4 * doff s) 16); [lia|done].
Qed.

Lemma eligible_stolen room1 room2 s uid n :
  wf_skb s -> eligible s uid = true ->
  16 <= Z.of_nat (length room1) -> 16 <= Z.of_nat (length room2) ->
  exists sent, nf_local_out_hook (Some room1) (Some room2) (Some s) uid n =
               Ok (NF_STOLEN, sent, uwrap 64 (n + 1)) /\
               segments s (seqno s) (payload s) sent.
Proof.
  intros W He H1 H2. destruct (eligible_parse (Some room1) (Some room2) s uid n W He) as [Hd ->].
  pose proof (wf_payload s W) as (Lp & Hdo & Lr & Hp). pose proof W as [Wi Wd Wl Wo Wm Ws].
  destruct (Z.gtb_spec (tot_len s + 16) 1500) as [Hbig|Hsmall].
  - assert (Hpos : 0 < psize s / 2) by (apply Z.div_str_pos; unfold psize; lia).
    assert (Hhalf : 2 * (psize s / 2) <= psize s <= 2 * (psize s / 2) + 1)
      by (pose proof (Z.div_mod (psize s) 2 ltac:(lia)); pose proof (Z.mod_pos_bound (psize s) 2 ltac:(lia)); lia).
    destruct (create_ok s room1 0 (psize s / 2)) as (s1 & -> & C1); try done; try (unfold psize in *; lia).
    rewrite bind_ret_l.
    destruct (create_ok s room2 (psize s / 2) (psize s - psize s / 2)) as (s2 & -> & C2);
      try done; try (unfold psize in *; lia).
    rewrite bind_ret_l. cbn [is_null orb ip_local_out]. rewrite !bind_ret_l. eexists. split; [reflexivity|].
    rewrite Z.gtb_ltb, (proj2 (Z.ltb_lt _ _)) in C2 by lia.
    rewrite Z.gtb_ltb, (proj2 (Z.ltb_lt 0 (psize s / 2))) in C2 by lia.
    rewrite andb_false_r in C1. rewrite take_ge in C2 by (rewrite length_drop; lia).
    rewrite <- (take_drop (Z.to_nat (psize s / 2)) (payload s)). apply seg_more; [done|].
    apply seg_last. rewrite length_take.
    replace (Z.of_nat (Z.to_nat (psize s / 2) `min` length (payload s))) with (psize s / 2) by lia. done.
  - destruct (create_ok s room1 0 (psize s)) as (s1 & -> & C1); try done; try lia.
    rewrite bind_ret_l. cbn [is_null orb ip_local_out]. rewrite bind_ret_l. eexists. split; [reflexivity|].
    apply seg_last. rewrite andb_false_r in C1. rewrite take_ge in C1 by (rewrite length_drop; lia). done.
Qed.

(** C13: on a packet of at most 1500 bytes whose lengths agree, when every copy
    the hook asks for succeeds and has at least 16 bytes of tail room, the
    outgoing hook either leaves the packet alone, exactly when it is not an
    eligible one (a TCP packet of user 10059 with at most 44 bytes of TCP header,
    not marked by its source address or identification), or takes it and sends
    one or two packets of at most 1500 bytes instead, whose lengths agree and
    which carry the context option and, between them, the payload: consecutive
    pieces at consecutive sequence numbers.  Every other field is copied as it
    was into each of them: also the flags, so that a FIN or PSH is on both
    halves, and the TCP checksum, which is that of the original packet.  (A copy
    that fails: [copy_failure_undefined]; too little tail room:
    [short_tailroom_panics].) *)
Theorem nf_local_out_hook_correct room1 room2 s uid n :
  wf_skb s -> 16 <= Z.of_nat (length room1) -> 16 <= Z.of_nat (length room2) ->
  if eligible s uid
  then exists sent, nf_local_out_hook (Some room1) (Some room2) (Some s) uid n =
                    Ok (NF_STOLEN, sent, uwrap 64 (n + 1)) /\
                    segments s (seqno s) (payload s) sent
  else nf_local_out_hook (Some room1) (Some room2) (Some s) uid n = Ok (NF_ACCEPT, [], n).
Proof.
  intros W H1 H2. destruct (eligible s uid) eqn:He.
  - by apply eligible_stolen.
  - by apply ineligible_accept.
Qed.

(** A full packet of the watched application: 1460 bytes of payload. *)
Definition full_packet : sk_buff :=
  mkSkb (Some [0x0c; 0x84; 0xdc; 0xb2; 0x6f; 0xd1]) 5 0 1500 7 0x4000 64 IPPROTO_TCP 0x0a2a000c 0x0a2a0001
    40000 21 (2 ^ 32 - 100) 1 5 0x19 0xffff 0x1234 0 (replicate (Z.to_nat 1460) 0x61).

Lemma full_packet_wf : wf_skb full_packet.
Proof. by split. Qed.

Lemma nf_local_out_hook_correct_witness :
  exists sent, nf_local_out_hook (Some (replicate 16 0)) (Some (replicate 16 0)) (Some full_packet)
                 (Some t_uid) 0 = Ok (NF_STOLEN, sent, 1) /\
               segments full_packet (seqno full_packet) (payload full_packet) sent.
Proof.
  exact (nf_local_out_hook_correct (replicate 16 0) (replicate 16 0) full_packet (Some t_uid) 0
           full_packet_wf ltac:(by vm_compute) ltac:(by vm_compute)).
Defined.

(** When the copy of an eligible packet fails for lack of memory,
    [create_cxt_skb] returns the verdict [NF_ACCEPT] as if it were a buffer;
    no test for null catches it and the hook passes the bad pointer to
    [ip_local_out] instead of letting the original packet go. *)
Theorem copy_failure_undefined s uid n :
  wf_skb s -> eligible s uid = true ->
  nf_local_out_hook None None (Some s) uid n = Err Undefined.
Proof.
  intros W He. destruct (eligible_parse None None s uid n W He) as [_ ->].
  by destruct (tot_len s + 16 >? 1500).
Qed.

Lemma copy_failure_undefined_witness :
  nf_local_out_hook None None (Some full_packet) (Some t_uid) 0 = Err Undefined.
Proof. apply (copy_failure_undefined full_packet (Some t_uid) 0 full_packet_wf). by vm_compute. Defined.

(** The room for the option is asked for in front of the copy and taken
    behind it: when the tail room is shorter than the option, the hook stops
    the kernel instead of sending or accepting the packet. *)
Theorem short_tailroom_panics room1 c2 s uid n :
  wf_skb s -> eligible s uid = true -> Z.of_nat (length room1) < 16 ->
  nf_local_out_hook (Some room1) c2 (Some s) uid n = Err AssertFail.
Proof.
  intros W He Hr. destruct (eligible_parse (Some room1) c2 s uid n W He) as [_ ->].
  assert (E : forall o len, create_cxt_skb (Some room1) s o len = Err AssertFail).
  { intros o len. unfold create_cxt_skb, skb_put, cxt_head_len.
    by destruct (Z.leb_spec 16 (Z.of_nat (length room1))); [lia|]. }
  rewrite !E. by destruct (tot_len s + 16 >? 1500).
Qed.

Lemma short_tailroom_panics_witness :
  nf_local_out_hook (Some []) None (Some full_packet) (Some t_uid) 0 = Err AssertFail.
Proof.
  apply (short_tailroom_panics [] None full_packet (Some t_uid) 0 full_packet_wf); by vm_compute.
Defined.
