(* ===== verification/Checksum.v ===== *)
(** Addresses and checksums of the kernel module
    (src/client-module/kernel-module/mon_nf.c, lines 51-126).  Bytes are
    integers from 0 to 255 on a little-endian machine with 64-bit [long]. *)

From stdpp Require Import base list.
From Stdlib Require Import ZArith Lia.
From S2P Require Import Prelude Wire Sha1 Reply.

Local Open Scope Z_scope.

(** ** The Internet checksum *)

(** The two loops over the bytes: the running [sum]; reading past the
    bytes is undefined. *)
Fixpoint csum_add (addr : list Z) (count : nat) (sum : Z) : res Z :=
  match count with
  | S (S count) =>
      match addr with
      | lo :: hi :: addr => csum_add addr count (swrap 64 (sum + (lo + 256 * hi)))
      | _ => Err Undefined
      end
  | S O => match addr with b :: _ => Ok (swrap 64 (sum + b)) | [] => Err Undefined end
  | O => Ok sum
  end.

(** [while(sum >> 16) sum = (sum & 0xffff) + (sum >> 16);] *)
Fixpoint fold_carry (fuel : nat) (sum : Z) : res Z :=
  match fuel with
  | O => Err NoFuel
  | S fuel =>
      if Z.shiftr sum 16 =? 0 then Ok sum
      else fold_carry fuel (swrap 64 (Z.land sum 0xffff + Z.shiftr sum 16))
  end.

Definition csum (addr : list Z) (count : Z) : res Z :=
  sum ← csum_add addr (Z.to_nat count) 0;
  sum ← fold_carry 64 sum;
  mret (uwrap 16 (Z.lnot sum)).

(** [struct psd_header] in memory: two [unsigned long]s, two bytes, a short
    in network order and four bytes of padding. *)
Definition psd_header (saddr daddr proto len : Z) : list Z :=
  le 8 saddr ++ le 8 daddr ++ [0; proto] ++ [Z.shiftr len 8; Z.land len 255] ++ replicate 4 0.

Definition sizeof_buf : Z := 1600.

(** [tcpudp_csum]: clearing or filling more than the local buffer is
    undefined, and so is reading more than [pkt_data] holds. *)
Definition tcpudp_csum (saddr daddr : Z) (pkt_data : list Z) (len proto : Z) : res Z :=
  let count := 24 + len in
  if count >? sizeof_buf then Err Undefined else
  if Z.of_nat (length pkt_data) <? len then Err Undefined else
  csum (psd_header saddr daddr proto len ++ take (Z.to_nat len) pkt_data) count.

(** ** Dotted addresses *)

(** [%d] of [sprintf], for a number that is not negative. *)
Fixpoint digits (fuel : nat) (n : Z) (acc : list Z) : list Z :=
  match fuel with
  | O => acc
  | S fuel =>
      let acc := (48 + n mod 10) :: acc in
      if n <? 10 then acc else digits fuel (n / 10) acc
  end.

Definition inet_ntoa (addr : Z) : list Z :=
  let s1 := Z.shiftr (Z.land addr 0xFF000000) 24 in
  let s2 := Z.shiftr (Z.land addr 0x00FF0000) 16 in
  let s3 := Z.shiftr (Z.land addr 0x0000FF00) 8 in
  let s4 := Z.land addr 0x000000FF in
  digits 10 s4 [] ++ [46] ++ digits 10 s3 [] ++ [46] ++ digits 10 s2 [] ++ [46] ++ digits 10 s1 [].

Definition is_digit (c : Z) : bool := (48 <=? c) && (c <=? 57).
Definition is_space (c : Z) : bool := (c =? 32) || ((9 <=? c) && (c <=? 13)).

Fixpoint skip_spaces (s : list Z) : list Z :=
  match s with c :: r => if is_space c then skip_spaces r else s | [] => [] end.

Fixpoint scan_digits (s : list Z) (acc : Z) : Z * list Z :=
  match s with
  | c :: r => if is_digit c then scan_digits r (10 * acc + (c - 48)) else (acc, s)
  | [] => (acc, [])
  end.

(** [%d] of the kernel's [sscanf]: the number, as an [int], and the text
    behind it; [None] when there is no number. *)
Definition scan_d (s : list Z) : option (Z * list Z) :=
  let s := skip_spaces s in
  let '(neg, t) := match s with 45 :: r => (true, r) | _ => (false, s) end in
  match t with
  | c :: _ =>
      if is_digit c then
        let '(n, r) := scan_digits t 0 in Some (swrap 32 (if neg then - n else n), r)
      else None
  | [] => None
  end.

Definition scan_dot (s : list Z) : option (list Z) :=
  match s with 46 :: r => Some r | _ => None end.

(** [inet_addr]: when [sscanf] does not reach a variable, its value is
    undefined. *)
Definition inet_addr (ip : list Z) : res Z :=
  '(a, s) ← deref (scan_d ip); s ← deref (scan_dot s);
  '(b, s) ← deref (scan_d s); s ← deref (scan_dot s);
  '(c, s) ← deref (scan_d s); s ← deref (scan_dot s);
  '(d, _) ← deref (scan_d s);
  mret (unle [u8 a; u8 b; u8 c; u8 d]).

(** ** Reference *)

(** The sum of the 16-bit words of the bytes, an odd byte padded with zero. *)
Fixpoint word_sum (bs : list Z) : Z :=
  match bs with
  | lo :: hi :: r => lo + 256 * hi + word_sum r
  | [b] => b
  | [] => 0
  end.

(** The ones' complement of the ones' complement sum (RFC 1071). *)
Definition inet_checksum (bs : list Z) : Z :=
  let s := word_sum bs in 65535 - (if s =? 0 then 0 else 1 + (s - 1) mod 65535).

(** The pseudo header of RFC 793, in network order. *)
Definition pseudo_header (saddr daddr proto len : Z) : list Z :=
  le 4 saddr ++ le 4 daddr ++ [0; proto; len / 256; len mod 256].

Definition byte (b : Z) : Prop := 0 <= b < 256.

(** ** The checksum is the Internet checksum *)

Lemma pair_ind (P : list Z -> Prop) :
  P [] -> (forall b, P [b]) -> (forall a b l, P l -> P (a :: b :: l)) -> forall l, P l.
Proof.
  intros H0 H1 H2. fix IH 1. intros [|a [|b l]]; [done|done|]. apply H2, IH.
Qed.

Lemma word_sum_bound bs : Forall byte bs -> 0 <= word_sum bs <= 65536 * Z.of_nat (length bs).
Proof.
  induction bs as [|b|a b l IH] using pair_ind; intros Hb; simpl; [lia| |].
  - apply Forall_cons in Hb as [Hb _]. unfold byte in Hb. lia.
  - apply Forall_cons in Hb as [Ha Hb]. apply Forall_cons in Hb as [Hb Hl].
    specialize (IH Hl). unfold byte in *. lia.
Qed.

(** Bytes at an even offset add up separately. *)
Lemma word_sum_app l1 l2 :
  Nat.Even (length l1) -> word_sum (l1 ++ l2) = word_sum l1 + word_sum l2.
Proof.
  induction l1 as [|b|a b l IH] using pair_ind; intros He; [done| |].
  - exfalso. destruct He as [k Hk]. simpl in Hk. lia.
  - simpl. rewrite IH; [lia|]. destruct He as [k Hk]. simpl in Hk. exists (k - 1)%nat. lia.
Qed.

Lemma csum_add_sum bs sum :
  Forall byte bs -> 0 <= sum -> sum + 65536 * Z.of_nat (length bs) < 2 ^ 63 ->
  csum_add bs (length bs) sum = Ok (sum + word_sum bs).
Proof.
  revert sum. induction bs as [|b|a b l IH] using pair_ind; intros sum Hb Hs Hm; simpl in *.
  - f_equal. lia.
  - apply Forall_cons in Hb as [Hb _]. unfold byte in Hb. by rewrite swrap_small by lia.
  - apply Forall_cons in Hb as [Ha Hb]. apply Forall_cons in Hb as [Hb Hl]. unfold byte in Ha, Hb.
    rewrite swrap_small by lia. rewrite IH by (try done; lia). f_equal. lia.
Qed.

(** What folding the carries keeps: the residue modulo 65535, and zero. *)
Definition folded (s r : Z) : Prop :=
  0 <= r < 65536 /\ r mod 65535 = s mod 65535 /\ (r = 0 <-> s = 0).

Lemma fold_step s : 65536 <= s < 2 ^ 63 ->
  let s' := s mod 65536 + s / 65536 in
  Z.land s 0xffff + Z.shiftr s 16 = s' /\ 0 < s' < s /\ s' <= 65535 + s / 65536 /\
  s' mod 65535 = s mod 65535.
Proof.
  intros Hs. cbn zeta. pose proof (Z.div_mod s 65536 ltac:(lia)) as E.
  pose proof (Z.mod_pos_bound s 65536 ltac:(lia)).
  assert (0 < s / 65536) by (apply Z.div_str_pos; lia).
  split; [|split; [|split]].
  - change 0xffff with (Z.ones 16). rewrite Z.land_ones, Z.shiftr_div_pow2 by lia. done.
  - lia.
  - lia.
  - rewrite E at 3.
    replace (65536 * (s / 65536) + s mod 65536) with (s mod 65536 + s / 65536 + (s / 65536) * 65535) by lia.
    by rewrite Z.mod_add by lia.
Qed.

Lemma fold_carry_S k s :
  fold_carry (k + 3) s =
  if Z.shiftr s 16 =? 0 then Ok s
  else fold_carry (k + 2) (swrap 64 (Z.land s 0xffff + Z.shiftr s 16)).
Proof. by replace (k + 3)%nat with (S (k + 2)) by lia. Qed.

Lemma fold_carry_ok k s :
  0 <= s < 2 ^ (16 + Z.of_nat k) -> (k <= 46)%nat -> exists r, fold_carry (k + 3) s = Ok r /\ folded s r.
Proof.
  revert s. induction k as [|k IH]; intros s Hs Hk; rewrite fold_carry_S.
  - change (2 ^ (16 + Z.of_nat 0)) with 65536 in Hs. rewrite Z.shiftr_div_pow2, Z.div_small by (try done; lia).
    exists s. unfold folded. split; [done|]. lia.
  - rewrite Z.shiftr_div_pow2 by lia. change (2 ^ 16) with 65536.
    destruct (Z.ltb_spec s 65536) as [Hlt|Hge].
    { rewrite Z.div_small by lia. exists s. unfold folded. split; [done|]. lia. }
    assert (Hm : 2 ^ (16 + Z.of_nat (S k)) <= 2 ^ 62) by (apply Z.pow_le_mono_r; lia).
    assert (E2 : 2 ^ (16 + Z.of_nat (S k)) = 65536 * 2 ^ Z.of_nat (S k))
      by (rewrite Z.pow_add_r by lia; reflexivity).
    assert (E3 : 2 ^ (16 + Z.of_nat k) = 65536 * 2 ^ Z.of_nat k)
      by (rewrite Z.pow_add_r by lia; reflexivity).
    assert (E4 : 2 ^ Z.of_nat (S k) = 2 * 2 ^ Z.of_nat k)
      by (rewrite Nat2Z.inj_succ, Z.pow_succ_r by lia; reflexivity).
    destruct (fold_step s) as (E & Hb & Hb2 & Hr); [lia|].
    assert (Hd : s / 65536 < 2 ^ Z.of_nat (S k)) by (apply Z.div_lt_upper_bound; lia).
    assert (0 < s / 65536) by (apply Z.div_str_pos; lia).
    destruct (Z.eqb_spec (s / 65536) 0); [lia|]. rewrite Z.shiftr_div_pow2 in E by lia. change (2 ^ 16) with 65536 in E.
    rewrite E, swrap_small by lia. set (s' := s mod 65536 + s / 65536) in *.
    assert (0 < 2 ^ Z.of_nat k) by lia.
    destruct (Z.ltb_spec s' (2 ^ (16 + Z.of_nat k))).
    + replace (S k + 2)%nat with (k + 3)%nat by lia. destruct (IH s') as (r & -> & F); [lia|lia|]. exists r. split; [done|].
      unfold folded in *. rewrite <- Hr. split; [tauto|]. split; [tauto|]. lia.
    + destruct k as [|k]; [|exfalso; rewrite E3 in *; rewrite E4 in *;
        assert (2 ^ Z.of_nat (S k) = 2 * 2 ^ Z.of_nat k)
          by (rewrite Nat2Z.inj_succ, Z.pow_succ_r by lia; reflexivity);
        assert (0 < 2 ^ Z.of_nat k) by (apply Z.pow_pos_nonneg; lia); lia].
      assert (s' = 65536) as ->.
      { change (2 ^ (16 + Z.of_nat 0)) with 65536 in *. change (2 ^ Z.of_nat 1) with 2 in *. lia. }
      exists 1. split; [done|]. unfold folded. rewrite <- Hr. split; [lia|]. split; [done|]. lia.
Qed.

Lemma folded_value s r : 0 <= s -> folded s r -> r = if s =? 0 then 0 else 1 + (s - 1) mod 65535.
Proof.
  intros Hs (Hb & Hm & Hz). destruct (Z.eqb_spec s 0); [tauto|].
  assert (Hr : r <> 0) by tauto. clear Hz.
  enough (E : (r - 1) mod 65535 = (s - 1) mod 65535) by (rewrite Z.mod_small in E; lia).
  rewrite <- (Zminus_mod_idemp_l r), <- (Zminus_mod_idemp_l s). by rewrite Hm.
Qed.

Lemma csum_inet bs : Forall byte bs -> Z.of_nat (length bs) < 2 ^ 31 ->
  csum bs (Z.of_nat (length bs)) = Ok (inet_checksum bs).
Proof.
  intros Hb Hl. unfold csum. rewrite Nat2Z.id, csum_add_sum by (try done; lia).
  rewrite bind_ret_l, Z.add_0_l. pose proof (word_sum_bound bs Hb) as Hw.
  destruct (fold_carry_ok 46 (word_sum bs)) as (r & E & F); [lia|lia|].
  change (46 + 3)%nat with 49%nat in E.
  assert (Em : forall k n s r, fold_carry n s = Ok r -> fold_carry (n + k) s = Ok r).
  { intros k n. induction n as [|n IH]; intros s r'; simpl; [done|]. case_match; [done|]. apply IH. }
  change 64%nat with (49 + 15)%nat. rewrite (Em 15%nat _ _ _ E), bind_ret_l.
  unfold mret, res_ret. f_equal. unfold inet_checksum. rewrite <- (folded_value _ _ (proj1 Hw) F).
  destruct F as (Hr & _). unfold Z.lnot, uwrap. symmetry. apply Z.mod_unique with (-1); lia.
Qed.

Lemma inet_checksum_range bs : Forall byte bs -> 0 <= inet_checksum bs < 2 ^ 16.
Proof.
  intros Hb. pose proof (word_sum_bound bs Hb). unfold inet_checksum.
  pose proof (Z.mod_pos_bound (word_sum bs - 1) 65535 ltac:(lia)).
  destruct (word_sum bs =? 0); lia.
Qed.

Lemma le_byte n z : Forall byte (le n z).
Proof.
  revert z. induction n as [|n IH]; intros z; simpl; constructor; [|done].
  apply Z.mod_pos_bound. lia.
Qed.

(** Adding the checksum to the words makes the checksum zero, wherever it is
    stored. *)
Lemma inet_checksum_cancels bs bs' : 0 <= word_sum bs ->
  word_sum bs' = word_sum bs + inet_checksum bs -> inet_checksum bs' = 0.
Proof.
  intros Hw Ew. unfold inet_checksum at 1. rewrite Ew. clear Ew. unfold inet_checksum.
  set (s := word_sum bs) in *.
  assert (E : forall q, (65535 + q * 65535 - 1) mod 65535 = 65534).
  { intros q. symmetry. apply Z.mod_unique with q; lia. }
  destruct (Z.eqb_spec s 0) as [->|Hn]; [done|].
  pose proof (Z.div_mod (s - 1) 65535 ltac:(lia)) as D.
  pose proof (Z.mod_pos_bound (s - 1) 65535 ltac:(lia)).
  destruct (Z.eqb_spec (s + (65535 - (1 + (s - 1) mod 65535))) 0); [lia|].
  replace (s + (65535 - (1 + (s - 1) mod 65535))) with (65535 + ((s - 1) / 65535) * 65535) by lia.
  rewrite E. lia.
Qed.

Lemma word_sum_le_2 z : 0 <= z < 2 ^ 16 -> word_sum (le 2 z) = z.
Proof.
  intros Hz. simpl. rewrite (Z.mod_small (z / 256)).
  - pose proof (Z.div_mod z 256). lia.
  - split; [apply Z.div_pos; lia|apply Z.div_lt_upper_bound; lia].
Qed.

Lemma inet_checksum_verifies bs : Forall byte bs -> Nat.Even (length bs) ->
  inet_checksum (bs ++ le 2 (inet_checksum bs)) = 0.
Proof.
  intros Hb He. apply (inet_checksum_cancels bs); [by apply word_sum_bound|].
  by rewrite word_sum_app, word_sum_le_2 by (try done; by apply inet_checksum_range).
Qed.

(** C31: [csum] returns the Internet checksum of RFC 1071 of the bytes it is
    given: no overflow of [sum] and both loops end.  When the checksum is
    appended to an even number of bytes, the checksum of the result is zero,
    which is how a receiver verifies it. *)
Theorem csum_correct bs :
  Forall byte bs -> Z.of_nat (length bs) < 2 ^ 31 - 2 ->
  csum bs (Z.of_nat (length bs)) = Ok (inet_checksum bs) /\
  (Nat.Even (length bs) ->
   csum (bs ++ le 2 (inet_checksum bs)) (Z.of_nat (length bs) + 2) = Ok 0).
Proof.
  intros Hb Hl. split; [by apply csum_inet; [|lia]|]. intros He.
  assert (L : Z.of_nat (length bs) + 2 = Z.of_nat (length (bs ++ le 2 (inet_checksum bs))))
    by (rewrite length_app; simpl; lia).
  rewrite L, csum_inet; [by rewrite inet_checksum_verifies| |rewrite <- L; lia].
  apply Forall_app. split; [done|apply le_byte].
Qed.

(** The header of an IP packet, its checksum field left out. *)
Definition ip_header : list Z := [0x45; 0; 0; 0x73; 0; 0; 0x40; 0; 0x40; 0x11; 0xc0; 0xa8; 0; 1; 0xc0; 0xa8; 0; 0xc7].

Lemma csum_correct_witness :
  csum ip_header 18 = Ok 0x61b8 /\ csum (ip_header ++ [0xb8; 0x61]) 20 = Ok 0.
Proof.
  destruct (csum_correct ip_header) as [H1 H2].
  - by repeat (constructor; [unfold byte; lia|]).
  - by vm_compute.
  - split; [exact H1|]. apply H2. by exists 9%nat.
Defined.

Lemma word_sum_le_8 z : 0 <= z < 2 ^ 32 -> word_sum (le 8 z) = word_sum (le 4 z).
Proof.
  intros Hz.
  assert (E : z / 256 / 256 / 256 / 256 = 0).
  { rewrite !Z.div_div by lia. apply Z.div_small. lia. }
  cbn [le word_sum]. rewrite E. by cbn.
Qed.

Lemma tcpudp_words saddr daddr proto len pkt :
  0 <= saddr < 2 ^ 32 -> 0 <= daddr < 2 ^ 32 -> 0 <= len < 2 ^ 16 ->
  word_sum (psd_header saddr daddr proto len ++ pkt) =
  word_sum (pseudo_header saddr daddr proto len ++ pkt).
Proof.
  intros Hs Hd Hl. unfold psd_header, pseudo_header. rewrite <- !(assoc_L (++)).
  assert (Ev : forall n z, length (le n z) = n) by (induction n; intros; simpl; auto).
  rewrite (word_sum_app (le 8 saddr)), (word_sum_app (le 8 daddr)), (word_sum_app (le 4 saddr)),
    (word_sum_app (le 4 daddr)), !word_sum_le_8 by
    (rewrite ?Ev; first [done | by exists 4%nat | by exists 2%nat]).
  change 255 with (Z.ones 8). rewrite Z.shiftr_div_pow2, Z.land_ones by lia. done.
Qed.

Lemma psd_header_bytes saddr daddr proto len :
  byte proto -> 0 <= len < 2 ^ 16 ->
  Forall byte (psd_header saddr daddr proto len) /\ length (psd_header saddr daddr proto len) = 24%nat.
Proof.
  intros Hp Hl. split; [|done]. unfold psd_header.
  assert (H1 : byte (Z.shiftr len 8)).
  { rewrite Z.shiftr_div_pow2 by lia. split; [apply Z.div_pos|apply Z.div_lt_upper_bound]; lia. }
  assert (H2 : byte (Z.land len 255)).
  { change 255 with (Z.ones 8). rewrite Z.land_ones by lia. by apply Z.mod_pos_bound. }
  assert (H0 : byte 0) by done.
  rewrite !Forall_app. repeat (split; [first [apply le_byte | by repeat (constructor; [assumption|])]|]).
  by apply Forall_replicate.
Qed.

(** C32: [tcpudp_csum] of a packet that fits its buffer of 1600 bytes is the
    Internet checksum of the standard 12-byte pseudo header followed by the
    packet, although the structure it fills has 64-bit address fields and
    padding; a packet that does not fit overruns the buffer. *)
Theorem tcpudp_csum_correct saddr daddr pkt proto :
  0 <= saddr < 2 ^ 32 -> 0 <= daddr < 2 ^ 32 -> byte proto -> Forall byte pkt ->
  Z.of_nat (length pkt) < 2 ^ 16 ->
  tcpudp_csum saddr daddr pkt (Z.of_nat (length pkt)) proto =
  if Z.of_nat (length pkt) <=? 1576
  then Ok (inet_checksum (pseudo_header saddr daddr proto (Z.of_nat (length pkt)) ++ pkt))
  else Err Undefined.
Proof.
  intros Hs Hd Hp Hb Hl. unfold tcpudp_csum, sizeof_buf. set (len := Z.of_nat (length pkt)).
  destruct (psd_header_bytes saddr daddr proto len Hp ltac:(lia)) as [Hh Lh].
  destruct (Z.gtb_spec (24 + len) 1600), (Z.leb_spec len 1576); try lia; [done|].
  rewrite Z.ltb_irrefl, take_ge by lia.
  replace (24 + len) with (Z.of_nat (length (psd_header saddr daddr proto len ++ pkt)))
    by (rewrite length_app, Lh; lia).
  rewrite csum_inet; [|by apply Forall_app|rewrite length_app, Lh; lia].
  unfold inet_checksum. by rewrite tcpudp_words by lia.
Qed.

Lemma tcpudp_csum_correct_witness :
  tcpudp_csum 0x0100007f 0x0200007f [1; 2; 3] 3 6 =
  Ok (inet_checksum (pseudo_header 0x0100007f 0x0200007f 6 3 ++ [1; 2; 3])).
Proof.
  apply (tcpudp_csum_correct 0x0100007f 0x0200007f [1; 2; 3] 6); try done; by repeat (constructor; [unfold byte; lia|]).
Defined.

(** ** Printing and scanning addresses *)

(** Scanning a printed octet, at the end or before a dot, gives it back. *)
Lemma scan_octet n r : 0 <= n < 256 -> (r = [] \/ exists r', r = 46 :: r') ->
  scan_d (digits 10 n [] ++ r) = Some (n, r).
Proof.
  intros Hn Hr.
  enough (H : Forall (fun k => scan_d (digits 10 (Z.of_nat k) [] ++ r) = Some (Z.of_nat k, r)) (seq 0 256)).
  { rewrite Forall_forall in H. specialize (H (Z.to_nat n)). rewrite Z2Nat.id in H by lia.
    apply H, elem_of_seq. lia. }
  destruct Hr as [->|[r' ->]]; repeat (constructor; [vm_compute; reflexivity|]); constructor.
Qed.

(** The octets of an address. *)
Lemma octet_land addr i : 0 <= i -> 
  Z.shiftr (Z.land addr (Z.shiftl 255 i)) i = Z.shiftr addr i mod 256.
Proof.
  intros Hi. rewrite Z.shiftr_land, Z.shiftr_shiftl_l by lia. rewrite Z.sub_diag.
  change 255 with (Z.ones 8). rewrite Z.shiftl_0_r, Z.land_ones by lia. done.
Qed.

(** C33: Printing an address with [inet_ntoa] and scanning the text with
    [inet_addr] gives the address back. *)
Theorem inet_roundtrip addr : 0 <= addr < 2 ^ 32 -> inet_addr (inet_ntoa addr) = Ok addr.
Proof.
  intros Ha. unfold inet_addr, inet_ntoa.
  pose proof (octet_land addr 24 ltac:(lia)) as E1. pose proof (octet_land addr 16 ltac:(lia)) as E2.
  pose proof (octet_land addr 8 ltac:(lia)) as E3. pose proof (octet_land addr 0 ltac:(lia)) as E4.
  change (Z.shiftl 255 24) with 0xFF000000 in E1. change (Z.shiftl 255 16) with 0x00FF0000 in E2.
  change (Z.shiftl 255 8) with 0x0000FF00 in E3. change (Z.shiftl 255 0) with 0x000000FF in E4.
  rewrite Z.shiftr_0_r in E4. rewrite E1, E2, E3, E4. rewrite !Z.shiftr_div_pow2, Z.div_1_r by lia.
  assert (R : forall z, 0 <= z mod 256 < 256) by (intros; apply Z.mod_pos_bound; lia).
  assert (U : forall z, u8 (z mod 256) = z mod 256) by (intros; by apply Z.mod_small).
  rewrite scan_octet by eauto. cbn [deref]. rewrite bind_ret_l. cbn [scan_dot app deref]. rewrite bind_ret_l.
  rewrite scan_octet by eauto. cbn [deref]. rewrite bind_ret_l. cbn [scan_dot app deref]. rewrite bind_ret_l.
  rewrite scan_octet by eauto. cbn [deref]. rewrite bind_ret_l. cbn [scan_dot app deref]. rewrite bind_ret_l.
  rewrite <- (app_nil_r (digits 10 _ [])). rewrite scan_octet by eauto. cbn [deref]. rewrite bind_ret_l.
  rewrite !U. unfold mret, res_ret. f_equal.
  assert (E : [addr mod 256; addr / 2 ^ 8 mod 256; addr / 2 ^ 16 mod 256; addr / 2 ^ 24 mod 256] = le 4 addr).
  { cbn [le]. rewrite !Z.div_div by lia. done. }
  rewrite E, unle_le. apply Z.mod_small. done.
Qed.

Lemma inet_roundtrip_witness : inet_addr (inet_ntoa 0x01002a0a) = Ok 0x01002a0a.
Proof. apply (inet_roundtrip 0x01002a0a). lia. Defined.
