(* ===== verification/Stream.v ===== *)
(** The stream connection to the control server
    (src/client-module/kernel-module/mon_sk.c, lines 332-449).  The kernel's
    socket calls are parameters.  [kernel_sendmsg n vecs size] is the result of
    the [n]-th send of the array of vectors [vecs], whose bytes, in order, are
    what is sent, [size] being the total the caller announces.  The code passes
    the number of bytes as the number of vectors, although there is one vector:
    [stack n] is what the memory behind it holds, read as vectors.
    [kernel_recvmsg n] is an error or the bytes of the [n]-th receive. *)

From stdpp Require Import base list relations.
From Stdlib Require Import ZArith Lia.
From S2P Require Import Prelude Wire Sha1 Sha1Props Totp Device Reply.

Local Open Scope Z_scope.

Definition EAGAIN : Z := 11.
Definition ERESTARTSYS : Z := 512.
Definition EINPROGRESS : Z := 115.
Definition MSG_DONTWAIT : Z := 0x40.
Definition MAX_BUF_SIZE : Z := 4096.

(** The static pointer [stream_sock]: null, a socket, or one released. *)
Inductive sock_ptr : Type := SNull | SLive | SFreed.

Section Sockets.
Context (kernel_sendmsg : nat -> list (list Z) -> Z -> Z).
Context (stack : nat -> list (list Z)).
Context (kernel_recvmsg : nat -> Z + list Z).

(** The results after which the send is repeated. *)
Definition send_again (flags len : Z) : bool :=
  (len =? - ERESTARTSYS) || ((Z.land flags MSG_DONTWAIT =? 0) && (len =? - EAGAIN)).

(** The vectors a send of [left] bytes from [written] passes: [left] of them,
    the first of which is the vector of the function. *)
Definition vectors (n : nat) (buf : list Z) (written left : Z) : list (list Z) :=
  take (Z.to_nat left) (take (Z.to_nat left) (drop (Z.to_nat written) buf) :: stack n).

(** From the label [repeat_send] on: the value returned and the bytes the
    kernel took.  With more bytes taken than there were [left] becomes
    negative, and the next vector has the length of that number taken as
    unsigned. *)
Fixpoint repeat_send (fuel n : nat) (buf : list Z) (flags written left : Z) : res (Z * list Z) :=
  match fuel with
  | O => Err NoFuel
  | S fuel =>
      if left <? 0 then Err Undefined else
      let vecs := vectors n buf written left in
      let len := kernel_sendmsg n vecs left in
      if send_again flags len then repeat_send fuel (S n) buf flags written left else
      if len >? 0 then
        let written' := written + len in
        let left' := left - len in
        if negb (left' =? 0) then
          '(ret, sent) ← repeat_send fuel (S n) buf flags written' left';
          mret (ret, take (Z.to_nat len) (mjoin vecs) ++ sent)
        else mret (if negb (written' =? 0) then written' else len, take (Z.to_nat len) (mjoin vecs))
      else mret (if negb (written =? 0) then written else len, [])
  end.

(** [stream_msg_send] of the bytes [buf]. *)
Definition stream_msg_send (fuel : nat) (buf : list Z) (flags : Z) : res (Z * list Z) :=
  repeat_send fuel 0 buf flags 0 (swrap 32 (Z.of_nat (length buf))).

(** [stream_msg_receive] into [str]: the label [read_again]; the number of
    vectors is again that of the bytes, 50, so that more than 50 bytes are
    stored somewhere; at the end [str] is logged as a string. *)
Fixpoint read_again (fuel n : nat) (str : mem) : res Z :=
  match fuel with
  | O => Err NoFuel
  | S fuel =>
      match kernel_recvmsg n with
      | inl len =>
          if (len =? - EAGAIN) || (len =? - ERESTARTSYS) then read_again fuel (S n) str else
          _ ← cstr str; mret len
      | inr bs =>
          _ ← (if (50 <? length bs)%nat then Err Undefined else mret tt);
          str ← fill 0 bs str;
          _ ← cstr str; mret (Z.of_nat (length bs))
      end
  end.

Definition stream_msg_receive (fuel : nat) (str : mem) : res Z := read_again fuel 0 str.

(** What [poise_reply_server] did: its result, the bytes taken by the
    connection, the sockets created and released, and [stream_sock]. *)
Record reply_run : Type := mkRun {
  rr_ret : Z; rr_sent : list Z; rr_created : Z; rr_released : Z; rr_sock : sock_ptr
}.

(** The label [err]: a pointer that is not null is released and keeps its
    value; releasing a socket again is undefined. *)
Definition err_label (sock : sock_ptr) (created : Z) (sent : list Z) : res reply_run :=
  match sock with
  | SNull => mret (mkRun (-1) sent created 0 SNull)
  | SLive => mret (mkRun 0 sent created 1 SFreed)
  | SFreed => Err Undefined
  end.

(** [memset(&response, 0, n)] of the automatic array [response]. *)
Definition clear_response (n : Z) : res mem :=
  if n >? MAX_BUF_SIZE then Err Undefined
  else mret (replicate (Z.to_nat n) (Some 0) ++ replicate (Z.to_nat (MAX_BUF_SIZE - n)) None).

(** [poise_reply_server(msg, len)].  [create] and [connect] are the results
    of [sock_create], which stores a socket only when it succeeds, and of the
    socket's [connect]; [answered] says whether the receive queue holds
    something after the wait. *)
Definition poise_reply_server (fuel : nat) (sock : sock_ptr) (create connect : Z) (answered : bool)
    (msg : list Z) : res reply_run :=
  if create <? 0 then err_label sock 0 [] else
  let sock := SLive in
  if negb (connect =? 0) && negb (connect =? - EINPROGRESS) then err_label sock 1 [] else
  '(_, sent) ← stream_msg_send fuel msg MSG_DONTWAIT;
  _ ← (if answered then
         response ← clear_response (Z.of_nat (length msg) + 1);
         _ ← stream_msg_receive fuel response; mret tt
       else mret tt);
  err_label sock 1 sent.

(** ** Sending *)

(** A kernel that takes [size] as documented, the total of the data: it takes
    no more than that, whatever the number of vectors. *)
Definition size_bounds : Prop := forall n vecs size, 0 <= size -> kernel_sendmsg n vecs size <= size.

(** From the call number [R] on no call is interrupted or would block. *)
Definition send_settles (R : nat) : Prop := forall n vecs size flags, (R <= n)%nat ->
  send_again flags (kernel_sendmsg n vecs size) = false.

(** The socket reports no errors: every send takes something or is to be
    repeated. *)
Definition send_healthy (flags : Z) : Prop := forall n vecs size, 0 < size ->
  kernel_sendmsg n vecs size > 0 \/ send_again flags (kernel_sendmsg n vecs size) = true.

(** The outcome of a send of [buf] from the offset [written]. *)
Definition sent_ok (buf : list Z) (written ret : Z) (sent : list Z) : Prop :=
  sent `prefix_of` drop (Z.to_nat written) buf /\
  (ret = written + Z.of_nat (length sent) \/ (written = 0 /\ sent = [] /\ ret <= 0)).

Lemma take_step (buf : list Z) w len : 0 <= w -> 0 < len ->
  w + len <= Z.of_nat (length buf) ->
  drop (Z.to_nat w) buf =
  take (Z.to_nat len) (drop (Z.to_nat w) buf) ++ drop (Z.to_nat (w + len)) buf.
Proof using Type.
  intros Hw Hl Hb. rewrite <- (take_drop (Z.to_nat len) (drop (Z.to_nat w) buf)) at 1.
  rewrite drop_drop. f_equal. f_equal. lia.
Qed.

(** The bytes of the vectors start with those of the message. *)
Lemma vectors_front n buf written left len :
  0 <= written -> written + left = Z.of_nat (length buf) -> 0 < len <= left ->
  take (Z.to_nat len) (mjoin (vectors n buf written left)) = take (Z.to_nat len) (drop (Z.to_nat written) buf).
Proof using Type.
  intros Hw Hb Hl. unfold vectors. rewrite (take_ge (drop _ _)) by (rewrite length_drop; lia).
  destruct (Z.to_nat left) as [|k] eqn:E; [lia|]. cbn [take mjoin list_join].
  apply take_app_le. rewrite length_drop. lia.
Qed.

Lemma repeat_send_ok R fuel : size_bounds -> send_settles R -> forall n buf flags written left,
  0 <= written -> 0 <= left -> written + left = Z.of_nat (length buf) ->
  ((R - n) + Z.to_nat left < fuel)%nat ->
  exists ret sent, repeat_send fuel n buf flags written left = Ok (ret, sent) /\
    sent_ok buf written ret sent /\
    (send_healthy flags -> 0 < left -> sent = drop (Z.to_nat written) buf).
Proof using Type.
  intros Hsize Hset. induction fuel as [|fuel IH]; intros n buf flags written left Hw Hl Hb Hf; [lia|].
  cbn [repeat_send]. destruct (Z.ltb_spec left 0); [lia|]. set (vecs := vectors n buf written left).
  pose proof (Hsize n vecs left Hl) as Hle.
  destruct (send_again flags (kernel_sendmsg n vecs left)) eqn:Ea.
  { assert (Hn : (n < R)%nat).
    { destruct (Nat.ltb_spec n R); [done|]. by rewrite (Hset n vecs left flags) in Ea. }
    apply IH; lia. }
  set (len := kernel_sendmsg n vecs left) in *.
  destruct (Z.gtb_spec len 0) as [Hp|Hp].
  - pose proof (take_step buf written len Hw Hp ltac:(lia)) as Et.
    pose proof (vectors_front n buf written left len Hw Hb ltac:(lia)) as Ev. fold vecs in Ev.
    assert (Lt : Z.of_nat (length (take (Z.to_nat len) (mjoin vecs))) = len)
      by (rewrite Ev, length_take, length_drop; lia).
    destruct (Z.eqb_spec (left - len) 0) as [Hz|Hz]; cbn [negb].
    + eexists _, _. split; [reflexivity|].
      assert (E : take (Z.to_nat len) (mjoin vecs) = drop (Z.to_nat written) buf)
        by (rewrite Ev; apply take_ge; rewrite length_drop; lia).
      rewrite E in *. split; [|done]. split; [done|]. left.
      destruct (Z.eqb_spec (written + len) 0); [lia|]. cbn [negb]. lia.
    + destruct (IH (S n) buf flags (written + len) (left - len)) as (ret & sent & -> & [P Q] & C); [lia..|].
      rewrite bind_ret_l. eexists _, _. split; [reflexivity|]. split; [split|].
      * rewrite Et, Ev. by apply prefix_app.
      * left. rewrite length_app. destruct Q as [->|(? & _)]; lia.
      * intros Hs _. rewrite Et, Ev. f_equal. apply C; [done|lia].
  - eexists _, _. split; [reflexivity|]. split; [split; [apply prefix_nil|]|].
    + destruct (Z.eqb_spec written 0) as [->|]; cbn [negb length]; [right; repeat split; lia|left; lia].
    + intros Hs Hl0. exfalso. destruct (Hs n vecs left Hl0) as [H1|H1]; fold len in H1; [lia|congruence].
Qed.

(** A call that takes more than the bytes left. *)
Lemma repeat_send_over fuel n buf flags written left :
  0 <= left -> left < kernel_sendmsg n (vectors n buf written left) left ->
  repeat_send (S (S fuel)) n buf flags written left = Err Undefined.
Proof using Type.
  intros Hl Hk. cbn [repeat_send]. destruct (Z.ltb_spec left 0); [lia|].
  set (len := kernel_sendmsg n _ left) in *.
  assert (send_again flags len = false) as ->.
  { unfold send_again, ERESTARTSYS, EAGAIN. apply orb_false_intro; [|apply andb_false_intro2]; apply Z.eqb_neq; lia. }
  destruct (Z.gtb_spec len 0); [|lia]. destruct (Z.eqb_spec (left - len) 0); [lia|]. cbn [negb].
  destruct (Z.ltb_spec (left - len) 0); [done|lia].
Qed.

(** An answer of the server that the buffer takes and that ends before the
    bytes nobody has written. *)
Definition answer_ok (msg : list Z) (answer : Z + list Z) : Prop :=
  match answer with
  | inl _ => True
  | inr bs => (length bs <= 50)%nat /\ ((length bs <= length msg)%nat \/ 0 ∈ bs)
  end.

(** From the call number [R] on no receive is to be repeated. *)
Definition recv_settles (R : nat) : Prop := forall n, (R <= n)%nat ->
  kernel_recvmsg n <> inl (- EAGAIN) /\ kernel_recvmsg n <> inl (- ERESTARTSYS).

Lemma read_again_ok R msg response fuel : recv_settles R -> (forall n, answer_ok msg (kernel_recvmsg n)) ->
  Z.of_nat (length msg) < MAX_BUF_SIZE -> clear_response (Z.of_nat (length msg) + 1) = Ok response ->
  forall n, (R - n < fuel)%nat -> exists len, read_again fuel n response = Ok len.
Proof using Type.
  intros Hr Ha Hm Hc. unfold clear_response, MAX_BUF_SIZE in *.
  destruct (Z.gtb_spec (Z.of_nat (length msg) + 1) 4096); [lia|]. injection Hc as <-.
  replace (Z.to_nat (Z.of_nat (length msg) + 1)) with (S (length msg)) by lia.
  set (tail := replicate (Z.to_nat _) None).
  induction fuel as [|fuel IH]; intros n Hf; [lia|]. cbn [read_again].
  specialize (Ha n). destruct (kernel_recvmsg n) as [len|bs] eqn:E.
  - destruct ((len =? - EAGAIN) || (len =? - ERESTARTSYS)) eqn:Ea; [|by eexists].
    apply IH. destruct (Nat.ltb_spec n R); [lia|]. destruct (Hr n ltac:(lia)) as [H1 H2]. rewrite E in H1, H2.
    apply orb_prop in Ea as [Ea|Ea]; apply Z.eqb_eq in Ea; congruence.
  - destruct Ha as [H50 Ht]. destruct (Nat.ltb_spec 50 (length bs)); [lia|]. rewrite bind_ret_l.
    assert (L : length (replicate (S (length msg)) (Some 0) ++ tail) = 4096%nat)
      by (unfold tail; rewrite length_app, !length_replicate; lia).
    rewrite fill_front by (rewrite L; lia). rewrite bind_ret_l.
    enough (exists s, cstr ((Some <$> bs) ++ drop (length bs) (replicate (S (length msg)) (Some 0) ++ tail)) = Ok s)
      as [s ->] by (rewrite bind_ret_l; by eexists).
    destruct Ht as [Ht|Ht]; [|by apply cstr_terminated].
    rewrite drop_app_le by (rewrite length_replicate; lia). rewrite drop_replicate, (assoc_L (++)).
    replace ((Some <$> bs) ++ replicate (S (length msg) - length bs) (Some 0))
      with (Some <$> (bs ++ replicate (S (length msg) - length bs) 0)) by by rewrite fmap_app, fmap_replicate.
    apply cstr_terminated, elem_of_app. right. rewrite Nat.sub_succ_l by done. cbn. by left.
Qed.
End Sockets.

(** C25: [stream_msg_send] on a kernel that lets [size] bound what a call takes
    (the code passes the number of bytes as that of the vectors, and only this
    bound keeps the kernel from what lies behind the one vector): it ends as
    soon as the socket stops being interrupted, and hands the socket a prefix
    of the message, in order and without repeating or skipping a byte; it
    returns the number of bytes handed over when there are any and an error or
    zero otherwise, and a socket that reports no error gets the whole message.
    On a kernel whose first call takes more, the bytes of the further vectors
    included, the send is undefined. *)
Theorem stream_msg_send_correct kernel_sendmsg stack (R : nat) (buf : list Z) (flags : Z) :
  Z.of_nat (length buf) < 2 ^ 31 ->
  (size_bounds kernel_sendmsg -> send_settles kernel_sendmsg R ->
   exists ret sent, stream_msg_send kernel_sendmsg stack (R + length buf + 1) buf flags = Ok (ret, sent) /\
     sent `prefix_of` buf /\
     (ret = Z.of_nat (length sent) \/ (sent = [] /\ ret <= 0)) /\
     (send_healthy kernel_sendmsg flags -> buf <> [] -> sent = buf)) /\
  (Z.of_nat (length buf) < kernel_sendmsg 0%nat (take (length buf) (buf :: stack 0%nat)) (Z.of_nat (length buf)) ->
   forall fuel, stream_msg_send kernel_sendmsg stack (2 + fuel) buf flags = Err Undefined).
Proof.
  intros Hb. unfold stream_msg_send. rewrite swrap_small by lia. split.
  - intros Hle Hs.
    destruct (repeat_send_ok kernel_sendmsg stack R (R + length buf + 1) Hle Hs 0 buf flags 0
                (Z.of_nat (length buf))) as (ret & sent & E & [P Q] & C); [lia..|].
    exists ret, sent. rewrite drop_0 in *. split; [done|]. split; [done|]. split; [tauto|].
    intros Hp Hne. apply C; [done|]. destruct buf; [done|]. cbn [length]. lia.
  - intros Hk fuel. apply repeat_send_over; [lia|]. unfold vectors.
    by rewrite Nat2Z.id, drop_0, (take_ge buf) by done.
Qed.

(** A socket that is interrupted once and then takes at most two bytes. *)
Definition slow_socket (n : nat) (vecs : list (list Z)) (size : Z) : Z :=
  if (n =? 0)%nat then - ERESTARTSYS else Z.max 0 (Z.min size 2).

Lemma slow_socket_ok :
  size_bounds slow_socket /\ send_settles slow_socket 1 /\ forall flags, send_healthy slow_socket flags.
Proof.
  unfold slow_socket, ERESTARTSYS. split; [|split].
  - intros n vecs size Hs. destruct (n =? 0)%nat; lia.
  - intros n vecs size f Hn. destruct (Nat.eqb_spec n 0); [lia|].
    unfold send_again, ERESTARTSYS, EAGAIN.
    apply orb_false_intro; [|apply andb_false_intro2]; apply Z.eqb_neq; lia.
  - intros f n vecs size Hs. destruct (n =? 0)%nat; [by right|left; lia].
Qed.

(** A socket that takes every vector it is passed. *)
Definition greedy_socket (n : nat) (vecs : list (list Z)) (size : Z) : Z := Z.of_nat (length (mjoin vecs)).

Lemma stream_msg_send_correct_witness :
  (exists ret sent, stream_msg_send slow_socket (fun _ => [[9]]) 5 [1; 2; 3] MSG_DONTWAIT = Ok (ret, sent) /\
     sent = [1; 2; 3]) /\
  stream_msg_send greedy_socket (fun _ => [[9]]) 5 [1; 2; 3] MSG_DONTWAIT = Err Undefined.
Proof.
  destruct slow_socket_ok as (S1 & S2 & S3). split.
  - destruct (stream_msg_send_correct slow_socket (fun _ => [[9]]) 1 [1; 2; 3] MSG_DONTWAIT ltac:(done)) as [H _].
    destruct (H S1 S2) as (ret & sent & E & _ & _ & C).
    exists ret, sent. split; [exact E|]. by apply C.
  - exact (proj2 (stream_msg_send_correct greedy_socket (fun _ => [[9]]) 1 [1; 2; 3] MSG_DONTWAIT ltac:(done))
             ltac:(reflexivity) 3%nat).
Defined.

(** ** Replying to the server *)

(** What the socket calls are relied on for. *)
Record socket_ok (kernel_sendmsg : nat -> list (list Z) -> Z -> Z) (kernel_recvmsg : nat -> Z + list Z)
    (R : nat) (msg : list Z) : Prop := {
  so_bounds : size_bounds kernel_sendmsg;
  so_send : send_settles kernel_sendmsg R;
  so_recv : recv_settles kernel_recvmsg R;
  so_answers : forall n, answer_ok msg (kernel_recvmsg n)
}.

Lemma reply_server_ok kernel_sendmsg stack kernel_recvmsg (R : nat) (sock : sock_ptr) (create connect : Z)
    (answered : bool) (msg : list Z) :
  socket_ok kernel_sendmsg kernel_recvmsg R msg -> Z.of_nat (length msg) < MAX_BUF_SIZE -> 0 <= create ->
  exists sent, poise_reply_server kernel_sendmsg stack kernel_recvmsg (R + length msg + 1) sock create connect answered msg =
      Ok (mkRun 0 sent 1 1 SFreed) /\ sent `prefix_of` msg /\
    (connect <> 0 -> connect <> - EINPROGRESS -> sent = []) /\
    (send_healthy kernel_sendmsg MSG_DONTWAIT -> connect = 0 \/ connect = - EINPROGRESS -> msg <> [] -> sent = msg).
Proof.
  intros [Hle Hs Hr Ha] Hm Hcr. unfold poise_reply_server.
  destruct (Z.ltb_spec create 0); [lia|].
  destruct (Z.eqb_spec connect 0) as [->|Hc]; cbn [negb andb].
  2: destruct (Z.eqb_spec connect (- EINPROGRESS)) as [->|Hc2]; cbn [negb andb].
  3: { exists []. split; [reflexivity|]. split; [apply prefix_nil|]. split; [done|]. by intros _ [?|?]. }
  all: destruct (repeat_send_ok kernel_sendmsg stack R (R + length msg + 1) Hle Hs 0 msg MSG_DONTWAIT 0
         (Z.of_nat (length msg))) as (ret & sent & E & [P Q] & C); [lia..|];
       unfold stream_msg_send; rewrite swrap_small by (unfold MAX_BUF_SIZE in Hm; lia); rewrite E, bind_ret_l;
       exists sent; rewrite drop_0 in *;
       (split; [|split; [done|split; [done|]];
                 intros Hp _ Hne; apply C; [done|]; destruct msg; [done|]; cbn [length]; lia]);
       destruct answered; [|by rewrite bind_ret_l];
       destruct (clear_response (Z.of_nat (length msg) + 1)) as [response|] eqn:Er;
         [|unfold clear_response, MAX_BUF_SIZE in *; destruct (Z.gtb_spec (Z.of_nat (length msg) + 1) 4096); [lia|done]];
       destruct (read_again_ok kernel_recvmsg R msg response (R + length msg + 1) Hr Ha Hm Er 0 ltac:(lia)) as (len & El);
       unfold stream_msg_receive; by rewrite bind_ret_l, El, !bind_ret_l.
Qed.

(** C26: [poise_reply_server], call by call, for messages of at most 4095 bytes,
    on a kernel that lets [size] bound a send, once the socket settles and when
    the server's answers are at most 50 bytes and end, or are not longer than
    the message.  When a socket can be created the call returns 0 and releases
    that socket, and the connection got a prefix of the message: nothing when it
    was not made, all of it when it was and reports no error.  The static
    pointer is left at the socket released.  So when no socket can be created
    the call returns -1 and leaves everything as it is only before the first
    success; afterwards it releases a released socket, which is undefined. *)
Theorem reply_server_correct kernel_sendmsg stack kernel_recvmsg (R : nat) (sock : sock_ptr)
    (create connect : Z) (answered : bool) (msg : list Z) :
  socket_ok kernel_sendmsg kernel_recvmsg R msg -> Z.of_nat (length msg) < MAX_BUF_SIZE -> sock <> SLive ->
  let run := poise_reply_server kernel_sendmsg stack kernel_recvmsg (R + length msg + 1) sock create connect answered msg in
  (0 <= create -> exists sent, run = Ok (mkRun 0 sent 1 1 SFreed) /\ sent `prefix_of` msg /\
     (connect <> 0 -> connect <> - EINPROGRESS -> sent = []) /\
     (send_healthy kernel_sendmsg MSG_DONTWAIT -> connect = 0 \/ connect = - EINPROGRESS -> msg <> [] -> sent = msg)) /\
  (create < 0 -> sock = SNull -> run = Ok (mkRun (-1) [] 0 0 SNull)) /\
  (create < 0 -> sock = SFreed -> run = Err Undefined).
Proof.
  intros Hs Hm Hk run. split; [intros Hc; by apply reply_server_ok|].
  unfold run, poise_reply_server. split; intros Hc ->; by destruct (Z.ltb_spec create 0); [|lia].
Qed.

Lemma slow_socket_answers : socket_ok slow_socket (fun _ => inr [79; 75]) 1 [1; 2; 3].
Proof.
  destruct slow_socket_ok as (S1 & S2 & _). split; [done..| |].
  - intros n _. done.
  - intros n. cbn. split; [lia|left; lia].
Qed.

(** A call that succeeds, and one after it whose socket cannot be created. *)
Lemma reply_server_correct_witness :
  let call sock create :=
    poise_reply_server slow_socket (fun _ => [[9]]) (fun _ => inr [79; 75]) 5 sock create 0 true [1; 2; 3] in
  call SNull 0 = Ok (mkRun 0 [1; 2; 3] 1 1 SFreed) /\ call SFreed (-23) = Err Undefined.
Proof.
  intros call. split.
  - destruct (proj1 (reply_server_correct slow_socket (fun _ => [[9]]) (fun _ => inr [79; 75]) 1 SNull 0 0 true [1; 2; 3]
                slow_socket_answers ltac:(done) ltac:(done)) ltac:(done)) as (sent & E & _ & _ & C).
    rewrite (C (proj2 (proj2 slow_socket_ok) _)) in E; [exact E|by left|done].
  - exact (proj2 (proj2 (reply_server_correct slow_socket (fun _ => [[9]]) (fun _ => inr [79; 75]) 1 SFreed (-23) 0 true [1; 2; 3]
             slow_socket_answers ltac:(done) ltac:(done))) ltac:(done) eq_refl).
Defined.

(** The device after a package list of 4088 bytes was written. *)
Definition long_answer : dev :=
  foldl exec (thread_started dev_zero)
    [EThread; ERelease; EThread; ERelease; EThread;
     EWrite (mkTimeval 1 0) (replicate (Z.to_nat 4088) 0x61)].

(** The length of the message the reply thread sends in a state. *)
Definition message_of (d : dev) : list Z :=
  match reply_once d (reply_start reply_zero) with Ok (m, _) => m | Err _ => [] end.

(** The buffer for the answer has 4096 bytes, but as many bytes as the
    message has, plus one, are cleared in it.  A package list of 4088 bytes
    makes a message of 4112 bytes, and as soon as the server answers it the
    reply thread overruns its stack. *)
Theorem reply_server_overruns kernel_sendmsg stack kernel_recvmsg (R : nat) (sock : sock_ptr) :
  size_bounds kernel_sendmsg -> send_settles kernel_sendmsg R ->
  reachable long_answer /\ Z.of_nat (length (message_of long_answer)) = 4112 /\
  poise_reply_server kernel_sendmsg stack kernel_recvmsg (R + Z.to_nat 4113) sock 0 0 true
    (message_of long_answer) = Err Undefined.
Proof.
  intros Hle Hs.
  assert (L : Z.of_nat (length (message_of long_answer)) = 4112) by (vm_compute; reflexivity).
  split; [apply reachable_events|]. split; [done|].
  unfold poise_reply_server. cbn [Z.ltb Z.eqb Z.compare negb andb].
  generalize dependent (message_of long_answer). intros msg L.
  destruct (repeat_send_ok kernel_sendmsg stack R (R + Z.to_nat 4113) Hle Hs 0 msg MSG_DONTWAIT 0
              (Z.of_nat (length msg))) as (ret & sent & E & _ & _); [lia..|].
  unfold stream_msg_send. rewrite swrap_small by lia. rewrite E, bind_ret_l, L. done.
Qed.

Lemma reply_server_overruns_witness :
  poise_reply_server slow_socket (fun _ => []) (fun _ => inr [2]) (1 + Z.to_nat 4113) SNull 0 0 true
    (message_of long_answer) = Err Undefined.
Proof.
  destruct slow_socket_ok as (S1 & S2 & _).
  exact (proj2 (proj2 (reply_server_overruns slow_socket (fun _ => []) (fun _ => inr [2]) 1 SNull S1 S2))).
Defined.
