(* ===== verification/Pipeline.v ===== *)
(** The kernel module from end to end: what user space writes to the virtual
    device (mon_fs.c, at the request of the thread of mon_rs.c) is what the
    reply thread (mon_poise.c) encodes and what the stream connection
    (mon_sk.c) delivers to the server.  The theorem composes the models of
    Device.v, Reply.v and Stream.v. *)

From stdpp Require Import base list relations.
From Stdlib Require Import ZArith Lia.
From S2P Require Import Prelude Wire Sha1 Totp Device Reply Stream.

Local Open Scope Z_scope.

(** One round of the collecting thread, each request answered by one write. *)
Definition answered_round (n1 n2 n3 : timeval) (loc disp pack : list Z) : list event :=
  [EThread; EWrite n1 loc; EThread; EWrite n2 disp; EThread; EWrite n3 pack; EThread].

(** One iteration of the reply thread with the transfer to the server:
    the result of [poise_reply_server] and the variables left.  [sock] is the
    static socket pointer, [create] and [connect] are the results of the socket
    calls, [answered] whether the server's answer is there after the wait,
    [fuel] bounds the loops of the socket. *)
Definition reply_iteration (kernel_sendmsg : nat -> list (list Z) -> Z -> Z) (stack : nat -> list (list Z))
    (kernel_recvmsg : nat -> Z + list Z) (fuel : nat) (sock : sock_ptr) (create connect : Z) (answered : bool)
    (d : dev) (r : reply) : res (reply_run * reply) :=
  '(m, r) ← reply_once d r;
  res ← poise_reply_server kernel_sendmsg stack kernel_recvmsg fuel sock create connect answered m;
  mret (res, r).

Lemma reachable_run d es : reachable d -> reachable (foldl exec d es).
Proof.
  unfold reachable. intros H. induction es as [|e es IH] using rev_ind; [done|].
  rewrite foldl_app. eapply rtc_r; [exact IH|]. apply do_step.
Qed.

(** An answer that fits its record is stored whole. *)
Lemma store_item now bs type : bs <> [] -> Z.of_nat (length bs) <= MAX_CXT_SIZE ->
  cxt_item (store now bs) type = [(type, now, bs)] /\ cxt_len (store now bs) = Z.of_nat (length bs).
Proof.
  intros Hn Hl. unfold cxt_item, store. cbn [cxt_len cxt_ts cxt_buf].
  destruct (Z.gtb_spec (Z.of_nat (length bs)) MAX_CXT_SIZE); [lia|]. split; [|done].
  destruct (Z.eqb_spec (Z.of_nat (length bs)) 0); [by destruct bs|].
  by rewrite Nat2Z.id, firstn_all, take_app_length.
Qed.

Lemma answers_frames d n1 n2 n3 loc disp pack :
  reachable d -> thread d = AtTop -> isRun d <> 0 -> time_ok n1 -> time_ok n2 -> time_ok n3 ->
  loc <> [] -> disp <> [] -> pack <> [] ->
  Z.of_nat (length loc) <= MAX_CXT_SIZE -> Z.of_nat (length disp) <= MAX_CXT_SIZE -> Z.of_nat (length pack) <= MAX_CXT_SIZE ->
  let d' := foldl exec d (answered_round n1 n2 n3 loc disp pack) in
  dev_inv d' /\ length (context_frames d') = (72 + length loc + length disp + length pack)%nat /\
  decode 3 (context_frames d') = Some [(CXT_LOCATION, n1, loc); (CXT_PACKAGE, n3, pack); (CXT_DISPLAYSTATE, n2, disp)].
Proof.
  intros Hd Ht Hr T1 T2 T3 N1 N2 N3 L1 L2 L3 d'.
  assert (Hi : dev_inv d') by (apply reachable_inv, reachable_run, Hd).
  destruct (round_ok d n1 n2 n3 loc disp pack Ht Hr) as (_ & _ & E1 & E2 & E3).
  change (foldl exec d _) with d' in E1, E2, E3.
  assert (Ts : times_ok d') by (unfold times_ok; rewrite E1, E2, E3; done).
  destruct (store_item n1 loc CXT_LOCATION N1 L1) as [I1 C1], (store_item n2 disp CXT_DISPLAYSTATE N2 L2) as [I2 C2],
    (store_item n3 pack CXT_PACKAGE N3 L3) as [I3 C3].
  split; [done|]. split.
  - destruct Hi as [H1 H2 H3 _ _ _]. unfold context_frames. rewrite !length_app. unfold cxt_frame.
    rewrite E1, E2, E3 in *. rewrite C1, C2, C3.
    destruct (Z.eqb_spec (Z.of_nat (length loc)) 0); [by destruct loc|].
    destruct (Z.eqb_spec (Z.of_nat (length disp)) 0); [by destruct disp|].
    destruct (Z.eqb_spec (Z.of_nat (length pack)) 0); [by destruct pack|].
    rewrite !frame_length by done. lia.
  - destruct (context_frames_decode d' Hi Ts) as [_ ->]. unfold context_items. by rewrite E1, E2, E3, I1, I2, I3.
Qed.

(** C23: the module from end to end.  When user space answers the three
    requests of a round with one write each, and the answers fit a message of
    4095 bytes, the next iteration of the reply thread delivers bytes that
    decode to exactly these answers with the times they were written at, over
    a connection that reports no error; the socket is released, and the thread
    can go on with its next iteration.  This is for a kernel that lets [size]
    bound a send (the number of vectors passed is wrong, see C25) and an answer
    of the server of at most 50 bytes. *)
Theorem answers_reach_server kernel_sendmsg stack kernel_recvmsg (R : nat) (sock : sock_ptr) (create connect : Z)
    (answered : bool) (d : dev) (r : reply) (n1 n2 n3 : timeval) (loc disp pack : list Z) :
  size_bounds kernel_sendmsg -> send_settles kernel_sendmsg R -> send_healthy kernel_sendmsg MSG_DONTWAIT ->
  recv_settles kernel_recvmsg R -> (forall n bs, kernel_recvmsg n = inr bs -> (length bs <= 50)%nat) ->
  0 <= create -> connect = 0 \/ connect = - EINPROGRESS ->
  reachable d -> thread d = AtTop -> isRun d <> 0 -> reply_ok r ->
  time_ok n1 -> time_ok n2 -> time_ok n3 -> loc <> [] -> disp <> [] -> pack <> [] ->
  Z.of_nat (72 + length loc + length disp + length pack) < MAX_BUF_SIZE ->
  let fuel := (R + (72 + length loc + length disp + length pack) + 1)%nat in
  exists sent r', reply_iteration kernel_sendmsg stack kernel_recvmsg fuel sock create connect answered
      (foldl exec d (answered_round n1 n2 n3 loc disp pack)) r = Ok (mkRun 0 sent 1 1 SFreed, r') /\ reply_ok r' /\
    decode 3 sent = Some [(CXT_LOCATION, n1, loc); (CXT_PACKAGE, n3, pack); (CXT_DISPLAYSTATE, n2, disp)].
Proof.
  intros S1 S2 Sh S3 S4 Hc Hcn Hd Ht Hr Ho T1 T2 T3 N1 N2 N3 Hl fuel. unfold MAX_BUF_SIZE in Hl.
  destruct (answers_frames d n1 n2 n3 loc disp pack) as (Hi & L & D); try done; try (unfold MAX_CXT_SIZE; lia).
  destruct (reply_once_frames _ r Hi Ho) as (r' & E & Ho'). unfold reply_iteration. rewrite E, bind_ret_l.
  set (m := context_frames _) in *.
  assert (socket_ok kernel_sendmsg kernel_recvmsg R m) as Hso.
  { split; [done..|]. intros n. unfold answer_ok. destruct (kernel_recvmsg n) eqn:Er; [done|].
    pose proof (S4 n _ Er). split; [done|left]. lia. }
  destruct (reply_server_ok kernel_sendmsg stack kernel_recvmsg R sock create connect answered m Hso
    ltac:(rewrite L; unfold MAX_BUF_SIZE; lia) Hc) as (sent & E2 & _ & _ & H2).
  rewrite L in E2. fold fuel in E2. rewrite E2, bind_ret_l.
  exists sent, r'. split; [done|]. split; [done|]. rewrite H2; [done|done|done|].
  intros E0. rewrite E0 in L. cbn in L. lia.
Qed.

(** A socket that takes half of what it is given, one byte at least. *)
Definition halving_socket (n : nat) (vecs : list (list Z)) (size : Z) : Z := Z.max 0 ((size + 1) / 2).

Lemma halving_socket_ok :
  size_bounds halving_socket /\ send_settles halving_socket 0 /\ send_healthy halving_socket MSG_DONTWAIT.
Proof.
  unfold halving_socket. split; [|split].
  - intros n vecs size Hs. apply Z.max_lub; [done|]. apply Z.lt_succ_r, Z.div_lt_upper_bound; lia.
  - intros n vecs size f _. unfold send_again, ERESTARTSYS, EAGAIN.
    apply orb_false_intro; [|apply andb_false_intro2]; apply Z.eqb_neq; lia.
  - intros n vecs size Hs. left. pose proof (Z.div_str_pos (size + 1) 2 ltac:(lia)). lia.
Qed.

Lemma answers_reach_server_witness :
  exists sent r', reply_iteration halving_socket (fun _ => [[1; 2]]) (fun _ => inr [79; 75]) 77 SFreed 3 0 true
      (foldl exec (thread_started dev_zero)
         (answered_round (mkTimeval 1 2) (mkTimeval 3 4) (mkTimeval 5 6) [65; 66] [67] [68])) (reply_start reply_zero) =
      Ok (mkRun 0 sent 1 1 SFreed, r') /\
    decode 3 sent = Some [(1, mkTimeval 1 2, [65; 66]); (3, mkTimeval 5 6, [68]); (2, mkTimeval 3 4, [67])].
Proof.
  destruct halving_socket_ok as (S1 & S2 & S3).
  destruct (answers_reach_server halving_socket (fun _ => [[1; 2]]) (fun _ => inr [79; 75]) 0 SFreed 3 0 true
    (thread_started dev_zero) (reply_start reply_zero) (mkTimeval 1 2) (mkTimeval 3 4) (mkTimeval 5 6) [65; 66] [67] [68]
    S1 S2 S3 ltac:(intros n _; done) ltac:(intros n bs [= <-]; cbn; lia) ltac:(lia) ltac:(by left) (reachable_events [])
    eq_refl ltac:(discriminate) reply_start_ok ltac:(done) ltac:(done) ltac:(done) ltac:(done) ltac:(done) ltac:(done)
    eq_refl) as (sent & r' & E & _ & D).
  exists sent, r'. split; [exact E|exact D].
Defined.
