(* ===== verification/Udp.v ===== *)
(** Datagrams and the older stream connection of the kernel module
    (src/client-module/kernel-module/mon_sk.c, lines 19-311, and mon_co.c,
    which holds an earlier copy of the same functions).  A frame is its bytes;
    the kernel's checksum helpers are parameters; the text logged after a
    frame was queued is not modelled. *)

From stdpp Require Import base list.
From Stdlib Require Import ZArith Lia.
From S2P Require Import Prelude Wire Sha1 Reply Checksum.

Local Open Scope Z_scope.

(** ** Sending one datagram *)

(** Network byte order of a 16-bit field. *)
Definition be16 (z : Z) : list Z := [uwrap 16 z / 256; uwrap 16 z mod 256].

Definition IPPROTO_UDP : Z := 17.

(** [struct net_device]: the hardware address and [LL_RESERVED_SPACE]. *)
Record net_device : Type := mkNetDev { dev_addr : list Z; reserved : Z }.

(** The IP header; addresses and ports are stored as they are passed. *)
Definition udp_iph (ip_len sip dip check : Z) : list Z :=
  [0x45; 0] ++ be16 ip_len ++ be16 0x8888 ++ [0; 0] ++ [0x40; IPPROTO_UDP] ++ le 2 check
  ++ le 4 sip ++ le 4 dip.

Definition udph (sport dport len check : Z) : list Z :=
  le 2 sport ++ le 2 dport ++ be16 len ++ le 2 check.

Section Datagram.
Context (csum_partial : list Z -> Z -> Z).
Context (csum_tcpudp_magic : Z -> Z -> Z -> Z -> Z -> Z).
Context (ip_fast_csum : list Z -> Z).

(** The frame [dev_udp_tx] builds. *)
Definition udp_frame (dev : net_device) (dmac : list Z) (sip sport dip dport : Z) (data : list Z) : list Z :=
  let dsize := Z.of_nat (length data) in
  let ip_len := u32 (dsize + 20 + 8) in
  let csum := csum_partial (take (Z.to_nat dsize) (udph sport dport dsize 0 ++ data)) 0 in
  let ucheck := csum_tcpudp_magic sip dip dsize IPPROTO_UDP csum in
  let icheck := ip_fast_csum (udp_iph ip_len sip dip 0) in
  take 6 dmac ++ take 6 (dev_addr dev) ++ [0x08; 0x00]
  ++ udp_iph ip_len sip dip icheck ++ udph sport dport dsize ucheck ++ data.

(** [dev_udp_tx]: the result and the frame queued.  [alloc] says whether
    [alloc_skb] succeeded, [xmit] is the result of [dev_queue_xmit], which
    consumes the buffer whatever it returns, so freeing it is undefined;
    pushing the Ethernet header needs 14 bytes of head room. *)
Definition dev_udp_tx (alloc : bool) (xmit : Z) (dev : net_device) (dmac : list Z)
    (sip sport dip dport : Z) (data : list Z) : res (Z * option (list Z)) :=
  if negb alloc then mret (0, None) else
  _ ← cassert (14 <=? reserved dev);
  let frame := udp_frame dev dmac sip sport dip dport data in
  if xmit <? 0 then Err Undefined else mret (1, Some frame).

(** [dev_udp_tx] of mon_co.c: the same code with other texts in the log.  The
    Makefile links mon_sk.o and not mon_co.o. *)
Definition co_dev_udp_tx (alloc : bool) (xmit : Z) (dev : net_device) (dmac : list Z)
    (sip sport dip dport : Z) (data : list Z) : res (Z * option (list Z)) :=
  if negb alloc then mret (0, None) else
  _ ← cassert (14 <=? reserved dev);
  let frame := udp_frame dev dmac sip sport dip dport data in
  if xmit <? 0 then Err Undefined else mret (1, Some frame).

(** ** A receiver *)

Definition unbe16 (bs : list Z) : Z := match bs with [h; l] => 256 * h + l | _ => 0 end.

(** What a host takes out of the frame (RFC 791, RFC 768): [None] when a
    length is not possible. *)
Definition udp_receive (frame : list Z) : option (list Z) :=
  let ip := drop 14 frame in
  let tot := unbe16 (take 2 (drop 2 ip)) in
  let udp := take (Z.to_nat (tot - 20)) (drop 20 ip) in
  let ulen := unbe16 (take 2 (drop 4 udp)) in
  if (tot <? 28) || (Z.of_nat (length ip) <? tot) then None else
  if (ulen <? 8) || (tot - 20 <? ulen) then None else
  Some (take (Z.to_nat (ulen - 8)) (drop 8 udp)).

Lemma unbe16_be16 z : unbe16 (be16 z) = uwrap 16 z.
Proof using Type. unfold unbe16, be16. pose proof (Z.div_mod (uwrap 16 z) 256). lia. Qed.

Lemma be16_byte z : Forall byte (be16 z).
Proof using Type.
  pose proof (uwrap_range 16 z ltac:(lia)). unfold be16, byte.
  constructor; [|constructor; [|constructor]].
  - split; [apply Z.div_pos; lia|apply Z.div_lt_upper_bound; lia].
  - apply Z.mod_pos_bound. lia.
Qed.

Lemma udp_iph_bytes l s d c : Forall byte (udp_iph l s d c) /\ length (udp_iph l s d c) = 20%nat.
Proof using Type.
  split; [|done]. unfold udp_iph, IPPROTO_UDP. rewrite !Forall_app.
  assert (byte 0 /\ byte 0x45 /\ byte 0x40 /\ byte 17) as (? & ? & ? & ?) by done.
  repeat split; try apply be16_byte; try apply le_byte;
    by repeat (constructor; [assumption|]).
Qed.

(** The words of the header are those with a zero checksum, plus the checksum. *)
Lemma udp_iph_words l s d c : 0 <= c < 2 ^ 16 ->
  word_sum (udp_iph l s d c) = word_sum (udp_iph l s d 0) + c.
Proof using Type.
  intros Hc. unfold udp_iph.
  set (front := [0x45; 0] ++ be16 l ++ be16 0x8888 ++ [0; 0] ++ [0x40; IPPROTO_UDP]).
  assert (E : forall x, [0x45; 0] ++ be16 l ++ be16 0x8888 ++ [0; 0] ++ [0x40; IPPROTO_UDP] ++ le 2 x
                        ++ le 4 s ++ le 4 d = front ++ le 2 x ++ le 4 s ++ le 4 d) by done.
  assert (W : forall x, 0 <= x < 2 ^ 16 ->
    word_sum (front ++ le 2 x ++ le 4 s ++ le 4 d) = word_sum front + (x + word_sum (le 4 s ++ le 4 d))).
  { intros x Hx. rewrite (word_sum_app front) by (by exists 5%nat).
    rewrite (word_sum_app (le 2 x)) by (by exists 1%nat). by rewrite word_sum_le_2. }
  rewrite !E, !W by lia. lia.
Qed.
End Datagram.

(** The fields of a frame at their offsets. *)
Lemma udp_frame_parts cp cm ic dev dmac sip sport dip dport data :
  length dmac = 6%nat -> length (dev_addr dev) = 6%nat -> Z.of_nat (length data) < 2 ^ 16 - 28 ->
  let frame := udp_frame cp cm ic dev dmac sip sport dip dport data in
  let ip_len := Z.of_nat (length data) + 28 in
  exists ucheck,
    drop 14 frame = udp_iph ip_len sip dip (ic (udp_iph ip_len sip dip 0))
                    ++ udph sport dport (Z.of_nat (length data)) ucheck ++ data.
Proof.
  intros Hm Ha Hd frame ip_len. unfold frame, udp_frame.
  rewrite (take_ge dmac), (take_ge (dev_addr dev)) by lia.
  replace (u32 (Z.of_nat (length data) + 20 + 8)) with ip_len
    by (unfold u32; rewrite uwrap_small; unfold ip_len; lia).
  eexists. rewrite (assoc_L (++) dmac), (assoc_L (++) (dmac ++ dev_addr dev)).
  rewrite drop_app_length' by (rewrite !length_app, Hm, Ha; done). reflexivity.
Qed.

(** C35: A datagram of at most 65507 bytes leaves as one Ethernet frame: the
    addresses in front, an IP header whose total length is that of the packet
    and whose checksum verifies, and the data behind the UDP header. *)
Theorem udp_frame_correct cp cm ic dev dmac sip sport dip dport data :
  (forall hdr, ic hdr = inet_checksum hdr) ->
  length dmac = 6%nat -> length (dev_addr dev) = 6%nat -> 14 <= reserved dev ->
  Z.of_nat (length data) < 2 ^ 16 - 28 ->
  exists frame, dev_udp_tx cp cm ic true 0 dev dmac sip sport dip dport data = Ok (1, Some frame) /\
    take 12 frame = dmac ++ dev_addr dev /\
    inet_checksum (take 20 (drop 14 frame)) = 0 /\
    unbe16 (take 2 (drop 16 frame)) = Z.of_nat (length (drop 14 frame)) /\
    drop 42 frame = data.
Proof.
  intros Hic Hm Ha Hr Hd. unfold dev_udp_tx. cbn [negb].
  destruct (Z.leb_spec 14 (reserved dev)); [|lia]. cbn [cassert]. rewrite bind_ret_l. cbn [Z.ltb Z.compare].
  eexists. split; [reflexivity|]. set (frame := udp_frame _ _ _ _ _ _ _ _ _ _).
  destruct (udp_frame_parts cp cm ic dev dmac sip sport dip dport data Hm Ha Hd) as [uc E]. fold frame in E.
  set (ipl := Z.of_nat (length data) + 28) in *.
  destruct (udp_iph_bytes ipl sip dip 0) as [B0 _].
  destruct (udp_iph_bytes ipl sip dip (ic (udp_iph ipl sip dip 0))) as [_ L1].
  split; [|split; [|split]].
  - unfold frame, udp_frame. rewrite (take_ge dmac), (take_ge (dev_addr dev)), (assoc_L (++)) by lia.
    by rewrite take_app_length' by (rewrite length_app; lia).
  - rewrite E, take_app_length' by done. apply (inet_checksum_cancels (udp_iph ipl sip dip 0)).
    + by apply word_sum_bound.
    + rewrite udp_iph_words, Hic; [done|]. rewrite Hic. by apply inet_checksum_range.
  - change 16%nat with (14 + 2)%nat. rewrite <- drop_drop, E.
    rewrite length_app, L1, length_app. change (length (udph _ _ _ uc)) with 8%nat.
    change (take 2 (drop 2 _)) with (be16 ipl). rewrite unbe16_be16, uwrap_small; unfold ipl; lia.
  - change 42%nat with (14 + 28)%nat. rewrite <- drop_drop, E. done.
Qed.

(** The Ethernet device of the tests. *)
Definition eth0 : net_device := mkNetDev [2; 0; 0; 0; 0; 1] 16.

Lemma udp_frame_correct_witness :
  exists frame, dev_udp_tx (fun _ _ => 0) (fun _ _ _ _ _ => 0) inet_checksum true 0 eth0
                  [2; 0; 0; 0; 0; 2] 1 2 3 4 [7; 8; 9] = Ok (1, Some frame) /\
                inet_checksum (take 20 (drop 14 frame)) = 0.
Proof.
  destruct (udp_frame_correct (fun _ _ => 0) (fun _ _ _ _ _ => 0) inet_checksum eth0
              [2; 0; 0; 0; 0; 2] 1 2 3 4 [7; 8; 9]) as (f & E & _ & H & _); try done.
  exists f. by split.
Defined.

(** The UDP length field holds the size of the data without the eight
    bytes of the header: a receiver gets the data less its last eight bytes,
    and rejects a datagram of fewer than eight. *)
Theorem udp_length_truncates cp cm ic dev dmac sip sport dip dport data :
  length dmac = 6%nat -> length (dev_addr dev) = 6%nat -> Z.of_nat (length data) < 2 ^ 16 - 28 ->
  udp_receive (udp_frame cp cm ic dev dmac sip sport dip dport data) =
  if Z.of_nat (length data) <? 8 then None else Some (take (length data - 8) data).
Proof.
  intros Hm Ha Hd. unfold udp_receive.
  destruct (udp_frame_parts cp cm ic dev dmac sip sport dip dport data Hm Ha Hd) as [uc ->].
  set (ipl := Z.of_nat (length data) + 28) in *.
  set (hdr := udp_iph ipl sip dip (ic (udp_iph ipl sip dip 0))).
  destruct (udp_iph_bytes ipl sip dip (ic (udp_iph ipl sip dip 0))) as [_ L1]. fold hdr in L1.
  set (uh := udph sport dport (Z.of_nat (length data)) uc).
  assert (Lu : length uh = 8%nat) by done.
  assert (Et : unbe16 (take 2 (drop 2 (hdr ++ uh ++ data))) = ipl).
  { change (take 2 (drop 2 (hdr ++ uh ++ data))) with (be16 ipl).
    rewrite unbe16_be16, uwrap_small; unfold ipl; lia. }
  rewrite Et, !length_app, L1, Lu, drop_app_length' by done.
  rewrite (take_ge (uh ++ data)) by (rewrite length_app; unfold ipl; lia).
  change (take 2 (drop 4 (uh ++ data))) with (be16 (Z.of_nat (length data))).
  rewrite unbe16_be16, (uwrap_small 16 (Z.of_nat (length data))) by lia.
  destruct (Z.ltb_spec ipl 28); [lia|].
  destruct (Z.ltb_spec (Z.of_nat (20 + (8 + length data))) ipl); [lia|]. cbn [orb].
  destruct (Z.ltb_spec (Z.of_nat (length data)) 8); [done|].
  destruct (Z.ltb_spec (ipl - 20) (Z.of_nat (length data))); [lia|]. cbn [orb].
  rewrite drop_app_length' by done. do 2 f_equal. lia.
Qed.

Lemma udp_length_truncates_witness :
  udp_receive (udp_frame (fun _ _ => 0) (fun _ _ _ _ _ => 0) inet_checksum eth0 [2; 0; 0; 0; 0; 2]
                 1 2 3 4 [1; 2; 3; 4; 5; 6; 7; 8; 9]) = Some [1].
Proof.
  by apply (udp_length_truncates (fun _ _ => 0) (fun _ _ _ _ _ => 0) inet_checksum eth0
           [2; 0; 0; 0; 0; 2] 1 2 3 4 [1; 2; 3; 4; 5; 6; 7; 8; 9]).
Defined.

(** ** Splitting a buffer into datagrams *)

Definition MAX_PKT_SIZE : Z := 1400.

(** A buffer [mon_sk_tx] fills: the lengths in its headers and its payload. *)
Record udp_skb : Type := mkUdpSkb { us_ip_len : Z; us_udp_len : Z; us_payload : list Z }.

(** The [while] loop; [alloc k] says whether the [k]-th allocation succeeds.
    The payload is copied from [buf], which the loop does not advance. *)
Fixpoint sk_tx_loop (fuel k : nat) (alloc : nat -> bool) (buf : list Z) (left_size : Z)
  : res (list udp_skb) :=
  match fuel with
  | O => Err NoFuel
  | S fuel =>
      if negb (left_size >? 0) then mret [] else
      let pkt_size := if left_size >? MAX_PKT_SIZE then MAX_PKT_SIZE else left_size in
      if negb (alloc k) then mret [] else
      let skb := mkUdpSkb (uwrap 16 (pkt_size + 20 + 8)) (uwrap 16 pkt_size)
                   (take (Z.to_nat pkt_size) buf) in
      skbs ← sk_tx_loop fuel (S k) alloc buf (left_size - pkt_size);
      mret (skb :: skbs)
  end.

(** [mon_sk_tx(dev, ..., buf, size)]: the result and the buffers built, none
    of which is queued on the device. *)
Definition mon_sk_tx (alloc : nat -> bool) (buf : list Z) : res (Z * list udp_skb) :=
  skbs ← sk_tx_loop (S (length buf)) 0 alloc buf (Z.of_nat (length buf));
  mret (0, skbs).

Definition payload_bytes (skbs : list udp_skb) : Z :=
  foldr (fun s n => Z.of_nat (length (us_payload s)) + n) 0 skbs.

Lemma sk_tx_loop_ok fuel : forall k alloc buf left,
  (forall i, alloc i = true) -> 0 <= left <= Z.of_nat (length buf) -> (Z.to_nat left < fuel)%nat ->
  exists skbs, sk_tx_loop fuel k alloc buf left = Ok skbs /\ payload_bytes skbs = left /\
    Forall (fun s => us_payload s `prefix_of` buf /\
                     0 < Z.of_nat (length (us_payload s)) <= MAX_PKT_SIZE /\
                     us_ip_len s = Z.of_nat (length (us_payload s)) + 28) skbs.
Proof.
  induction fuel as [|fuel IH]; intros k alloc buf left Ha Hl Hf; [lia|]. cbn [sk_tx_loop].
  destruct (Z.gtb_spec left 0); cbn [negb].
  2:{ exists []. split; [done|]. split; [cbn; lia|constructor]. }
  rewrite Ha. cbn [negb]. unfold MAX_PKT_SIZE in *.
  set (pkt := if left >? 1400 then 1400 else left).
  assert (Hp : 0 < pkt <= 1400 /\ pkt <= left) by (unfold pkt; destruct (Z.gtb_spec left 1400); lia).
  destruct (IH (S k) alloc buf (left - pkt)) as (skbs & -> & Hs & F); [done|lia|lia|].
  rewrite bind_ret_l. eexists. split; [reflexivity|].
  assert (L : Z.of_nat (length (take (Z.to_nat pkt) buf)) = pkt) by (rewrite length_take; lia).
  split; [cbn [payload_bytes foldr us_payload]; fold (payload_bytes skbs); lia|].
  constructor; [|done]. cbn [us_payload us_ip_len]. rewrite L. split; [apply prefix_take|]. split; [lia|].
  rewrite uwrap_small; lia.
Qed.

(** [mon_sk_tx] returns for every buffer and splits its size into
    payloads of at most [MAX_PKT_SIZE] bytes, but every payload is a copy of
    the beginning of the buffer: what is behind the first 1400 bytes is in
    none of them. *)
Theorem mon_sk_tx_repeats alloc buf :
  (forall i, alloc i = true) ->
  exists skbs, mon_sk_tx alloc buf = Ok (0, skbs) /\
    payload_bytes skbs = Z.of_nat (length buf) /\
    Forall (fun s => us_payload s `prefix_of` buf /\
                     0 < Z.of_nat (length (us_payload s)) <= MAX_PKT_SIZE /\
                     us_ip_len s = Z.of_nat (length (us_payload s)) + 28) skbs.
Proof.
  intros Ha. unfold mon_sk_tx.
  destruct (sk_tx_loop_ok (S (length buf)) 0 alloc buf (Z.of_nat (length buf)) Ha) as (skbs & -> & H); [lia..|].
  rewrite bind_ret_l. by exists skbs.
Qed.

Lemma mon_sk_tx_repeats_witness :
  exists skbs, mon_sk_tx (fun _ => true) (replicate (Z.to_nat 1500) 5) = Ok (0, skbs) /\
               payload_bytes skbs = 1500.
Proof.
  destruct (mon_sk_tx_repeats (fun _ => true) (replicate (Z.to_nat 1500) 5)) as (skbs & E & H & _); [done|].
  exists skbs. split; [exact E|]. exact H.
Defined.

(** ** The connection of mon_co.c *)

(** [con_sk] says whether the pointer is set to a socket, [sockets] counts the
    open sockets, [lost] the allocated blocks no pointer is left to. *)
Record conn : Type := mkConn { con_sk : bool; sockets : Z; lost : Z }.

Definition conn_zero : conn := mkConn false 0 0.

(** [mon_co_init]: the block allocated first is lost when [sock_create_kern]
    stores its socket over the pointer; when it fails it stores nothing and the
    block is freed.  A socket is no block [kfree] may free.  A socket the pointer
    was set to before stays open. *)
Definition mon_co_init (alloc : bool) (acc cn : Z) (c : conn) : res (Z * conn) :=
  if negb alloc then mret (0, mkConn false (sockets c) (lost c)) else
  if acc <? 0 then mret (0, mkConn false (sockets c) (lost c)) else
  if negb (cn =? 0) then Err Undefined else
  mret (1, mkConn true (sockets c + 1) (lost c + 1)).

Definition mon_co_fini (c : conn) : conn :=
  if con_sk c then mkConn false (sockets c - 1) (lost c) else c.

(** [mon_co_sendmsg] of mon_co.c: [init] are the outcomes of a new
    [mon_co_init], [alloc] that of the copy of the data, which nobody frees,
    and [suc] the result of [kernel_sendmsg]. *)
Definition mon_co_sendmsg (init : bool * Z * Z) (alloc : bool) (suc : Z) (c : conn) : res (Z * conn) :=
  '(ok, c) ← (if con_sk c then mret (1, c)
              else let '(a, acc, cn) := init in mon_co_init a acc cn c);
  if ok =? 0 then mret (0, c) else
  if negb alloc then mret (0, c) else
  let c := mkConn (con_sk c) (sockets c) (lost c + 1) in
  if suc <? 0 then mret (0, mon_co_fini c) else mret (suc, c).

(** [mon_co_sendmsg] of mon_sk.c does not look at the pointer. *)
Definition sk_co_sendmsg (alloc : bool) (suc : Z) (c : conn) : res (Z * conn) :=
  if negb alloc then mret (0, c) else
  if negb (con_sk c) then Err Undefined else
  mret (if suc <? 0 then 0 else suc, mkConn (con_sk c) (sockets c) (lost c + 1)).

(** [mon_co_init] and [mon_co_fini] of mon_sk.c, copies of those of mon_co.c. *)
Definition sk_co_init (alloc : bool) (acc cn : Z) (c : conn) : res (Z * conn) :=
  if negb alloc then mret (0, mkConn false (sockets c) (lost c)) else
  if acc <? 0 then mret (0, mkConn false (sockets c) (lost c)) else
  if negb (cn =? 0) then Err Undefined else
  mret (1, mkConn true (sockets c + 1) (lost c + 1)).

Definition sk_co_fini (c : conn) : conn :=
  if con_sk c then mkConn false (sockets c - 1) (lost c) else c.

(** Sends over a connection of mon_sk.c. *)
Fixpoint sk_co_sends (sends : list (bool * Z)) (c : conn) : res (list Z * conn) :=
  match sends with
  | [] => Ok ([], c)
  | (alloc, suc) :: r =>
      '(ret, c) ← sk_co_sendmsg alloc suc c;
      '(rets, c) ← sk_co_sends r c;
      mret (ret :: rets, c)
  end.

(** A session of [mon_co.c]: the messages sent one after another. *)
Fixpoint co_session (sends : list ((bool * Z * Z) * bool * Z)) (c : conn) : res (list Z * conn) :=
  match sends with
  | [] => Ok ([], c)
  | (init, alloc, suc) :: r =>
      '(ret, c) ← mon_co_sendmsg init alloc suc c;
      '(rets, c) ← co_session r c;
      mret (ret :: rets, c)
  end.

(** A pointer to a socket exactly when one is open. *)
Definition conn_inv (c : conn) : Prop := sockets c = if con_sk c then 1 else 0.

(** The two copies of a function are one function. *)
Lemma copies_agree :
  (forall a acc cn c, sk_co_init a acc cn c = mon_co_init a acc cn c) /\
  (forall c, sk_co_fini c = mon_co_fini c).
Proof. done. Qed.

(** A connection of mon_sk.c that comes up is used for any number of messages
    and released at the end; every message sent leaves its copy behind. *)
Lemma sk_connection acc sends c : con_sk c = false -> 0 <= acc ->
  exists c1 rets c2, sk_co_init true acc 0 c = Ok (1, c1) /\ sk_co_sends sends c1 = Ok (rets, c2) /\
    length rets = length sends /\ sockets (sk_co_fini c2) = sockets c /\
    lost c2 = lost c + 1 + Z.of_nat (length (List.filter fst sends)).
Proof.
  intros Hc Hacc. unfold sk_co_init. cbn [negb]. destruct (Z.ltb_spec acc 0); [lia|]. cbn [Z.eqb negb].
  exists (mkConn true (sockets c + 1) (lost c + 1)).
  assert (forall c1, con_sk c1 = true -> exists rets c2, sk_co_sends sends c1 = Ok (rets, c2) /\ con_sk c2 = true /\
    length rets = length sends /\ sockets c2 = sockets c1 /\
    lost c2 = lost c1 + Z.of_nat (length (List.filter fst sends))) as H1.
  { induction sends as [|[alloc suc] r IH]; intros c1 H1; [exists [], c1; cbn; repeat split; lia || done|].
    cbn [sk_co_sends List.filter fst]. unfold sk_co_sendmsg. destruct alloc; cbn [negb].
    - rewrite H1. cbn [negb]. rewrite bind_ret_l.
      destruct (IH (mkConn true (sockets c1) (lost c1 + 1)) eq_refl) as (rets & c2 & -> & E1 & E2 & E3 & E4).
      rewrite bind_ret_l. do 2 eexists. split; [done|]. cbn [length sockets lost] in *. repeat split; lia || done.
    - rewrite bind_ret_l. destruct (IH c1 H1) as (rets & c2 & -> & E1 & E2 & E3 & E4).
      rewrite bind_ret_l. do 2 eexists. split; [done|]. cbn [length]. repeat split; lia || done. }
  destruct (H1 (mkConn true (sockets c + 1) (lost c + 1)) eq_refl) as (rets & c2 & E & E1 & E2 & E3 & E4).
  exists rets, c2. unfold sk_co_fini. rewrite E1. cbn [sockets lost] in *. repeat split; lia || done.
Qed.

(** The messages of a session that reach [kernel_sendmsg]. *)
Definition connects (s : (bool * Z * Z) * bool * Z) : Prop :=
  let '((a, acc, cn), alloc, _) := s in a = true /\ 0 <= acc /\ cn = 0 /\ alloc = true.

Lemma co_session_ok sends : forall c, conn_inv c -> Forall connects sends ->
  exists c', co_session sends c = Ok ((fun s => Z.max 0 s.2) <$> sends, c') /\ conn_inv c' /\
    lost c + Z.of_nat (length sends) <= lost c'.
Proof.
  induction sends as [|[[[[a acc] cn] alloc] suc] r IH]; intros c Hc F.
  { exists c. split; [done|]. split; [done|]. cbn. lia. }
  apply Forall_cons in F as [(-> & Hacc & -> & ->) F]. cbn [co_session]. unfold mon_co_sendmsg.
  assert (exists c1, (if con_sk c then mret (1, c) else mon_co_init true acc 0 c) = Ok (1, c1) /\
    con_sk c1 = true /\ sockets c1 = 1 /\ lost c <= lost c1) as (c1 & -> & E1 & E2 & E3).
  { unfold conn_inv in Hc. destruct (con_sk c) eqn:E; [exists c; repeat split; lia || done|].
    unfold mon_co_init. cbn [negb]. destruct (Z.ltb_spec acc 0); [lia|]. cbn [Z.eqb negb].
    eexists. split; [reflexivity|]. cbn. repeat split; lia. }
  rewrite bind_ret_l. cbn [Z.eqb negb].
  assert (exists c2, (if suc <? 0 then mret (0, mon_co_fini (mkConn (con_sk c1) (sockets c1) (lost c1 + 1)))
    else mret (suc, mkConn (con_sk c1) (sockets c1) (lost c1 + 1))) = Ok (Z.max 0 suc, c2) /\ conn_inv c2 /\
    lost c2 = lost c1 + 1) as (c2 & -> & I2 & L2).
  { unfold mon_co_fini, conn_inv. cbn [con_sk sockets lost]. rewrite E1, E2.
    destruct (Z.ltb_spec suc 0); eexists; (split; [unfold mret, res_ret; repeat f_equal; lia|]); done. }
  rewrite bind_ret_l. destruct (IH c2 I2 F) as (c' & -> & I' & L'). rewrite bind_ret_l.
  exists c'. split; [done|]. split; [done|]. cbn [length]. lia.
Qed.

(** A session over [mon_co_sendmsg] keeps the pointer and the socket
    together: a connection is made when there is none, closed after a failed
    send, and never duplicated.  But every message sent costs a copy of it
    that is never freed. *)
Theorem co_session_leaks sends :
  Forall connects sends ->
  exists c', co_session sends conn_zero = Ok ((fun s => Z.max 0 s.2) <$> sends, c') /\ conn_inv c' /\
    Z.of_nat (length sends) <= lost c' /\ sockets (mon_co_fini c') = 0.
Proof.
  intros F. destruct (co_session_ok sends conn_zero eq_refl F) as (c' & E & I & L).
  exists c'. split; [done|]. split; [done|]. split; [cbn in L; lia|].
  unfold mon_co_fini, conn_inv in *. destruct (con_sk c'); cbn; lia.
Qed.

Lemma co_session_leaks_witness :
  exists c', co_session [(true, 0, 0, true, 5); (true, 0, 0, true, -32)] conn_zero = Ok ([5; 0], c') /\
             2 <= lost c'.
Proof.
  destruct (co_session_leaks [(true, 0, 0, true, 5); (true, 0, 0, true, -32)]) as (c' & E & _ & L & _).
  - by repeat constructor.
  - exists c'. by split.
Defined.
