(* ===== verification/Lsm.v ===== *)
(** The security hooks of the module
    (src/client-module/kernel-module/mon_lsm.c).  A hook gives a verdict and
    writes to the kernel log; the log is a list of entries with the arguments
    of [printk].  A pointer to a file, a path or a directory entry may be
    null; [current] is the running process. *)

From stdpp Require Import base list strings.
From Stdlib Require Import ZArith Lia.
From S2P Require Import Prelude Wire.

Local Open Scope Z_scope.

Definition EINVAL : Z := 22.

(** The members of [struct task_struct] the hooks read. *)
Record task : Type := mkTask { task_pid : Z; task_uid : Z; task_comm : list Z }.

(** The name kept in a directory entry. *)
Definition dentry : Type := list Z.
(** [struct file] and [struct path], by their directory entry, null or not. *)
Definition file : Type := option dentry.
Definition path : Type := option dentry.

Definition Unknown : list Z := bytes "Unknown".

Definition file_to_name (filp : option file) : list Z :=
  match filp with Some (Some d_iname) => d_iname | _ => Unknown end.

Definition path_to_name (p : option path) : list Z :=
  match p with Some (Some d_iname) => d_iname | _ => Unknown end.

Inductive entry : Type :=
| LogPair (pid : Z) (func : string) (from to : task)
| LogFile (pid : Z) (func : string) (from to : task) (name : list Z)
| LogChmod (pid : Z) (name : list Z) (mode : Z)
| LogChown (pid : Z) (name : list Z) (uid gid : Z)
| LogOpen (pid : Z) (name : list Z)
| LogCreate (pid uid : Z) (comm : list Z)
| LogInject (by_ victim : task).

(** A verdict and what was logged. *)
Definition verdict : Type := Z * list entry.

Section Hooks.
Context (current : task).
Let current_pid : Z := task_pid current.

Definition mon_binder_set_context_mgr (mgr : task) : verdict := (0, []).

Definition mon_binder_transaction (from to : task) : verdict :=
  (0, [LogPair current_pid "mon_binder_transaction" from to]).

Definition mon_binder_transfer_binder (from to : task) : verdict :=
  (0, [LogPair current_pid "mon_binder_transfer_binder" from to]).

Definition mon_binder_transfer_file (from to : task) (f : option file) : verdict :=
  let fname := file_to_name f in
  (0, [LogFile current_pid "mon_binder_transfer_file" from to fname]).

Definition mon_path_chmod (p : option path) (mode : Z) : verdict :=
  let pname := path_to_name p in (0, [LogChmod current_pid pname mode]).

Definition mon_path_chown (p : option path) (uid gid : Z) : verdict :=
  let pname := path_to_name p in (0, [LogChown current_pid pname uid gid]).

Definition mon_file_ioctl (f : option file) (command arg : Z) : verdict := (0, []).

Definition mon_file_mprotect (reqprot prot : Z) : verdict := (0, []).

(** [memcmp] compares five bytes. *)
Definition mon_file_open (filp : option file) : verdict :=
  match filp with
  | None | Some None => (0, [])
  | _ =>
      let fname := file_to_name filp in
      if bool_decide (bytes "/dev/" = take 5 fname) then (0, [LogOpen current_pid fname]) else (0, [])
  end.

Definition mon_task_create (clone_flags : Z) : verdict :=
  (0, [LogCreate current_pid (task_uid current) (task_comm current)]).

Definition mon_ptrace_access_check (child : task) (mode : Z) : verdict :=
  (- EINVAL, [LogInject current child]).

Definition mon_ptrace_traceme (parent : task) : verdict := (0, [LogInject parent current]).

(** A call of the kernel's security layer. *)
Inductive lsm_call : Type :=
| binder_set_context_mgr (mgr : task)
| binder_transaction (from to : task)
| binder_transfer_binder (from to : task)
| binder_transfer_file (from to : task) (f : option file)
| path_chmod (p : option path) (mode : Z)
| path_chown (p : option path) (uid gid : Z)
| file_ioctl (f : option file) (command arg : Z)
| file_mprotect (reqprot prot : Z)
| file_open (f : option file)
| task_create (clone_flags : Z)
| ptrace_access_check (child : task) (mode : Z)
| ptrace_traceme (parent : task).

(** [mon_lsm_ops]: the function installed for a call, run on its arguments;
    none is for [binder_transfer_file]. *)
Definition mon_lsm_ops (c : lsm_call) : option verdict :=
  match c with
  | binder_set_context_mgr mgr => Some (mon_binder_set_context_mgr mgr)
  | binder_transaction from to => Some (mon_binder_transaction from to)
  | binder_transfer_binder from to => Some (mon_binder_transfer_binder from to)
  | binder_transfer_file _ _ _ => None
  | path_chmod p mode => Some (mon_path_chmod p mode)
  | path_chown p uid gid => Some (mon_path_chown p uid gid)
  | file_ioctl f command arg => Some (mon_file_ioctl f command arg)
  | file_mprotect reqprot prot => Some (mon_file_mprotect reqprot prot)
  | file_open f => Some (mon_file_open f)
  | task_create flags => Some (mon_task_create flags)
  | ptrace_access_check child mode => Some (mon_ptrace_access_check child mode)
  | ptrace_traceme parent => Some (mon_ptrace_traceme parent)
  end.
End Hooks.

(** The calls of the kernel's [cus_register_security] and
    [cus_unregister_security], which are not part of the repository: what they
    do, and so whether the hooks are consulted, is not modelled. *)
Inductive security_call : Type := CusRegisterSecurity | CusUnregisterSecurity.

(** [poise_lsm_init] and [poise_lsm_exit] on the calls made so far; what the
    registration returns changes a line of the log only. *)
Definition poise_lsm_init (calls : list security_call) : Z * list security_call :=
  (0, calls ++ [CusRegisterSecurity]).
Definition poise_lsm_exit (calls : list security_call) : list security_call :=
  calls ++ [CusUnregisterSecurity].

(** The verdicts of the installed functions: attaching with ptrace is refused,
    everything else is granted. *)
Lemma mon_lsm_ops_verdicts current c :
  option_map fst (mon_lsm_ops current c) =
  match c with
  | binder_transfer_file _ _ _ => None
  | ptrace_access_check _ _ => Some (- EINVAL)
  | _ => Some 0
  end.
Proof. destruct c as [| | | | | | | |f| | |]; try done. cbn. destruct f as [[n|]|]; [|done..]. cbn. by case_bool_decide. Qed.

(** The names of directory entries hold no slash, so that opening a device is
    never logged. *)
Lemma file_open_silent current (f : option file) :
  (forall n, f = Some (Some n) -> ~ 47 ∈ n) -> (mon_file_open current f).2 = [].
Proof.
  intros H. destruct f as [[n|]|]; [|done..]. cbn. case_bool_decide as E; [|done].
  destruct (H n eq_refl). rewrite <- (take_drop 5 n), <- E. by left.
Qed.
