(* ===== verification/Entry.v ===== *)
(** Loading and unloading the kernel module
    (src/client-module/kernel-module/mon_poise.c, lines 78-147, mon_nf.c,
    lines 346-409): what runs after [poise_init_module] and what
    [poise_exit_module] takes down. *)

From stdpp Require Import base list relations.
From Stdlib Require Import ZArith Lia.
From S2P Require Import Prelude Device Lsm.

Local Open Scope Z_scope.

(** ** The packet hook *)

(** [local_out_hook_op]: whether the structure was allocated, and whether the
    kernel has it in its list. *)
Record nf_hook : Type := mkHook { hook_alloc : bool; hook_listed : bool }.

Definition nf_none : nf_hook := mkHook false false.

(** [poise_nf_init]: [alloc] and [res] are the outcomes of [kmalloc] and of
    [nf_register_hook]; 0 is returned in any case. *)
Definition poise_nf_init (alloc : bool) (res : Z) : Z * nf_hook :=
  if negb alloc then (0, nf_none) else
  (0, mkHook true (res =? 0)).

(** [poise_nf_exit]: unlinking a structure that is in no list is undefined. *)
Definition poise_nf_exit (h : nf_hook) : res nf_hook :=
  if negb (hook_alloc h) then mret h else
  if negb (hook_listed h) then Err Undefined else mret nf_none.

(** ** The module *)

Record modstate : Type := mkMod {
  m_reg : registered;
  m_dev : dev;
  read_context_auto : Z;
  m_nf : nf_hook;
  m_lsm : list security_call
}.

Definition mod_zero : modstate := mkMod nothing dev_zero 0 nf_none [].

(** mon_lsm.h, which mon_poise.c includes, defines [DBG_LSM]. *)
Definition DBG_LSM : bool := true.

(** The outcomes of the kernel calls made while the module is loaded. *)
Record outcomes : Type := mkOut {
  o_major : Z; o_class : Z; o_device : Z;
  o_thread : kthread; o_poll : kthread;
  o_nf_alloc : bool; o_nf_res : Z
}.

(** The creation of the thread that replies to the server. *)
Definition start_poll (k : kthread) (read_context_auto : Z) : res Z :=
  match k with
  | NullThread => mret read_context_auto
  | Task => mret 1
  | ErrThread => Err Undefined
  end.

(** [poise_init_module]; [dbg] says whether [DBG_LSM] is defined. *)
Definition poise_init_module (dbg : bool) (o : outcomes) (m : modstate) : res (Z * modstate) :=
  let '(_, lsm) := poise_lsm_init (m_lsm m) in
  if dbg then mret (0, mkMod (m_reg m) (m_dev m) (read_context_auto m) (m_nf m) lsm) else
  '(ret, reg, d) ← poise_rs_init (o_major o) (o_class o) (o_device o) (o_thread o) (m_reg m) (m_dev m);
  if negb (ret =? 0) then mret (0, mkMod reg d (read_context_auto m) (m_nf m) (m_lsm m)) else
  auto ← start_poll (o_poll o) (read_context_auto m);
  let '(_, nf) := poise_nf_init (o_nf_alloc o) (o_nf_res o) in
  mret (0, mkMod reg d auto nf lsm).

Definition poise_exit_module (dbg : bool) (m : modstate) : res modstate :=
  if dbg then mret (mkMod (m_reg m) (m_dev m) (read_context_auto m) (m_nf m) (poise_lsm_exit (m_lsm m))) else
  nf ← poise_nf_exit (m_nf m);
  '(reg, d) ← poise_rs_exit (m_reg m) (m_dev m);
  mret (mkMod reg d 0 nf (poise_lsm_exit (m_lsm m))).

(** ** Proofs *)

(** As it is built, with [DBG_LSM] defined, loading the module registers its
    table of security hooks and does nothing else, and unloading it calls for
    their removal: the code for the device, the threads and the packet hook is
    compiled out. *)
Lemma load_as_built (o : outcomes) :
  exists m, poise_init_module DBG_LSM o mod_zero = Ok (0, m) /\
    m = mkMod nothing dev_zero 0 nf_none [CusRegisterSecurity] /\
    poise_exit_module DBG_LSM m =
      Ok (mkMod nothing dev_zero 0 nf_none [CusRegisterSecurity; CusUnregisterSecurity]).
Proof. by eexists. Qed.

(** What loading the module gives in a build without [DBG_LSM], when every
    kernel call succeeds. *)
Definition all_well (o : outcomes) : bool :=
  (0 <=? o_major o) && (0 <=? o_class o) && (0 <=? o_device o) &&
  match o_thread o, o_poll o with Task, Task => true | _, _ => false end &&
  o_nf_alloc o && (o_nf_res o =? 0).

Lemma full_load o : all_well o = true ->
  poise_init_module false o mod_zero =
  Ok (0, mkMod (mkReg true true true) (thread_started dev_zero) 1 (mkHook true true) [CusRegisterSecurity]).
Proof.
  destruct o as [ma cl de t1 t2 al re]. unfold all_well.
  cbn [o_major o_class o_device o_thread o_poll o_nf_alloc o_nf_res].
  intros [[[[[H1%Z.leb_le H2%Z.leb_le]%andb_true_iff H3%Z.leb_le]%andb_true_iff H4]%andb_true_iff
            H5]%andb_true_iff H6%Z.eqb_eq]%andb_true_iff.
  subst re. destruct t1, t2; try done. subst al.
  unfold poise_init_module, poise_rs_init, poise_fs_init. cbn [o_major o_class o_device o_thread o_poll].
  destruct (Z.ltb_spec ma 0); [lia|]. destruct (Z.ltb_spec cl 0); [lia|].
  destruct (Z.ltb_spec de 0); [lia|]. done.
Qed.

(** In a build without [DBG_LSM], when every kernel call succeeds, the
    module has its device, both threads and the packet hook after loading;
    unloading it unregisters the device class twice. *)
Theorem full_build_unload_undefined (o : outcomes) :
  all_well o = true ->
  exists m, poise_init_module false o mod_zero = Ok (0, m) /\
    m_reg m = mkReg true true true /\ reachable (m_dev m) /\ read_context_auto m = 1 /\
    m_nf m = mkHook true true /\ m_lsm m = [CusRegisterSecurity] /\
    poise_exit_module false m = Err Undefined.
Proof.
  intros H. rewrite full_load by done. eexists. split; [reflexivity|].
  split; [done|]. split; [apply rtc_refl|]. done.
Qed.

Lemma full_build_unload_undefined_witness :
  exists m, poise_init_module false (mkOut 240 0 0 Task Task true 0) mod_zero = Ok (0, m) /\
            poise_exit_module false m = Err Undefined.
Proof.
  destruct (full_build_unload_undefined (mkOut 240 0 0 Task Task true 0) eq_refl)
    as (m & E & _ & _ & _ & _ & _ & X).
  exists m. by split.
Defined.
