(* ===== verification/Netlink.v ===== *)
(** The netlink channel and the user-mode helper
    (src/client-module/kernel-module/mon_nl.c, mon_nl.h, mon_umh.c), which no
    other part of the module calls.  [update_sensor_data], which the
    repository does not define, is a parameter: its effect on a store of type
    [S]. *)

From stdpp Require Import base list strings.
From Stdlib Require Import ZArith Lia.
From S2P Require Import Prelude Wire.

Local Open Scope Z_scope.

Definition NL_MSG_SENSOR : Z := 1.
Definition NL_PAGE_SIZE : Z := 4096.

(** [NLMSG_SPACE(0)]. *)
Definition NLMSG_SPACE_0 : Z := 16.

(** A message buffer: its header, its data and its reference count. *)
Record nl_skb : Type := mkSkb {
  nlmsg_len : Z; nlmsg_pid : Z; nlmsg_type : Z; nl_data : list Z; users : Z
}.

(** [a && b] of C. *)
Definition land_bool (a b : Z) : Z := if (a =? 0) || (b =? 0) then 0 else 1.

Section Receive.
Context {S : Type} (update_sensor_data : list Z -> Z -> S -> S).

(** The result, the buffer and the store after the message was received. *)
Definition mon_nl_recv_msg (skb : nl_skb) (s : S) : Z * nl_skb * S :=
  let skb := mkSkb (nlmsg_len skb) (nlmsg_pid skb) (nlmsg_type skb) (nl_data skb) (users skb + 1) in
  if nlmsg_len skb >=? NLMSG_SPACE_0 then
    let rx_msg_size := nlmsg_len skb - NLMSG_SPACE_0 in
    let rx_msg_type := nlmsg_type skb in
    let s := if Z.shiftr (land_bool rx_msg_type 0xff00) 8 =? NL_MSG_SENSOR then
               if rx_msg_size <? NL_PAGE_SIZE then update_sensor_data (nl_data skb) rx_msg_size s else s
             else s in
    (1, skb, s)
  else (1, skb, s).
End Receive.

(** [nl_sk]: null, or a socket that may have been released. *)
Inductive nl_sock : Type := NlNull | NlLive | NlReleased.

Definition mon_nl_init (created : bool) (sk : nl_sock) : Z * nl_sock :=
  if created then (0, NlLive) else (-10, NlNull).

(** The pointer keeps its value; releasing a socket twice is undefined. *)
Definition mon_nl_fini (sk : nl_sock) : res nl_sock :=
  match sk with
  | NlNull => mret NlNull
  | NlLive => mret NlReleased
  | NlReleased => Err Undefined
  end.

(** The command and the arguments [mon_umh_location] starts; the result is
    that of [call_usermodehelper]. *)
Definition mon_umh_location (call_usermodehelper : list string -> list string -> Z) : Z :=
  let argv := ["/system/bin/rm"; "/sdcard/test.txt"]%string in
  let envp := ["HOME=/"; "PATH=/sbin:/bin:/usr/sbin:/system/bin:/system/xbin"; "DEBUG=kernel"]%string in
  call_usermodehelper argv envp.

(** The netlink channel never delivers: the type of a message is combined
    with its mask by a logical and, so no message of any type or length
    reaches [update_sensor_data], and every message received keeps one
    reference too many. *)
Theorem netlink_never_delivers {S : Type} (update_sensor_data : list Z -> Z -> S -> S) (skb : nl_skb) (s : S) :
  exists skb', mon_nl_recv_msg update_sensor_data skb s = (1, skb', s) /\ users skb' = users skb + 1.
Proof.
  unfold mon_nl_recv_msg. cbn [nlmsg_len nlmsg_type nl_data users].
  assert (E : Z.shiftr (land_bool (nlmsg_type skb) 0xff00) 8 = 0)
    by (unfold land_bool; by destruct (_ || _)).
  rewrite E. destruct (_ >=? _); by eexists.
Qed.

(** The socket is released once when the channel is set up and taken down,
    and not at all when it could not be created. *)
Lemma nl_init_fini created sk : exists sk', mon_nl_fini (mon_nl_init created sk).2 = Ok sk'.
Proof. destruct created; by eexists. Qed.
