(* ===== verification/Server.v ===== *)
(** The context server (src/client-module/server-module/monserver.cpp): the
    structures of a message, the two functions that print one, and the loop
    that accepts a client and receives from it.  What the server prints is
    the list of its [printf] calls with their arguments; a coordinate printed
    with [%f] after the division by 1000000.0 is given in millionths.  The
    socket calls are parameters: [accept n] and [recv n] are the results of
    the [n]-th calls, [recv n = None] being the result -1. *)

From stdpp Require Import base list strings.
From Stdlib Require Import ZArith Lia Ascii.
From S2P Require Import Prelude Wire Cfloat.

Local Open Scope Z_scope.

Definition PAGE_SIZE : Z := 4096.

(** ** The structures *)

Record net_tx_info : Type := mkNet {
  size : Z; sip : Z; dip : Z; sport : Z; dport : Z; ipid : Z; reserve : Z; plen : Z
}.

Record locationInfo : Type := mkLocation {
  loc_type : Z; longitude : Z; latitude : Z; acc : Z
}.

Record contextInfo : Type := mkContext {
  location : locationInfo;
  is_screen_active : Z;
  is_target_focused : Z;
  is_camera_active : Z;
  device_serialno : list Z
}.

Record sensor_info : Type := mkSensor {
  sen_type : Z; sen_reverse : Z; sen_timestamp : Z; sen_data : Z * Z * Z
}.

Record gps_nmea_info : Type := mkNmea {
  nmea_timestamp : Z; nmea_length : Z; nmea_sentence : list Z
}.

(** ** Printing a message *)

Inductive line : Type :=
| TooSmall
| DisMatch
| PacketInfo (sip sport dip dport ipid plen : Z)
| SerialLine (serial : list Z)
| LocationLine (type : string) (longitude latitude acc : Z)
| ScreenLine (v : Z)
| FocusLine (v : Z)
| CameraLine (v : Z)
| NmeaLines (timestamp length : Z) (sentence : list Z)
| SensorLine (name : string) (time : Z) (v0 v1 v2 : Z * Z)
| SocketError
| BindFailed
| Listening
| AcceptFailed
| Accepted
| ReceivedLine (n : Z)
| ClosedLine
| RecvErrorLine.

Definition getSensorName (type : Z) : string :=
  match type with
  | 1 => "Acc" | 2 => "Mag" | 3 => "Ori" | 4 => "Gyr" | 5 => "Lux" | 6 => "Bar" | 7 => "Tmp"
  | 8 => "Prx" | 9 => "Grv" | 10 => "Lac" | 11 => "Rot" | 12 => "Hum" | 13 => "Tam"
  | _ => "ukn"
  end.

(** The checks and the line both functions start with: [inl] is the message
    printed before an early return, [inr] the size and the line. *)
Definition parse_head (msg : mem) (len : Z) : res (line + Z * line) :=
  if len <? 24 then mret (inl TooSmall) else
  size ← load 4 0 msg;
  if size >? len then mret (inl DisMatch) else
  sip ← load 4 4 msg; sport ← load 2 12 msg;
  dip ← load 4 8 msg; dport ← load 2 14 msg;
  ipid ← load 2 16 msg; plen ← load 4 20 msg;
  mret (inr (size, PacketInfo sip sport dip dport ipid (swrap 32 plen))).

(** The lines for the context at offset 24. *)
Definition print_context (msg : mem) : res (list line) :=
  serial ← cstr (drop (24 + 28) msg);
  type ← load 4 24 msg; lo ← load 4 28 msg; la ← load 4 32 msg; acc ← load 4 36 msg;
  screen ← load 4 40 msg;
  focused ← load 4 44 msg;
  camera ← load 4 48 msg;
  mret [SerialLine serial;
        LocationLine (if type =? 1 then "GPS" else "NET") (f32_int lo) (f32_int la) (swrap 32 acc);
        ScreenLine (swrap 32 screen); FocusLine (swrap 32 focused); CameraLine (swrap 32 camera)].

Definition parse_msg (msg : mem) (len : Z) : res (list line) :=
  h ← parse_head msg len;
  match h with
  | inl l => mret [l]
  | inr (_, l) => ls ← print_context msg; mret (l :: ls)
  end.

(** The line of the sensor record at [off].  The third value is printed as
    it is: the division is applied to the result of [printf]. *)
Definition print_sensor (msg : mem) (off : nat) : res line :=
  type ← load 4 off msg;
  time ← load 8 (off + 8) msg;
  d0 ← load 8 (off + 16) msg; d1 ← load 8 (off + 24) msg; d2 ← load 8 (off + 32) msg;
  mret (SensorLine (getSensorName (swrap 32 type)) time
          (f32_int (swrap 64 d0), 1000000) (f32_int (swrap 64 d1), 1000000)
          (f32_int (swrap 64 d2), 1)).

(** The loop over the sensor records, [tmp_ptr] being [msg + off]. *)
Fixpoint print_sensors (fuel : nat) (msg : mem) (size : Z) (off : nat) : res (list line) :=
  match fuel with
  | O => Err NoFuel
  | S fuel =>
      if Z.of_nat off <? size - 40 then
        l ← print_sensor msg off;
        ls ← print_sensors fuel msg size (off + 40);
        mret (l :: ls)
      else mret []
  end.

Definition parse_msg1 (msg : mem) (len : Z) : res (list line) :=
  h ← parse_head msg len;
  match h with
  | inl l => mret [l]
  | inr (size, l) =>
      time ← load 8 24 msg; n ← load 4 32 msg; s ← cstr (drop 36 msg);
      ls ← print_sensors (S (Z.to_nat size)) msg size 152;
      mret (l :: NmeaLines time (swrap 32 n) s :: ls)
  end.

(** ** The server *)

Section Sockets.
Context (accept : nat -> Z) (recv : nat -> option (list Z)).

(** What the loops of the server have done: the lines printed, the number of
    the next call of [recv], the buffer and [rcv_size]. *)
Record served : Type := mkServed { lines : list line; next : nat; buffer : mem; rcv_size : Z }.

Definition print_first (ls : list line) (s : served) : served :=
  mkServed (ls ++ lines s) (next s) (buffer s) (rcv_size s).

(** The loop that receives: only the result 0 leaves it. *)
Fixpoint recv_loop (fuel n : nat) (rcv_msg : mem) : res served :=
  match fuel with
  | O => Err NoFuel
  | S fuel =>
      let rcv_size := match recv n with Some bs => Z.of_nat (length bs) | None => -1 end in
      rcv_msg ← fill 0 (default [] (recv n)) rcv_msg;
      if rcv_size =? 0 then mret (mkServed [] (S n) rcv_msg rcv_size) else
      ls ← parse_msg rcv_msg (uwrap 32 rcv_size);
      s ← recv_loop fuel (S n) rcv_msg;
      mret (print_first (ReceivedLine rcv_size :: ls) s)
  end.

(** The loop that accepts; [a] counts the calls of [accept]. *)
Fixpoint accept_loop (fuel a n : nat) (rcv_msg : mem) : res served :=
  match fuel with
  | O => Err NoFuel
  | S f =>
      if accept a <? 0 then
        s ← accept_loop f (S a) n rcv_msg; mret (print_first [AcceptFailed] s)
      else
        s ← recv_loop fuel n rcv_msg;
        if rcv_size s =? 0 then
          mret (mkServed (Accepted :: lines s ++ [ClosedLine]) (next s) (buffer s) (rcv_size s))
        else if rcv_size s =? -1 then
          mret (mkServed (Accepted :: lines s ++ [RecvErrorLine]) (next s) (buffer s) (rcv_size s))
        else
          s' ← accept_loop f (S a) (next s) (buffer s);
          mret (print_first (Accepted :: lines s) s')
  end.

(** [create_server_socket]: [socket] and [bind] are the results of the calls.
    The buffer is an automatic variable, so nothing is in it at first. *)
Definition create_server_socket (fuel : nat) (socket bind : Z) : res (list line) :=
  if socket =? -1 then mret [SocketError] else
  if negb (bind =? 0) then mret [BindFailed] else
  s ← accept_loop fuel 0 0 (replicate (Z.to_nat PAGE_SIZE) None);
  mret (Listening :: lines s).
End Sockets.

(** ** The format of a message *)

Definition message_ws : list nat := [4; 4; 4; 2; 2; 2; 2; 4; 4; 4; 4; 4; 4; 4; 4]%nat.

Definition message_vs (h : net_tx_info) (c : contextInfo) : list Z :=
  [size h; sip h; dip h; sport h; dport h; ipid h; reserve h; plen h;
   loc_type (location c); longitude (location c); latitude (location c); acc (location c);
   is_screen_active c; is_target_focused c; is_camera_active c].

(** The 24 bytes of the header and the 48 bytes of the context. *)
Definition net_bytes (h : net_tx_info) : list Z :=
  struct_bytes [4; 4; 4; 2; 2; 2; 2; 4]%nat
    [size h; sip h; dip h; sport h; dport h; ipid h; reserve h; plen h].

Definition context_bytes (c : contextInfo) : list Z :=
  struct_bytes [4; 4; 4; 4; 4; 4; 4]%nat
    [loc_type (location c); longitude (location c); latitude (location c); acc (location c);
     is_screen_active c; is_target_focused c; is_camera_active c] ++ device_serialno c.

Definition u32_ok (z : Z) : Prop := 0 <= z < 2 ^ 32.
Definition u16_ok (z : Z) : Prop := 0 <= z < 2 ^ 16.

Definition net_ok (h : net_tx_info) : Prop :=
  u32_ok (size h) /\ u32_ok (sip h) /\ u32_ok (dip h) /\ u16_ok (sport h) /\ u16_ok (dport h) /\
  u16_ok (ipid h) /\ u32_ok (plen h).

(** A context whose serial number is the string [s]. *)
Definition context_ok (c : contextInfo) (s : list Z) : Prop :=
  u32_ok (loc_type (location c)) /\ u32_ok (longitude (location c)) /\
  u32_ok (latitude (location c)) /\ u32_ok (acc (location c)) /\
  u32_ok (is_screen_active c) /\ u32_ok (is_target_focused c) /\ u32_ok (is_camera_active c) /\
  length (device_serialno c) = 20%nat /\ Forall (fun b => b <> 0) s /\
  (s ++ [0]) `prefix_of` device_serialno c.

(** The lines that report a header and a context. *)
Definition net_line (h : net_tx_info) : line :=
  PacketInfo (sip h) (sport h) (dip h) (dport h) (ipid h) (swrap 32 (plen h)).

Definition context_lines (c : contextInfo) (s : list Z) : list line :=
  [SerialLine s;
   LocationLine (if loc_type (location c) =? 1 then "GPS" else "NET")
     (f32_int (longitude (location c))) (f32_int (latitude (location c)))
     (swrap 32 (acc (location c)));
   ScreenLine (swrap 32 (is_screen_active c)); FocusLine (swrap 32 (is_target_focused c));
   CameraLine (swrap 32 (is_camera_active c))].

(** ** Proofs about messages *)

Lemma message_bytes h c :
  net_bytes h ++ context_bytes c = struct_bytes message_ws (message_vs h c) ++ device_serialno c.
Proof. unfold net_bytes, context_bytes. rewrite (assoc_L (++)). f_equal. Qed.

Lemma message_length h c :
  length (device_serialno c) = 20%nat -> length (net_bytes h ++ context_bytes c) = 72%nat.
Proof. intros H. by rewrite message_bytes, length_app, struct_bytes_length, H. Qed.

Lemma print_context_ok h c s tail rest :
  context_ok c s ->
  print_context ((Some <$> (net_bytes h ++ context_bytes c) ++ tail) ++ rest) =
  Ok (context_lines c s).
Proof.
  unfold context_ok, u32_ok. change (2 ^ 32) with (256 ^ Z.of_nat 4).
  intros (? & ? & ? & ? & ? & ? & ? & Hl & Hs & [k Hk]).
  assert (Ec : cstr (drop (24 + 28) ((Some <$> (net_bytes h ++ context_bytes c) ++ tail) ++ rest)) = Ok s).
  { rewrite message_bytes, <- (assoc_L (++)), fmap_app, <- (assoc_L (++)).
    rewrite drop_app_length' by (rewrite length_fmap, struct_bytes_length; done).
    rewrite Hk, <- !(assoc_L (++)), fmap_app, <- (assoc_L (++)). cbn. by apply cstr_written. }
  unfold print_context. rewrite Ec, bind_ret_l, message_bytes, <- (assoc_L (++)).
  members [8; 9; 10; 11; 12; 13; 14]%nat. done.
Qed.

Lemma parse_head_ok h len tail rest :
  net_ok h -> 24 <= len -> size h <= len ->
  parse_head ((Some <$> net_bytes h ++ tail) ++ rest) len = Ok (inr (size h, net_line h)).
Proof.
  unfold net_ok, u32_ok, u16_ok. change (2 ^ 32) with (256 ^ Z.of_nat 4).
  change (2 ^ 16) with (256 ^ Z.of_nat 2). intros (? & ? & ? & ? & ? & ? & ?) Hn Hs.
  unfold parse_head, net_bytes. destruct (Z.ltb_spec len 24); [lia|].
  members [0]%nat. destruct (Z.gtb_spec (size h) len); [lia|].
  members [1; 3; 2; 4; 5; 7]%nat. done.
Qed.

Lemma parse_msg_ok h c s len tail rest :
  net_ok h -> context_ok c s -> 24 <= len -> size h <= len ->
  parse_msg ((Some <$> (net_bytes h ++ context_bytes c) ++ tail) ++ rest) len =
  Ok (net_line h :: context_lines c s).
Proof.
  intros Hh Hc Hn Hs. unfold parse_msg.
  rewrite <- (assoc_L (++)) at 1. rewrite parse_head_ok, bind_ret_l by done.
  by rewrite (print_context_ok h c s), bind_ret_l.
Qed.

(** ** Proofs about the loops *)

(** One message of a client: its header, its context with the serial number,
    and what follows them. *)
Record message : Type := mkMessage {
  m_net : net_tx_info; m_context : contextInfo; m_serial : list Z; m_tail : list Z
}.

Definition m_bytes (m : message) : list Z :=
  (net_bytes (m_net m) ++ context_bytes (m_context m)) ++ m_tail m.

Definition message_ok (m : message) : Prop :=
  net_ok (m_net m) /\ context_ok (m_context m) (m_serial m) /\
  size (m_net m) <= Z.of_nat (length (m_bytes m)) <= PAGE_SIZE.

(** What the server prints for it. *)
Definition report (m : message) : list line :=
  ReceivedLine (Z.of_nat (length (m_bytes m))) :: net_line (m_net m)
  :: context_lines (m_context m) (m_serial m).

Lemma m_bytes_length m : message_ok m -> (72 <= length (m_bytes m))%nat.
Proof.
  intros (_ & (_ & _ & _ & _ & _ & _ & _ & L & _) & _). unfold m_bytes.
  rewrite length_app, message_length by done. lia.
Qed.

Lemma recv_loop_message recv fuel n m buf :
  message_ok m -> recv n = Some (m_bytes m) -> length buf = Z.to_nat PAGE_SIZE ->
  recv_loop recv (S fuel) n buf =
  s ← recv_loop recv fuel (S n) ((Some <$> m_bytes m) ++ drop (length (m_bytes m)) buf);
  mret (print_first (report m) s).
Proof.
  intros Hm Hr Hb. pose proof (m_bytes_length m Hm) as L. destruct Hm as (Hh & Hc & Hs & Hp).
  cbn [recv_loop]. rewrite Hr. cbn [default from_option id].
  rewrite fill_front by (rewrite Hb; lia). rewrite bind_ret_l.
  destruct (Z.eqb_spec (Z.of_nat (length (m_bytes m))) 0); [lia|].
  unfold PAGE_SIZE in Hp. rewrite uwrap_small by lia.
  pose proof (parse_msg_ok (m_net m) (m_context m) (m_serial m) (Z.of_nat (length (m_bytes m)))
                (m_tail m) (drop (length (m_bytes m)) buf) Hh Hc ltac:(lia) Hs) as E.
  fold (m_bytes m) in E. rewrite E.
  by rewrite bind_ret_l.
Qed.

(** What one receive makes the server print, whatever the buffer holds from the
    receives before: a receive that starts with a message and may hold anything
    behind it, further messages included; one that is shorter than a header; one
    that starts with a header whose size it does not have. *)
Inductive received : list Z -> list line -> Prop :=
| rc_message m more :
    message_ok m -> Z.of_nat (length (m_bytes m ++ more)) <= PAGE_SIZE ->
    received (m_bytes m ++ more)
      (ReceivedLine (Z.of_nat (length (m_bytes m ++ more))) :: net_line (m_net m)
       :: context_lines (m_context m) (m_serial m))
| rc_short bs :
    bs <> [] -> (length bs < 24)%nat ->
    received bs [ReceivedLine (Z.of_nat (length bs)); TooSmall]
| rc_cut h bs :
    net_ok h -> Z.of_nat (length (net_bytes h ++ bs)) <= PAGE_SIZE ->
    Z.of_nat (length (net_bytes h ++ bs)) < size h ->
    received (net_bytes h ++ bs) [ReceivedLine (Z.of_nat (length (net_bytes h ++ bs))); DisMatch].

Lemma received_bounds bs ls : received bs ls -> bs <> [] /\ Z.of_nat (length bs) <= PAGE_SIZE.
Proof.
  intros [m more Hm Hl|b Hb Hl|h b _ Hl _]; (split; [|done || (unfold PAGE_SIZE; lia)]); [|done|done].
  pose proof (m_bytes_length m Hm) as L. intros E. apply (f_equal length) in E. rewrite length_app in E. cbn in E. lia.
Qed.

Lemma received_parse bs ls rest : received bs ls ->
  exists ls', ls = ReceivedLine (Z.of_nat (length bs)) :: ls' /\
    parse_msg ((Some <$> bs) ++ rest) (Z.of_nat (length bs)) = Ok ls'.
Proof.
  intros [m more Hm Hl|b Hb Hl|h b Hh Hl Hs]; (eexists; split; [reflexivity|]).
  - pose proof (m_bytes_length m Hm) as L. destruct Hm as (Hh & Hc & Hs & _).
    unfold m_bytes at 1. rewrite <- (assoc_L (++)). rewrite length_app in *. apply parse_msg_ok; (done || lia).
  - unfold parse_msg, parse_head. by destruct (Z.ltb_spec (Z.of_nat (length b)) 24); [|lia].
  - unfold parse_msg, parse_head. assert (L : (24 <= length (net_bytes h ++ b))%nat) by (rewrite length_app; cbn; lia).
    set (n := Z.of_nat (length (net_bytes h ++ b))) in *. destruct (Z.ltb_spec n 24); [lia|].
    unfold net_ok, u32_ok in Hh. change (2 ^ 32) with (256 ^ Z.of_nat 4) in Hh. destruct Hh as (? & _).
    unfold net_bytes. members [0]%nat. by destruct (Z.gtb_spec (size h) n); [|lia].
Qed.

Lemma recv_loop_received recv rs : forall fuel n buf,
  Forall (fun r => received r.1 r.2) rs -> (forall k r, rs !! k = Some r -> recv (n + k)%nat = Some r.1) ->
  recv (n + length rs)%nat = Some [] -> length buf = Z.to_nat PAGE_SIZE -> (length rs < fuel)%nat ->
  exists buf', recv_loop recv fuel n buf = Ok (mkServed (mjoin (snd <$> rs)) (n + length rs + 1) buf' 0).
Proof.
  induction rs as [|[bs ls] rs IH]; intros fuel n buf Hm Hr Hc Hb Hf; (destruct fuel as [|fuel]; [cbn in Hf; lia|]).
  - cbn [length] in Hc. rewrite Nat.add_0_r in Hc. cbn [recv_loop]. rewrite Hc. cbn [default from_option id].
    rewrite fill_front by (cbn; lia). rewrite bind_ret_l. exists buf. cbn.
    by rewrite Nat.add_0_r, Nat.add_1_r.
  - apply Forall_cons in Hm as [Hm Hms]. cbn in Hm. destruct (received_bounds _ _ Hm) as [Hne Hl].
    pose proof (Hr 0%nat _ eq_refl) as H0. rewrite Nat.add_0_r in H0. cbn in H0.
    cbn [recv_loop]. rewrite H0. cbn [default from_option id]. unfold PAGE_SIZE in *.
    rewrite fill_front by lia. rewrite bind_ret_l.
    destruct (Z.eqb_spec (Z.of_nat (length bs)) 0) as [E0|_]; [destruct bs; [done|cbn in E0; lia]|].
    rewrite uwrap_small by lia. destruct (received_parse bs ls (drop (length bs) buf) Hm) as (ls' & -> & ->).
    rewrite bind_ret_l.
    destruct (IH fuel (S n) ((Some <$> bs) ++ drop (length bs) buf)) as [b E].
    + done.
    + intros k r Hk. rewrite <- (Hr (S k) r Hk). f_equal. lia.
    + rewrite <- Hc. f_equal. cbn [length]. lia.
    + rewrite length_app, length_fmap, length_drop. lia.
    + cbn [length] in Hf. lia.
    + rewrite E, bind_ret_l. exists b. unfold print_first, mret, res_ret. cbn.
      repeat f_equal. lia.
Qed.

(** C17: a client is served to the end, in whatever pieces its bytes arrive: as
    long as every receive starts where a message starts, the server prints, for
    each receive and in order, the packet line and exactly the fields of the
    context of the message it starts with, or the right complaint when the
    receive has less than the header or less than the size in the header, and
    stops when the client closes.  Only the first message of a receive is
    printed, what the stream joins behind it is passed over, and bytes of earlier
    receives left in the buffer do not show.  (Receives that start inside a
    message are not covered, nor ones that stop before the end of the context
    although the header claims no more; for the latter see
    [header_only_message].) *)
Theorem server_prints_contexts (accept : nat -> Z) (recv : nat -> option (list Z))
    (a : nat) (rs : list (list Z * list line)) (fuel : nat) (fd : Z) :
  fd <> -1 -> (forall i, (i < a)%nat -> accept i < 0) -> 0 <= accept a ->
  Forall (fun r => received r.1 r.2) rs -> (forall k r, rs !! k = Some r -> recv k = Some r.1) ->
  recv (length rs) = Some [] -> (a + length rs < fuel)%nat ->
  create_server_socket accept recv fuel fd 0 =
  Ok (Listening :: replicate a AcceptFailed ++ Accepted :: mjoin (snd <$> rs) ++ [ClosedLine]).
Proof.
  intros Hfd Ha Ha0 Hm Hr Hc Hf. unfold create_server_socket.
  destruct (Z.eqb_spec fd (-1)) as [|_]; [done|]. cbn [negb Z.eqb].
  set (buf := replicate (Z.to_nat PAGE_SIZE) None).
  assert (H : forall k f, (k <= a)%nat -> (k + length rs < f)%nat -> exists n b,
    accept_loop accept recv f (a - k) 0 buf =
    Ok (mkServed (replicate k AcceptFailed ++ Accepted :: mjoin (snd <$> rs) ++ [ClosedLine]) n b 0)).
  { induction k as [|k IH]; intros f Hk Hf'; (destruct f as [|f]; [lia|]); cbn [accept_loop].
    - rewrite Nat.sub_0_r. destruct (Z.ltb_spec (accept a) 0); [lia|].
      destruct (recv_loop_received recv rs (S f) 0 buf Hm Hr Hc) as [b E];
        [by unfold buf; rewrite length_replicate|lia|].
      rewrite E, bind_ret_l. by eexists _, _.
    - destruct (Z.ltb_spec (accept (a - S k)%nat) 0) as [_|G];
        [|specialize (Ha (a - S k)%nat); lia].
      replace (S (a - S k)) with (a - k)%nat by lia.
      destruct (IH f) as (nx & b & E); [lia..|]. rewrite E, bind_ret_l. by eexists _, _. }
  destruct (H a fuel (Nat.le_refl a) Hf) as (n0 & b & E). rewrite Nat.sub_diag in E. by rewrite E.
Qed.

Definition sample_context : contextInfo :=
  mkContext (mkLocation 1 114180520 22304106 22) 1 0 1 (bytes "ABC123" ++ replicate 14 0).

Definition sample_message : message :=
  mkMessage (mkNet 72 1 2 80 443 7 0 100) sample_context (bytes "ABC123") [].

Lemma sample_context_ok : context_ok sample_context (bytes "ABC123").
Proof.
  repeat split; try done; [repeat constructor; done|].
  by exists (replicate 13 0).
Qed.

Lemma sample_message_ok : message_ok sample_message.
Proof. split; [repeat split; done|]. split; [exact sample_context_ok|]. done. Qed.

(** Two messages joined in one receive, then a cut header, then a cut message. *)
Lemma server_prints_contexts_witness :
  let two := m_bytes sample_message ++ m_bytes sample_message in
  let cut := net_bytes (m_net sample_message) ++ [1; 0; 0; 0] in
  create_server_socket (fun i => if (i =? 0)%nat then -1 else 4)
    (fun i => [two; [72; 0; 0; 0]; cut; []] !! i) 5 3 0 =
  Ok (Listening :: [AcceptFailed] ++ Accepted ::
      [ReceivedLine 144; PacketInfo 1 80 2 443 7 100; SerialLine (bytes "ABC123");
       LocationLine "GPS" 114180520 22304106 22; ScreenLine 1; FocusLine 0; CameraLine 1] ++
      [ReceivedLine 4; TooSmall] ++ [ReceivedLine 28; DisMatch] ++ [ClosedLine]).
Proof.
  intros two cut.
  apply (server_prints_contexts (fun i => if (i =? 0)%nat then -1 else 4) (fun i => [two; [72; 0; 0; 0]; cut; []] !! i) 1
    [(two, ReceivedLine (Z.of_nat (length two)) :: net_line (m_net sample_message)
             :: context_lines (m_context sample_message) (m_serial sample_message));
     ([72; 0; 0; 0], [ReceivedLine 4; TooSmall]); (cut, [ReceivedLine (Z.of_nat (length cut)); DisMatch])] 5 3);
    [done| |done| | |done|cbn; lia].
  - intros [|i] Hi; [done|lia].
  - apply Forall_cons. split; [apply (rc_message sample_message (m_bytes sample_message)); [exact sample_message_ok|done]|].
    apply Forall_cons. split; [by apply rc_short; [|cbn; lia]|].
    apply Forall_cons. split; [|constructor].
    apply (rc_cut (m_net sample_message) [1; 0; 0; 0]); [|done|done]. repeat split; done.
  - intros [|[|[|k]]] r; [by intros [= <-]..|done].
Defined.

(** ** Messages cut short and failing receives *)

Lemma parse_msg_fresh_header h bs len rest :
  net_ok h -> 24 <= len -> size h <= len -> (length bs <= 28)%nat -> (28 < length rest + length bs)%nat ->
  Forall (fun b => b = None) rest ->
  parse_msg ((Some <$> net_bytes h ++ bs) ++ rest) len = Err Undefined.
Proof.
  intros Hh Hn Hs Hb Hr Hf. unfold parse_msg. rewrite parse_head_ok, bind_ret_l by done.
  unfold print_context.
  assert (L : length (Some <$> net_bytes h ++ bs) = (24 + length bs)%nat)
    by (rewrite length_fmap, length_app; done).
  rewrite drop_app_ge by (rewrite L; lia). rewrite L.
  destruct (drop (24 + 28 - (24 + length bs)) rest) as [|o r] eqn:E; [done|].
  rewrite <- E. apply (Forall_drop _ (24 + 28 - (24 + length bs))) in Hf. rewrite E in *.
  by apply Forall_cons in Hf as [-> _].
Qed.

(** The two length checks of [parse_msg] let a message through that ends
    after its header.  As the first message it makes the server read bytes of
    its buffer nobody has written; after a complete message it is reported
    with the context of that message, which another packet had. *)
Theorem header_only_message (recv : nat -> option (list Z)) (h : net_tx_info) (m : message) (fuel : nat) :
  net_ok h -> size h <= 24 -> message_ok m ->
  (recv 0%nat = Some (net_bytes h) ->
   recv_loop recv (S fuel) 0 (replicate (Z.to_nat PAGE_SIZE) None) = Err Undefined) /\
  (recv 0%nat = Some (m_bytes m) -> recv 1%nat = Some (net_bytes h) -> recv 2%nat = Some [] ->
   exists b, recv_loop recv (3 + fuel) 0 (replicate (Z.to_nat PAGE_SIZE) None) =
     Ok (mkServed (report m ++ ReceivedLine 24 :: net_line h
                     :: context_lines (m_context m) (m_serial m)) 3 b 0)).
Proof.
  intros Hh Hs Hm. assert (L : length (net_bytes h) = 24%nat) by done. split.
  - intros Hr. cbn [recv_loop]. rewrite Hr. cbn [default from_option id].
    rewrite fill_front by (rewrite length_replicate, L; unfold PAGE_SIZE; lia).
    rewrite bind_ret_l, L, drop_replicate. change (Z.of_nat 24) with 24. change (24 =? 0) with false. cbv iota zeta.
    rewrite (uwrap_small 32 24) by lia.
    pose proof (parse_msg_fresh_header h [] 24 (replicate (Z.to_nat PAGE_SIZE - 24) None) Hh
                  ltac:(lia) Hs) as E.
    rewrite app_nil_r in E. rewrite E; [done|cbn; lia| |by apply Forall_replicate].
    rewrite length_replicate. unfold PAGE_SIZE. cbn [length]. lia.
  - intros H0 H1 H2. change (3 + fuel)%nat with (S (S (S fuel))).
    rewrite (recv_loop_message recv _ 0 m) by (try done; by rewrite length_replicate).
    pose proof Hm as (_ & Hc & _ & Hp). cbn [recv_loop]. rewrite H1. cbn [default from_option id].
    pose proof (m_bytes_length m Hm) as Lm. unfold PAGE_SIZE in *.
    set (old := drop (length (m_bytes m)) _).
    rewrite fill_front by (rewrite length_app, length_fmap, L; lia).
    rewrite bind_ret_l, L. change (Z.of_nat 24) with 24. change (24 =? 0) with false. cbv iota zeta.
    rewrite (uwrap_small 32 24) by lia.
    assert (E : (Some <$> net_bytes h) ++ drop 24 ((Some <$> m_bytes m) ++ old) =
                (Some <$> (net_bytes h ++ context_bytes (m_context m)) ++ m_tail m) ++ old).
    { rewrite drop_app_le by (rewrite length_fmap; lia). rewrite <- fmap_drop. unfold m_bytes.
      rewrite <- (assoc_L (++)), drop_app_length' by done.
      by rewrite (assoc_L (++)), <- fmap_app, (assoc_L (++)). }
    rewrite E, (parse_msg_ok h (m_context m) (m_serial m)) by (done || lia).
    rewrite bind_ret_l, H2. cbn [default from_option id].
    rewrite fill_front by (cbn; lia). eexists. rewrite !bind_ret_l. cbn. reflexivity.
Qed.

Lemma header_only_message_witness :
  exists b, recv_loop (fun i => match i with 0%nat => Some (m_bytes sample_message)
                                | 1%nat => Some (net_bytes (mkNet 24 9 9 9 9 9 0 0)) | _ => Some [] end)
    3 0 (replicate (Z.to_nat PAGE_SIZE) None) =
    Ok (mkServed (report sample_message ++ ReceivedLine 24 :: net_line (mkNet 24 9 9 9 9 9 0 0)
                  :: context_lines sample_context (bytes "ABC123")) 3 b 0).
Proof.
  apply (header_only_message _ (mkNet 24 9 9 9 9 9 0 0) sample_message 0);
    [repeat split; cbn; lia|done|exact sample_message_ok|done..].
Defined.

Lemma recv_loop_size recv fuel : forall n buf s, recv_loop recv fuel n buf = Ok s -> rcv_size s = 0.
Proof.
  induction fuel as [|fuel IH]; intros n buf s H; [done|]. cbn [recv_loop] in H.
  apply bind_Ok in H as (b & _ & H). destruct (Z.eqb_spec (match recv n with
    Some bs => Z.of_nat (length bs) | None => -1 end) 0) as [E|_].
  - injection H as <-. exact E.
  - apply bind_Ok in H as (ls & _ & H). apply bind_Ok in H as (s' & Hs & H).
    injection H as <-. exact (IH _ _ _ Hs).
Qed.

(** The branch for a failed receive is never taken: a result of -1 keeps
    the receiving loop going.  When receiving fails for good after a complete
    message, the server prints that message again and again and never
    returns, however long it runs. *)
Theorem recv_error_never_reported (recv : nat -> option (list Z)) (m : message) (fuel : nat) :
  message_ok m -> recv 0%nat = Some (m_bytes m) -> (forall n, (0 < n)%nat -> recv n = None) ->
  (forall f n buf s, recv_loop recv f n buf = Ok s -> rcv_size s <> -1) /\
  recv_loop recv fuel 0 (replicate (Z.to_nat PAGE_SIZE) None) = Err NoFuel.
Proof.
  intros Hm H0 Hn. split; [intros f n buf s H; apply recv_loop_size in H; lia|].
  destruct fuel as [|fuel]; [done|].
  rewrite (recv_loop_message recv _ 0 m) by (try done; by rewrite length_replicate).
  set (buf := _ ++ _). pose proof Hm as (Hh & Hc & Hs & Hp). pose proof (m_bytes_length m Hm) as Lm.
  assert (G : forall f n, (0 < n)%nat -> recv_loop recv f n buf = Err NoFuel); [|by rewrite G by lia].
  induction f as [|f IH]; intros n Hp0; [done|]. cbn [recv_loop]. rewrite Hn by done.
  cbn [default from_option id]. rewrite fill_front by (cbn; lia). rewrite bind_ret_l.
  change ((Some <$> []) ++ drop (length []) buf) with buf.
  change (uwrap 32 (-1)) with 4294967295. change (-1 =? 0) with false. cbv iota zeta.
  unfold PAGE_SIZE in *.
  pose proof (parse_msg_ok (m_net m) (m_context m) (m_serial m) 4294967295 (m_tail m)
                (drop (length (m_bytes m)) (replicate (Z.to_nat 4096) None)) Hh Hc
                ltac:(lia) ltac:(lia)) as E.
  fold (m_bytes m) in E. fold buf in E. rewrite E, bind_ret_l. by rewrite IH by lia.
Qed.

Lemma recv_error_never_reported_witness :
  recv_loop (fun n => if (n =? 0)%nat then Some (m_bytes sample_message) else None) 100 0
    (replicate (Z.to_nat PAGE_SIZE) None) = Err NoFuel.
Proof.
  apply (recv_error_never_reported _ sample_message 100); [exact sample_message_ok|done|].
  intros [|n] H; [lia|done].
Defined.

(** ** Sensor messages *)

Definition sensor_bytes (r : sensor_info) : list Z :=
  let '(d0, d1, d2) := sen_data r in
  struct_bytes [4; 4; 8; 8; 8; 8]%nat
    [sen_type r; sen_reverse r; sen_timestamp r; uwrap 64 d0; uwrap 64 d1; uwrap 64 d2].

Definition nmea_bytes (n : gps_nmea_info) : list Z :=
  struct_bytes [8; 4]%nat [nmea_timestamp n; nmea_length n] ++ nmea_sentence n.

Definition i64_ok (z : Z) : Prop := - 2 ^ 63 <= z < 2 ^ 63.
Definition u64_ok (z : Z) : Prop := 0 <= z < 2 ^ 64.

Definition sensor_ok (r : sensor_info) : Prop :=
  u32_ok (sen_type r) /\ u64_ok (sen_timestamp r) /\
  i64_ok (sen_data r).1.1 /\ i64_ok (sen_data r).1.2 /\ i64_ok (sen_data r).2.

Definition nmea_ok (n : gps_nmea_info) (s : list Z) : Prop :=
  u64_ok (nmea_timestamp n) /\ u32_ok (nmea_length n) /\ length (nmea_sentence n) = 116%nat /\
  Forall (fun b => b <> 0) s /\ (s ++ [0]) `prefix_of` nmea_sentence n.

Definition sensor_line (r : sensor_info) : line :=
  let '(d0, d1, d2) := sen_data r in
  SensorLine (getSensorName (swrap 32 (sen_type r))) (sen_timestamp r)
    (f32_int d0, 1000000) (f32_int d1, 1000000) (f32_int d2, 1).

Lemma swrap_uwrap z : i64_ok z -> swrap 64 (uwrap 64 z) = z.
Proof.
  intros H. etrans; [|apply (swrap_small 64 z); unfold i64_ok in H; lia].
  unfold swrap, uwrap. by rewrite Z.mod_mod.
Qed.

Lemma print_sensor_ok r off tail (m rest : mem) :
  sensor_ok r -> (off <= length m)%nat -> drop off m = (Some <$> sensor_bytes r ++ tail) ++ rest ->
  print_sensor m off = Ok (sensor_line r).
Proof.
  intros (H1 & H2 & H3 & H4 & H5) Hl E. unfold print_sensor.
  rewrite <- (Nat.add_0_r off) at 1. rewrite !load_drop by done. rewrite E.
  unfold sensor_bytes, sensor_line. destruct (sen_data r) as [[d0 d1] d2]. cbn in H3, H4, H5.
  pose proof (uwrap_range 64 d0 ltac:(lia)) as R0. pose proof (uwrap_range 64 d1 ltac:(lia)) as R1.
  pose proof (uwrap_range 64 d2 ltac:(lia)) as R2.
  unfold u32_ok, u64_ok in *. change (2 ^ 64) with (256 ^ Z.of_nat 8) in *.
  change (2 ^ 32) with (256 ^ Z.of_nat 4) in *.
  members [0; 2; 3; 4; 5]%nat. by rewrite !swrap_uwrap.
Qed.

Lemma sensor_bytes_length r : length (sensor_bytes r) = 40%nat.
Proof. unfold sensor_bytes. destruct (sen_data r) as [[d0 d1] d2]. done. Qed.

(** The loop prints the records before the last one. *)
Lemma print_sensors_ok (m rest : mem) tail rs : forall fuel off,
  Forall sensor_ok rs -> (off <= length m)%nat ->
  drop off m = (Some <$> mjoin (sensor_bytes <$> rs) ++ tail) ++ rest -> (length rs < fuel)%nat ->
  print_sensors fuel m (Z.of_nat off + 40 * Z.of_nat (length rs)) off =
  Ok (sensor_line <$> removelast rs).
Proof.
  induction rs as [|r rs IH]; intros fuel off Hr Hl E Hf; (destruct fuel as [|fuel]; [cbn in Hf; lia|]);
    cbn [print_sensors length].
  - destruct (Z.ltb_spec (Z.of_nat off) (Z.of_nat off + 40 * Z.of_nat 0 - 40)); [lia|done].
  - apply Forall_cons in Hr as [Hr Hrs]. cbn [mjoin list_join fmap list_fmap] in E.
    rewrite <- (assoc_L (++)) in E.
    destruct rs as [|r' rs].
    { cbn [length]. destruct (Z.ltb_spec (Z.of_nat off) (Z.of_nat off + 40 * Z.of_nat 1 - 40)); [lia|done]. }
    destruct (Z.ltb_spec (Z.of_nat off)
      (Z.of_nat off + 40 * Z.of_nat (S (length (r' :: rs))) - 40)) as [_|G]; [|cbn [length] in G; lia].
    rewrite (print_sensor_ok r off _ m rest Hr Hl E), bind_ret_l.
    assert (L : (off + 40 <= length m)%nat).
    { apply (f_equal length) in E. rewrite length_drop, length_app, length_fmap, length_app in E.
      rewrite sensor_bytes_length in E. lia. }
    replace (Z.of_nat off + 40 * Z.of_nat (S (length (r' :: rs))))
      with (Z.of_nat (off + 40) + 40 * Z.of_nat (length (r' :: rs))) by lia.
    rewrite (IH fuel (off + 40)%nat Hrs L); [done| |cbn [length] in *; lia].
    rewrite <- drop_drop, E, fmap_app, <- (assoc_L (++)).
    by rewrite drop_app_length' by (by rewrite length_fmap, sensor_bytes_length).
Qed.

(** [parse_msg1] prints a message with a position sentence and [n] sensor
    records as its header line, the sentence and the records, each with its
    name and time stamp, except the last record, which the bound of its loop
    leaves out; the loop ends on every message. *)
Theorem parse_msg1_prints (h : net_tx_info) (n : gps_nmea_info) (s : list Z) (rs : list sensor_info)
    (len : Z) (tail : list Z) (rest : mem) :
  net_ok h -> nmea_ok n s -> Forall sensor_ok rs ->
  size h = 152 + 40 * Z.of_nat (length rs) -> size h <= len ->
  parse_msg1 ((Some <$> net_bytes h ++ nmea_bytes n ++ mjoin (sensor_bytes <$> rs) ++ tail) ++ rest) len =
  Ok (net_line h :: NmeaLines (nmea_timestamp n) (swrap 32 (nmea_length n)) s
        :: (sensor_line <$> removelast rs)).
Proof.
  intros Hh (H1 & H2 & Ln & Hs & [k Hk]) Hr Hz Hl. unfold parse_msg1.
  rewrite parse_head_ok, bind_ret_l by (done || lia). cbv iota beta.
  set (m := (Some <$> _) ++ rest).
  assert (E24 : drop 24 m = (Some <$> nmea_bytes n ++ mjoin (sensor_bytes <$> rs) ++ tail) ++ rest).
  { unfold m. by rewrite (fmap_app _ (net_bytes h)), <- (assoc_L (++)), drop_app_length'
      by (by rewrite length_fmap). }
  assert (L : (152 <= length m)%nat).
  { unfold m. rewrite length_app, length_fmap, length_app.
    rewrite (length_app (nmea_bytes n)). unfold nmea_bytes. rewrite (length_app _ (nmea_sentence n)), Ln.
    change (length (net_bytes h)) with 24%nat. change (length (struct_bytes _ _)) with 12%nat. lia. }
  unfold u64_ok, u32_ok in H1, H2. change (2 ^ 64) with (256 ^ Z.of_nat 8) in *.
  change (2 ^ 32) with (256 ^ Z.of_nat 4) in *.
  change (load 8 24 m) with (load 8 (24 + 0) m). change (load 4 32 m) with (load 4 (24 + 8) m).
  rewrite !load_drop, E24 by lia. unfold nmea_bytes at 1 2. rewrite <- !(assoc_L (++)).
  members [0; 1]%nat.
  change (drop 36 m) with (drop (24 + 12) m). rewrite <- drop_drop, E24. unfold nmea_bytes at 1.
  rewrite <- (assoc_L (++)), (fmap_app _ (struct_bytes _ _)), <- (assoc_L (++)).
  rewrite drop_app_length' by done. rewrite Hk, <- !(assoc_L (++)), (fmap_app _ s), <- (assoc_L (++)).
  change (Some <$> [0] ++ ?x) with (Some 0 :: (Some <$> x)). cbn [app].
  rewrite cstr_written, bind_ret_l by done.
  rewrite Hz. change (152 + 40 * Z.of_nat (length rs)) with (Z.of_nat 152 + 40 * Z.of_nat (length rs)).
  rewrite (print_sensors_ok m rest tail rs); [done|done|exact L| |lia].
  change (drop 152 m) with (drop (24 + 128) m). rewrite <- drop_drop, E24, (fmap_app _ (nmea_bytes n)), <- (assoc_L (++)).
  apply drop_app_length'. rewrite length_fmap. unfold nmea_bytes. by rewrite length_app, Ln.
Qed.

Lemma parse_msg1_prints_witness :
  parse_msg1 ((Some <$> net_bytes (mkNet 232 1 2 3 4 5 0 6)
      ++ nmea_bytes (mkNmea 77 3 (bytes "$GP" ++ replicate 113 0))
      ++ mjoin (sensor_bytes <$> [mkSensor 1 0 10 (1, -2, 3); mkSensor 4 0 11 (4, 5, 6)]) ++ []) ++ [None]) 300 =
  Ok [PacketInfo 1 3 2 4 5 6; NmeaLines 77 3 (bytes "$GP");
      SensorLine "Acc" 10 (1, 1000000) (-2, 1000000) (3, 1)].
Proof.
  apply (parse_msg1_prints (mkNet 232 1 2 3 4 5 0 6) (mkNmea 77 3 (bytes "$GP" ++ replicate 113 0))
           (bytes "$GP") [mkSensor 1 0 10 (1, -2, 3); mkSensor 4 0 11 (4, 5, 6)] 300 [] [None]);
    [repeat split; cbn; lia| | |done|done].
  - repeat split; [cbn; lia..|repeat constructor; done|by exists (replicate 112 0)].
  - repeat constructor; cbn; lia.
Defined.
