(* ===== verification/Scanf.v ===== *)
(** [fscanf] and [atoi] of the C library, as the user-space collector uses
    them.  The input is the list of bytes the pipe holds; a format is a list
    of directives; the result gives the values assigned, in order, the number
    returned and the input left.  A [%s] that does not fit its array is
    undefined.  [%f] reads decimal notation; the hexadecimal, infinity and nan
    forms, which none of the commands prints, do not match. *)

From stdpp Require Import base list strings.
From Stdlib Require Import ZArith Lia Ascii.
From S2P Require Import Prelude Wire Cfloat.

Local Open Scope Z_scope.

Definition EOF : Z := -1.

Definition isspace (c : Z) : bool := ((9 <=? c) && (c <=? 13)) || (c =? 32).
Definition isdigit (c : Z) : bool := (48 <=? c) && (c <=? 57).

Inductive directive : Type :=
| Space              (* white space in the format *)
| Lit (c : Z)        (* any other character *)
| Str (n : nat)      (* [%s] into an array of [n] bytes *)
| Int                (* [%d] *)
| Flt.               (* [%f] *)

Inductive value : Type :=
| VStr (s : list Z)
| VInt (z : Z)
| VFlt (f : float).

Record scan : Type := mkScan { got : list value; ret : Z; rest : list Z }.

(** The longest prefix of characters that satisfy [p], and what follows. *)
Fixpoint span (p : Z -> bool) (l : list Z) : list Z * list Z :=
  match l with
  | c :: r => if p c then let '(a, b) := span p r in (c :: a, b) else ([], l)
  | [] => ([], [])
  end.

Definition skip_space (l : list Z) : list Z := (span isspace l).2.

Definition digits (acc : Z) (l : list Z) : Z := foldl (fun a c => 10 * a + (c - 48)) acc l.

(** An optional sign. *)
Definition sign (l : list Z) : Z * list Z :=
  match l with
  | 45 :: r => (-1, r)
  | 43 :: r => (1, r)
  | _ => (1, l)
  end.

(** A number of the type [int]. *)
Definition to_int (z : Z) : res Z :=
  if (- 2 ^ 31 <=? z) && (z <? 2 ^ 31) then Ok z else Err Undefined.

(** [%d]: the number, or none when no digit follows. *)
Definition scan_int (l : list Z) : res (option Z * list Z) :=
  let '(sg, l) := sign l in
  let '(ds, r) := span isdigit l in
  match ds with
  | [] => Ok (None, r)
  | _ => z ← to_int (sg * digits 0 ds); Ok (Some z, r)
  end.

(** The exponent part of a decimal number: none when there is no [e], and no
    match when nothing follows it. *)
Definition scan_exp (l : list Z) : option Z * list Z :=
  match l with
  | c :: r =>
      if (c =? 101) || (c =? 69) then
        let '(sg, r) := sign r in
        let '(ds, r) := span isdigit r in
        match ds with [] => (None, r) | _ => (Some (sg * digits 0 ds), r) end
      else (Some 0, l)
  | [] => (Some 0, l)
  end.

(** [%f]. *)
Definition scan_flt (l : list Z) : option float * list Z :=
  let '(sg, l) := sign l in
  let '(ip, l) := span isdigit l in
  let '(fp, l) := match l with 46 :: r => span isdigit r | _ => ([], l) end in
  match ip ++ fp with
  | [] => (None, l)
  | ds =>
      let '(e, l) := scan_exp l in
      match e with
      | None => (None, l)
      | Some e =>
          let e := e - Z.of_nat (length fp) in
          (Some (f32_quot (sg * digits 0 ds * 10 ^ Z.max 0 e) (10 ^ Z.max 0 (- e))), l)
      end
  end.

(** The number of assignments so far, or [EOF] before the first. *)
Definition input_failure (n : Z) (l : list Z) : res scan :=
  Ok (mkScan [] (if n =? 0 then EOF else n) l).

(** [fscanf] after [n] assignments. *)
Fixpoint fscanf_from (n : Z) (fmt : list directive) (l : list Z) : res scan :=
  match fmt with
  | [] => Ok (mkScan [] n l)
  | Space :: fmt => fscanf_from n fmt (skip_space l)
  | Lit c :: fmt =>
      match l with
      | [] => input_failure n l
      | c' :: r => if c' =? c then fscanf_from n fmt r else Ok (mkScan [] n l)
      end
  | conv :: fmt =>
      let l := skip_space l in
      match l with
      | [] => input_failure n l
      | _ =>
          '(v, r) ←
            match conv with
            | Str k =>
                let '(s, r) := span (fun c => negb (isspace c)) l in
                if (length s <? k)%nat then Ok (Some (VStr s), r) else Err Undefined
            | Int => '(z, r) ← scan_int l; Ok (option_map VInt z, r)
            | _ => let '(f, r) := scan_flt l in Ok (option_map VFlt f, r)
            end;
          match v with
          | None => Ok (mkScan [] n r)
          | Some v => s ← fscanf_from (n + 1) fmt r; Ok (mkScan (v :: got s) (ret s) (rest s))
          end
      end
  end.

Definition fscanf (fmt : list directive) (l : list Z) : res scan := fscanf_from 0 fmt l.

(** What argument [i] was assigned: the characters stored, the string they
    make for the string functions, and the number. *)
Definition got_raw (s : scan) (i : nat) : option (list Z) :=
  match got s !! i with Some (VStr t) => Some t | _ => None end.
Definition got_str (s : scan) (i : nat) : option (list Z) :=
  option_map (fun t => (span (fun c => negb (c =? 0)) t).1) (got_raw s i).
Definition got_flt (s : scan) (i : nat) : option float :=
  match got s !! i with Some (VFlt f) => Some f | _ => None end.

(** [atoi] of the bytes at the start of a memory. *)
Fixpoint atoi_digits (acc : Z) (m : mem) : res Z :=
  match m with
  | Some c :: m => if isdigit c then atoi_digits (10 * acc + (c - 48)) m else Ok acc
  | _ => Err Undefined
  end.

Fixpoint atoi (m : mem) : res Z :=
  match m with
  | Some c :: r =>
      if isspace c then atoi r else
      z ← (if c =? 45 then z ← atoi_digits 0 r; Ok (- z)
           else if c =? 43 then atoi_digits 0 r
           else atoi_digits 0 m);
      to_int z
  | _ => Err Undefined
  end.

(** The array that holds a string of [s] in [n] bytes. *)
Definition str_array (n : nat) (s : list Z) : mem :=
  (Some <$> s ++ [0]) ++ replicate (n - length s - 1) None.

(** ** Lemmas *)

Lemma span_app p l : let '(a, b) := span p l in l = a ++ b /\ Forall (fun c => p c = true) a.
Proof.
  induction l as [|c l IH]; [done|]. cbn. destruct (p c) eqn:E; [|done].
  destruct (span p l) as [a b]. destruct IH as [-> H]. split; [done|by constructor].
Qed.

Lemma span_all p a b :
  Forall (fun c => p c = true) a -> (match b with [] => True | c :: _ => p c = false end) ->
  span p (a ++ b) = (a, b).
Proof.
  induction 1 as [|c a Hc _ IH]; intros Hb.
  - cbn. destruct b as [|c b]; [done|]. cbn. by rewrite Hb.
  - cbn. rewrite Hc. by rewrite (IH Hb).
Qed.

Lemma skip_space_length l : (length (skip_space l) <= length l)%nat.
Proof.
  unfold skip_space. pose proof (span_app isspace l) as H. destruct (span isspace l) as [a b].
  destruct H as [-> _]. cbn. rewrite length_app. lia.
Qed.

(** After white space is skipped, no white space is in front. *)
Lemma skip_space_head l c r : skip_space l = c :: r -> isspace c = false.
Proof.
  unfold skip_space. induction l as [|d l IH]; [done|]. cbn. destruct (isspace d) eqn:E.
  - destruct (span isspace l). exact IH.
  - by intros [= -> _].
Qed.

(** ** What is left of the input *)

Lemma span_rest_length p l : (length (span p l).2 <= length l)%nat.
Proof.
  pose proof (span_app p l) as H. destruct (span p l) as [a b]. destruct H as [-> _].
  cbn. rewrite length_app. lia.
Qed.

Lemma sign_rest_length l : (length (sign l).2 <= length l)%nat.
Proof.
  unfold sign. destruct l as [|z l]; [done|].
  repeat first [case_match; cbn; lia | case_match; subst]; cbn; lia.
Qed.

Lemma scan_int_rest l v r : scan_int l = Ok (v, r) -> (length r <= length l)%nat.
Proof.
  unfold scan_int. pose proof (sign_rest_length l) as H1. destruct (sign l) as [sg l1].
  pose proof (span_rest_length isdigit l1) as H2. destruct (span isdigit l1) as [ds l2].
  cbn in *. destruct ds as [|d ds]; [intros [= _ <-]; lia|].
  intros H. apply bind_Ok in H as (z & _ & H). injection H as _ <-. lia.
Qed.

Lemma scan_exp_rest l : (length (scan_exp l).2 <= length l)%nat.
Proof.
  unfold scan_exp. destruct l as [|c l]; [done|]. destruct (_ || _); [|done].
  pose proof (sign_rest_length l) as H1. destruct (sign l) as [sg l1].
  pose proof (span_rest_length isdigit l1) as H2. destruct (span isdigit l1) as [ds l2].
  destruct ds; cbn in *; lia.
Qed.

Lemma scan_flt_rest l : (length (scan_flt l).2 <= length l)%nat.
Proof.
  unfold scan_flt. pose proof (sign_rest_length l) as H1. destruct (sign l) as [sg l1].
  pose proof (span_rest_length isdigit l1) as H2. destruct (span isdigit l1) as [ip l2].
  set (fr := match l2 with 46 :: r => _ | _ => _ end).
  assert (H3 : (length fr.2 <= length l2)%nat).
  { subst fr. destruct l2 as [|c l2]; [done|]. cbn [length].
    pose proof (span_rest_length isdigit l2).
    repeat first [case_match; cbn; lia | case_match; subst]; cbn; lia. }
  destruct fr as [fp l3]. cbn in *. destruct (ip ++ fp); [cbn; lia|].
  pose proof (scan_exp_rest l3) as H4. destruct (scan_exp l3) as [[e|] l4]; cbn in *; lia.
Qed.

(** A conversion never gives input back. *)
Lemma fscanf_from_rest fmt : forall n l s,
  fscanf_from n fmt l = Ok s -> (length (rest s) <= length l)%nat.
Proof.
  induction fmt as [|d fmt IH]; intros n l s H; [injection H as <-; done|].
  pose proof (skip_space_length l) as Hs.
  destruct d as [|c|k| |]; cbn [fscanf_from] in H.
  - apply IH in H. lia.
  - destruct l as [|c' r]; [injection H as <-; done|].
    destruct (c' =? c); [apply IH in H; cbn; lia|injection H as <-; done].
  - destruct (skip_space l) as [|c r] eqn:E; [injection H as <-; cbn; lia|]. rewrite <- E in *.
    pose proof (span_rest_length (fun c => negb (isspace c)) (skip_space l)) as Hr.
    destruct (span _ (skip_space l)) as [w r']. destruct (length w <? k)%nat; [|done].
    rewrite bind_ret_l in H. invok H. subst. cbn. apply IH in Hx. cbn in Hr. lia.
  - destruct (skip_space l) as [|c r] eqn:E; [injection H as <-; cbn; lia|]. rewrite <- E in *.
    apply bind_Ok in H as ([v r'] & Hv & H). apply bind_Ok in Hv as ([z r2] & Hz & Hv).
    injection Hv as <- <-. apply scan_int_rest in Hz.
    destruct z; cbn [option_map] in H; [invok H; subst; cbn; apply IH in Hx; lia|injection H as <-; cbn; lia].
  - destruct (skip_space l) as [|c r] eqn:E; [injection H as <-; cbn; lia|]. rewrite <- E in *.
    pose proof (scan_flt_rest (skip_space l)) as Hz. destruct (scan_flt (skip_space l)) as [f r2].
    rewrite bind_ret_l in H. cbn in Hz.
    destruct f; cbn [option_map] in H; [invok H; subst; cbn; apply IH in Hx; lia|injection H as <-; cbn; lia].
Qed.

(** A format that starts with [%s] makes progress unless it meets the end. *)
Lemma fscanf_str_progress k fmt l s :
  fscanf (Str k :: fmt) l = Ok s -> ret s <> EOF -> (length (rest s) < length l)%nat.
Proof.
  unfold fscanf. cbn [fscanf_from]. pose proof (skip_space_length l) as Hs.
  destruct (skip_space l) as [|c r] eqn:E; [intros [= <-]; done|]. intros H _. cbn [length] in Hs.
  pose proof (skip_space_head l c r E) as Hc. cbn [span] in H. rewrite Hc in H. cbn [negb] in H.
  pose proof (span_rest_length (fun c => negb (isspace c)) r) as Hr.
  destruct (span _ r) as [w r']. cbn in Hr. destruct (length (c :: w) <? k)%nat; [|done].
  rewrite bind_ret_l in H. invok H. subst. cbn. apply fscanf_from_rest in Hx. lia.
Qed.

(** Scanning uses no fuel. *)
Lemma fscanf_from_fuelless fmt : forall n l, fuelless (fscanf_from n fmt l).
Proof.
  induction fmt as [|d fmt IH]; intros n l; [done|].
  destruct d; cbn [fscanf_from]; try apply IH.
  - destruct l as [|c' r]; [done|]. destruct (c' =? c); [apply IH|done].
  - unfold input_failure. destruct (skip_space l); [done|]. destruct (span _ _).
    destruct (_ <? _)%nat; [|done]. rewrite bind_ret_l. apply fuelless_bind; [apply IH|done].
  - unfold input_failure. destruct (skip_space l) as [|c r]; [done|]. apply fuelless_bind.
    + apply fuelless_bind; [|by intros []]. unfold scan_int, to_int. fuelless.
    + intros [[v|] r']; [|done]. apply fuelless_bind; [apply IH|done].
  - unfold input_failure. destruct (skip_space l) as [|c r]; [done|]. destruct (scan_flt _) as [[f|] r'];
      rewrite bind_ret_l; [|done]. apply fuelless_bind; [apply IH|done].
Qed.
#[export] Hint Resolve fscanf_from_fuelless : fuel.
