(* ===== verification/Collector.v ===== *)
(** The user-space collector (src/client-module/user-module: montest.cpp,
    sensorcollector.cpp, montest.h, sensorcollector.h).  [popen] is a
    parameter: the output of a shell command, or none when the pipe cannot be
    made, in which case reading from it is undefined.  Arrays of the stack
    hold no value until they are written. *)

From stdpp Require Import base list strings.
From Stdlib Require Import ZArith Lia Ascii.
From S2P Require Import Prelude Wire Cfloat Server Scanf.

Local Open Scope Z_scope.

(** ** The shared memory (montest.cpp) *)

Definition MAX_PAYLOAD : Z := 4096.
Definition MSG_SYNC_SENSOR_INFO : Z := 1.
Definition MSG_SYNC_GPS_INFO : Z := 2.
Definition MSG_CONF_RESPONSE_CYCLE : Z := 3.

Definition target_app_uid : Z := 10022.

(** The variables of montest.cpp; [sent] records the memory the kernel module
    finds at each [fsync], up to the end of the message. *)
Record port : Type := mkPort {
  dev_fd : Z;
  dev_mmap : option (list Z);
  sync_lock : Z;
  is_running : Z;
  cycle : Z;
  sent : list (list Z)
}.

Definition port_zero : port := mkPort 0 None 0 0 0 [].

Definition set_running (v : Z) (p : port) : port :=
  mkPort (dev_fd p) (dev_mmap p) (sync_lock p) v (cycle p) (sent p).
Definition set_cycle (v : Z) (p : port) : port :=
  mkPort (dev_fd p) (dev_mmap p) (sync_lock p) (is_running p) v (sent p).

(** [fd] and [mapping] are the results of [open] and [mmap].  The list has the
    descriptors closed. *)
Definition mon_fs_init (fd : Z) (mapping : option (list Z)) (p : port) : Z * list Z * port :=
  let p := mkPort fd (dev_mmap p) (sync_lock p) (is_running p) (cycle p) (sent p) in
  if fd <? 0 then (-1, [], p) else
  match mapping with
  | None => (-1, [fd], mkPort (-1) None (sync_lock p) (is_running p) (cycle p) (sent p))
  | Some m => (fd, [], mkPort fd (Some m) (sync_lock p) (is_running p) (cycle p) (sent p))
  end.

(** The descriptors closed, the number of mappings removed, and the variables. *)
Definition mon_fs_fini (p : port) : list Z * Z * port :=
  if dev_fd p >? 0
  then ([dev_fd p], 1, mkPort (-1) (dev_mmap p) (sync_lock p) (is_running p) (cycle p) (sent p))
  else ([], 0, p).

(** A message is put at the start of the mapping and synchronised; [ret] is
    the result of [fsync]. *)
Definition mon_sync_message (ret type : Z) (data : list Z) (p : port) : res (Z * port) :=
  if dev_fd p <? 0 then mret (-1, p) else
  m ← deref (dev_mmap p);
  m ← put m 0 (le 4 type);
  m ← put m 4 (le 4 (Z.of_nat (length data)));
  m ← put m 8 data;
  mret (ret, mkPort (dev_fd p) (Some m) 0 (is_running p) (cycle p)
                    (sent p ++ [take (8 + length data) m])).

Definition mon_sync_response_cycle (ret cycle : Z) (p : port) : res (Z * port) :=
  if dev_fd p <? 0 then mret (-1, p) else
  mon_sync_message ret MSG_CONF_RESPONSE_CYCLE (le 4 cycle) p.

(** [gps_fini] has nothing to stop: the program starts no GPS. *)
Definition sigint_handler (p : port) : port := set_running 0 p.

(** ** Reading the context (sensorcollector.cpp) *)

(** The variables of the file; [pipes] counts the pipes opened and not
    closed. *)
Record source : Type := mkSource {
  context_info : contextInfo;
  active_camera : Z;
  screen_state : Z;
  focused_window_uid : Z;
  pipes : Z
}.

Definition location_zero : locationInfo := mkLocation 0 0 0 0.
Definition context_zero : contextInfo := mkContext location_zero 0 0 0 (replicate 20 0).
Definition source_zero : source := mkSource context_zero 0 0 0 0.

Definition set_context (v : contextInfo) (c : source) : source :=
  mkSource v (active_camera c) (screen_state c) (focused_window_uid c) (pipes c).
Definition set_camera (v : Z) (c : source) : source :=
  mkSource (context_info c) v (screen_state c) (focused_window_uid c) (pipes c).
Definition set_screen (v : Z) (c : source) : source :=
  mkSource (context_info c) (active_camera c) v (focused_window_uid c) (pipes c).
Definition set_focused_uid (v : Z) (c : source) : source :=
  mkSource (context_info c) (active_camera c) (screen_state c) v (pipes c).
Definition add_pipes (n : Z) (c : source) : source :=
  mkSource (context_info c) (active_camera c) (screen_state c) (focused_window_uid c) (pipes c + n).

Definition set_location (l : locationInfo) (i : contextInfo) : contextInfo :=
  mkContext l (is_screen_active i) (is_target_focused i) (is_camera_active i) (device_serialno i).
Definition set_screen_active (v : Z) (i : contextInfo) : contextInfo :=
  mkContext (location i) v (is_target_focused i) (is_camera_active i) (device_serialno i).
Definition set_target_focused (v : Z) (i : contextInfo) : contextInfo :=
  mkContext (location i) (is_screen_active i) v (is_camera_active i) (device_serialno i).
Definition set_camera_active (v : Z) (i : contextInfo) : contextInfo :=
  mkContext (location i) (is_screen_active i) (is_target_focused i) v (device_serialno i).
Definition set_serialno (s : list Z) (i : contextInfo) : contextInfo :=
  mkContext (location i) (is_screen_active i) (is_target_focused i) (is_camera_active i) s.

Definition GPS_LOCATION : Z := 1.
Definition NET_LOCATION : Z := 2.

Section Commands.
Context (popen : list Z -> option (list Z)).
(** What [sprintf] finds for the argument its caller does not pass, the name
    of the window being on the stack. *)
Context (missing_arg : list Z -> res (list Z)).

Definition location_cmd : list Z :=
  bytes "dumpsys location | grep " ++ [34] ++ bytes "Location\[.*\]" ++ [34].

(** The format of both reads. *)
Definition location_fmt : list directive :=
  [Str 64; Space; Str 64; Space; Flt; Lit 44; Flt; Space] ++ (Lit <$> bytes "acc=") ++ [Str 64; Space]
  ++ (Lit <$> bytes "t=") ++ [Str 8; Space] ++ (Lit <$> bytes "et=") ++ [Str 8; Space].

Definition gps_lo : float := f32_quot 11418052 100000.
Definition gps_la : float := f32_quot 22304106 1000000.

(** The location with the coordinates [lo] and [la]. *)
Definition located (type : Z) (lo la : float) (hacc : Z) : res locationInfo :=
  lo ← to_u32 (scale lo 1000000);
  la ← to_u32 (scale la 1000000);
  mret (mkLocation type lo la (uwrap 32 hacc)).

Definition getLocation (c : source) : res (Z * source) :=
  pp ← deref (popen location_cmd);
  let c := add_pipes 1 c in
  s ← fscanf location_fmt pp;
  tmp1 ← deref (got_str s 0);
  if negb (bool_decide (tmp1 = bytes "gps")) then mret (0, c) else
  gps_hacc ← atoi (str_array 64 (bytes "22"));
  gps_et ← deref (got_str s 6 ≫= last);
  s ← fscanf location_fmt (rest s);
  let tmp1 := default tmp1 (got_str s 0) in
  if negb (bool_decide (tmp1 = bytes "net")) then mret (0, c) else
  net_acc ← deref (got_str s 4);
  net_hacc ← (if (5 <? length net_acc)%nat then mret 65535 else atoi (str_array 64 net_acc));
  net_et ← deref (got_str s 6 ≫= last);
  net_lo ← deref (got_flt s 2);
  net_la ← deref (got_flt s 3);
  c ← (if (gps_hacc <=? net_hacc) && (gps_hacc >? 0) then
         l ← located GPS_LOCATION gps_lo gps_la gps_hacc;
         mret (set_context (set_location l (context_info c)) c)
       else if net_hacc >? 0 then
         l ← located NET_LOCATION net_lo net_la net_hacc;
         mret (set_context (set_location l (context_info c)) c)
       else mret c);
  mret (1, add_pipes (-1) c).

Definition screen_cmd : list Z := bytes "dumpsys display | grep mScreenState".

Definition getScreenState (c : source) : res (Z * source) :=
  pp ← deref (popen screen_cmd);
  s ← fscanf [Str 32] pp;
  c ← (if negb (ret s =? EOF) then
         last ← deref (got_str s 0 ≫= last);
         let v := if last =? 78 then 1 else 0 in
         mret (set_context (set_screen_active v (context_info c)) (set_screen v c))
       else mret c);
  mret (screen_state c, c).

Definition camera_cmd : list Z :=
  bytes "dumpsys media.camera | grep -o 'Device [09] is open'".

(** The loop that counts the cameras. *)
Fixpoint count_cameras (fuel : nat) (pp : list Z) (active : Z) : res Z :=
  match fuel with
  | O => Err NoFuel
  | S fuel =>
      s ← fscanf [Str 8; Space; Int; Space; Str 8; Space; Str 8] pp;
      if negb (ret s =? EOF) then
        active ← to_int (active + 1); count_cameras fuel (rest s) active
      else mret active
  end.

Definition getCameraState (c : source) : res (Z * source) :=
  pp ← deref (popen camera_cmd);
  n ← count_cameras (S (length pp)) pp 0;
  let v := if n >? 0 then 1 else 0 in
  mret (1, set_context (set_camera_active v (context_info c)) (set_camera n c)).

Definition window_cmd : list Z := bytes "dumpsys window | grep mCurrentFocus=Window".

(** The command [sprintf] writes, around the missing argument. *)
Definition uid_cmd (arg : list Z) : list Z :=
  bytes "cat /data/system/packages.xml | grep " ++ arg
  ++ bytes " | grep -o userId=\" ++ [34] ++ bytes "[0-9]*\" ++ [34].

(** The user id of the focused window, from its name [tmp3] on: [tmp2] is the
    array the second word was read into.  The result also tells how many
    pipes were left open. *)
Definition window_uid (tmp2 : mem) (tmp3 : list Z) : res (Z * Z) :=
  if (length tmp3 =? 0)%nat then mret (0, 0) else
  let tmp3 := (span (fun c => negb (c =? 47)) tmp3).1 in
  arg ← missing_arg tmp3;
  let cmd2 := uid_cmd arg in
  if (256 <=? length cmd2)%nat then Err Undefined else
  pp ← deref (popen cmd2);
  s ← fscanf [Str 32] pp;
  if negb (ret s =? EOF) then
    tmp1 ← deref (got_str s 0);
    let slen := uwrap 32 (Z.of_nat (length tmp1) - 9) in
    copy ← (if Z.of_nat (length tmp1) <? 8 + slen then Err Undefined
            else mret (take (Z.to_nat slen) (drop 8 tmp1)));
    tmp2 ← fill 0 copy tmp2;
    uid ← atoi tmp2;
    mret (uid, 1)
  else mret (0, 1).

Definition getWindowState (c : source) : res (Z * source) :=
  pp ← deref (popen window_cmd);
  s ← fscanf [Str 32; Space; Str 32; Space; Str 128] pp;
  tmp3 ← (if negb (ret s =? EOF) then
            t ← deref (got_str s 2); _ ← deref (last t); mret (removelast t)
          else mret []);
  let tmp2 := match got_raw s 1 with Some t => str_array 32 t | None => replicate 32 None end in
  '(uid, n) ← window_uid tmp2 tmp3;
  let c := add_pipes n (set_focused_uid uid c) in
  let v := if uid =? target_app_uid then 1 else 0 in
  mret (1, set_context (set_target_focused v (context_info c)) c).

Definition serial_cmd : list Z := bytes "getprop ro.serialno".

(** The word replaces the front of the array in [context_info]. *)
Definition getSerialNo (c : source) : res (Z * source) :=
  pp ← deref (popen serial_cmd);
  s ← fscanf [Str 20] pp;
  let old := device_serialno (context_info c) in
  let new := match got_raw s 0 with Some t => (t ++ [0]) ++ drop (S (length t)) old | None => old end in
  mret (1, set_context (set_serialno new (context_info c)) c).

Definition readContextInfo (c : source) : res source :=
  let c := set_context context_zero c in
  '(_, c) ← getSerialNo c;
  '(_, c) ← getLocation c;
  '(_, c) ← getScreenState c;
  '(_, c) ← getWindowState c;
  '(_, c) ← getCameraState c;
  mret c.

(** One round: [fsync] returns [ret]. *)
Definition sensor_sync_data (ret : Z) (p : port) (c : source) : res (port * source) :=
  c ← readContextInfo c;
  '(_, p) ← mon_sync_message ret MSG_SYNC_SENSOR_INFO (context_bytes (context_info c)) p;
  mret (p, c).
End Commands.

(** ** The main thread and the load thread (montest.cpp) *)

(** What happens in one round of the main thread: the outputs of the
    commands, the missing argument, the result of [fsync], and whether SIGINT
    arrives before the next test of [is_running]. *)
Record round : Type := mkRound {
  r_popen : list Z -> option (list Z);
  r_missing : list Z -> res (list Z);
  r_fsync : Z;
  r_sigint : bool
}.

(** The loop runs as long as [is_running] is set; [rounds] bounds it. *)
Fixpoint sensor_start_collector (rounds : list round) (p : port) (c : source) : res (port * source) :=
  if is_running p =? 0 then mret (p, c) else
  match rounds with
  | [] => Err NoFuel
  | r :: rounds =>
      '(p, c) ← sensor_sync_data (r_popen r) (r_missing r) (r_fsync r) p c;
      sensor_start_collector rounds (if r_sigint r then sigint_handler p else p) c
  end.

(** [main]; the loop that waits for [is_running] finds it clear.  The first
    two results are the descriptors closed, in order, and the number of mappings
    removed. *)
Definition collector_main (fd : Z) (mapping : option (list Z)) (rounds : list round)
  : res (list Z * Z * port * source) :=
  let '(_, closed0, p) := mon_fs_init fd mapping port_zero in
  let p := set_running 1 p in
  '(p, c) ← sensor_start_collector rounds p source_zero;
  let '(closed, unmapped, p) := mon_fs_fini p in
  mret (closed0 ++ closed, unmapped, p, c).

(** The assignments of the load thread after [consumed_time]. *)
Definition schedule (consumed_time : Z) (p : port) : port :=
  if consumed_time =? 100 then set_cycle 2000 p
  else if consumed_time =? 200 then set_cycle 1800 p
  else if consumed_time =? 300 then set_cycle 1600 p
  else if consumed_time =? 400 then set_cycle 1400 p
  else if consumed_time =? 500 then set_cycle 1200 p
  else if consumed_time =? 600 then set_cycle 1000 p
  else if consumed_time =? 700 then set_cycle 800 p
  else if consumed_time =? 800 then set_cycle 600 p
  else if consumed_time =? 900 then set_cycle 400 p
  else if consumed_time =? 1000 then set_cycle 200 p
  else if consumed_time =? 1100 then set_cycle 100 p
  else if consumed_time =? 1200 then set_running 0 p
  else p.

(** The loop of [output_load_thread].  [loadout] tells whether the log file
    could be opened and [loadavg n] whether /proc/loadavg could in iteration
    [n]; [known] is set once the numbers logged have been read. *)
Fixpoint output_load_thread (loadout : bool) (loadavg : nat -> bool) (fuel n : nat) (known : bool)
    (consumed_time : Z) (p : port) : res port :=
  if is_running p =? 0 then mret (set_running 0 p) else
  match fuel with
  | O => Err NoFuel
  | S fuel =>
      let known := known || loadavg n in
      _ ← (if loadout && negb known then Err Undefined else mret tt);
      let p := schedule consumed_time p in
      p ← (if cycle p >? 0 then
             '(_, p) ← mon_sync_response_cycle 0 (cycle p) p;
             mret (set_cycle 0 p)
           else mret p);
      output_load_thread loadout loadavg fuel (S n) known (uwrap 32 (consumed_time + 10)) p
  end.
