(* ===== verification/CollectorProps.v ===== *)
(** Properties of the user-space collector: the context it sends is well
    formed and is what the context server prints, the counting loop and the
    load thread end, the program closes the device, and the results that do
    not depend on what the device reports. *)

From stdpp Require Import base list strings.
From Stdlib Require Import ZArith Lia Ascii.
From S2P Require Import Prelude Wire Cfloat Server Scanf Collector.

Local Open Scope Z_scope.

(** ** The shared memory *)

(** The device is open and mapped. *)
Definition port_open (p : port) : Prop :=
  0 < dev_fd p /\ exists m, dev_mmap p = Some m /\ Z.of_nat (length m) = MAX_PAYLOAD.

(** A message as the kernel module finds it. *)
Definition comm_msg (type : Z) (data : list Z) : list Z :=
  le 4 type ++ le 4 (Z.of_nat (length data)) ++ data.

Lemma mon_sync_message_ok ret type data p :
  port_open p -> 8 + Z.of_nat (length data) <= MAX_PAYLOAD ->
  exists p', mon_sync_message ret type data p = Ok (ret, p') /\ port_open p' /\
    dev_fd p' = dev_fd p /\ is_running p' = is_running p /\ cycle p' = cycle p /\
    sync_lock p' = 0 /\ sent p' = sent p ++ [comm_msg type data].
Proof.
  intros (Hf & m & Hm & Lm) Hd. unfold mon_sync_message, MAX_PAYLOAD in *.
  destruct (Z.ltb_spec (dev_fd p) 0); [lia|]. rewrite Hm. cbn [deref]. rewrite bind_ret_l.
  destruct (put_front m 0 [] (le 4 type)) as (m1 & E1 & L1 & T1);
    [done|lia|done|rewrite le_length; lia|].
  rewrite E1, bind_ret_l. rewrite le_length in T1. cbn [app] in T1.
  destruct (put_front m1 4 (le 4 type) (le 4 (Z.of_nat (length data)))) as (m2 & E2 & L2 & T2);
    [exact T1|lia|by rewrite le_length|rewrite le_length; lia|].
  rewrite E2, bind_ret_l. rewrite le_length in T2.
  destruct (put_front m2 8 (le 4 type ++ le 4 (Z.of_nat (length data))) data) as (m3 & E3 & L3 & T3);
    [exact T2|lia|by rewrite length_app, !le_length|lia|].
  rewrite E3, bind_ret_l. eexists. split; [reflexivity|]. cbn.
  split; [split; [done|exists m3; split; [done|unfold MAX_PAYLOAD; lia]]|]. repeat split.
  do 2 f_equal. transitivity ((le 4 type ++ le 4 (Z.of_nat (length data))) ++ data);
    [rewrite <- T3; f_equal; lia|unfold comm_msg; by rewrite <- (assoc_L (++))].
Qed.

(** With the device closed nothing is sent. *)
Lemma mon_sync_message_closed ret type data p :
  dev_fd p < 0 -> mon_sync_message ret type data p = Ok (-1, p).
Proof. intros H. unfold mon_sync_message. by destruct (Z.ltb_spec (dev_fd p) 0); [|lia]. Qed.

(** ** The context read is well formed *)

(** The array of the serial number holds a string that ends inside it. *)
Definition serial_ok (a : list Z) : Prop :=
  length a = 20%nat /\ 0 ∈ a.

(** A flag. *)
Definition flag (z : Z) : Prop := z = 0 \/ z = 1.

Record context_wf (c : contextInfo) : Prop := {
  wf_type : loc_type (location c) = 0 \/ loc_type (location c) = GPS_LOCATION
            \/ loc_type (location c) = NET_LOCATION;
  wf_lo : u32_ok (longitude (location c));
  wf_la : u32_ok (latitude (location c));
  wf_acc : u32_ok (acc (location c));
  wf_screen : flag (is_screen_active c);
  wf_focused : flag (is_target_focused c);
  wf_camera : flag (is_camera_active c);
  wf_serial : serial_ok (device_serialno c)
}.

Create HintDb collector.

Lemma context_zero_wf : context_wf context_zero.
Proof. split; try (by left); try (cbn; unfold u32_ok; lia). split; [done|by left]. Qed.

Lemma to_u32_ok z v : to_u32 z = Ok v -> u32_ok v.
Proof.
  unfold to_u32, u32_ok. destruct (Z.leb_spec 0 z), (Z.ltb_spec z (2 ^ 32)); cbn; try done.
  intros [= <-]. lia.
Qed.

Lemma located_wf type lo la hacc l c :
  located type lo la hacc = Ok l -> type = GPS_LOCATION \/ type = NET_LOCATION ->
  context_wf c -> context_wf (set_location l c).
Proof.
  unfold located. intros H Ht [H1 H2 H3 H4 H5 H6 H7 H8]. invok H. subst l.
  apply to_u32_ok in Hx, Hx0. split; cbn; try done; [by right|]. apply uwrap_range. lia.
Qed.

(** The two results of a conversion of [%s] that fits. *)
Lemma fscanf_str_length n l s t :
  fscanf [Str n] l = Ok s -> got_raw s 0 = Some t -> (length t < n)%nat.
Proof.
  unfold fscanf. cbn [fscanf_from]. destruct (skip_space l) as [|c r] eqn:E; [intros [= <-]; done|].
  destruct (span _ (c :: r)) as [w r'] eqn:Es.
  destruct (Nat.ltb_spec (length w) n); [|done]. rewrite !bind_ret_l. intros [= <-] [= <-]. done.
Qed.

Section Wf.
Context (popen : list Z -> option (list Z)) (missing_arg : list Z -> res (list Z)).

Lemma getSerialNo_wf c r c' :
  context_wf (context_info c) -> getSerialNo popen c = Ok (r, c') -> context_wf (context_info c').
Proof using Type.
  intros W H. unfold getSerialNo in H. invok H. subst.
  destruct W as [H1 H2 H3 H4 H5 H6 H7 [L N]]. split; cbn; try done.
  destruct (got_raw x0 0) as [t|] eqn:E; [|done].
  pose proof (fscanf_str_length _ _ _ _ Hx0 E) as Lt.
  split; [rewrite !length_app, length_drop, L; cbn; lia|].
  apply elem_of_app. left. apply elem_of_app. right. by left.
Qed.

Lemma getLocation_wf c r c' :
  context_wf (context_info c) -> getLocation popen c = Ok (r, c') -> context_wf (context_info c').
Proof using Type.
  intros W H. unfold getLocation in H.
  apply bind_Ok in H as (pp & _ & H). apply bind_Ok in H as (s & _ & H).
  apply bind_Ok in H as (t & _ & H). destruct (negb _); [by injection H as _ <-|].
  apply bind_Ok in H as (gps_hacc & _ & H). apply bind_Ok in H as (et & _ & H).
  apply bind_Ok in H as (s2 & _ & H). cbv zeta in H. destruct (negb _); [by injection H as _ <-|].
  invok H. subst. cbn.
  destruct ((gps_hacc <=? _) && _); [|destruct (_ >? 0)].
  - invok Hx4. subst. cbn. eapply located_wf; [eassumption|by left|exact W].
  - invok Hx4. subst. cbn. eapply located_wf; [eassumption|by right|exact W].
  - by injection Hx4 as <-.
Qed.

Lemma getScreenState_wf c r c' :
  context_wf (context_info c) -> getScreenState popen c = Ok (r, c') -> context_wf (context_info c').
Proof using Type.
  intros W H. unfold getScreenState in H. invok H. subst.
  destruct (negb _); [|by injection Hx1 as <-]. invok Hx1. subst.
  destruct W. split; try done. cbn. destruct (_ =? 78); [by right|by left].
Qed.

Lemma getWindowState_wf c r c' :
  context_wf (context_info c) -> getWindowState popen missing_arg c = Ok (r, c') ->
  context_wf (context_info c').
Proof using Type.
  intros W H. unfold getWindowState in H. apply bind_Ok in H as (pp & _ & H).
  apply bind_Ok in H as (s & _ & H). apply bind_Ok in H as (t & _ & H).
  apply bind_Ok in H as ([uid n] & _ & H). injection H as _ <-.
  destruct W. split; try done. cbn. destruct (_ =? target_app_uid); [by right|by left].
Qed.

Lemma getCameraState_wf c r c' :
  context_wf (context_info c) -> getCameraState popen c = Ok (r, c') -> context_wf (context_info c').
Proof using Type.
  intros W H. unfold getCameraState in H. invok H. subst.
  destruct W. split; try done. cbn. destruct (_ >? 0); [by right|by left].
Qed.
End Wf.

Lemma readContextInfo_ok popen missing_arg c c' :
  readContextInfo popen missing_arg c = Ok c' -> context_wf (context_info c').
Proof.
  intros H. unfold readContextInfo in H.
  apply bind_Ok in H as ([r1 c1] & E1 & H). apply bind_Ok in H as ([r2 c2] & E2 & H).
  apply bind_Ok in H as ([r3 c3] & E3 & H). apply bind_Ok in H as ([r4 c4] & E4 & H).
  apply bind_Ok in H as ([r5 c5] & E5 & H). injection H as <-.
  eapply getCameraState_wf, E5. eapply getWindowState_wf, E4. eapply getScreenState_wf, E3.
  eapply getLocation_wf, E2. eapply getSerialNo_wf, E1. exact context_zero_wf.
Qed.

(** The serial number as a string. *)
Lemma serial_ok_string a : serial_ok a ->
  exists s, Forall (fun b => b <> 0) s /\ (s ++ [0]) `prefix_of` a.
Proof.
  intros [_ H]. induction a as [|b a IH]; [by apply elem_of_nil in H|].
  destruct (Z.eq_dec b 0) as [->|Hb]; [by exists []; split; [constructor|exists a]|].
  apply elem_of_cons in H as [H|H]; [done|]. destruct (IH H) as (s & Hs & k & Hk).
  exists (b :: s). split; [by constructor|]. exists k. by rewrite Hk.
Qed.

Lemma context_wf_ok c : context_wf c -> exists s, context_ok c s.
Proof.
  intros [H1 H2 H3 H4 H5 H6 H7 H8]. destruct (serial_ok_string _ H8) as (s & Hs & Hp).
  assert (F : forall z, flag z -> u32_ok z) by (unfold flag, u32_ok; intros z [->| ->]; lia).
  exists s. destruct H8 as [L _].
  repeat match goal with |- context_ok _ _ => unfold context_ok | |- _ /\ _ => split end; auto.
  unfold u32_ok, GPS_LOCATION, NET_LOCATION in *. lia.
Qed.

(** C16: whatever the commands print, the context that the collector reads is
    well formed when it is defined at all: the kind of location is none, GPS
    or network, the flags are 0 or 1, the numbers fit 32 bits, and the serial
    number is a string that ends within its 20 bytes. *)
Theorem readContextInfo_wf popen missing_arg c c' :
  readContextInfo popen missing_arg c = Ok c' -> context_wf (context_info c').
Proof. apply readContextInfo_ok. Qed.

(** A phone with the screen on and two cameras in use. *)
Definition nl : list Z := [10].
Definition phone (cmd : list Z) : option (list Z) :=
  if bool_decide (cmd = serial_cmd) then Some (bytes "ABC123" ++ nl)
  else if bool_decide (cmd = location_cmd) then
    Some (bytes "gps Location[gps 22.5,114.2 acc=20 t=1 et=2]" ++ nl
          ++ bytes "net Location[net 31.25,121.5 acc=15 t=1 et=2]" ++ nl)
  else if bool_decide (cmd = screen_cmd) then Some (bytes "mScreenState=ON" ++ nl)
  else if bool_decide (cmd = camera_cmd) then
    Some (bytes "Device 0 is open" ++ nl ++ bytes "Device 9 is open" ++ nl)
  else if bool_decide (cmd = window_cmd) then Some []
  else None.

Definition phone_context : contextInfo :=
  mkContext (mkLocation 2 31250000 121500000 15) 1 0 1 (bytes "ABC123" ++ replicate 14 0).

Definition phone_source : source := mkSource phone_context 2 1 0 0.

Lemma phone_reads : readContextInfo phone (fun _ => Err Undefined) source_zero = Ok phone_source.
Proof. vm_compute. reflexivity. Qed.

Lemma readContextInfo_wf_witness : context_wf phone_context.
Proof. exact (readContextInfo_wf phone (fun _ => Err Undefined) source_zero phone_source phone_reads). Defined.

(** ** From the phone to the server *)

Lemma context_bytes_length c s : context_ok c s -> length (context_bytes c) = 48%nat.
Proof. intros (_ & _ & _ & _ & _ & _ & _ & L & _). unfold context_bytes. by rewrite length_app, L. Qed.

Lemma sensor_sync_data_ok popen missing_arg ret p c c' :
  port_open p -> readContextInfo popen missing_arg c = Ok c' ->
  exists p', sensor_sync_data popen missing_arg ret p c = Ok (p', c') /\ port_open p' /\
    dev_fd p' = dev_fd p /\ is_running p' = is_running p /\
    sent p' = sent p ++ [comm_msg MSG_SYNC_SENSOR_INFO (context_bytes (context_info c'))].
Proof.
  intros Hp Hr. unfold sensor_sync_data. rewrite Hr, bind_ret_l.
  destruct (context_wf_ok _ (readContextInfo_ok _ _ _ _ Hr)) as [s Hs].
  destruct (mon_sync_message_ok ret MSG_SYNC_SENSOR_INFO (context_bytes (context_info c')) p Hp)
    as (p' & E & H1 & H2 & H3 & _ & _ & H4);
    [rewrite (context_bytes_length _ s Hs); unfold MAX_PAYLOAD; lia|].
  exists p'. rewrite E, bind_ret_l. done.
Qed.

(** C15: one round of the collector that reads its context puts one message
    into the mapped memory, the 48 bytes of that context behind the type and the
    length, and the context server, given these bytes behind any packet header,
    prints exactly that context: its serial number [s] is the string in
    [device_serialno], and a coordinate below 2^28 (268 degrees) is shown with an
    error of at most 8 millionths.  (Nothing is said of the way from the mapped
    memory to the server.) *)
Theorem collected_context_shown popen missing_arg ret p c c' :
  port_open p -> readContextInfo popen missing_arg c = Ok c' ->
  exists p' s, sensor_sync_data popen missing_arg ret p c = Ok (p', c') /\
    sent p' = sent p ++ [comm_msg MSG_SYNC_SENSOR_INFO (context_bytes (context_info c'))] /\
    length (context_bytes (context_info c')) = 48%nat /\
    (Forall (fun b => b <> 0) s /\ (s ++ [0]) `prefix_of` device_serialno (context_info c')) /\
    (forall h len after, net_ok h -> 24 <= len -> size h <= len ->
       parse_msg ((Some <$> net_bytes h ++ context_bytes (context_info c')) ++ after) len =
       Ok (net_line h :: context_lines (context_info c') s)) /\
    (forall z, z = longitude (location (context_info c')) \/ z = latitude (location (context_info c')) ->
       z < 2 ^ 28 -> Z.abs (f32_int z - z) <= 8).
Proof.
  intros Hp Hr. pose proof (readContextInfo_ok _ _ _ _ Hr) as W.
  destruct (context_wf_ok _ W) as [s Hs].
  destruct (sensor_sync_data_ok popen missing_arg ret p c c' Hp Hr) as (p' & E & _ & _ & _ & H4).
  exists p', s. split; [done|]. split; [done|]. split; [by eapply context_bytes_length|].
  split; [by destruct Hs as (_ & _ & _ & _ & _ & _ & _ & _ & ? & ?)|]. split.
  - intros h len after Hh Hl Hz.
    rewrite <- (app_nil_r (net_bytes h ++ _)). by apply parse_msg_ok.
  - intros z Hz Hb. apply (f32_int_below z 28); [lia|].
    destruct W as [_ H2 H3 _ _ _ _ _]. unfold u32_ok in *. destruct Hz as [->| ->]; lia.
Qed.

Definition port_ready : port := mkPort 3 (Some (replicate (Z.to_nat 4096) 0)) 0 1 0 [].

Lemma port_ready_open : port_open port_ready.
Proof.
  split; [done|]. exists (replicate (Z.to_nat 4096) 0). split; [done|].
  rewrite length_replicate. unfold MAX_PAYLOAD. lia.
Qed.

Lemma collected_context_shown_witness :
  exists p', sensor_sync_data phone (fun _ => Err Undefined) 0 port_ready source_zero = Ok (p', phone_source) /\
    sent p' = [comm_msg MSG_SYNC_SENSOR_INFO (context_bytes phone_context)].
Proof.
  destruct (collected_context_shown phone (fun _ => Err Undefined) 0 port_ready source_zero phone_source
              port_ready_open phone_reads) as (p' & s & E & H & _).
  exists p'. split; [exact E|exact H].
Defined.

(** ** The location *)

Lemma gps_hacc_is : atoi (str_array 64 (bytes "22")) = Ok 22.
Proof. reflexivity. Qed.

Lemma gps_located : located GPS_LOCATION gps_lo gps_la 22 = Ok (mkLocation 1 114180519 22304105 22).
Proof. vm_compute. reflexivity. Qed.

(** The outcomes of [getLocation] that leave a value. *)
Inductive location_result (c c' : source) : Z -> Prop :=
| LocFailed : (* the pipe stays open *)
    context_info c' = context_info c -> pipes c' = pipes c + 1 -> location_result c c' 0
| LocKept :
    context_info c' = context_info c -> pipes c' = pipes c -> location_result c c' 1
| LocGps :
    context_info c' = set_location (mkLocation 1 114180519 22304105 22) (context_info c) ->
    pipes c' = pipes c -> location_result c c' 1
| LocNet lo la hacc :
    0 < hacc < 22 -> 0 <= scale lo 1000000 < 2 ^ 32 -> 0 <= scale la 1000000 < 2 ^ 32 ->
    context_info c' =
      set_location (mkLocation 2 (scale lo 1000000) (scale la 1000000) hacc) (context_info c) ->
    pipes c' = pipes c -> location_result c c' 1.

Lemma to_u32_Ok z v : to_u32 z = Ok v -> v = z /\ 0 <= z < 2 ^ 32.
Proof.
  unfold to_u32. destruct (Z.leb_spec 0 z), (Z.ltb_spec z (2 ^ 32)); cbn; try done.
  intros [= <-]. done.
Qed.

(** A location is reported in one of four ways.  When one of the two lines
    is missing the context keeps its location and the pipe is never closed.
    When the network fix has no accuracy of at least 1 the location is kept;
    when it is worse than 21 the GPS location is reported, which is the same
    place and accuracy whatever the receiver said; otherwise the coordinates
    of the network fix are, truncated to millionths. *)
Theorem getLocation_spec popen c r c' :
  getLocation popen c = Ok (r, c') -> location_result c c' r.
Proof.
  intros H. unfold getLocation in H.
  apply bind_Ok in H as (pp & _ & H). apply bind_Ok in H as (s & _ & H).
  apply bind_Ok in H as (t & _ & H). destruct (negb _); [injection H as <- <-; by constructor|].
  rewrite gps_hacc_is, bind_ret_l in H. apply bind_Ok in H as (et & _ & H).
  apply bind_Ok in H as (s2 & _ & H). cbv zeta in H.
  destruct (negb _); [injection H as <- <-; by constructor|].
  apply bind_Ok in H as (na & _ & H). apply bind_Ok in H as (hacc & _ & H).
  apply bind_Ok in H as (et2 & _ & H). apply bind_Ok in H as (lo & _ & H).
  apply bind_Ok in H as (la & _ & H). apply bind_Ok in H as (c2 & E & H). injection H as <- <-.
  destruct (Z.leb_spec 22 hacc) as [Hh|Hh]; cbn in E.
  - rewrite gps_located, bind_ret_l in E. injection E as <-. apply LocGps; cbn; [done|lia].
  - destruct (Z.gtb_spec hacc 0) as [Hp|Hp].
    + apply bind_Ok in E as (l & El & E). injection E as <-. unfold located in El. invok El.
      apply to_u32_Ok in Hx as [-> ?], Hx0 as [-> ?]. subst l.
      rewrite uwrap_small by lia.
      apply LocNet with lo la hacc; cbn; (done || lia).
    + injection E as <-. apply LocKept; cbn; [done|lia].
Qed.

Lemma getLocation_spec_witness :
  location_result source_zero
    (set_context (set_location (mkLocation 2 31250000 121500000 15) context_zero) source_zero) 1.
Proof.
  apply (getLocation_spec phone). vm_compute. reflexivity.
Defined.

(** A network location west of Greenwich or south of the equator that is
    accurate to 21 or better has no defined result: a negative coordinate is
    converted to an unsigned number. *)
Theorem negative_coordinate_undefined popen c pp s s2 hacc na lo la :
  popen location_cmd = Some pp -> fscanf location_fmt pp = Ok s ->
  got_str s 0 = Some (bytes "gps") -> (got_str s 6 ≫= last) <> None ->
  fscanf location_fmt (rest s) = Ok s2 -> got_str s2 0 = Some (bytes "net") ->
  got_str s2 4 = Some na -> (length na <= 5)%nat -> atoi (str_array 64 na) = Ok hacc -> 0 < hacc < 22 ->
  got_flt s2 2 = Some lo -> got_flt s2 3 = Some la ->
  scale lo 1000000 < 0 \/ scale la 1000000 < 0 ->
  getLocation popen c = Err Undefined.
Proof.
  intros Hp Hs H0 H6 Hs2 H20 H24 Hn Ha Hh Hlo Hla Hneg. unfold getLocation.
  rewrite Hp. cbn [deref]. rewrite bind_ret_l, Hs, bind_ret_l, H0. cbn [deref]. rewrite bind_ret_l.
  rewrite bool_decide_true by done. cbn [negb]. rewrite gps_hacc_is, bind_ret_l.
  destruct (got_str s 6 ≫= last) as [e|]; [|done]. cbn [deref]. rewrite bind_ret_l, Hs2, bind_ret_l, H20.
  cbn [default from_option id]. rewrite bool_decide_true by done. cbn [negb].
  rewrite H24. cbn [deref]. rewrite bind_ret_l.
  destruct (Nat.ltb_spec 5 (length na)); [lia|]. rewrite Ha, bind_ret_l, Hlo, Hla.
  destruct (got_str s2 6 ≫= last) as [e2|]; cbn [deref]; [|done]. rewrite !bind_ret_l.
  destruct (Z.leb_spec 22 hacc); [lia|]. cbn [andb]. destruct (Z.gtb_spec hacc 0); [|lia].
  unfold located, to_u32.
  destruct (Z.leb_spec 0 (scale lo 1000000)); cbn [andb]; [|done].
  destruct (scale lo 1000000 <? 2 ^ 32); [|done]. rewrite bind_ret_l.
  destruct (Z.leb_spec 0 (scale la 1000000)); [lia|done].
Qed.

(** Washington. *)
Definition west : list Z :=
  bytes "gps Location[gps 38.9,-77.0 acc=20 t=1 et=2]" ++ nl
  ++ bytes "net Location[net 38.9,-77.0 acc=15 t=1 et=2]" ++ nl.

Lemma negative_coordinate_undefined_witness :
  getLocation (fun _ => Some west) source_zero = Err Undefined.
Proof.
  destruct (fscanf location_fmt west) as [s|] eqn:E; [|done].
  destruct (fscanf location_fmt (rest s)) as [s2|] eqn:E2; [|vm_compute in E; injection E as <-; done].
  assert (F : fscanf location_fmt west = Ok s) by exact E.
  assert (F2 : fscanf location_fmt (rest s) = Ok s2) by exact E2.
  vm_compute in E. injection E as <-. vm_compute in E2. injection E2 as <-.
  eapply (negative_coordinate_undefined (fun _ => Some west) source_zero west _ _ 15 (bytes "15"));
    [done|exact F|done|done|exact F2|done|done|cbn; lia|done|lia|reflexivity|reflexivity|].
  right. reflexivity.
Defined.

(** ** The cameras *)

(** The lines [grep] prints for the open cameras with the digits [ds]. *)
Definition camera_line (d : Z) : list Z := bytes "Device " ++ [d] ++ bytes " is open" ++ nl.
Definition camera_lines (ds : list Z) : list Z := mjoin (camera_line <$> ds).

Definition camera_fmt : list directive := [Str 8; Space; Int; Space; Str 8; Space; Str 8].

Lemma scan_camera pre d more : pre = [] \/ pre = nl -> isdigit d ->
  fscanf camera_fmt (pre ++ camera_line d ++ more) =
  Ok (mkScan [VStr (bytes "Device"); VInt (d - 48); VStr (bytes "is"); VStr (bytes "open")] 4 (nl ++ more)).
Proof.
  unfold isdigit. intros Hp Hd. apply Is_true_true, andb_prop in Hd as [H1%Z.leb_le H2%Z.leb_le].
  assert (C : d = 48 \/ d = 49 \/ d = 50 \/ d = 51 \/ d = 52 \/ d = 53 \/ d = 54 \/ d = 55 \/ d = 56 \/ d = 57)
    by lia.
  destruct Hp as [->| ->]; repeat destruct C as [->|C]; subst; reflexivity.
Qed.

Lemma count_cameras_lines ds : forall pre fuel n, pre = [] \/ pre = nl -> Forall isdigit ds ->
  (length ds < fuel)%nat -> 0 <= n -> n + Z.of_nat (length ds) < 2 ^ 31 ->
  count_cameras fuel (pre ++ camera_lines ds) n = Ok (n + Z.of_nat (length ds)).
Proof.
  induction ds as [|d ds IH]; intros pre fuel n Hp Hd Hf Hn Hb; (destruct fuel as [|fuel]; [cbn in Hf; lia|]);
    cbn [count_cameras]; fold camera_fmt.
  - rewrite Z.add_0_r. destruct Hp as [->| ->]; done.
  - apply Forall_cons in Hd as [Hd Hds]. change (camera_lines (d :: ds)) with (camera_line d ++ camera_lines ds).
    rewrite scan_camera by done. rewrite bind_ret_l. cbn [ret Scanf.rest negb]. change (4 =? EOF) with false.
    cbn [negb length] in *. unfold to_int.
    destruct (Z.leb_spec (- 2 ^ 31) (n + 1)), (Z.ltb_spec (n + 1) (2 ^ 31)); try lia.
    cbn [andb]. rewrite bind_ret_l. rewrite (IH nl fuel (n + 1)); [f_equal; lia|by right|done|lia..].
Qed.

Lemma count_cameras_fuelless fuel : forall l n, (length l < fuel)%nat -> fuelless (count_cameras fuel l n).
Proof.
  induction fuel as [|fuel IH]; intros l n Hl; [lia|]. cbn [count_cameras].
  destruct (fscanf _ l) as [s|e] eqn:E; [rewrite bind_ret_l|].
  - destruct (Z.eqb_spec (ret s) EOF) as [|Hr]; cbn [negb]; [done|].
    pose proof (fscanf_str_progress _ _ _ _ E Hr) as Hp.
    apply fuelless_bind; [unfold to_int; fuelless|]. intros a. apply IH. lia.
  - pose proof (fscanf_from_fuelless [Str 8; Space; Int; Space; Str 8; Space; Str 8] 0 l) as F.
    unfold fscanf in E. rewrite E in F. unfold fuelless in *. cbn. congruence.
Qed.

(** The loop over the output of the camera service ends on every output,
    because every read consumes a character or meets the end; on the lines
    printed for [n] open cameras it counts [n], and the context says that a
    camera is active exactly when there is one. *)
Theorem getCameraState_counts popen c pp ds :
  popen camera_cmd = Some pp ->
  fuelless (getCameraState popen c) /\
  (pp = camera_lines ds -> Forall isdigit ds -> Z.of_nat (length ds) < 2 ^ 31 ->
   exists c', getCameraState popen c = Ok (1, c') /\ active_camera c' = Z.of_nat (length ds) /\
     (is_camera_active (context_info c') = 1 <-> ds <> []) /\
     (is_camera_active (context_info c') = 0 <-> ds = [])).
Proof.
  intros Hp. unfold getCameraState. rewrite Hp. cbn [deref]. rewrite bind_ret_l. split.
  - apply fuelless_bind; [apply count_cameras_fuelless; lia|done].
  - intros -> Hd Hb. rewrite (count_cameras_lines ds [] _ 0); [|by left|done| |lia|lia].
    + rewrite bind_ret_l. eexists. split; [reflexivity|]. split; [done|]. cbn.
      destruct ds; cbn; split; split; done.
    + assert (G : (length ds <= length (camera_lines ds))%nat); [|lia].
      clear. induction ds as [|d ds IH]; [done|].
      change (camera_lines (d :: ds)) with (camera_line d ++ camera_lines ds). rewrite length_app.
      change (length (camera_line d)) with 17%nat. cbn [length]. lia.
Qed.

Lemma getCameraState_counts_witness :
  exists c', getCameraState phone source_zero = Ok (1, c') /\ active_camera c' = 2.
Proof.
  destruct (getCameraState_counts phone source_zero (camera_lines [48; 57]) [48; 57] eq_refl) as [_ H].
  destruct (H eq_refl) as (c' & E & Ha & _); [by repeat constructor|done|].
  exists c'. split; [exact E|exact Ha].
Defined.

(** ** The focused window *)

Lemma atoi_digits_unwritten ds : forall z (r : mem), Forall isdigit ds ->
  atoi_digits z ((Some <$> ds) ++ None :: r) = Err Undefined.
Proof.
  induction ds as [|d ds IH]; intros z r H; [done|]. apply Forall_cons in H as [Hd H].
  cbn. destruct (isdigit d); [by apply IH|done].
Qed.

Lemma isdigit_not d : isdigit d -> isspace d = false /\ d =? 45 = false /\ d =? 43 = false.
Proof.
  unfold isdigit, isspace. intros H. apply Is_true_true, andb_prop in H as [H1%Z.leb_le H2%Z.leb_le].
  split; [|split; apply Z.eqb_neq; lia].
  apply orb_false_intro; [apply andb_false_intro2, Z.leb_gt; lia|apply Z.eqb_neq; lia].
Qed.

Lemma atoi_unwritten ds (r : mem) : ds <> [] -> Forall isdigit ds ->
  atoi ((Some <$> ds) ++ None :: r) = Err Undefined.
Proof.
  destruct ds as [|d ds]; [done|]. intros _ H. pose proof H as [Hd _]%Forall_cons.
  destruct (isdigit_not d Hd) as (E1 & E2 & E3).
  pose proof (atoi_digits_unwritten (d :: ds) 0 r H) as E. cbn in E |- *.
  rewrite E1, E2, E3, E. done.
Qed.

(** The digits of a user id between the quotes [grep -o] prints around them. *)
Definition uid_word (ds : list Z) : list Z := bytes "userId=" ++ [34] ++ ds ++ [34].

Lemma scan_uid ds : Forall isdigit ds -> (length ds <= 22)%nat ->
  exists s, fscanf [Str 32] (uid_word ds ++ nl) = Ok s /\ ret s = 1 /\ got_str s 0 = Some (uid_word ds).
Proof.
  intros Hd Hl. unfold fscanf. cbn [fscanf_from].
  assert (N : Forall (fun c => negb (isspace c) = true) (uid_word ds)).
  { repeat (constructor; [done|]). apply Forall_app. split; [|by repeat constructor].
    eapply Forall_impl; [exact Hd|]. intros d H. by destruct (isdigit_not d H) as (-> & _). }
  assert (Z0 : Forall (fun c => negb (c =? 0) = true) (uid_word ds)).
  { repeat (constructor; [done|]). apply Forall_app. split; [|by repeat constructor].
    eapply Forall_impl; [exact Hd|]. unfold isdigit. intros d H.
    apply Is_true_true, andb_prop in H as [H1%Z.leb_le _]. destruct (Z.eqb_spec d 0); [lia|done]. }
  change (skip_space (uid_word ds ++ nl)) with (uid_word ds ++ nl).
  rewrite (span_all _ (uid_word ds) nl N) by done.
  assert (L : length (uid_word ds) = (9 + length ds)%nat) by (unfold uid_word; cbn; rewrite length_app; cbn; lia).
  destruct (uid_word ds ++ nl) as [|x r] eqn:E; [by destruct (uid_word ds)|].
  destruct (Nat.ltb_spec (length (uid_word ds)) 32); [|lia].
  rewrite !bind_ret_l. eexists. split; [reflexivity|]. split; [done|].
  pose proof (span_all _ (uid_word ds) [] Z0 I) as Es. rewrite app_nil_r in Es.
  unfold got_str, got_raw. cbn [got lookup list_lookup option_map]. by rewrite Es.
Qed.

(** Once a window has the focus its user id is not determined.  [sprintf]
    is called without the argument of its [%s]; and even if that argument were
    to be found and the id read, the digits are copied without a terminator
    over a shorter word, so that [atoi] reads on into bytes nobody wrote. *)
Theorem window_uid_undefined popen missing_arg (name word arg ds : list Z) :
  name <> [] -> (length word < length ds <= 22)%nat -> Forall isdigit ds ->
  (length (uid_cmd arg) < 256)%nat -> popen (uid_cmd arg) = Some (uid_word ds ++ nl) ->
  (missing_arg = (fun _ => Err Undefined) ->
   window_uid popen missing_arg (str_array 32 word) name = Err Undefined) /\
  (missing_arg = (fun _ => Ok arg) ->
   window_uid popen missing_arg (str_array 32 word) name = Err Undefined).
Proof.
  intros Hn Hw Hd Hc Hp. unfold window_uid. destruct name as [|n0 name]; [done|]. cbn [length Nat.eqb].
  split; intros ->; [done|]. rewrite bind_ret_l. destruct (Nat.leb_spec 256 (length (uid_cmd arg))); [lia|].
  rewrite Hp. cbn [deref]. rewrite bind_ret_l.
  destruct (scan_uid ds Hd ltac:(lia)) as (s & Es & Er & Eg). rewrite Es, bind_ret_l, Er, Eg.
  cbn [negb deref]. change (1 =? EOF) with false. cbn [negb]. rewrite bind_ret_l.
  assert (L : length (uid_word ds) = (9 + length ds)%nat) by (unfold uid_word; cbn; rewrite length_app; cbn; lia).
  rewrite uwrap_small by lia.
  destruct (Z.ltb_spec (Z.of_nat (length (uid_word ds))) (8 + (Z.of_nat (length (uid_word ds)) - 9))); [lia|].
  rewrite bind_ret_l. replace (Z.to_nat (Z.of_nat (length (uid_word ds)) - 9)) with (length ds) by lia.
  change (drop 8 (uid_word ds)) with (ds ++ [34]). rewrite take_app_length.
  assert (La : length (str_array 32 word) = 32%nat).
  { unfold str_array. rewrite length_app, length_fmap, length_app, length_replicate. cbn [length]. lia. }
  rewrite fill_front by lia. rewrite bind_ret_l.
  assert (E : exists r, drop (length ds) (str_array 32 word) = None :: r).
  { unfold str_array. rewrite drop_app_ge by (rewrite length_fmap, length_app; cbn; lia).
    rewrite drop_replicate, length_fmap, length_app. cbn [length].
    destruct (32 - length word - 1 - (length ds - (length word + 1)))%nat eqn:Ez; [lia|].
    by eexists. }
  destruct E as [r ->]. rewrite atoi_unwritten; [done| |done]. destruct ds; [cbn in Hw; lia|done].
Qed.

(** User 10022 of the first account. *)
Lemma window_uid_undefined_witness :
  window_uid (fun _ => Some (uid_word (bytes "10022") ++ nl)) (fun name => Ok (bytes "com.app"))
    (str_array 32 (bytes "u0")) (bytes "com.app/com.app.Main") = Err Undefined.
Proof.
  apply (window_uid_undefined _ (fun _ => Ok (bytes "com.app")) _ (bytes "u0") (bytes "com.app") (bytes "10022"));
    [done|cbn; lia|by repeat constructor|vm_compute; lia|done|done].
Defined.

(** ** The program *)

(** Every command of the round gives a defined context. *)
Definition round_defined (r : round) : Prop :=
  forall c, exists c', readContextInfo (r_popen r) (r_missing r) c = Ok c'.

(** A message that carries a well-formed context. *)
Definition context_msg (m : list Z) : Prop :=
  exists c, context_wf c /\ m = comm_msg MSG_SYNC_SENSOR_INFO (context_bytes c).

(** SIGINT arrives in the last of the rounds. *)
Fixpoint stops_last (rounds : list round) : Prop :=
  match rounds with
  | [] => False
  | [r] => r_sigint r = true
  | r :: rounds => r_sigint r = false /\ stops_last rounds
  end.

(** What one round leaves, with the device open and without it. *)
Lemma sync_round r p c :
  round_defined r -> port_open p \/ dev_fd p < 0 ->
  exists p' c', sensor_sync_data (r_popen r) (r_missing r) (r_fsync r) p c = Ok (p', c') /\
    dev_fd p' = dev_fd p /\ is_running p' = is_running p /\
    ((port_open p' /\ exists m, context_msg m /\ sent p' = sent p ++ [m]) \/
     (dev_fd p' < 0 /\ sent p' = sent p)).
Proof.
  intros Hr Hp. destruct (Hr c) as [c' Hc]. destruct Hp as [Hp|Hp].
  - destruct (sensor_sync_data_ok _ _ (r_fsync r) p c c' Hp Hc) as (p' & E & H1 & H2 & H3 & H4).
    exists p', c'. split; [done|]. do 2 (split; [done|]). left. split; [done|]. eexists. split; [|done].
    exists (context_info c'). split; [by eapply readContextInfo_ok|done].
  - exists p, c'. unfold sensor_sync_data. rewrite Hc, bind_ret_l, mon_sync_message_closed by done.
    rewrite bind_ret_l. repeat split. by right.
Qed.

Lemma collector_rounds rounds : forall p c,
  Forall round_defined rounds -> stops_last rounds -> is_running p = 1 -> port_open p \/ dev_fd p < 0 ->
  exists p' c', sensor_start_collector rounds p c = Ok (p', c') /\ is_running p' = 0 /\ dev_fd p' = dev_fd p /\
    ((port_open p' /\ exists ms, length ms = length rounds /\ Forall context_msg ms /\
        sent p' = sent p ++ ms) \/ (dev_fd p < 0 /\ sent p' = sent p)).
Proof.
  induction rounds as [|r rounds IH]; intros p c Hd Hs Hr Hp; [done|].
  apply Forall_cons in Hd as [Hd Hds]. cbn [sensor_start_collector]. rewrite Hr. cbn [Z.eqb].
  destruct (sync_round r p c Hd Hp) as (p1 & c1 & E & F & R & H). rewrite E, bind_ret_l.
  destruct rounds as [|r2 rounds].
  - cbn in Hs. rewrite Hs. exists (sigint_handler p1), c1. split; [done|]. split; [done|]. split; [done|].
    destruct H as [(H1 & m & Hm & Hms)|[H1 H2]]; [left|right; split; [congruence|done]].
    split; [exact H1|]. exists [m]. split; [done|]. split; [by constructor|done].
  - destruct Hs as [Hs1 Hs2]. rewrite Hs1.
    destruct (IH p1 c1 Hds Hs2) as (p' & c' & E' & R' & F' & H').
    + congruence.
    + destruct H as [[H _]|[H _]]; [by left|by right].
    + exists p', c'. split; [done|]. split; [done|]. split; [congruence|].
      destruct H as [(H1 & m & Hm & Hms)|[H1 H2]], H' as [(H3 & ms & L & Hf & Hs')|[H3 H4]].
      * left. split; [done|]. exists (m :: ms). split; [cbn in *; lia|]. split; [by constructor|].
        by rewrite Hs', Hms, <- (assoc_L (++)).
      * destruct H1. lia.
      * destruct H3. lia.
      * right. split; [congruence|]. congruence.
Qed.


(** Three rounds of the phone. *)
Lemma phone_defined c : exists c', readContextInfo phone (fun _ => Err Undefined) c = Ok c'.
Proof. eexists. vm_compute. reflexivity. Qed.

Definition phone_round (sig : bool) : round := mkRound phone (fun _ => Err Undefined) 0 sig.


(** ** The load thread *)

(** The cycles set while the time advances by [n] steps of 10 from [t]. *)
Fixpoint cycles (n : nat) (t : Z) : list Z :=
  match n with
  | O => []
  | S n =>
      let p := schedule t (mkPort 1 None 0 1 0 []) in
      (if cycle p >? 0 then [cycle p] else []) ++ (if is_running p =? 0 then [] else cycles n (t + 10))
  end.

(** The number of iterations until the thread clears [is_running]. *)
Fixpoint iterations (n : nat) (t : Z) : option nat :=
  match n with
  | O => None
  | S n => if is_running (schedule t (mkPort 1 None 0 1 0 [])) =? 0 then Some 1%nat
           else option_map S (iterations n (t + 10))
  end.

(** [schedule] looks at the time only. *)
Lemma schedule_port t p :
  is_running p = 1 -> cycle p = 0 ->
  let q := schedule t (mkPort 1 None 0 1 0 []) in
  schedule t p = mkPort (dev_fd p) (dev_mmap p) (sync_lock p) (is_running q) (cycle q) (sent p).
Proof.
  intros Hr Hc. unfold schedule.
  repeat match goal with |- context [if ?b then _ else _] =>
    destruct b; [cbn; destruct p; cbn in *; subst; reflexivity|] end.
  destruct p; cbn in *; by subst.
Qed.

(** A running port that has no cycle to announce. *)
Definition port_idle (p : port) : Prop := port_open p /\ is_running p = 1 /\ cycle p = 0.

Lemma load_iteration t p :
  port_idle p ->
  let q := schedule t (mkPort 1 None 0 1 0 []) in
  exists p', (if cycle (schedule t p) >? 0 then
                '(_, p) ← mon_sync_response_cycle 0 (cycle (schedule t p)) (schedule t p);
                mret (set_cycle 0 p)
              else mret (schedule t p)) = Ok p' /\
    port_open p' /\ is_running p' = is_running q /\ cycle p' = 0 /\
    sent p' = sent p ++ ((fun c => comm_msg MSG_CONF_RESPONSE_CYCLE (le 4 c))
                         <$> (if cycle q >? 0 then [cycle q] else [])).
Proof.
  intros (Hp & Hr & Hc) q. rewrite (schedule_port t p Hr Hc). fold q. cbn [cycle].
  set (p1 := mkPort _ _ _ _ _ _). assert (Hp1 : port_open p1) by exact Hp.
  destruct (Z.gtb_spec (cycle q) 0) as [H|H].
  - unfold mon_sync_response_cycle. destruct Hp1 as [Hf ?]. cbn in Hf.
    destruct (Z.ltb_spec (dev_fd p1) 0); [cbn in *; lia|].
    destruct (mon_sync_message_ok 0 MSG_CONF_RESPONSE_CYCLE (le 4 (cycle q)) p1)
      as (p2 & E & O & _ & R & _ & _ & S); [done|rewrite le_length; unfold MAX_PAYLOAD; lia|].
    rewrite E, bind_ret_l. eexists. split; [reflexivity|]. done.
  - exists p1. split; [done|]. split; [done|]. split; [done|]. split; [|cbn; by rewrite app_nil_r].
    cbn. assert (cycle q = 0 \/ 0 < cycle q) as [?|?]; [|done|lia].
    unfold q, schedule. repeat case_match; cbn; lia.
Qed.

Lemma load_loop_ok loadout loadavg k : forall fuel n known t p its,
  loadavg 0%nat = true -> (n = 0%nat \/ known = true) -> port_idle p -> 0 <= t -> t + 10 * Z.of_nat k < 2 ^ 32 ->
  iterations k t = Some its -> (its <= fuel)%nat ->
  exists p', output_load_thread loadout loadavg fuel n known t p = Ok p' /\ is_running p' = 0 /\
    sent p' = sent p ++ ((fun c => comm_msg MSG_CONF_RESPONSE_CYCLE (le 4 c)) <$> cycles k t).
Proof.
  induction k as [|k IH]; intros fuel n known t p its H0 Hn Hp Ht Hb Hi Hf; [done|].
  assert (Hk : known || loadavg n = true) by (destruct Hn as [->| ->]; [rewrite H0; apply orb_true_r|done]).
  cbn [iterations cycles] in Hi |- *. destruct (load_iteration t p Hp) as (p1 & E & O & R & C & S).
  set (q := schedule t (mkPort 1 None 0 1 0 [])) in *.
  destruct fuel as [|fuel]; [destruct (is_running q =? 0); [simplify_eq; lia|];
    destruct (iterations k (t + 10)); simplify_eq/=; lia|].
  pose proof Hp as (_ & Hr & _). cbn [output_load_thread]. rewrite Hr, Hk. cbn [Z.eqb].
  rewrite andb_false_r, bind_ret_l. rewrite E, bind_ret_l. rewrite uwrap_small by lia.
  destruct (Z.eqb_spec (is_running q) 0) as [Hq|Hq].
  - exists (set_running 0 p1). rewrite app_nil_r. split; [|done].
    destruct fuel; cbn [output_load_thread]; by rewrite R, Hq.
  - destruct (iterations k (t + 10)) as [its'|] eqn:Ei; [|done]. cbn in Hi. injection Hi as <-.
    destruct (IH fuel (Datatypes.S n) true (t + 10) p1 its') as (p' & E' & R' & S'); try done; try lia; try by right.
    + split; [done|]. split; [|done]. rewrite R. revert Hq. unfold q, schedule. by repeat case_match.
    + exists p'. split; [done|]. split; [done|]. rewrite S', S, fmap_app. by rewrite (assoc_L (++)).
Qed.

(** The load thread ends by itself after 121 iterations, having announced
    the eleven response cycles from 2000 down to 100 to the kernel module, in
    that order and each once, and it clears [is_running] for the program. *)
Theorem load_thread_schedule loadout loadavg (p : port) (fuel : nat) :
  loadavg 0%nat = true -> port_idle p -> (121 <= fuel)%nat ->
  exists p', output_load_thread loadout loadavg fuel 0 false 0 p = Ok p' /\ is_running p' = 0 /\
    sent p' = sent p ++ ((fun c => comm_msg MSG_CONF_RESPONSE_CYCLE (le 4 c)) <$>
      [2000; 1800; 1600; 1400; 1200; 1000; 800; 600; 400; 200; 100]).
Proof.
  intros H0 Hp Hf.
  destruct (load_loop_ok loadout loadavg 121 fuel 0 false 0 p 121 H0 ltac:(by left) Hp ltac:(lia) ltac:(lia)
              ltac:(by vm_compute) Hf) as (p' & E & R & S).
  exists p'. split; [done|]. split; [done|]. rewrite S. f_equal.
Qed.

Lemma load_thread_schedule_witness :
  exists p', output_load_thread true (fun n => Nat.even n) 121 0 false 0 port_ready = Ok p' /\
    length (sent p') = 11%nat.
Proof.
  destruct (load_thread_schedule true (fun n => Nat.even n) port_ready 121 eq_refl) as (p' & E & _ & S).
  - split; [exact port_ready_open|done].
  - lia.
  - exists p'. split; [exact E|]. by rewrite S.
Defined.
