(* ===== verification/Sensors.v ===== *)
(** The sensor and position collectors of the user-space program
    (src/client-module/user-module/sensorcollector.cpp, lines 214-401, and
    gpscollector.cpp), which the program as built does not start.  The
    hardware layer of Android is a parameter: the results of its calls.  The
    calls made to it are recorded. *)

From stdpp Require Import base list strings sets.
From Stdlib Require Import ZArith Lia Ascii.
From S2P Require Import Prelude Wire Cfloat Server Scanf Collector CollectorProps.

Local Open Scope Z_scope.

(** ** Sensor events *)

Definition MAX_SENSOR_NUM : Z := 7.
Definition SENSOR_TYPE_ACCELEROMETER : Z := 1.
Definition SENSOR_TYPE_MAGNETIC_FIELD : Z := 2.
Definition SENSOR_TYPE_ORIENTATION : Z := 3.
Definition SENSOR_TYPE_GYROSCOPE : Z := 4.
Definition SENSOR_TYPE_GRAVITY : Z := 9.
Definition SENSOR_TYPE_LINEAR_ACCELERATION : Z := 10.
Definition SENSOR_TYPE_ROTATION_VECTOR : Z := 11.

(** [getSensorName] of the collector: the names by the constants of the
    hardware layer. *)
Definition sensor_name (type : Z) : string :=
  if type =? SENSOR_TYPE_ACCELEROMETER then "Acc"
  else if type =? SENSOR_TYPE_MAGNETIC_FIELD then "Mag"
  else if type =? SENSOR_TYPE_ORIENTATION then "Ori"
  else if type =? SENSOR_TYPE_GYROSCOPE then "Gyr"
  else if type =? 5 (* SENSOR_TYPE_LIGHT *) then "Lux"
  else if type =? 6 (* SENSOR_TYPE_PRESSURE *) then "Bar"
  else if type =? 7 (* SENSOR_TYPE_TEMPERATURE *) then "Tmp"
  else if type =? 8 (* SENSOR_TYPE_PROXIMITY *) then "Prx"
  else if type =? SENSOR_TYPE_GRAVITY then "Grv"
  else if type =? SENSOR_TYPE_LINEAR_ACCELERATION then "Lac"
  else if type =? SENSOR_TYPE_ROTATION_VECTOR then "Rot"
  else if type =? 12 (* SENSOR_TYPE_RELATIVE_HUMIDITY *) then "Hum"
  else if type =? 13 (* SENSOR_TYPE_AMBIENT_TEMPERATURE *) then "Tam"
  else "ukn".

(** [sensors_event_t]. *)
Record event : Type := mkEvent {
  ev_version : Z; ev_type : Z; ev_timestamp : Z; ev_data : float * float * float
}.

Definition sensor_zero : sensor_info := mkSensor 0 0 0 (0, 0, 0).

(** The variable [sensor_data] of the file. *)
Definition sensor_data_zero : list sensor_info := replicate 7 sensor_zero.

(** The slot of a type of sensor, or -1. *)
Definition sensor_index (type : Z) : Z :=
  if type =? SENSOR_TYPE_ACCELEROMETER then 0
  else if type =? SENSOR_TYPE_MAGNETIC_FIELD then 1
  else if type =? SENSOR_TYPE_ORIENTATION then 2
  else if type =? SENSOR_TYPE_GYROSCOPE then 3
  else if type =? SENSOR_TYPE_GRAVITY then 4
  else if type =? SENSOR_TYPE_LINEAR_ACCELERATION then 5
  else if type =? SENSOR_TYPE_ROTATION_VECTOR then 6
  else -1.

(** The values of an event in millionths. *)
Definition event_data (e : event) : res (Z * Z * Z) :=
  let '(d0, d1, d2) := ev_data e in
  d0 ← to_i64 (scale d0 1000000); d1 ← to_i64 (scale d1 1000000); d2 ← to_i64 (scale d2 1000000);
  mret (d0, d1, d2).

Definition store_event (e : event) (data : list sensor_info) : res (list sensor_info) :=
  let index := sensor_index (ev_type e) in
  if (ev_type e >? 0) && (index <? MAX_SENSOR_NUM) && (index >=? 0) then
    old ← deref (znth data index);
    d ← event_data e;
    mret (<[Z.to_nat index := mkSensor (ev_type e) (sen_reverse old) (uwrap 64 (ev_timestamp e)) d]> data)
  else mret data.

(** The loop over the events of one poll: an event of another version ends
    it.  [event_size] is [sizeof(sensors_event_t)]. *)
Fixpoint store_events (event_size : Z) (es : list event) (data : list sensor_info) : res (list sensor_info) :=
  match es with
  | [] => mret data
  | e :: es =>
      if negb (ev_version e =? event_size) then mret data else
      data ← store_event e data;
      store_events event_size es data
  end.

(** ** The loop over the sensors *)

(** The calls made to the hardware layer. *)
Inductive hal_call : Type :=
| Activate (handle enabled : Z)
| SetDelay (handle : Z)
| CloseSensors.

(** The results of the layer: of [hw_get_module] and [sensors_open], the
    handles of the sensors, the results of [activate] and of
    [sensors_close]. *)
Record hal : Type := mkHal {
  h_module : Z; h_open : Z; h_handles : list Z; h_activate : Z -> Z -> Z; h_close : Z; h_event_size : Z
}.

(** A loop that calls [activate]: the calls and whether all of them worked;
    after an activation the delay is set. *)
Fixpoint activate_all (h : hal) (enabled : Z) (delay : bool) (handles : list Z) : list hal_call * bool :=
  match handles with
  | [] => ([], true)
  | x :: handles =>
      if negb (h_activate h x enabled =? 0) then ([Activate x enabled], false) else
      let '(calls, ok) := activate_all h enabled delay handles in
      (Activate x enabled :: (if delay then [SetDelay x] else []) ++ calls, ok)
  end.

(** What happens in one turn of the loop: the events of [poll], or none when
    it fails, and the round of the context collector. *)
Definition turn : Type := option (list event) * round.

(** The loop that polls, as long as [is_running] is 1. *)
Fixpoint poll_loop (event_size : Z) (turns : list turn) (p : port) (c : source) (data : list sensor_info)
  : res (port * source * list sensor_info) :=
  match turns with
  | [] => Err NoFuel
  | (None, _) :: _ => mret (p, c, data)
  | (Some es, r) :: turns =>
      data ← store_events event_size es data;
      '(p, c) ← sensor_sync_data (r_popen r) (r_missing r) (r_fsync r) p c;
      let p := if r_sigint r then sigint_handler p else p in
      if is_running p =? 1 then poll_loop event_size turns p c data else mret (p, c, data)
  end.

(** [sensor_start_collector1]: the value returned, the calls made, and the
    variables. *)
Definition sensor_start_collector1 (h : hal) (turns : list turn) (p : port) (c : source) (data : list sensor_info)
  : res (Z * list hal_call * (port * source * list sensor_info)) :=
  if negb (h_module h =? 0) then mret (0, [], (p, c, data)) else
  if negb (h_open h =? 0) then mret (0, [], (p, c, data)) else
  let '(calls0, ok) := activate_all h 0 false (h_handles h) in
  if negb ok then mret (0, calls0, (p, c, data)) else
  let '(calls1, ok) := activate_all h 1 true (h_handles h) in
  if negb ok then mret (0, calls0 ++ calls1, (p, c, data)) else
  s ← poll_loop (h_event_size h) turns p c data;
  let '(calls2, ok) := activate_all h 0 false (h_handles h) in
  if negb ok then mret (0, calls0 ++ calls1 ++ calls2, s) else
  mret (1, calls0 ++ calls1 ++ calls2 ++ [CloseSensors], s).

(** ** Position sentences (gpscollector.cpp) *)

Definition test_gps_str : list Z :=
  bytes "$GPRMC,013257.00,A,3129.51829,N,12022.10562,E,0.093,,270813,,,A*7A" ++ [13; 10].

Definition nmea_zero : gps_nmea_info := mkNmea 0 0 (replicate 116 0).

(** [nmea_callback]: [nmea] is the array the driver passes. *)
Definition nmea_callback (ret timestamp : Z) (nmea : list Z) (length_ : Z) (p : port)
  : res (gps_nmea_info * port) :=
  c ← deref (nmea !! 5%nat);
  let '(length_, timestamp, nmea) :=
    if (c =? 86) && (length_ =? 62) then (length_, timestamp, nmea)
    else (Z.of_nat (length test_gps_str), 179376894285, test_gps_str) in
  sentence ← (if Z.of_nat (length nmea) <? length_ then Err Undefined
              else put (nmea_sentence nmea_zero) 0 (take (Z.to_nat length_) nmea));
  let info := mkNmea (uwrap 64 timestamp) (uwrap 32 length_) sentence in
  '(_, p) ← mon_sync_message ret MSG_SYNC_GPS_INFO (nmea_bytes info) p;
  mret (info, p).

(** The calls made to the GPS interface. *)
Inductive gps_call : Type :=
| GpsInit | AGpsInit | AGpsSetServer | RilInit | DeleteAidingData | GpsStart | SetPositionMode
| GpsStop | GpsCleanup | DataConnOpen | DataConnClosed | SetSetId.

(** What the hardware layer offers: the results of [hw_get_module], of
    [open] and of [init], and the interfaces that are there. *)
Record gps_hw : Type := mkGps {
  g_module : Z; g_open : Z; g_interface : bool; g_init : Z; g_agps : bool; g_ril : bool
}.

(** What [status_callback] prints for a status. *)
Definition status_callback (status : Z) : string :=
  if status =? 0 (* GPS_STATUS_NONE *) then "no gps"
  else if status =? 1 (* GPS_STATUS_SESSION_BEGIN *) then "session begin"
  else if status =? 2 (* GPS_STATUS_SESSION_END *) then "session end"
  else if status =? 3 (* GPS_STATUS_ENGINE_ON *) then "engine on"
  else if status =? 4 (* GPS_STATUS_ENGINE_OFF *) then "engine off"
  else "unknown status".

(** The pointers [gGpsInterface], [gAGpsInterface] and [gAGpsRilInterface]:
    whether they are set. *)
Record gps_state : Type := mkGpsState { gGps : bool; gAGps : bool; gRil : bool }.

Definition get_gps_interface (g : gps_hw) : bool :=
  if g_module g =? 0 then if g_open g =? 0 then g_interface g else false else false.

Definition get_agps_interface (g : gps_hw) (gps : bool) : bool := if gps then g_agps g else false.
Definition get_agps_ril_interface (g : gps_hw) (gps : bool) : bool := if gps then g_ril g else false.

Definition gps_start_collector (g : gps_hw) (s : gps_state) : Z * list gps_call * gps_state :=
  let gps := get_gps_interface g in
  if negb gps then (1, [], mkGpsState gps (gAGps s) (gRil s)) else
  if negb (g_init g =? 0) then (1, [GpsInit], mkGpsState gps (gAGps s) (gRil s)) else
  let agps := get_agps_interface g gps in
  let ril := get_agps_ril_interface g gps in
  (1, [GpsInit] ++ (if agps then [AGpsInit; AGpsSetServer] else []) ++ (if ril then [RilInit] else [])
      ++ [DeleteAidingData; GpsStart; SetPositionMode], mkGpsState gps agps ril).

Definition gps_fini (s : gps_state) : list gps_call := if gGps s then [GpsStop; GpsCleanup] else [].

(** The callbacks of the assisted interface: a call through a null pointer is
    undefined.  1 and 2 are the requests to open and to close a connection. *)
Definition agps_status_cb (status : Z) (s : gps_state) : res (list gps_call) :=
  if status =? 1 then if gAGps s then mret [DataConnOpen] else Err Undefined
  else if status =? 2 then if gAGps s then mret [DataConnClosed] else Err Undefined
  else mret [].

Definition agps_ril_set_id_cb (s : gps_state) : res (list gps_call) :=
  if gRil s then mret [SetSetId] else Err Undefined.

(** ** Properties of the sensor table *)

(** The collector and the server give every type of sensor the same name. *)
Lemma sensor_names_agree t : sensor_name t = getSensorName t.
Proof.
  unfold sensor_name.
  repeat match goal with |- context [if t =? ?k then _ else _] =>
    destruct (Z.eqb_spec t k) as [->|?]; [reflexivity|] end.
  unfold getSensorName, SENSOR_TYPE_ACCELEROMETER, SENSOR_TYPE_MAGNETIC_FIELD, SENSOR_TYPE_ORIENTATION,
    SENSOR_TYPE_GYROSCOPE, SENSOR_TYPE_GRAVITY, SENSOR_TYPE_LINEAR_ACCELERATION,
    SENSOR_TYPE_ROTATION_VECTOR in *.
  destruct t as [|t|t]; try done.
  repeat (destruct t as [t|t|]; try done; try (exfalso; congruence)).
Qed.

(** The last event for slot [i]. *)
Definition latest (i : nat) (es : list event) : option event :=
  last (List.filter (fun e => sensor_index (ev_type e) =? Z.of_nat i) es).

(** What an event leaves in its slot. *)
Definition slot_of (e : event) (old : sensor_info) : res sensor_info :=
  d ← event_data e; mret (mkSensor (ev_type e) (sen_reverse old) (uwrap 64 (ev_timestamp e)) d).

(** An event of the expected version whose values fit. *)
Definition event_ok (event_size : Z) (e : event) : Prop :=
  ev_version e = event_size /\ exists d, event_data e = Ok d.

Lemma sensor_index_range t : sensor_index t = -1 \/ 0 <= sensor_index t < 7 /\ 0 < t.
Proof.
  unfold sensor_index, SENSOR_TYPE_ACCELEROMETER, SENSOR_TYPE_MAGNETIC_FIELD, SENSOR_TYPE_ORIENTATION,
    SENSOR_TYPE_GYROSCOPE, SENSOR_TYPE_GRAVITY, SENSOR_TYPE_LINEAR_ACCELERATION, SENSOR_TYPE_ROTATION_VECTOR.
  repeat match goal with |- context [t =? ?k] =>
    destruct (Z.eqb_spec t k) as [->|_]; [right; lia|] end. by left.
Qed.

Lemma store_event_ok sz e data :
  event_ok sz e -> length data = 7%nat ->
  exists data', store_event e data = Ok data' /\ length data' = 7%nat /\
    forall i old, data !! i = Some old ->
      if sensor_index (ev_type e) =? Z.of_nat i
      then exists r, slot_of e old = Ok r /\ data' !! i = Some r
      else data' !! i = Some old.
Proof.
  intros [_ [d Hd]] L. unfold store_event, MAX_SENSOR_NUM, slot_of. rewrite Hd.
  destruct (sensor_index_range (ev_type e)) as [E|[E Ht]].
  - rewrite E, andb_false_r. exists data. split; [done|]. split; [done|]. intros i old Hi.
    destruct (Z.eqb_spec (-1) (Z.of_nat i)); [lia|done].
  - set (index := sensor_index (ev_type e)) in *.
    destruct (Z.gtb_spec (ev_type e) 0), (Z.ltb_spec index 7), (Z.geb_spec index 0); try lia.
    cbn [andb]. destruct (lookup_lt_is_Some_2 data (Z.to_nat index)) as [o Ho]; [lia|].
    unfold znth. destruct (Z.ltb_spec index 0); [lia|]. rewrite Ho. cbn [deref]. rewrite !bind_ret_l.
    eexists. split; [reflexivity|]. split; [by rewrite length_insert|]. intros i old Hi.
    destruct (Z.eqb_spec index (Z.of_nat i)) as [Ei|Ei].
    + rewrite bind_ret_l. eexists. split; [reflexivity|]. rewrite Ei, Nat2Z.id in *.
      rewrite list_lookup_insert_eq by lia. congruence.
    + rewrite list_lookup_insert_ne by lia. done.
Qed.

Lemma store_events_ok sz es : forall data,
  Forall (event_ok sz) es -> length data = 7%nat ->
  exists data', store_events sz es data = Ok data' /\ length data' = 7%nat /\
    forall i old, data !! i = Some old ->
      match latest i es with
      | Some e => exists r, slot_of e old = Ok r /\ data' !! i = Some r
      | None => data' !! i = Some old
      end.
Proof.
  induction es as [|e es IH]; intros data He L; [by exists data|].
  apply Forall_cons in He as [He Hes]. cbn [store_events].
  destruct (store_event_ok sz e data He L) as (d1 & E1 & L1 & H1).
  destruct (IH d1 Hes L1) as (d2 & E2 & L2 & H2). exists d2.
  pose proof He as [Hv _]. rewrite Hv, Z.eqb_refl. cbn [negb]. rewrite E1, bind_ret_l.
  split; [done|]. split; [done|]. intros i old Hi. specialize (H1 i old Hi).
  unfold latest in *. cbn [List.filter]. destruct (sensor_index (ev_type e) =? Z.of_nat i).
  - destruct H1 as (r & Hr & Hd1). specialize (H2 i r Hd1). rewrite last_cons.
    destruct (last _) as [e'|]; [|by exists r]. destruct H2 as (r' & Hr' & Hd2).
    exists r'. split; [|done]. unfold slot_of in *. apply bind_Ok in Hr as (d & _ & Hr).
    injection Hr as <-. exact Hr'.
  - exact (H2 i old H1).
Qed.

(** After the events of a poll each of the seven slots of the table holds
    the last event of its kind of sensor, or what it held before when there
    was none; events of other kinds change nothing. *)
Theorem sensor_slots_latest (event_size : Z) (es : list event) (data : list sensor_info) :
  Forall (event_ok event_size) es -> length data = 7%nat ->
  exists data', store_events event_size es data = Ok data' /\ length data' = 7%nat /\
    forall i old, data !! i = Some old ->
      match latest i es with
      | Some e => exists r, slot_of e old = Ok r /\ data' !! i = Some r
      | None => data' !! i = Some old
      end.
Proof. apply store_events_ok. Qed.

Definition sample_event (type time : Z) : event :=
  mkEvent 104 type time (f32_quot 3 2, f32_quot (-1) 4, f32_quot 0 1).

Lemma sensor_slots_latest_witness :
  exists data', store_events 104 [sample_event 4 1; sample_event 8 2; sample_event 4 3] sensor_data_zero = Ok data' /\
    data' !! 3%nat = Some (mkSensor 4 0 3 (1500000, -250000, 0)).
Proof.
  destruct (sensor_slots_latest 104 [sample_event 4 1; sample_event 8 2; sample_event 4 3] sensor_data_zero)
    as (data' & E & _ & H); [|done|].
  - repeat (constructor; [split; [done|by eexists]|]). constructor.
  - exists data'. split; [exact E|]. destruct (H 3%nat sensor_zero eq_refl) as (r & Hr & ->).
    injection Hr as <-. reflexivity.
Defined.

(** ** Properties of the activation *)

Lemma activate_all_ok h enabled delay hs :
  Forall (fun x => h_activate h x enabled = 0) hs ->
  activate_all h enabled delay hs =
  (mjoin ((fun x => Activate x enabled :: if delay then [SetDelay x] else []) <$> hs), true).
Proof.
  induction 1 as [|x hs Hx _ IH]; [done|]. cbn. rewrite Hx. cbn. by rewrite IH.
Qed.

(** A sensor that cannot be activated ends the function: the sensors activated
    before it stay on and the device is not closed. *)
Lemma sensors_left_active h turns p c data hs x hs' :
  h_module h = 0 -> h_open h = 0 -> h_handles h = hs ++ x :: hs' ->
  Forall (fun y => h_activate h y 0 = 0) (h_handles h) -> Forall (fun y => h_activate h y 1 = 0) hs ->
  h_activate h x 1 <> 0 ->
  exists calls, sensor_start_collector1 h turns p c data =
    Ok (0, calls ++ mjoin ((fun y => [Activate y 1; SetDelay y]) <$> hs) ++ [Activate x 1], (p, c, data)).
Proof.
  intros Hm Ho Hh H0 H1 Hx. unfold sensor_start_collector1. rewrite Hm, Ho. cbn [Z.eqb negb].
  rewrite (activate_all_ok h 0 false) by done. cbn [negb].
  assert (E : activate_all h 1 true (h_handles h) =
    (mjoin ((fun y => [Activate y 1; SetDelay y]) <$> hs) ++ [Activate x 1], false)).
  { rewrite Hh. clear Hh. induction H1 as [|y hs Hy _ IH]; cbn.
    - by destruct (Z.eqb_spec (h_activate h x 1) 0).
    - rewrite Hy. cbn. by rewrite IH. }
  rewrite E. by eexists.
Qed.

(** ** Properties of the position sentences *)

(** What is sent for a sentence: the sentence itself when it is a report on
    satellites of 62 characters, and a fixed one otherwise. *)
Definition reported (nmea : list Z) (length_ timestamp : Z) : list Z * Z :=
  if bool_decide (nmea !! 5%nat = Some 86) && (length_ =? 62)
  then (take 62 nmea, timestamp) else (test_gps_str, 179376894285).

(** A position report never overruns its 116 bytes: for every sentence of
    the driver the kernel module gets one message of 128 bytes, with the
    sentence and its terminator, and the server prints it; but unless it is a
    satellite report of 62 characters, the sentence and its time are not the
    driver's but a fixed example. *)
Theorem nmea_report (ret timestamp : Z) (nmea : list Z) (length_ : Z) (p : port) :
  port_open p -> (5 < length nmea)%nat -> length_ <= Z.of_nat (length nmea) ->
  Forall (fun b => b <> 0) nmea -> 0 <= timestamp < 2 ^ 64 ->
  exists info p', nmea_callback ret timestamp nmea length_ p = Ok (info, p') /\
    nmea_ok info (reported nmea length_ timestamp).1 /\
    nmea_timestamp info = (reported nmea length_ timestamp).2 /\
    nmea_length info = Z.of_nat (length (reported nmea length_ timestamp).1) /\
    sent p' = sent p ++ [comm_msg MSG_SYNC_GPS_INFO (nmea_bytes info)] /\
    length (nmea_bytes info) = 128%nat.
Proof.
  intros Hp H5 Hl Hz Ht. unfold nmea_callback, reported.
  destruct (lookup_lt_is_Some_2 nmea 5 H5) as [c5 Hc]. rewrite Hc. cbn [deref]. rewrite bind_ret_l.
  set (b := bool_decide _). assert (Eb : (c5 =? 86) = b).
  { subst b. destruct (Z.eqb_spec c5 86) as [->|Hne]; symmetry;
      [by apply bool_decide_true|apply bool_decide_false; congruence]. }
  rewrite Eb.
  assert (G : exists s ts, 0 <= ts < 2 ^ 64 /\ Forall (fun b => b <> 0) s /\ (length s < 116)%nat /\
    (if b && (length_ =? 62) then (take 62 nmea, timestamp) else (test_gps_str, 179376894285)) = (s, ts) /\
    exists full, (if b && (length_ =? 62) then (length_, timestamp, nmea)
      else (Z.of_nat (length test_gps_str), 179376894285, test_gps_str)) = (Z.of_nat (length s), ts, full) /\
      (length s <= length full)%nat /\ take (length s) full = s).
  { destruct (b && (length_ =? 62)) eqn:E.
    - apply andb_prop in E as [_ E%Z.eqb_eq]. subst length_. exists (take 62 nmea), timestamp.
      assert (L : length (take 62 nmea) = 62%nat) by (rewrite length_take; lia).
      split; [done|]. split; [by apply Forall_take|]. split; [lia|]. split; [done|].
      exists nmea. rewrite L. split; [done|]. split; [lia|done].
    - exists test_gps_str, 179376894285. split; [lia|]. split; [by repeat constructor|].
      split; [by vm_compute; lia|]. split; [done|]. exists test_gps_str. split; [done|]. split; [done|].
      apply take_ge. done. }
  destruct G as (s & ts & Hts & Hs & Ls & -> & full & -> & Lf & Tf). cbn [fst snd].
  destruct (Z.ltb_spec (Z.of_nat (length full)) (Z.of_nat (length s))); [lia|].
  rewrite Nat2Z.id, Tf.
  unfold put. rewrite Z.add_0_l, Z.leb_refl. cbn [andb nmea_sentence nmea_zero].
  destruct (Z.leb_spec (Z.of_nat (length s)) (Z.of_nat (length (replicate 116 0))));
    [|rewrite length_replicate in *; lia].
  rewrite bind_ret_l. change (Z.to_nat 0) with 0%nat. rewrite drop_replicate.
  change (take 0 (replicate 116 0) ++ ?x) with x. cbn [Nat.add].
  rewrite (uwrap_small 64 ts), (uwrap_small 32) by lia.
  set (info := mkNmea ts (Z.of_nat (length s)) (s ++ replicate (116 - length s) 0)).
  assert (Li : length (nmea_bytes info) = 128%nat).
  { unfold nmea_bytes. rewrite length_app. cbn [nmea_sentence info]. rewrite length_app, length_replicate.
    change (length (struct_bytes _ _)) with 12%nat. lia. }
  destruct (mon_sync_message_ok ret MSG_SYNC_GPS_INFO (nmea_bytes info) p Hp) as (p' & E & _ & _ & _ & _ & _ & S);
    [rewrite Li; unfold MAX_PAYLOAD; lia|].
  rewrite E, bind_ret_l. exists info, p'. split; [done|]. split; [|done].
  split; [done|]. split; [unfold u32_ok; cbn; lia|]. split; [cbn; rewrite length_app, length_replicate; lia|].
  split; [done|]. exists (replicate (115 - length s) 0). cbn [nmea_sentence info].
  rewrite <- (assoc_L (++)). f_equal. change ([0] ++ ?x) with (replicate 1 0 ++ x).
  rewrite <- replicate_add. f_equal. lia.
Qed.

Lemma nmea_report_witness :
  exists info p', nmea_callback 0 5 (bytes "$GPGGA,1") 8 port_ready = Ok (info, p') /\
    nmea_ok info test_gps_str /\ nmea_timestamp info = 179376894285.
Proof.
  destruct (nmea_report 0 5 (bytes "$GPGGA,1") 8 port_ready port_ready_open) as (info & p' & E & H1 & H2 & _).
  - cbn. lia.
  - done.
  - by repeat constructor.
  - lia.
  - exists info, p'. split; [exact E|]. split; [exact H1|exact H2].
Defined.

(** ** Properties of the GPS session *)

(** The receiver is started only after its interface was initialised, and a
    callback of the assisted interface that was registered finds its
    pointers set. *)
Lemma gps_started g s ret calls s' :
  gps_start_collector g s = (ret, calls, s') -> GpsStart ∈ calls ->
  head calls = Some GpsInit /\ gps_fini s' = [GpsStop; GpsCleanup] /\
  (AGpsInit ∈ calls -> forall status, exists cs, agps_status_cb status s' = Ok cs) /\
  (RilInit ∈ calls -> exists cs, agps_ril_set_id_cb s' = Ok cs).
Proof.
  unfold gps_start_collector. destruct (get_gps_interface g) eqn:E; cbn; [|intros [= <- <- <-]; by intros ?%elem_of_nil].
  destruct (negb (g_init g =? 0)); [intros [= <- <- <-] H; set_solver|].
  intros [= <- <- <-] _. split; [done|]. split; [done|]. unfold agps_status_cb, agps_ril_set_id_cb.
  destruct (g_agps g), (g_ril g); cbn; split; intros H; try (by eexists); try (exfalso; set_solver);
    intros status; repeat case_match; by eexists.
Qed.
